(** * Black Rabbit: case generation, testimonies, reducer and panel puzzle.

    A shallow embedding of the TypeScript sources
    ([generation/*.ts], [domain/*.ts], [game/statements.ts],
    [game/game_reducer.ts], [game/panel_puzzle.ts]) and the properties
    proved about them.

    Conventions of the embedding
    - a JS [number] holding an integer is a [Z] (array indices are [nat]);
      a JS [number] produced by the seeded generator is a rational [Q];
    - an optional field ([pointsTo?], [refutedBy?], [secretReason?]) and a
      [T | null] value is an [option];
    - a thrown exception is the [Throw] outcome of the [Res] type;
    - code that draws from the [RandomSource] lives in the monad [Gen]
      (state: the number of draws made so far; errors: [Res]). *)

From Stdlib Require Import List String Ascii ZArith NArith QArith Qround Lia
  Lqa Bool Permutation Arith DecimalString DecimalNat Finite
  FunctionalExtensionality.
Import ListNotations.
Local Close Scope Q_scope.
Local Open Scope string_scope.
Local Open Scope list_scope.

(** Template literals: string concatenation. *)
Infix "^^" := String.append (at level 60, right associativity).

(* ================================================================== *)
(** * Outcomes, and the monad of code drawing from a random source     *)
(* ================================================================== *)

(** What a JS call can do besides returning: throw, or (in the model) run
    out of the fuel that bounds its unbounded loops. *)
Inductive JsError : Type :=
| TypeError                (* property access on [undefined] *)
| NeedThreeSuspects.       (* [Error('Need at least 3 suspects ...')] *)

Inductive Res (A : Type) : Type :=
| Ok (a : A)
| Throw (e : JsError)
| OutOfFuel.

Arguments Ok {A} a.
Arguments Throw {A} e.
Arguments OutOfFuel {A}.

(** random.ts: a [RandomSource] closes over the generator [rng] returned
    by [seedrandom(seed)].  Its state is the seed it was created from, the
    sequence of numbers that generator returns ([stream r k] is the result
    of the [k]-th call), and how many of them have been drawn. *)
Record RandomSource : Type := mkRandomSource {
  getSeed : string;
  stream : nat -> Q;
  drawn : nat
}.

Definition Gen (A : Type) : Type := RandomSource -> Res (A * RandomSource).

Definition ret {A} (a : A) : Gen A := fun r => Ok (a, r).

Definition bind {A B} (m : Gen A) (k : A -> Gen B) : Gen B :=
  fun r => match m r with
           | Ok (a, r') => k a r'
           | Throw e => Throw e
           | OutOfFuel => OutOfFuel
           end.

Definition throw {A} (e : JsError) : Gen A := fun _ => Throw e.

Definition outOfFuel {A} : Gen A := fun _ => OutOfFuel.

Declare Scope gen_scope.
Delimit Scope gen_scope with gen.
Notation "x <- m ;; k" := (bind m (fun x => k))
  (at level 61, m at next level, right associativity) : gen_scope.
Notation "' pat <- m ;; k" := (bind m (fun x => match x with pat => k end))
  (at level 61, pat pattern, m at next level, right associativity) : gen_scope.
Local Open Scope gen_scope.

(** [x.field] where [x] may be [undefined]. *)
Definition defined {A} (o : option A) : Gen A :=
  match o with
  | Some a => ret a
  | None => throw TypeError
  end.

(** [for (const x of xs) { ... }] collecting one result per element. *)
Fixpoint forEach {A B} (xs : list A) (body : A -> Gen B) : Gen (list B) :=
  match xs with
  | [] => ret []
  | x :: xs' => b <- body x ;; bs <- forEach xs' body ;; ret (b :: bs)
  end.

(** A loop threading an accumulator through the elements of a list. *)
Fixpoint foldGen {A S} (xs : list A) (s : S) (body : S -> A -> Gen S) : Gen S :=
  match xs with
  | [] => ret s
  | x :: xs' => s' <- body s x ;; foldGen xs' s' body
  end.

(* ================================================================== *)
(** * JS array and string helpers                                      *)
(* ================================================================== *)

(** [result[i] = v] for [i] inside the array. *)
Fixpoint setNth {A} (i : nat) (v : A) (l : list A) : list A :=
  match l, i with
  | [], _ => []
  | _ :: t, O => v :: t
  | h :: t, S i' => h :: setNth i' v t
  end.

(** [[result[i], result[j]] = [result[j], result[i]]] *)
Definition swapAt {A} (i j : nat) (l : list A) : list A :=
  match nth_error l i, nth_error l j with
  | Some a, Some b => setNth j a (setNth i b l)
  | _, _ => l
  end.

(** [array.find(p)] *)
Definition jsFind {A} (p : A -> bool) (l : list A) : option A := find p l.

(** [array.some(p)] *)
Definition jsSome {A} (p : A -> bool) (l : list A) : bool := existsb p l.

(** [array.slice(0, n)] *)
Definition slice0 {A} (n : nat) (l : list A) : list A := firstn n l.

(** [array.filter((_, i) => p i)] *)
Fixpoint filterIndex {A} (p : nat -> bool) (i : nat) (l : list A) : list A :=
  match l with
  | [] => []
  | x :: t => if p i then x :: filterIndex p (S i) t else filterIndex p (S i) t
  end.

(** [strings.join(sep)] *)
Fixpoint join (sep : string) (l : list string) : string :=
  match l with
  | [] => ""
  | [x] => x
  | x :: t => x ^^ sep ^^ join sep t
  end.

(** [`${n}`] for a non-negative integer. *)
Definition string_of_nat (n : nat) : string :=
  NilEmpty.string_of_uint (Nat.to_uint n).

(** [`${z}`] for an integer. *)
Definition string_of_Z (z : Z) : string :=
  NilEmpty.string_of_int (Z.to_int z).

(** [s || d] on strings: the empty string is falsy. *)
Definition orElse (s d : string) : string :=
  if String.eqb s "" then d else s.

(** [s?.f || d] *)
Definition optOrElse {A} (o : option A) (f : A -> string) (d : string) : string :=
  match o with
  | Some a => orElse (f a) d
  | None => d
  end.

Definition toLowerAscii (c : ascii) : ascii :=
  let n := nat_of_ascii c in
  if andb (65 <=? n)%nat (n <=? 90)%nat then ascii_of_nat (n + 32) else c.

(** [s.toLowerCase()] on the ASCII letters (all the generated text is ASCII
    apart from one dash). *)
Fixpoint toLowerCase (s : string) : string :=
  match s with
  | EmptyString => EmptyString
  | String c s' => String (toLowerAscii c) (toLowerCase s')
  end.

Fixpoint isPrefix (p s : string) : bool :=
  match p, s with
  | EmptyString, _ => true
  | String a p', String b s' => andb (Ascii.eqb a b) (isPrefix p' s')
  | String _ _, EmptyString => false
  end.

(** [s.includes(sub)] *)
Fixpoint includes (sub s : string) : bool :=
  if isPrefix sub s then true
  else match s with
       | EmptyString => false
       | String _ s' => includes sub s'
       end.

(* ================================================================== *)
(** * domain/types.ts                                                  *)
(* ================================================================== *)

(** Branded identifiers are strings at run time. *)
Definition SuspectId := string.
Definition ClueId := string.
Definition LocationId := string.

Definition createSuspectId (id : string) : SuspectId := id.
Definition createClueId (id : string) : ClueId := id.
Definition createLocationId (id : string) : LocationId := id.

Inductive RelationshipType : Type :=
| Spouse | ExSpouse | Lover | ExLover | Sibling | Parent | Child | Friend
| Rival | Enemy | BusinessPartner | Employee | Employer | Acquaintance.

Inductive MotiveType : Type :=
| Jealousy | Greed | Revenge | Fear | Hatred | Protection | Ambition.

Inductive ClueType : Type :=
| Physical | Testimonial | Documentary | Behavioral | Forensic.

Inductive WeaponType : Type :=
| Poison | Knife | Blunt | Firearm | Strangulation | Pushed.

(** [Object.values(E)], in declaration order. *)
Definition RelationshipType_values : list RelationshipType :=
  [Spouse; ExSpouse; Lover; ExLover; Sibling; Parent; Child; Friend;
   Rival; Enemy; BusinessPartner; Employee; Employer; Acquaintance].

Definition MotiveType_values : list MotiveType :=
  [Jealousy; Greed; Revenge; Fear; Hatred; Protection; Ambition].

Definition WeaponType_values : list WeaponType :=
  [Poison; Knife; Blunt; Firearm; Strangulation; Pushed].

(** The string value of an enum member. *)
Definition RelationshipType_value (t : RelationshipType) : string :=
  match t with
  | Spouse => "spouse" | ExSpouse => "ex_spouse" | Lover => "lover"
  | ExLover => "ex_lover" | Sibling => "sibling" | Parent => "parent"
  | Child => "child" | Friend => "friend" | Rival => "rival"
  | Enemy => "enemy" | BusinessPartner => "business_partner"
  | Employee => "employee" | Employer => "employer"
  | Acquaintance => "acquaintance"
  end.

Definition ClueType_eqb (a b : ClueType) : bool :=
  match a, b with
  | Physical, Physical | Testimonial, Testimonial
  | Documentary, Documentary | Behavioral, Behavioral
  | Forensic, Forensic => true
  | _, _ => false
  end.

Record TimeSlot : Type := mkTimeSlot {
  hour : Z;
  label : string
}.

Definition createTimeSlot (hour : Z) : TimeSlot :=
  let displayHour :=
    if (12 <? hour)%Z then (hour - 12)%Z
    else if (hour =? 0)%Z then 12%Z else hour in
  let period := if (12 <=? hour)%Z then "PM" else "AM" in
  mkTimeSlot hour (string_of_Z displayHour ^^ ":00 " ^^ period).

Record PersonalityTraits : Type := mkPersonalityTraits {
  honesty : Q;
  composure : Q;
  aggression : Q;
  observance : Q
}.

Definition createPersonalityTraits (honesty composure aggression observance : Q)
  : PersonalityTraits :=
  mkPersonalityTraits honesty composure aggression observance.

Inductive GamePhase : Type :=
| intro | investigation | accusation | resolution.

(* ================================================================== *)
(** * domain/suspect.ts                                                *)
(* ================================================================== *)

Record Suspect : Type := mkSuspect {
  suspect_id : SuspectId;
  firstName : string;
  lastName : string;
  occupation : string;
  age : Z;
  suspect_description : string;
  personality : PersonalityTraits;
  isVictim : bool;
  isKiller : bool
}.

(** [createSuspect] copies its parameters; [isVictim] and [isKiller] default
    to [false] when absent. *)
Definition createSuspect (id : SuspectId) (firstName lastName occupation : string)
  (age : Z) (description : string) (personality : PersonalityTraits)
  (isVictim isKiller : option bool) : Suspect :=
  mkSuspect id firstName lastName occupation age description personality
    (match isVictim with Some b => b | None => false end)
    (match isKiller with Some b => b | None => false end).

Definition getFullName (s : Suspect) : string :=
  firstName s ^^ " " ^^ lastName s.

(* ================================================================== *)
(** * domain/location.ts                                               *)
(* ================================================================== *)

Record Location : Type := mkLocation {
  location_id : LocationId;
  location_name : string;
  location_description : string;
  isPublic : bool;
  isCrimeScene : bool
}.

Definition createLocation (id : LocationId) (name description : string)
  (isPublic isCrimeScene : option bool) : Location :=
  mkLocation id name description
    (match isPublic with Some b => b | None => true end)
    (match isCrimeScene with Some b => b | None => false end).

(* ================================================================== *)
(** * domain/relationship.ts                                           *)
(* ================================================================== *)

Record Relationship : Type := mkRelationship {
  rel_from : SuspectId;
  rel_to : SuspectId;
  rel_type : RelationshipType;
  sentiment : Z;
  isPublicKnowledge : bool;
  secretReason : option string
}.

Definition createRelationship (from to : SuspectId) (type : RelationshipType)
  (sentiment : Z) (isPublicKnowledge : option bool) (secretReason : option string)
  : Relationship :=
  let clampedSentiment := Z.max (-10) (Z.min 10 sentiment) in
  mkRelationship from to type clampedSentiment
    (match isPublicKnowledge with Some b => b | None => true end)
    secretReason.

Definition getRelationshipDescription (r : Relationship) : string :=
  match rel_type r with
  | Spouse => "married to"
  | ExSpouse => "formerly married to"
  | Lover => "romantically involved with"
  | ExLover => "formerly involved with"
  | Sibling => "sibling of"
  | Parent => "parent of"
  | Child => "child of"
  | Friend => "friend of"
  | Rival => "rival of"
  | Enemy => "enemy of"
  | BusinessPartner => "business partner of"
  | Employee => "employed by"
  | Employer => "employer of"
  | Acquaintance => "acquaintance of"
  end.

(* ================================================================== *)
(** * domain/alibi.ts                                                  *)
(* ================================================================== *)

Record Alibi : Type := mkAlibi {
  alibi_suspectId : SuspectId;
  timeSlot : TimeSlot;
  alibi_location : LocationId;
  alibi_description : string;
  witnesses : list SuspectId;
  isVerifiable : bool;
  isFalse : bool
}.

Definition createAlibi (suspectId : SuspectId) (timeSlot : TimeSlot)
  (location : LocationId) (description : string)
  (witnesses : option (list SuspectId)) (isVerifiable isFalse : option bool)
  : Alibi :=
  mkAlibi suspectId timeSlot location description
    (match witnesses with Some w => w | None => [] end)
    (match isVerifiable with Some b => b | None => true end)
    (match isFalse with Some b => b | None => false end).

(* ================================================================== *)
(** * domain/clue.ts                                                   *)
(* ================================================================== *)

Inductive ClueSignificance : Type := minor | normal | critical.

Definition ClueSignificance_eqb (a b : ClueSignificance) : bool :=
  match a, b with
  | minor, minor | normal, normal | critical, critical => true
  | _, _ => false
  end.

Record Clue : Type := mkClue {
  clue_id : ClueId;
  clue_type : ClueType;
  clue_name : string;
  clue_description : string;
  foundAt : LocationId;
  pointsTo : option SuspectId;
  isRedHerring : bool;
  refutedBy : option ClueId;
  significance : ClueSignificance
}.

Definition createClue (id : ClueId) (type : ClueType) (name description : string)
  (foundAt : LocationId) (pointsTo : option SuspectId)
  (isRedHerring : option bool) (refutedBy : option ClueId)
  (significance : option ClueSignificance) : Clue :=
  mkClue id type name description foundAt pointsTo
    (match isRedHerring with Some b => b | None => false end)
    refutedBy
    (match significance with Some s => s | None => normal end).

(** [clue.pointsTo === suspectId] *)
Definition pointsToSuspect (c : Clue) (suspectId : SuspectId) : bool :=
  match pointsTo c with
  | Some p => String.eqb p suspectId
  | None => false
  end.

(* ================================================================== *)
(** * domain/case.ts                                                   *)
(* ================================================================== *)

Record Case : Type := mkCase {
  case_seed : string;
  suspects : list Suspect;
  relationships : list Relationship;
  locations : list Location;
  clues : list Clue;
  alibis : list Alibi;
  victim : SuspectId;
  killer : SuspectId;
  motive : MotiveType;
  weapon : WeaponType;
  crimeScene : LocationId;
  timeOfDeath : TimeSlot
}.

Definition createCase (seed : string) (suspects : list Suspect)
  (relationships : list Relationship) (locations : list Location)
  (clues : list Clue) (alibis : list Alibi) (victim killer : SuspectId)
  (motive : MotiveType) (weapon : WeaponType) (crimeScene : LocationId)
  (timeOfDeath : TimeSlot) : Case :=
  mkCase seed suspects relationships locations clues alibis victim killer
    motive weapon crimeScene timeOfDeath.

Definition getCluesPointingTo (caseData : Case) (suspectId : SuspectId)
  : list Clue :=
  filter (fun c => pointsToSuspect c suspectId) (clues caseData).

Definition isCaseSolvable (caseData : Case) : bool :=
  let killerClues := getCluesPointingTo caseData (killer caseData) in
  (0 <? List.length killerClues)%nat.

Definition getKiller (caseData : Case) : option Suspect :=
  jsFind (fun s => String.eqb (suspect_id s) (killer caseData))
    (suspects caseData).

Definition getVictim (caseData : Case) : option Suspect :=
  jsFind (fun s => String.eqb (suspect_id s) (victim caseData))
    (suspects caseData).

Definition getSuspects (caseData : Case) : list Suspect :=
  filter (fun s => negb (isVictim s)) (suspects caseData).

Definition getAlibiForSuspect (caseData : Case) (suspectId : SuspectId)
  : option Alibi :=
  jsFind (fun a => String.eqb (alibi_suspectId a) suspectId) (alibis caseData).

Definition getRelationshipsForSuspect (caseData : Case) (suspectId : SuspectId)
  : list Relationship :=
  filter (fun r => orb (String.eqb (rel_from r) suspectId)
                       (String.eqb (rel_to r) suspectId))
    (relationships caseData).

Definition getLocationById (caseData : Case) (locationId : LocationId)
  : option Location :=
  jsFind (fun l => String.eqb (location_id l) locationId) (locations caseData).

(* ================================================================== *)
(** * data/names.ts and data/locations.ts                               *)
(* ================================================================== *)

Definition firstNames : list string :=
  [
   "Eleanor"; "Margaret"; "Victoria"; "Elizabeth"; "Catherine"; "Vivian";
   "Evelyn"; "Beatrice"; "Charlotte"; "Penelope"; "Constance"; "Harriet";
   "Agnes"; "Dorothy"; "Mildred"; "Irene"; "Lillian"; "Florence";
   "Josephine"; "Rosalind"; "Agatha"; "Cordelia"; "Gwendolyn"; "Millicent";
   "Prudence"; "Adelaide"; "Clementine"; "Ophelia"; "Tabitha"; "Winifred";
   "Richard"; "William"; "Edward"; "Charles"; "Henry"; "James"; "Thomas";
   "Arthur"; "Frederick"; "George"; "Sebastian"; "Oliver"; "Theodore";
   "Reginald"; "Archibald"; "Edmund"; "Nathaniel"; "Humphrey"; "Percival";
   "Bartholomew"; "Alistair"; "Benedict"; "Cornelius"; "Desmond";
   "Montgomery"; "Rupert"; "Sylvester"; "Vincent"; "Wallace"; "Xavier"
  ].

Definition lastNames : list string :=
  [
   "Ashworth"; "Blackwood"; "Hartley"; "Pemberton"; "Whitmore";
   "Ravencroft"; "Thornwood"; "Sterling"; "Fairfax"; "Cavendish";
   "Montague"; "Sinclair"; "Worthington"; "Kensington"; "Beaumont";
   "Crawford"; "Harrington"; "Lancaster"; "Fitzgerald"; "Stirling";
   "Wellington"; "Carmichael"; "Prescott"; "Vandermeer"; "Ashford";
   "Davenport"; "Everhart"; "Foxworth"; "Grenville"; "Hawthorne";
   "Kingsley"; "Langley"; "Merriweather"; "Norwood"; "Osgood"; "Pembroke";
   "Rutherford"; "Seymour"; "Trevelyan"; "Underwood"; "Vance"; "Wentworth";
   "Yarborough"; "Aldridge"; "Bainbridge"; "Chadwick"; "Drummond";
   "Eastwood"; "Farnsworth"; "Grimsby"
  ].

Record OccupationTemplate : Type := mkOccupation {
  title : string;
  occupation_description : string
}.

Definition occupations : list OccupationTemplate :=
  [
   mkOccupation "Industrialist"
     "A wealthy factory owner with vast holdings.";
   mkOccupation "Socialite"
     "A prominent figure in high society.";
   mkOccupation "Heiress"
     "A wealthy young woman expecting an inheritance.";
   mkOccupation "Banker"
     "A financier who controls the family fortune.";
   mkOccupation "Shipping Magnate"
     "Controls trade routes and harbors.";
   mkOccupation "Oil Baron"
     "Made a fortune in petroleum.";
   mkOccupation "Lawyer"
     "A shrewd legal mind who knows everyone's secrets.";
   mkOccupation "Doctor"
     "A respected physician with a calm demeanor.";
   mkOccupation "Professor"
     "An academic with an encyclopedic mind.";
   mkOccupation "Architect"
     "Designs the grand estates of the wealthy.";
   mkOccupation "Surgeon"
     "Steady hands and nerves of steel.";
   mkOccupation "Barrister"
     "Argues cases before the highest courts.";
   mkOccupation "Artist"
     "A temperamental creative with expensive tastes.";
   mkOccupation "Actress"
     "A stage performer with a flair for drama.";
   mkOccupation "Author"
     "A celebrated novelist known for dark themes.";
   mkOccupation "Composer"
     "Creates symphonies that move audiences to tears.";
   mkOccupation "Photographer"
     "Captures images that reveal hidden truths.";
   mkOccupation "Colonel"
     "A retired military officer with rigid principles.";
   mkOccupation "Politician"
     "An ambitious public figure with many enemies.";
   mkOccupation "Diplomat"
     "A master of negotiation and intrigue.";
   mkOccupation "Admiral"
     "Commanded fleets and sailors across the seas.";
   mkOccupation "Judge"
     "Dispenses justice from the bench.";
   mkOccupation "Butler"
     "A servant who sees and hears everything.";
   mkOccupation "Journalist"
     "A reporter always digging for stories.";
   mkOccupation "Private Secretary"
     "Manages affairs and keeps secrets.";
   mkOccupation "Governess"
     "Raised the children of the wealthy.";
   mkOccupation "Estate Manager"
     "Oversees the grounds and staff.";
   mkOccupation "Widow"
     "Recently bereaved, with a complicated past.";
   mkOccupation "Businessman"
     "A self-made entrepreneur with ruthless methods.";
   mkOccupation "Antiquarian"
     "Deals in rare books and artifacts.";
   mkOccupation "Explorer"
     "Has traveled to the far corners of the earth.";
   mkOccupation "Spiritualist"
     "Claims to commune with the dead."
  ].

Definition descriptions : list string :=
  [
   "A stern figure with penetrating eyes that miss nothing.";
   "Charming on the surface, but calculating beneath.";
   "Nervous and fidgety, clearly hiding something.";
   "Watchful and silent, observing from the shadows.";
   "Speaks in riddles and never gives a straight answer.";
   "Always seems to know more than they let on.";
   "Has a habit of appearing in unexpected places.";
   "Quiet and reserved, with an air of hidden knowledge.";
   "Imperious and cold, accustomed to getting their way.";
   "Elegant and composed, never a hair out of place.";
   "Meticulous and precise, obsessed with details.";
   "Carries themselves with military bearing.";
   "Speaks softly but commands attention.";
   "Warm and friendly, perhaps too eager to please.";
   "Theatrical and dramatic, always the center of attention.";
   "Quick to anger, with a volatile temper.";
   "Melancholic and brooding, lost in memories.";
   "Laughs too loudly and drinks too much.";
   "Disheveled and distracted, lost in thought.";
   "Brash and outspoken, with no filter on their opinions.";
   "Mutters to themselves when they think no one is listening.";
   "Collects strange objects and speaks of stranger things.";
   "Dresses decades out of fashion and cares not at all.";
   "Has a noticeable limp from an old injury.";
   "Constantly wringing their hands when speaking.";
   "Never makes eye contact for more than a moment.";
   "Chain-smokes and taps ashes nervously.";
   "Wears dark glasses even indoors."
  ].

Record LocationTemplate : Type := mkLocationTemplate {
  template_name : string;
  template_description : string;
  template_isPublic : bool
}.

Definition manorLocations : list LocationTemplate :=
  [
   mkLocationTemplate "Study"
     "A wood-paneled room lined with leather-bound books. The smell of tobacco lingers in the air."
     false;
   mkLocationTemplate "Master Bedroom"
     "An opulent bedroom with a four-poster bed and heavy curtains."
     false;
   mkLocationTemplate "Guest Bedroom"
     "A comfortable but less ornate sleeping quarters for visitors."
     false;
   mkLocationTemplate "Kitchen"
     "A large kitchen with copper pots hanging from the ceiling and the scent of herbs."
     false;
   mkLocationTemplate "Wine Cellar"
     "A cool underground room with racks of vintage bottles and cobwebs in the corners."
     false;
   mkLocationTemplate "Servant's Quarters"
     "Simple rooms behind the kitchen where the staff resides."
     false;
   mkLocationTemplate "Attic"
     "A dusty space beneath the rafters, filled with forgotten trunks and memories."
     false;
   mkLocationTemplate "Parlor"
     "An elegant sitting room with velvet furniture and a crackling fireplace."
     true;
   mkLocationTemplate "Dining Room"
     "A grand dining room with a long mahogany table set with fine china."
     true;
   mkLocationTemplate "Library"
     "Floor-to-ceiling bookshelves surround comfortable reading chairs. A ladder slides along the shelves."
     true;
   mkLocationTemplate "Conservatory"
     "A glass-walled room filled with exotic plants and humid air. Moonlight streams through the panes."
     true;
   mkLocationTemplate "Billiard Room"
     "A masculine retreat with a green-felted table and trophy heads on the walls."
     true;
   mkLocationTemplate "Garden"
     "A manicured garden with hedges, fountains, and hidden alcoves. Rose bushes line the paths."
     true;
   mkLocationTemplate "Foyer"
     "The grand entrance hall with a sweeping staircase and crystal chandelier."
     true;
   mkLocationTemplate "Music Room"
     "A room dominated by a grand piano and walls hung with portraits of composers."
     true;
   mkLocationTemplate "Drawing Room"
     "A formal reception room with silk wallpaper and delicate porcelain figurines."
     true;
   mkLocationTemplate "Ballroom"
     "A vast room with polished floors and mirrors that multiply the candlelight."
     true;
   mkLocationTemplate "Veranda"
     "A covered porch overlooking the grounds. Wicker chairs face the gardens."
     true;
   mkLocationTemplate "Trophy Room"
     "Mounted heads and hunting memorabilia cover every surface. A rifle case stands in the corner."
     true
  ].

(* ================================================================== *)
(** * generation/random.ts                                             *)
(* ================================================================== *)

(** The npm package [seedrandom] is not part of the repository: the
    functions that create a source take it as a parameter, [seedrandom seed k]
    being the [k]-th number returned by the generator [seedrandom(seed)].
    Its documented contract is a number in [[0, 1)]. *)
Definition unit_interval (seedrandom : string -> nat -> Q) : Prop :=
  forall seed k, (0 <= seedrandom seed k)%Q /\ (seedrandom seed k < 1)%Q.

Definition createRandom (seedrandom : string -> nat -> Q) (seed : string)
  : RandomSource :=
  mkRandomSource seed (seedrandom seed) 0.

(** [rng()] *)
Definition rng : Gen Q :=
  fun r => Ok (stream r (drawn r),
               mkRandomSource (getSeed r) (stream r) (S (drawn r))).

(** [Math.floor(rng() * n)]; the product is taken exactly. *)
Definition rngFloor (n : Z) : Gen Z :=
  u <- rng ;; ret (Qfloor (u * inject_Z n)).

Definition random : Gen Q := rng.

Definition randomInt (min max : Z) : Gen Z :=
  k <- rngFloor (max - min + 1) ;; ret (k + min)%Z.

(** [array[index]] for an integer index: [undefined] outside the array. *)
Definition index {A} (l : list A) (i : Z) : option A :=
  if (i <? 0)%Z then None else nth_error l (Z.to_nat i).

(** [pick]: [undefined] on an empty array. *)
Definition pick {A} (array : list A) : Gen (option A) :=
  i <- rngFloor (Z.of_nat (List.length array)) ;; ret (index array i).

(** The loop of [shuffle], [i] running from [result.length - 1] down to 1. *)
Fixpoint shuffleLoop {A} (i : nat) (result : list A) : Gen (list A) :=
  match i with
  | O => ret result
  | S i' =>
      j <- rngFloor (Z.of_nat (i + 1)) ;;
      shuffleLoop i' (swapAt i (Z.to_nat j) result)
  end.

Definition shuffle {A} (array : list A) : Gen (list A) :=
  shuffleLoop (List.length array - 1) array.

(** [pick] on an array literal that is never empty: the default stands for
    [undefined], which no draw in [[0, 1)] selects. *)
Definition pickOr {A} (d : A) (array : list A) : Gen A :=
  o <- pick array ;; ret (match o with Some a => a | None => d end).

(** The doubles written [0.2], [0.3] and [0.4] in the sources. *)
Definition double_0_2 : Q := 3602879701896397 # 18014398509481984.
Definition double_0_3 : Q := 5404319552844595 # 18014398509481984.
Definition double_0_4 : Q := 3602879701896397 # 9007199254740992.

(** [a > b] and [a < b] on numbers. *)
Definition Qgtb (a b : Q) : bool := negb (Qle_bool a b).
Definition Qltb (a b : Q) : bool := negb (Qle_bool b a).

(* ================================================================== *)
(** * generation/suspect_generator.ts                                  *)
(* ================================================================== *)

Definition generatePersonality : Gen PersonalityTraits :=
  h <- random ;; c <- random ;; a <- random ;; o <- random ;;
  ret (createPersonalityTraits h c a o).

(** [new Set<string>()] with [has] and [add]. *)
Definition setHas (s : list string) (x : string) : bool :=
  existsb (String.eqb x) s.
Definition setAdd (s : list string) (x : string) : list string :=
  if setHas s x then s else s ++ [x].

(** One iteration of the loop of [generateSuspects]; the state is
    [(usedNames, suspects)]. *)
Definition generateSuspect
  (shuffledFirstNames shuffledLastNames : list string)
  (shuffledOccupations : list OccupationTemplate)
  (shuffledDescriptions : list string)
  (st : list string * list Suspect) (i : nat)
  : Gen (list string * list Suspect) :=
  let '(usedNames, suspects) := st in
  let firstName :=
    nth (i mod List.length shuffledFirstNames) shuffledFirstNames "" in
  let lastName :=
    nth (i mod List.length shuffledLastNames) shuffledLastNames "" in
  let fullName := firstName ^^ " " ^^ lastName in
  let usedNames' :=
    if setHas usedNames fullName then
      let altLastName :=
        nth ((i + 1) mod List.length shuffledLastNames) shuffledLastNames "" in
      let altFullName := firstName ^^ " " ^^ altLastName in
      setAdd usedNames altFullName
    else setAdd usedNames fullName in
  let occupation :=
    nth (i mod List.length shuffledOccupations) shuffledOccupations
      (mkOccupation "" "") in
  let description :=
    nth (i mod List.length shuffledDescriptions) shuffledDescriptions "" in
  personality <- generatePersonality ;;
  age <- randomInt 25 70 ;;
  ret (usedNames',
       suspects ++
       [createSuspect (createSuspectId ("suspect-" ^^ string_of_nat i))
          firstName
          (nth (i mod List.length shuffledLastNames) shuffledLastNames "")
          (title occupation) age
          (description ^^ " " ^^ occupation_description occupation)
          personality None None]).

Definition generateSuspects (count : nat) : Gen (list Suspect) :=
  shuffledFirstNames <- shuffle firstNames ;;
  shuffledLastNames <- shuffle lastNames ;;
  shuffledOccupations <- shuffle occupations ;;
  shuffledDescriptions <- shuffle descriptions ;;
  st <- foldGen (seq 0 count) ([], [])
          (generateSuspect shuffledFirstNames shuffledLastNames
             shuffledOccupations shuffledDescriptions) ;;
  ret (snd st).

(** [while (killerIndex === victimIndex) killerIndex = randomInt(...)] *)
Fixpoint redrawKiller (fuel : nat) (len victimIndex killerIndex : Z) : Gen Z :=
  if (killerIndex =? victimIndex)%Z then
    match fuel with
    | O => outOfFuel
    | S fuel' =>
        k <- randomInt 0 (len - 1) ;; redrawKiller fuel' len victimIndex k
    end
  else ret killerIndex.

Record Assignment : Type := mkAssignment {
  asg_victim : Suspect;
  asg_killer : Suspect;
  asg_others : list Suspect
}.

Definition assignVictimAndKiller (fuel : nat) (suspects : list Suspect)
  : Gen Assignment :=
  if (List.length suspects <? 3)%nat then throw NeedThreeSuspects
  else
    let len := Z.of_nat (List.length suspects) in
    victimIndex <- randomInt 0 (len - 1) ;;
    killerIndex0 <- randomInt 0 (len - 1) ;;
    killerIndex <- redrawKiller fuel len victimIndex killerIndex0 ;;
    sv <- defined (index suspects victimIndex) ;;
    let victim :=
      createSuspect (suspect_id sv) (firstName sv) (lastName sv)
        (occupation sv) (age sv) (suspect_description sv) (personality sv)
        (Some true) (Some (isKiller sv)) in
    sk <- defined (index suspects killerIndex) ;;
    let killer :=
      createSuspect (suspect_id sk) (firstName sk) (lastName sk)
        (occupation sk) (age sk) (suspect_description sk) (personality sk)
        (Some (isVictim sk)) (Some true) in
    let others :=
      filterIndex
        (fun i => andb (negb (Z.of_nat i =? victimIndex)%Z)
                       (negb (Z.of_nat i =? killerIndex)%Z))
        0 suspects in
    shuffledOthers <- shuffle others ;;
    ret (mkAssignment victim killer shuffledOthers).

(* ================================================================== *)
(** * generation/relationship_graph.ts                                 *)
(* ================================================================== *)

Definition motiveRelationships : list RelationshipType :=
  [Spouse; ExSpouse; Lover; ExLover; Sibling; BusinessPartner; Rival; Enemy].

Definition allRelationships : list RelationshipType := RelationshipType_values.

Definition motiveToRelationships (motive : MotiveType) : list RelationshipType :=
  match motive with
  | Jealousy => [Spouse; Lover; ExLover; Sibling]
  | Greed => [Sibling; Child; Spouse; BusinessPartner]
  | Revenge => [Enemy; ExSpouse; ExLover; Rival]
  | Fear => [Employee; BusinessPartner; Acquaintance]
  | Hatred => [Enemy; Rival; Sibling]
  | Protection => [Parent; Spouse; Friend]
  | Ambition => [Employee; BusinessPartner; Rival]
  end.

Definition getRelationshipForMotive (motive : MotiveType) : Gen RelationshipType :=
  let options := motiveToRelationships motive in
  pickOr Spouse options.

Definition createKillerVictimRelationship (killerId victimId : SuspectId)
  (motive : MotiveType) : Gen Relationship :=
  relType <- getRelationshipForMotive motive ;;
  sentiment <- randomInt (-10) (-6) ;;
  u <- random ;;
  ret (createRelationship killerId victimId relType sentiment
         (Some (Qgtb u double_0_4)) None).

Definition secretReasons (relType : RelationshipType) : list string :=
  match relType with
  | Lover =>
      ["An affair hidden from their spouses";
       "A secret romance that would scandalize society";
       "A forbidden relationship kept from the family"]
  | ExLover =>
      ["A past affair no one knows about";
       "A relationship that ended badly and was covered up"]
  | BusinessPartner =>
      ["A secret business deal gone wrong";
       "An undisclosed financial arrangement";
       "A hidden investment that failed"]
  | _ => ["A secret connection hidden from others"]
  end.

Definition generateSecretReason (relType : RelationshipType) : Gen string :=
  let options := secretReasons relType in
  pickOr "undefined" options.

(** [relationships.some(r => (r.from === a && r.to === b) ||
                              (r.from === b && r.to === a))] *)
Definition relationExists (relationships : list Relationship) (a b : SuspectId)
  : bool :=
  jsSome (fun r =>
            orb (andb (String.eqb (rel_from r) a) (String.eqb (rel_to r) b))
                (andb (String.eqb (rel_from r) b) (String.eqb (rel_to r) a)))
         relationships.

(** [Map<SuspectId, number>]: [get] and [set]. *)
Fixpoint mapGet {V} (m : list (string * V)) (k : string) : option V :=
  match m with
  | [] => None
  | (k', v) :: m' => if String.eqb k' k then Some v else mapGet m' k
  end.

Fixpoint mapSet {V} (m : list (string * V)) (k : string) (v : V)
  : list (string * V) :=
  match m with
  | [] => [(k, v)]
  | (k', v') :: m' =>
      if String.eqb k' k then (k', v) :: m' else (k', v') :: mapSet m' k v
  end.

(** [connectionCount.get(id) || 0] *)
Definition getCount (m : list (string * Z)) (id : SuspectId) : Z :=
  match mapGet m id with Some n => n | None => 0%Z end.

Definition bump (m : list (string * Z)) (id : SuspectId) : list (string * Z) :=
  mapSet m id (getCount m id + 1)%Z.

(** Step 2: one red-herring relationship with the victim. *)
Definition redHerringRelationship (victim : Suspect)
  (shuffledOthers : list Suspect) (relationships : list Relationship) (i : nat)
  : Gen (list Relationship) :=
  let suspect := nth_error shuffledOthers i in
  relType <- pickOr Spouse motiveRelationships ;;
  sentiment <- randomInt (-8) (-3) ;;
  s <- defined suspect ;;
  u <- random ;;
  ret (relationships ++
       [createRelationship (suspect_id s) (suspect_id victim) relType sentiment
          (Some (Qgtb u double_0_3)) None]).

(** Step 3, inner loop: one connection of an under-connected suspect. *)
Definition addConnection (suspect : Suspect) (shuffledCandidates : list Suspect)
  (st : list Relationship * list (string * Z)) (i : nat)
  : Gen (list Relationship * list (string * Z)) :=
  let '(relationships, connectionCount) := st in
  other <- defined (nth_error shuffledCandidates i) ;;
  relType <- pickOr Spouse allRelationships ;;
  sentiment <- randomInt (-5) 8 ;;
  u <- random ;;
  ret (relationships ++
       [createRelationship (suspect_id suspect) (suspect_id other) relType
          sentiment (Some (Qgtb u double_0_2)) None],
       bump (bump connectionCount (suspect_id suspect)) (suspect_id other)).

(** Step 3, outer loop body. *)
Definition connectSuspect (minConnectionsPerPerson : Z)
  (allSuspects : list Suspect)
  (st : list Relationship * list (string * Z)) (suspect : Suspect)
  : Gen (list Relationship * list (string * Z)) :=
  let '(relationships, connectionCount) := st in
  let currentConnections := getCount connectionCount (suspect_id suspect) in
  if (currentConnections <? minConnectionsPerPerson)%Z then
    let needed := (minConnectionsPerPerson - currentConnections)%Z in
    let candidates :=
      filter (fun s =>
                if String.eqb (suspect_id s) (suspect_id suspect) then false
                else negb (relationExists relationships
                             (suspect_id suspect) (suspect_id s)))
             allSuspects in
    shuffledCandidates <- shuffle candidates ;;
    let n := Z.to_nat (Z.min needed (Z.of_nat (List.length shuffledCandidates))) in
    foldGen (seq 0 n) st (addConnection suspect shuffledCandidates)
  else ret st.

(** Step 4: one attempt at a secret relationship. *)
Definition addSecret (allSuspects : list Suspect)
  (relationships : list Relationship) (i : nat) : Gen (list Relationship) :=
  sh <- shuffle allSuspects ;;
  let pair := slice0 2 sh in
  person1 <- defined (nth_error pair 0) ;;
  person2 <- defined (nth_error pair 1) ;;
  let exists_ :=
    relationExists relationships (suspect_id person1) (suspect_id person2) in
  if negb exists_ then
    let secretTypes := [Lover; ExLover; BusinessPartner] in
    relType <- pickOr Lover secretTypes ;;
    sentiment <- randomInt (-3) 7 ;;
    reason <- generateSecretReason relType ;;
    ret (relationships ++
         [createRelationship (suspect_id person1) (suspect_id person2) relType
            sentiment (Some false) (Some reason)])
  else ret relationships.

Definition generateRelationshipGraph (victim killer : Suspect)
  (others : list Suspect) (motive : MotiveType) (minConnectionsPerPerson : Z)
  : Gen (list Relationship) :=
  let allSuspects := victim :: killer :: others in
  (* 1. killer-victim relationship with motive *)
  killerVictimRel <-
    createKillerVictimRelationship (suspect_id killer) (suspect_id victim) motive ;;
  let relationships := [killerVictimRel] in
  (* 2. red herrings *)
  redHerringCount <-
    randomInt 2 (Z.min 3 (Z.of_nat (List.length others))) ;;
  shuffledOthers <- shuffle others ;;
  relationships <-
    foldGen (seq 0 (Z.to_nat redHerringCount)) relationships
      (redHerringRelationship victim shuffledOthers) ;;
  (* 3. minimum connections *)
  let connectionCount :=
    fold_left (fun m s => mapSet m (suspect_id s) 0%Z) allSuspects [] in
  let connectionCount :=
    fold_left (fun m rel => bump (bump m (rel_from rel)) (rel_to rel))
      relationships connectionCount in
  st <- foldGen allSuspects (relationships, connectionCount)
          (connectSuspect minConnectionsPerPerson allSuspects) ;;
  let relationships := fst st in
  (* 4. secret relationships *)
  secretCount <- randomInt 1 2 ;;
  foldGen (seq 0 (Z.to_nat secretCount)) relationships (addSecret allSuspects).

(* ================================================================== *)
(** * generation/clue_generator.ts                                     *)
(* ================================================================== *)

Record ClueGeneratorConfig : Type := mkClueGeneratorConfig {
  minCluesPointingToKiller : Z;
  redHerringCount : Z
}.

Definition nextClueId (clueIndex : nat) : ClueId :=
  createClueId ("clue-" ^^ string_of_nat clueIndex).

Definition physicalEvidenceNames (weapon : WeaponType) : list string :=
  match weapon with
  | Poison => ["Poison Vial"; "Empty Medicine Bottle"; "Suspicious Powder"]
  | Knife => ["Bloodied Blade"; "Letter Opener"; "Kitchen Knife"]
  | Blunt => ["Dented Candlestick"; "Bronze Statue"; "Heavy Paperweight"]
  | Firearm => ["Discharged Revolver"; "Spent Shell Casing"; "Gun Oil Residue"]
  | Strangulation => ["Torn Silk Scarf"; "Rope Fibers"; "Ligature Marks"]
  | Pushed => ["Broken Railing"; "Torn Fabric on Balcony"; "Scuff Marks"]
  end.

Definition getPhysicalEvidenceName (weapon : WeaponType) : Gen string :=
  pickOr "undefined" (physicalEvidenceNames weapon).

Definition physicalEvidenceDescriptions (weapon : WeaponType) (killer : Suspect)
  : list string :=
  match weapon with
  | Poison =>
      ["An empty vial with traces of arsenic. The label has been torn off, but the style matches bottles in "
         ^^ firstName killer ^^ "'s possession.";
       "A small glass container that once held a deadly substance. Fingerprint analysis might prove useful."]
  | Knife =>
      ["A blade stained with the victim's blood. The handle bears an unusual marking.";
       "A sharp implement found near the body. It appears to have been wiped clean, but traces remain."]
  | Blunt =>
      ["A heavy object bearing blood and hair. It was clearly used with considerable force.";
       "The murder weapon, carelessly discarded. Forensic examination may reveal the killer's identity."]
  | Firearm =>
      ["A revolver with one bullet missing from the chamber. Recently fired.";
       "Shell casings found at the scene. The gun itself may still be in the house."]
  | Strangulation =>
      ["Fabric fibers found under the victim's fingernails, torn during the struggle.";
       "A distinctive pattern of bruising on the victim's neck suggests a specific type of ligature."]
  | Pushed =>
      ["The railing shows signs of a struggle. Someone was pushed with great force.";
       "Fabric caught on a nail near the balcony edge. The victim grabbed at something—or someone."]
  end.

Definition getPhysicalEvidenceDescription (weapon : WeaponType) (killer : Suspect)
  : Gen string :=
  pickOr "undefined" (physicalEvidenceDescriptions weapon killer).

Definition motiveDocumentNames (motive : MotiveType) : list string :=
  match motive with
  | Jealousy => ["Love Letters"; "Torn Photograph"; "Private Diary"]
  | Greed => ["Modified Will"; "Insurance Policy"; "Financial Records"]
  | Revenge => ["Threatening Letter"; "Legal Documents"; "Old Newspaper Clipping"]
  | Fear => ["Blackmail Note"; "Incriminating Photographs"; "Sealed Envelope"]
  | Hatred => ["Bitter Correspondence"; "Defaced Portrait"; "Burned Letters"]
  | Protection => ["Secret Documents"; "Hidden Evidence"; "Coded Messages"]
  | Ambition => ["Business Contract"; "Promotion Letter"; "Partnership Agreement"]
  end.

Definition getMotiveDocumentName (motive : MotiveType) : Gen string :=
  pickOr "undefined" (motiveDocumentNames motive).

Definition motiveDocumentDescriptions (motive : MotiveType)
  (victim killer : Suspect) : list string :=
  let k := firstName killer in
  let v := firstName victim in
  match motive with
  | Jealousy =>
      ["Documents revealing " ^^ k ^^ "'s jealousy over " ^^ v ^^ "'s romantic entanglements.";
       "Evidence of a love triangle that drove " ^^ k ^^ " to desperate measures."]
  | Greed =>
      ["Papers showing " ^^ k ^^ " stood to inherit a fortune upon " ^^ v ^^ "'s death.";
       "Financial documents revealing " ^^ k ^^ " was about to be cut out of the will."]
  | Revenge =>
      ["Letters documenting a past wrong that " ^^ k ^^ " could never forgive.";
       "Evidence of an old betrayal that festered into murderous rage."]
  | Fear =>
      [v ^^ " had discovered something about " ^^ k ^^ " that could destroy them.";
       "Blackmail materials showing " ^^ k ^^ " was being threatened with exposure."]
  | Hatred =>
      ["A long history of animosity between " ^^ k ^^ " and the victim, documented in bitter letters.";
       "Evidence of a deep-seated hatred that finally boiled over."]
  | Protection =>
      ["Documents showing " ^^ k ^^ " killed to protect someone else—or a terrible secret.";
       v ^^ " was about to expose something that would harm someone " ^^ k ^^ " loves."]
  | Ambition =>
      [v ^^ " was standing in the way of " ^^ k ^^ "'s advancement.";
       "Business documents showing " ^^ k ^^ " would gain power or position from the death."]
  end.

Definition getMotiveDocumentDescription (motive : MotiveType)
  (victim killer : Suspect) : Gen string :=
  pickOr "undefined" (motiveDocumentDescriptions motive victim killer).

Definition redHerringNames : list string :=
  ["Suspicious Object"; "Misplaced Item"; "Circumstantial Evidence";
   "Misleading Clue"; "Planted Evidence"].

Definition getRedHerringName : Gen string :=
  pickOr "undefined" redHerringNames.

(** [random.pick(allLocations)] followed by a property access. *)
Definition pickLocation (ls : list Location) : Gen Location :=
  o <- pick ls ;; defined o.

(** Step 6: the alibi-clearing clue of one innocent; the state is
    [(clues, clueIndex)]. *)
Definition alibiClue (allLocations : list Location)
  (st : list Clue * nat) (innocent : Suspect) : Gen (list Clue * nat) :=
  let '(clues, clueIndex) := st in
  let id := nextClueId clueIndex in
  where_ <- pickLocation allLocations ;;
  found <- pickLocation allLocations ;;
  ret (clues ++
       [createClue id Testimonial (firstName innocent ^^ "'s Alibi")
          ("Multiple witnesses confirm " ^^ firstName innocent
             ^^ " was in the " ^^ location_name where_
             ^^ " during the time of the murder.")
          (location_id found) (Some (suspect_id innocent)) None None
          (Some normal)],
       S clueIndex).

(** Step 7: one red herring. *)
Definition redHerringClue (crimeScene : Location)
  (shuffledInnocents : list Suspect)
  (st : list Clue * nat) (i : nat) : Gen (list Clue * nat) :=
  let '(clues, clueIndex) := st in
  redHerringTarget <- defined (nth_error shuffledInnocents i) ;;
  let alibiClue :=
    jsFind (fun c => andb (pointsToSuspect c (suspect_id redHerringTarget))
                          (ClueType_eqb (clue_type c) Testimonial))
           clues in
  let id := nextClueId clueIndex in
  name <- getRedHerringName ;;
  ret (clues ++
       [createClue id Physical name
          ("Evidence that initially seems to implicate "
             ^^ firstName redHerringTarget
             ^^ ", but doesn't hold up to scrutiny.")
          (location_id crimeScene) (Some (suspect_id redHerringTarget))
          (Some true) (option_map clue_id alibiClue) (Some minor)],
       S clueIndex).

Definition generateClues (killer victim : Suspect) (others : list Suspect)
  (motive : MotiveType) (weapon : WeaponType) (crimeScene : Location)
  (allLocations : list Location) (relationships : list Relationship)
  (config : ClueGeneratorConfig) : Gen (list Clue) :=
  (* 1. Physical evidence at crime scene pointing to killer *)
  name1 <- getPhysicalEvidenceName weapon ;;
  description1 <- getPhysicalEvidenceDescription weapon killer ;;
  let clue1 :=
    createClue (nextClueId 0) Physical name1 description1
      (location_id crimeScene) (Some (suspect_id killer)) None None
      (Some critical) in
  (* 2. Motive clue (documentary evidence) *)
  name2 <- getMotiveDocumentName motive ;;
  description2 <- getMotiveDocumentDescription motive victim killer ;;
  found2 <- pickLocation allLocations ;;
  let clue2 :=
    createClue (nextClueId 1) Documentary name2 description2
      (location_id found2) (Some (suspect_id killer)) None None
      (Some critical) in
  (* 3. Opportunity clue (places killer at scene) *)
  let clue3 :=
    createClue (nextClueId 2) Testimonial "Witness Account"
      ("Someone saw " ^^ firstName killer ^^ " near the "
         ^^ location_name crimeScene ^^ " around the time of the murder.")
      (location_id crimeScene) (Some (suspect_id killer)) None None
      (Some normal) in
  (* 4. Behavioral clue *)
  found4 <- pickLocation allLocations ;;
  let clue4 :=
    createClue (nextClueId 3) Behavioral "Suspicious Behavior"
      (firstName killer
         ^^ " was seen acting nervously after the body was discovered.")
      (location_id found4) (Some (suspect_id killer)) None None
      (Some normal) in
  (* 5. Forensic evidence (time of death, etc.) *)
  let clue5 :=
    createClue (nextClueId 4) Forensic "Time of Death"
      "The victim died between 9:00 PM and 10:00 PM based on body temperature."
      (location_id crimeScene) None None None (Some critical) in
  let st := ([clue1; clue2; clue3; clue4; clue5], 5%nat) in
  (* 6. alibi-clearing clues for innocents *)
  st <- foldGen others st (alibiClue allLocations) ;;
  (* 7. Red herrings *)
  shuffledInnocents <- shuffle others ;;
  let n :=
    Z.to_nat (Z.min (redHerringCount config)
                    (Z.of_nat (List.length shuffledInnocents))) in
  st <- foldGen (seq 0 n) st (redHerringClue crimeScene shuffledInnocents) ;;
  (* 8. Relationship revelation clue (for secret relationships) *)
  let secretRelationship :=
    jsFind (fun r => negb (isPublicKnowledge r)) relationships in
  st <- match secretRelationship with
        | Some secretRelationship =>
            let privateLocations :=
              filter (fun l => negb (isPublic l)) allLocations in
            hiddenLocation <-
              (if (0 <? List.length privateLocations)%nat
               then pickLocation privateLocations
               else pickLocation allLocations) ;;
            ret (fst st ++
                 [createClue (nextClueId (snd st)) Documentary
                    "Hidden Correspondence"
                    ("Letters revealing a secret "
                       ^^ RelationshipType_value (rel_type secretRelationship)
                       ^^ " relationship.")
                    (location_id hiddenLocation) None None None (Some normal)],
                 S (snd st))
        | None => ret st
        end ;;
  (* Shuffle clues so discovery order is unpredictable *)
  shuffle (fst st).

(* ================================================================== *)
(** * generation/alibi_generator.ts                                    *)
(* ================================================================== *)

Inductive KillerAlibiStrategy : Type :=
| no_witnesses | unreliable_witness | partial_alibi | conflicting_times.

Definition selectWitnesses (excludeId : SuspectId) (allSuspects : list Suspect)
  : Gen (list Suspect) :=
  let candidates :=
    filter (fun s => andb (negb (String.eqb (suspect_id s) excludeId))
                          (negb (isVictim s)))
           allSuspects in
  count <- randomInt 1 (Z.min 2 (Z.of_nat (List.length candidates))) ;;
  sh <- shuffle candidates ;;
  ret (slice0 (Z.to_nat count) sh).

Definition generateAlibiDescription (suspect : Suspect) (location : Location)
  (witnesses : list Suspect) : Gen string :=
  let activities :=
    ["was having a conversation";
     "was reading by the fire";
     "was playing cards";
     "was admiring the paintings";
     "was engaged in discussion";
     "was enjoying a drink";
     "was waiting for dinner"] in
  activity <- pickOr "undefined" activities ;;
  if (List.length witnesses =? 0)%nat then
    ret (firstName suspect ^^ " claims to have been in the "
           ^^ location_name location ^^ ", " ^^ activity ^^ ".")
  else
    let witnessNames := join " and " (map firstName witnesses) in
    ret (firstName suspect ^^ " was in the " ^^ location_name location
           ^^ ", " ^^ activity ^^ ". " ^^ witnessNames ^^ " can confirm this.").

Definition generateFalseAlibiDescription (killer : Suspect) (location : Location)
  : Gen string :=
  let excuses :=
    [firstName killer ^^ " claims to have been alone in "
       ^^ (if String.eqb (location_name location) "Guest Bedroom"
           then "their room" else "the " ^^ location_name location)
       ^^ ", resting.";
     firstName killer ^^ " says they were in the " ^^ location_name location
       ^^ ", but no one can confirm this.";
     firstName killer ^^ " insists they were freshening up in their quarters.";
     firstName killer ^^ " claims to have stepped outside for some air.";
     firstName killer ^^ " says they were in the " ^^ location_name location
       ^^ " making a private telephone call."] in
  pickOr "undefined" excuses.

Definition generateWeakAlibiDescription (suspect : Suspect) (location : Location)
  (witnesses : list Suspect) : Gen string :=
  let w0 := nth_error witnesses 0 in
  let uncertainPhrases :=
    [firstName suspect ^^ " was seen briefly in the " ^^ location_name location
       ^^ ", though the exact time is unclear.";
     firstName suspect ^^ " claims to have been in the "
       ^^ location_name location ^^ ". "
       ^^ optOrElse w0 firstName "Someone"
       ^^ " thinks they may have seen them there.";
     firstName suspect ^^ " says they were in the " ^^ location_name location
       ^^ ", reading. " ^^ optOrElse w0 firstName "A witness"
       ^^ " recalls seeing them, but can't be certain of the time.";
     firstName suspect ^^ " was in the " ^^ location_name location
       ^^ " for part of the evening, according to "
       ^^ optOrElse w0 firstName "a witness"
       ^^ ", who was somewhat distracted."] in
  pickOr "undefined" uncertainPhrases.

Definition generateUnreliableWitnessAlibi (killer : Suspect) (location : Location)
  (witness : Suspect) : Gen string :=
  let k := firstName killer in
  let w := firstName witness in
  let l := location_name location in
  let unreliableDescriptions :=
    [k ^^ " claims " ^^ w ^^ " saw them in the " ^^ l ^^ ". However, " ^^ w
       ^^ " had been drinking heavily that evening.";
     k ^^ " says they were with " ^^ w ^^ " in the " ^^ l ^^ ", but " ^^ w
       ^^ "'s memory of the evening is hazy.";
     k ^^ " insists " ^^ w ^^ " can vouch for them, though " ^^ w
       ^^ " seems oddly reluctant to confirm the details.";
     k ^^ " claims " ^^ w ^^ " saw them in the " ^^ l ^^ ". " ^^ w
       ^^ " agrees, but their account has some inconsistencies."] in
  pickOr "undefined" unreliableDescriptions.

Definition generatePartialAlibiDescription (killer : Suspect)
  (location : Location) (witnesses : list Suspect) : Gen string :=
  let k := firstName killer in
  let l := location_name location in
  let witnessName := optOrElse (nth_error witnesses 0) firstName "Others" in
  let partialDescriptions :=
    [k ^^ " was seen in the " ^^ l ^^ " earlier in the evening by "
       ^^ witnessName
       ^^ ", but stepped out for a while around the time of the murder.";
     witnessName ^^ " saw " ^^ k ^^ " in the " ^^ l
       ^^ " before dinner, but not during the critical hour.";
     k ^^ " arrived at the " ^^ l ^^ " late, claiming to have been delayed. "
       ^^ witnessName ^^ " can only confirm their presence after the fact.";
     k ^^ " was in the " ^^ l ^^ " with " ^^ witnessName
       ^^ ", but excused themselves for about twenty minutes during the evening."] in
  pickOr "undefined" partialDescriptions.

Definition generateConflictingTimesAlibi (killer : Suspect) (location : Location)
  : Gen string :=
  let k := firstName killer in
  let l := location_name location in
  let conflictingDescriptions :=
    [k ^^ " claims to have been in the " ^^ l
       ^^ " from 8 until 10, but the grandfather clock there stopped at 9:15.";
     k ^^ " says they were in the " ^^ l
       ^^ " all evening, but a servant recalls seeing the room empty around 9 o'clock.";
     k ^^ " insists they never left the " ^^ l
       ^^ ", yet their shoes show traces of garden mud.";
     k ^^ " claims they were reading in the " ^^ l
       ^^ ", but the book they mention wasn't published until next year.";
     k ^^ " says they heard the clock strike nine from the " ^^ l
       ^^ ", but that clock has been broken for weeks."] in
  pickOr "undefined" conflictingDescriptions.

Definition generateKillerAlibi (killer : Suspect) (others : list Suspect)
  (publicLocations privateLocations : list Location) (timeOfDeath : TimeSlot)
  (strategy : KillerAlibiStrategy) : Gen Alibi :=
  match strategy with
  | unreliable_witness =>
      location <-
        pick (if (0 <? List.length publicLocations)%nat
              then publicLocations else privateLocations) ;;
      fakeWitness <- pick others ;;
      location <- defined location ;;
      fakeWitness <- defined fakeWitness ;;
      description <- generateUnreliableWitnessAlibi killer location fakeWitness ;;
      ret (createAlibi (suspect_id killer) timeOfDeath (location_id location)
             description (Some [suspect_id fakeWitness]) (Some false) (Some true))
  | partial_alibi =>
      location <-
        pick (if (0 <? List.length publicLocations)%nat
              then publicLocations else privateLocations) ;;
      witnesses <- selectWitnesses (suspect_id killer) (killer :: others) ;;
      location <- defined location ;;
      description <- generatePartialAlibiDescription killer location witnesses ;;
      ret (createAlibi (suspect_id killer) timeOfDeath (location_id location)
             description (Some (map suspect_id witnesses)) (Some false)
             (Some true))
  | conflicting_times =>
      location <-
        pickLocation (if (0 <? List.length privateLocations)%nat
                      then privateLocations else publicLocations) ;;
      description <- generateConflictingTimesAlibi killer location ;;
      ret (createAlibi (suspect_id killer) timeOfDeath (location_id location)
             description (Some []) (Some false) (Some true))
  | no_witnesses =>
      location <-
        (if (0 <? List.length privateLocations)%nat
         then pickLocation privateLocations
         else pickLocation publicLocations) ;;
      description <- generateFalseAlibiDescription killer location ;;
      ret (createAlibi (suspect_id killer) timeOfDeath (location_id location)
             description (Some []) (Some false) (Some true))
  end.

(** The alibi of one innocent (body of the loop of [generateAlibis]). *)
Definition innocentAlibi (allSuspects : list Suspect)
  (publicLocations : list Location) (timeOfDeath : TimeSlot)
  (innocent : Suspect) : Gen Alibi :=
  location <- pick publicLocations ;;
  witnesses <- selectWitnesses (suspect_id innocent) allSuspects ;;
  u <- random ;;
  let hasWeakAlibi := Qltb u double_0_2 in
  location <- defined location ;;
  if hasWeakAlibi then
    let weakWitnesses := slice0 1 witnesses in
    description <-
      generateWeakAlibiDescription innocent location weakWitnesses ;;
    ret (createAlibi (suspect_id innocent) timeOfDeath (location_id location)
           description (Some (map suspect_id weakWitnesses)) (Some true)
           (Some false))
  else
    description <- generateAlibiDescription innocent location witnesses ;;
    ret (createAlibi (suspect_id innocent) timeOfDeath (location_id location)
           description (Some (map suspect_id witnesses)) (Some true)
           (Some false)).

Definition generateAlibis (killer _victim : Suspect) (others : list Suspect)
  (locations : list Location) (timeOfDeath : TimeSlot) : Gen (list Alibi) :=
  let publicLocations := filter (fun l => isPublic l) locations in
  let privateLocations := filter (fun l => negb (isPublic l)) locations in
  let allSuspects := killer :: others in
  killerStrategy <-
    pickOr no_witnesses
      [no_witnesses; unreliable_witness; partial_alibi; conflicting_times] ;;
  alibis <-
    forEach others (innocentAlibi allSuspects publicLocations timeOfDeath) ;;
  killerAlibi <-
    generateKillerAlibi killer others publicLocations privateLocations
      timeOfDeath killerStrategy ;;
  shuffle (alibis ++ [killerAlibi]).

(* ================================================================== *)
(** * generation/case_generator.ts                                     *)
(* ================================================================== *)

Inductive Difficulty : Type := easy | medium | hard.

Record CaseGeneratorConfig : Type := mkCaseGeneratorConfig {
  suspectCount : nat;
  difficulty : Difficulty
}.

Definition defaultConfig : CaseGeneratorConfig :=
  mkCaseGeneratorConfig 6 medium.

Definition generateLocations : Gen (list Location) :=
  shuffled <- shuffle manorLocations ;;
  count <- randomInt 6 8 ;;
  ret (map (fun '(index, template) =>
              createLocation
                (createLocationId ("location-" ^^ string_of_nat index))
                (template_name template) (template_description template)
                (Some (template_isPublic template)) (Some false))
           (combine (seq 0 (List.length shuffled))
                    (slice0 (Z.to_nat count) shuffled))).

Definition selectCrimeScene (locations : list Location) : Gen Location :=
  let privateLocations := filter (fun l => negb (isPublic l)) locations in
  let candidates :=
    if (0 <? List.length privateLocations)%nat then privateLocations
    else locations in
  scene <- pickLocation candidates ;;
  ret (createLocation (location_id scene) (location_name scene)
         (location_description scene) (Some (isPublic scene)) (Some true)).

Definition selectMotive : Gen MotiveType :=
  let motives := MotiveType_values in
  pickOr Jealousy motives.

Definition selectWeapon : Gen WeaponType :=
  let weapons := WeaponType_values in
  pickOr Poison weapons.

Definition selectTimeOfDeath : Gen TimeSlot :=
  hour <- randomInt 20 23 ;;
  ret (createTimeSlot hour).

Definition getDifficultyClueCount (difficulty : Difficulty) : Z :=
  match difficulty with
  | easy => 5
  | medium => 4
  | hard => 3
  end.

Definition getDifficultyRedHerrings (difficulty : Difficulty) : Z :=
  match difficulty with
  | easy => 1
  | medium => 2
  | hard => 3
  end.

(** One attempt of [generateCase]: everything up to the solvability check. *)
Definition generateCaseOnce (fuel : nat) (seed : string)
  (fullConfig : CaseGeneratorConfig) : Gen Case :=
  locations <- generateLocations ;;
  suspects <- generateSuspects (suspectCount fullConfig) ;;
  a <- assignVictimAndKiller fuel suspects ;;
  let victim := asg_victim a in
  let killer := asg_killer a in
  let others := asg_others a in
  motive <- selectMotive ;;
  weapon <- selectWeapon ;;
  crimeScene <- selectCrimeScene locations ;;
  timeOfDeath <- selectTimeOfDeath ;;
  relationships <- generateRelationshipGraph victim killer others motive 2 ;;
  clues <-
    generateClues killer victim others motive weapon crimeScene locations
      relationships
      (mkClueGeneratorConfig
         (getDifficultyClueCount (difficulty fullConfig))
         (getDifficultyRedHerrings (difficulty fullConfig))) ;;
  alibis <- generateAlibis killer victim others locations timeOfDeath ;;
  ret (createCase seed (victim :: killer :: others) relationships locations
         clues alibis (suspect_id victim) (suspect_id killer) motive weapon
         (location_id crimeScene) timeOfDeath).

(** [generateCase(seed, config)]; [fuel] bounds the retries (and the
    redrawing loop of [assignVictimAndKiller]). *)
Fixpoint generateCase (seedrandom : string -> nat -> Q) (fuel : nat)
  (seed : string) (config : CaseGeneratorConfig) : Res Case :=
  match generateCaseOnce fuel seed config (createRandom seedrandom seed) with
  | Ok (generatedCase, _) =>
      if negb (isCaseSolvable generatedCase) then
        match fuel with
        | O => OutOfFuel
        | S fuel' => generateCase seedrandom fuel' (seed ^^ "-retry") config
        end
      else Ok generatedCase
  | Throw e => Throw e
  | OutOfFuel => OutOfFuel
  end.

(* ================================================================== *)
(** * game/statements.ts                                               *)
(* ================================================================== *)

Inductive Topic : Type :=
| topic_alibi | topic_victim | topic_relationships | topic_observations
| topic_self.

Record Statement : Type := mkStatement {
  statement_id : string;
  statement_suspectId : SuspectId;
  text : string;
  topic : Topic;
  isLie : bool;
  contradictedBy : list ClueId;
  pressResponse : string;
  truthReveal : option string
}.

Record Testimony : Type := mkTestimony {
  testimony_suspectId : SuspectId;
  statements : list Statement
}.

Definition nextId (suspect : Suspect) (statementIndex : nat) : string :=
  suspect_id suspect ^^ "-stmt-" ^^ string_of_nat statementIndex.

Definition generateAlibiStatement (id : string) (suspect : Suspect)
  (alibi : Alibi) (generatedCase : Case) : Statement :=
  let location :=
    jsFind (fun l => String.eqb (location_id l) (alibi_location alibi))
      (locations generatedCase) in
  let locationName := optOrElse location location_name "somewhere" in
  let contradictingClues :=
    map clue_id
      (filter (fun clue =>
                 if andb (pointsToSuspect clue (suspect_id suspect))
                         (negb (isRedHerring clue))
                 then orb (ClueType_eqb (clue_type clue) Testimonial)
                          (ClueType_eqb (clue_type clue) Physical)
                 else false)
              (clues generatedCase)) in
  if isFalse alibi then
    mkStatement id (suspect_id suspect)
      ("I was in the " ^^ locationName ^^ " the entire evening. I never left.")
      topic_alibi true contradictingClues
      "I'm quite certain. I was... resting. Alone, yes, but I was definitely there."
      (Some ("...Fine. I wasn't in the " ^^ locationName
               ^^ " the whole time. But that doesn't mean I did anything wrong!"))
  else
    let witnesses :=
      join " and "
        (filter (fun n => negb (String.eqb n ""))
           (flat_map
              (fun wId =>
                 match jsFind (fun s => String.eqb (suspect_id s) wId)
                         (suspects generatedCase) with
                 | Some s => [firstName s]
                 | None => []
                 end)
              (witnesses alibi))) in
    let hasWitnesses := negb (String.eqb witnesses "") in
    mkStatement id (suspect_id suspect)
      ("I was in the " ^^ locationName ^^ " during that time. "
         ^^ (if hasWitnesses then witnesses ^^ " can confirm this."
             else "I was alone, but I assure you I was there."))
      topic_alibi false []
      (if hasWitnesses
       then "Ask " ^^ witnesses
              ^^ " if you don't believe me. They'll tell you I was there."
       else "I know I can't prove it, but I swear I was there. I had no reason to leave.")
      None.

Definition generateRelationshipStatement (id : string) (suspect victim : Suspect)
  (relationship : Relationship) (generatedCase : Case) : Statement :=
  let relDesc := getRelationshipDescription relationship in
  let isSecret := negb (isPublicKnowledge relationship) in
  let isHostile := (sentiment relationship <? -3)%Z in
  let revealingClues :=
    map clue_id
      (filter (fun c =>
                 andb (ClueType_eqb (clue_type c) Documentary)
                      (includes "relationship"
                         (toLowerCase (clue_description c))))
              (clues generatedCase)) in
  if isSecret then
    mkStatement id (suspect_id suspect)
      (firstName victim ^^ "? We were merely acquaintances. Nothing more.")
      topic_relationships true revealingClues
      "I don't know what you're implying. We barely knew each other."
      (Some ("...Alright. " ^^ firstName victim
               ^^ " and I were... closer than I let on. But that's private!"))
  else if isHostile then
    mkStatement id (suspect_id suspect)
      (firstName victim
         ^^ " and I... didn't always see eye to eye. But I didn't kill them!")
      topic_relationships false []
      ("Yes, we had our disagreements. " ^^ firstName victim
         ^^ " could be difficult. But murder? Never.")
      None
  else
    mkStatement id (suspect_id suspect)
      ("I was " ^^ relDesc ^^ " " ^^ firstName victim
         ^^ ". We got along well enough.")
      topic_relationships false []
      "There's not much more to say. We had a normal relationship."
      None.

Definition killerObservations : list (string * string) :=
  [("I didn't see anything unusual that evening. Everything seemed perfectly normal.",
    "I was... preoccupied. I wasn't paying attention to others.");
   ("I kept to myself most of the evening. I'm afraid I can't help you.",
    "I don't make it a habit to spy on others. I minded my own business.");
   ("The evening was unremarkable until we heard the scream. I was as shocked as everyone.",
    "What more do you want me to say? I didn't see who did it.");
   ("I was distracted all evening. Personal matters, you understand. I noticed nothing.",
    "My thoughts were elsewhere. The evening is a blur, honestly.");
   ("Everyone seemed normal to me. I had no reason to suspect anything was wrong.",
    "In hindsight, perhaps I should have paid more attention. But I didn't.")].

Definition generateObservationStatement (id : string) (suspect : Suspect)
  (generatedCase : Case) : Gen Statement :=
  let isKiller_ := isKiller suspect in
  let crimeScene_ :=
    jsFind (fun l => String.eqb (location_id l) (crimeScene generatedCase))
      (locations generatedCase) in
  let contradictingClues :=
    if isKiller_ then
      map clue_id
        (filter (fun c =>
                   andb (ClueType_eqb (clue_type c) Testimonial)
                        (pointsToSuspect c (suspect_id suspect)))
                (clues generatedCase))
    else [] in
  if isKiller_ then
    chosen <- pick killerObservations ;;
    chosen <- defined chosen ;;
    ret (mkStatement id (suspect_id suspect) (fst chosen) topic_observations
           true contradictingClues (snd chosen)
           (Some ("Stop pressuring me! I... I may have been near the "
                    ^^ optOrElse crimeScene_ location_name "scene"
                    ^^ ". But I didn't do anything!")))
  else
    theKiller <- defined (jsFind isKiller (suspects generatedCase)) ;;
    let observations :=
      ["I thought I heard raised voices at one point, but I couldn't make out the words.";
       "I noticed " ^^ getFullName theKiller ^^ " seemed distracted that evening.";
       "The atmosphere felt tense, but I attributed it to the usual family drama.";
       "I saw someone moving through the hallway, but it was too dark to tell who."] in
    t <- pickOr "undefined" observations ;;
    ret (mkStatement id (suspect_id suspect) t topic_observations false []
           "That's all I know. I wish I had paid more attention." None).

Definition generateSelfStatement (id : string) (suspect victim : Suspect)
  (generatedCase : Case) : Gen Statement :=
  let isKiller_ := isKiller suspect in
  let motiveClues :=
    map clue_id
      (filter (fun c =>
                 andb (andb (ClueType_eqb (clue_type c) Documentary)
                            (pointsToSuspect c (suspect_id suspect)))
                      (ClueSignificance_eqb (significance c) critical))
              (clues generatedCase)) in
  if isKiller_ then
    ret (mkStatement id (suspect_id suspect)
           ("I had no reason to want " ^^ firstName victim
              ^^ " dead. None at all.")
           topic_self true motiveClues
           "Why would I? I had nothing to gain from this tragedy."
           (Some "...You found out about that? Fine. Yes, I had... reasons. But that doesn't prove I killed anyone!"))
  else
    let defenses :=
      ["I know how this looks, but I'm innocent. Please believe me.";
       "I may not have liked " ^^ firstName victim ^^ ", but I'm not a murderer.";
       "You're wasting time suspecting me. The real killer is still out there.";
       "I have nothing to hide. Ask me anything."] in
    t <- pickOr "undefined" defenses ;;
    ret (mkStatement id (suspect_id suspect) t topic_self false []
           "I understand you have to investigate everyone. I just hope you find the truth."
           None).

Definition generateSuspectStatements (suspect victim : Suspect)
  (alibi : option Alibi) (rels : list Relationship) (generatedCase : Case)
  : Gen (list Statement) :=
  (* 1. Alibi statement (potentially false for killer) *)
  let '(statements1, statementIndex1) :=
    match alibi with
    | Some alibi =>
        ([generateAlibiStatement (nextId suspect 0) suspect alibi generatedCase],
         1%nat)
    | None => ([], 0%nat)
    end in
  (* 2. Statement about relationship with victim *)
  let victimRelationship :=
    jsFind (fun r => orb (String.eqb (rel_to r) (suspect_id victim))
                         (String.eqb (rel_from r) (suspect_id victim)))
           rels in
  let '(statements2, statementIndex2) :=
    match victimRelationship with
    | Some victimRelationship =>
        (statements1 ++
         [generateRelationshipStatement (nextId suspect statementIndex1)
            suspect victim victimRelationship generatedCase],
         S statementIndex1)
    | None => (statements1, statementIndex1)
    end in
  (* 3. Observation statement *)
  observation <-
    generateObservationStatement (nextId suspect statementIndex2) suspect
      generatedCase ;;
  (* 4. Statement about self *)
  self <-
    generateSelfStatement (nextId suspect (S statementIndex2)) suspect victim
      generatedCase ;;
  ret (statements2 ++ [observation] ++ [self]).

(** Body of the loop of [generateTestimonies]; the state is the [Map]. *)
Definition generateTestimony (generatedCase : Case)
  (testimonies : list (string * Testimony)) (suspect : Suspect)
  : Gen (list (string * Testimony)) :=
  let alibi :=
    jsFind (fun a => String.eqb (alibi_suspectId a) (suspect_id suspect))
      (alibis generatedCase) in
  let rels :=
    filter (fun r => orb (String.eqb (rel_from r) (suspect_id suspect))
                         (String.eqb (rel_to r) (suspect_id suspect)))
           (relationships generatedCase) in
  victim <- defined (jsFind isVictim (suspects generatedCase)) ;;
  statements <-
    generateSuspectStatements suspect victim alibi rels generatedCase ;;
  ret (mapSet testimonies (suspect_id suspect)
         (mkTestimony (suspect_id suspect) statements)).

Definition generateTestimonies (generatedCase : Case)
  : Gen (list (string * Testimony)) :=
  let living := filter (fun s => negb (isVictim s)) (suspects generatedCase) in
  foldGen living [] (generateTestimony generatedCase).

Definition checkContradiction (statement : Statement) (evidenceId : ClueId)
  : bool :=
  existsb (String.eqb evidenceId) (contradictedBy statement).

Definition getContradictableStatements (testimony : Testimony) : list Statement :=
  filter (fun s => andb (isLie s) (0 <? List.length (contradictedBy s))%nat)
    (statements testimony).

(* ================================================================== *)
(** * game/game_state.ts and game/game_reducer.ts                      *)
(* ================================================================== *)

Record PlayerKnowledge : Type := mkPlayerKnowledge {
  discoveredClues : list ClueId;            (* ReadonlySet<ClueId> *)
  examinedLocations : list LocationId;      (* ReadonlySet<LocationId> *)
  interrogatedSuspects : list SuspectId;    (* ReadonlySet<SuspectId> *)
  revealedContradictions : list string;     (* ReadonlySet<string> *)
  notes : list (SuspectId * string)         (* ReadonlyMap<SuspectId, string> *)
}.

Record InterrogationState : Type := mkInterrogationState {
  interrogation_suspectId : SuspectId;
  currentStatementIndex : Z;
  pressedStatements : list Z;               (* ReadonlySet<number> *)
  presentedEvidence : list (Z * ClueId)     (* ReadonlyMap<number, ClueId> *)
}.

Record Accusation : Type := mkAccusation {
  accusedId : SuspectId;
  accusation_motive : MotiveType;
  supportingEvidence : list ClueId
}.

Record GameResult : Type := mkGameResult {
  won : bool;
  correctKiller : SuspectId;
  playerAccused : SuspectId;
  cluesFound : nat;
  totalClues : nat;
  contradictionsFound : nat;
  totalContradictions : nat
}.

Record GameState : Type := mkGameState {
  phase : GamePhase;
  generatedCase : Case;
  playerKnowledge : PlayerKnowledge;
  currentLocation : option LocationId;
  interrogation : option InterrogationState;
  accusation_ : option Accusation;
  result : option GameResult;
  mistakeCount : Z;
  maxMistakes : Z;
  searchTokens : Z
}.

Definition createInitialPlayerKnowledge : PlayerKnowledge :=
  mkPlayerKnowledge [] [] [] [] [].

Definition createInitialGameState (generatedCase : Case) : GameState :=
  mkGameState intro generatedCase createInitialPlayerKnowledge
    (Some (crimeScene generatedCase)) None None None 0 5 3.

Inductive GameAction : Type :=
| START_GAME
| EXAMINE_LOCATION (locationId : LocationId)
| DISCOVER_CLUE (clueId : ClueId)
| START_INTERROGATION (suspectId : SuspectId)
| END_INTERROGATION
| NEXT_STATEMENT
| PREVIOUS_STATEMENT
| PRESS_STATEMENT
| PRESENT_EVIDENCE (clueId : ClueId) (statement : Statement)
| ADD_NOTE (suspectId : SuspectId) (note : string)
| START_ACCUSATION
| SET_ACCUSATION (accusation : Accusation)
| CONFIRM_ACCUSATION (testimonies : list (string * Testimony))
| CANCEL_ACCUSATION
| ADD_SEARCH_TOKENS (amount : Z)
| SPEND_SEARCH_TOKEN.

(** [new Set([...s, x])] on numbers and [new Map([...m, [k, v]])] on
    number keys. *)
Definition zsetAdd (s : list Z) (x : Z) : list Z :=
  if existsb (Z.eqb x) s then s else s ++ [x].

Fixpoint zmapSet {V} (m : list (Z * V)) (k : Z) (v : V) : list (Z * V) :=
  match m with
  | [] => [(k, v)]
  | (k', v') :: m' =>
      if (k' =? k)%Z then (k', v) :: m' else (k', v') :: zmapSet m' k v
  end.

Definition countTotalContradictions (testimonies : list (string * Testimony))
  : nat :=
  fold_left
    (fun count kv =>
       fold_left
         (fun count statement =>
            if andb (isLie statement)
                    (0 <? List.length (contradictedBy statement))%nat
            then S count else count)
         (statements (snd kv)) count)
    testimonies 0%nat.

Definition setInterrogation (state : GameState) (i : option InterrogationState)
  : GameState :=
  mkGameState (phase state) (generatedCase state) (playerKnowledge state)
    (currentLocation state) i (accusation_ state) (result state)
    (mistakeCount state) (maxMistakes state) (searchTokens state).

Definition setPlayerKnowledge (state : GameState) (k : PlayerKnowledge)
  : GameState :=
  mkGameState (phase state) (generatedCase state) k
    (currentLocation state) (interrogation state) (accusation_ state)
    (result state) (mistakeCount state) (maxMistakes state)
    (searchTokens state).

Definition setPhase (state : GameState) (p : GamePhase) : GameState :=
  mkGameState p (generatedCase state) (playerKnowledge state)
    (currentLocation state) (interrogation state) (accusation_ state)
    (result state) (mistakeCount state) (maxMistakes state)
    (searchTokens state).

(** The pure reducer: a total function, no branch of which throws. *)
Definition gameReducer (state : GameState) (action : GameAction) : GameState :=
  let k := playerKnowledge state in
  match action with
  | START_GAME => setPhase state investigation
  | EXAMINE_LOCATION locationId =>
      mkGameState (phase state) (generatedCase state)
        (mkPlayerKnowledge (discoveredClues k)
           (setAdd (examinedLocations k) locationId)
           (interrogatedSuspects k) (revealedContradictions k) (notes k))
        (Some locationId) (interrogation state) (accusation_ state)
        (result state) (mistakeCount state) (maxMistakes state)
        (searchTokens state)
  | DISCOVER_CLUE clueId =>
      setPlayerKnowledge state
        (mkPlayerKnowledge (setAdd (discoveredClues k) clueId)
           (examinedLocations k) (interrogatedSuspects k)
           (revealedContradictions k) (notes k))
  | START_INTERROGATION suspectId =>
      setPlayerKnowledge
        (setInterrogation state
           (Some (mkInterrogationState suspectId 0 [] [])))
        (mkPlayerKnowledge (discoveredClues k) (examinedLocations k)
           (setAdd (interrogatedSuspects k) suspectId)
           (revealedContradictions k) (notes k))
  | END_INTERROGATION => setInterrogation state None
  | NEXT_STATEMENT =>
      match interrogation state with
      | None => state
      | Some i =>
          setInterrogation state
            (Some (mkInterrogationState (interrogation_suspectId i)
                     (currentStatementIndex i + 1)
                     (pressedStatements i) (presentedEvidence i)))
      end
  | PREVIOUS_STATEMENT =>
      match interrogation state with
      | None => state
      | Some i =>
          setInterrogation state
            (Some (mkInterrogationState (interrogation_suspectId i)
                     (Z.max 0 (currentStatementIndex i - 1))
                     (pressedStatements i) (presentedEvidence i)))
      end
  | PRESS_STATEMENT =>
      match interrogation state with
      | None => state
      | Some i =>
          setInterrogation state
            (Some (mkInterrogationState (interrogation_suspectId i)
                     (currentStatementIndex i)
                     (zsetAdd (pressedStatements i) (currentStatementIndex i))
                     (presentedEvidence i)))
      end
  | PRESENT_EVIDENCE clueId statement =>
      match interrogation state with
      | None => state
      | Some i =>
          let isContradiction := checkContradiction statement clueId in
          if isContradiction then
            setPlayerKnowledge
              (setInterrogation state
                 (Some (mkInterrogationState (interrogation_suspectId i)
                          (currentStatementIndex i) (pressedStatements i)
                          (zmapSet (presentedEvidence i)
                             (currentStatementIndex i) clueId))))
              (mkPlayerKnowledge (discoveredClues k) (examinedLocations k)
                 (interrogatedSuspects k)
                 (setAdd (revealedContradictions k) (statement_id statement))
                 (notes k))
          else
            mkGameState (phase state) (generatedCase state)
              (playerKnowledge state) (currentLocation state)
              (interrogation state) (accusation_ state) (result state)
              (mistakeCount state + 1) (maxMistakes state) (searchTokens state)
      end
  | ADD_NOTE suspectId note =>
      setPlayerKnowledge state
        (mkPlayerKnowledge (discoveredClues k) (examinedLocations k)
           (interrogatedSuspects k) (revealedContradictions k)
           (mapSet (notes k) suspectId note))
  | START_ACCUSATION => setPhase state accusation
  | SET_ACCUSATION theAccusation =>
      mkGameState (phase state) (generatedCase state) (playerKnowledge state)
        (currentLocation state) (interrogation state) (Some theAccusation)
        (result state) (mistakeCount state) (maxMistakes state)
        (searchTokens state)
  | CONFIRM_ACCUSATION testimonies =>
      match accusation_ state with
      | None => state
      | Some a =>
          let correctKiller := killer (generatedCase state) in
          let won := String.eqb (accusedId a) correctKiller in
          let totalContradictions := countTotalContradictions testimonies in
          let result :=
            mkGameResult won correctKiller (accusedId a)
              (List.length (discoveredClues k))
              (List.length (clues (generatedCase state)))
              (List.length (revealedContradictions k))
              totalContradictions in
          mkGameState resolution (generatedCase state) (playerKnowledge state)
            (currentLocation state) (interrogation state) (accusation_ state)
            (Some result) (mistakeCount state) (maxMistakes state)
            (searchTokens state)
      end
  | CANCEL_ACCUSATION =>
      mkGameState investigation (generatedCase state) (playerKnowledge state)
        (currentLocation state) (interrogation state) None
        (result state) (mistakeCount state) (maxMistakes state)
        (searchTokens state)
  | ADD_SEARCH_TOKENS amount =>
      mkGameState (phase state) (generatedCase state) (playerKnowledge state)
        (currentLocation state) (interrogation state) (accusation_ state)
        (result state) (mistakeCount state) (maxMistakes state)
        (searchTokens state + amount)
  | SPEND_SEARCH_TOKEN =>
      mkGameState (phase state) (generatedCase state) (playerKnowledge state)
        (currentLocation state) (interrogation state) (accusation_ state)
        (result state) (mistakeCount state) (maxMistakes state)
        (Z.max 0 (searchTokens state - 1))
  end.

(** [store.dispatch] applied to a sequence of actions. *)
Definition dispatchAll (state : GameState) (actions : list GameAction)
  : GameState :=
  fold_left gameReducer actions state.

(* ================================================================== *)
(** * game/panel_puzzle.ts                                             *)
(* ================================================================== *)

Module PanelPuzzle.

Inductive PanelType : Type :=
| magnifier | fingerprint | document | witness | key | flashlight.

Inductive BonusType : Type := line_h | line_v | cross | blast.

Record Panel : Type := mkPanel {
  panel_type : PanelType;
  bonus : option BonusType;
  panel_row : Z;
  panel_col : Z;
  panel_id : string
}.

Record Pos : Type := mkPos { row : Z; col : Z }.

Inductive Direction : Type := horizontal | vertical | both.

Inductive Shape : Type := shape_line | shape_L | shape_T.

Record Match : Type := mkMatch {
  positions : list Pos;
  direction : Direction;
  shape : Shape;
  match_type : PanelType
}.

(** [(Panel | null)[][]]: a list of rows.  Every state the engine builds
    has [GRID_ROWS] rows of [GRID_COLS] cells ([wf_grid] below). *)
Definition Grid : Type := list (list (option Panel)).

Record PanelPuzzleState : Type := mkPanelPuzzleState {
  grid : Grid;
  score : Z;
  combo : Z;
  targetScore : Z;
  timeRemaining : Q;
  isAnimating : bool;
  isGameOver : bool;
  riseProgress : Q;
  nextRow : list Panel;
  selected : option Pos
}.

Record SwapResult : Type := mkSwapResult {
  swapped : bool;
  state : PanelPuzzleState
}.

Definition GRID_ROWS : nat := 12.
Definition GRID_COLS : nat := 6.

Definition PanelType_eqb (a b : PanelType) : bool :=
  match a, b with
  | magnifier, magnifier | fingerprint, fingerprint | document, document
  | witness, witness | key, key | flashlight, flashlight => true
  | _, _ => false
  end.

Definition Pos_eqb (p q : Pos) : bool :=
  andb (row p =? row q)%Z (col p =? col q)%Z.

(** [`panel-${panelIdCounter++}`]: the module-level counter is threaded
    through the functions that create panels. *)
Definition generatePanelId (panelIdCounter : nat) : string * nat :=
  ("panel-" ^^ string_of_nat panelIdCounter, S panelIdCounter).

(** [grid[row][col]] inside the grid; [None] stands for [null] (and for
    the [undefined] of a cell outside the grid). *)
Definition cell (g : Grid) (r c : Z) : option Panel :=
  if orb (r <? 0)%Z (c <? 0)%Z then None
  else nth (Z.to_nat c) (nth (Z.to_nat r) g []) None.

(** [grid[row][col] = v] inside the grid.  Outside the grid the source
    throws (missing row) or grows the row (missing column); this is left
    out of the model, which leaves the grid unchanged there. *)
Definition setCell (g : Grid) (r c : Z) (v : option Panel) : Grid :=
  if orb (r <? 0)%Z (c <? 0)%Z then g
  else
    match nth_error g (Z.to_nat r) with
    | Some rw => setNth (Z.to_nat r) (setNth (Z.to_nat c) v rw) g
    | None => g
    end.

Definition wf_grid (g : Grid) : Prop :=
  List.length g = GRID_ROWS /\
  Forall (fun rw => List.length rw = GRID_COLS) g.

Definition in_grid (r c : Z) : Prop :=
  (0 <= r < Z.of_nat GRID_ROWS)%Z /\ (0 <= c < Z.of_nat GRID_COLS)%Z.

Definition withSelected (s : PanelPuzzleState) (sel : option Pos)
  : PanelPuzzleState :=
  mkPanelPuzzleState (grid s) (score s) (combo s) (targetScore s)
    (timeRemaining s) (isAnimating s) (isGameOver s) (riseProgress s)
    (nextRow s) sel.

Definition selectPanel (s : PanelPuzzleState) (r c : Z) : PanelPuzzleState :=
  if orb (isAnimating s) (isGameOver s) then withSelected s None
  else
    match cell (grid s) r c with
    | None => s
    | Some _ =>
        match selected s with
        | Some sel =>
            if andb (row sel =? r)%Z (col sel =? c)%Z
            then withSelected s None
            else withSelected s (Some (mkPos r c))
        | None => withSelected s (Some (mkPos r c))
        end
    end.

Definition isAdjacent (row1 col1 row2 col2 : Z) : bool :=
  let rowDiff := Z.abs (row1 - row2) in
  let colDiff := Z.abs (col1 - col2) in
  orb (andb (rowDiff =? 1)%Z (colDiff =? 0)%Z)
      (andb (rowDiff =? 0)%Z (colDiff =? 1)%Z).

(** [{ ...panel, row, col }] on a cell that holds a panel. *)
Definition moveTo (r c : Z) (p : option Panel) : option Panel :=
  match p with
  | Some p => Some (mkPanel (panel_type p) (bonus p) r c (panel_id p))
  | None => None
  end.

(** The grid copy of [trySwap] after the two writes and the two
    position updates. *)
Definition swapCells (g : Grid) (selectedRow selectedCol targetRow targetCol : Z)
  : Grid :=
  let panel1 := cell g selectedRow selectedCol in
  let panel2 := cell g targetRow targetCol in
  let newGrid := setCell g selectedRow selectedCol panel2 in
  let newGrid := setCell newGrid targetRow targetCol panel1 in
  let newGrid :=
    setCell newGrid selectedRow selectedCol
      (moveTo selectedRow selectedCol (cell newGrid selectedRow selectedCol)) in
  setCell newGrid targetRow targetCol
    (moveTo targetRow targetCol (cell newGrid targetRow targetCol)).

(* ------------------------------------------------------------------ *)
(** ** findMatches                                                     *)
(* ------------------------------------------------------------------ *)

(** An element [{ row, col, type }] of a sequence. *)
Record SeqItem : Type := mkSeqItem {
  item_row : Z;
  item_col : Z;
  item_type : PanelType
}.

(** A sequence pushed to [horizontalSequences] or [verticalSequences].
    The source compares sequences by object identity ([Set.has]); the
    identity of a sequence is its index [seq_id] in the list it was pushed
    to. *)
Record Sequence : Type := mkSequence {
  seq_id : nat;
  items : list SeqItem
}.

(** One step of the inner loop: [st] is [(sequence, found)] where [found]
    are the runs of length at least 3 already closed. *)
Definition scanStep (st : list SeqItem * list (list SeqItem))
  (x : Z * Z * option Panel) : list SeqItem * list (list SeqItem) :=
  let '(sequence, found) := st in
  let '(r, c, panel) := x in
  match panel with
  | Some p =>
      match sequence with
      | [] => (sequence ++ [mkSeqItem r c (panel_type p)], found)
      | first :: _ =>
          if PanelType_eqb (panel_type p) (item_type first)
          then (sequence ++ [mkSeqItem r c (panel_type p)], found)
          else ([mkSeqItem r c (panel_type p)],
                if (3 <=? List.length sequence)%nat
                then found ++ [sequence] else found)
      end
  | None =>
      ([], if (3 <=? List.length sequence)%nat
           then found ++ [sequence] else found)
  end.

(** The scan of one row or one column, with the check after the loop. *)
Definition scanLine (cells : list (Z * Z * option Panel))
  : list (list SeqItem) :=
  let '(sequence, found) := fold_left scanStep cells ([], []) in
  if (3 <=? List.length sequence)%nat then found ++ [sequence] else found.

Definition rowCells (g : Grid) (r : nat) : list (Z * Z * option Panel) :=
  map (fun c => (Z.of_nat r, Z.of_nat c, cell g (Z.of_nat r) (Z.of_nat c)))
      (seq 0 GRID_COLS).

Definition colCells (g : Grid) (c : nat) : list (Z * Z * option Panel) :=
  map (fun r => (Z.of_nat r, Z.of_nat c, cell g (Z.of_nat r) (Z.of_nat c)))
      (seq 0 GRID_ROWS).

Definition number (runs : list (list SeqItem)) : list Sequence :=
  map (fun '(i, s) => mkSequence i s) (combine (seq 0 (List.length runs)) runs).

Definition horizontalSequences (g : Grid) : list Sequence :=
  number (flat_map (fun r => scanLine (rowCells g r)) (seq 0 GRID_ROWS)).

Definition verticalSequences (g : Grid) : list Sequence :=
  number (flat_map (fun c => scanLine (colCells g c)) (seq 0 GRID_COLS)).

(** [positionToSequences]: a [Map] from the key [`${row},${col}`] to
    [{ h?, v? }], in insertion order. *)
Definition PosMap : Type := list (Pos * (option Sequence * option Sequence)).

Fixpoint setH (m : PosMap) (k : Pos) (s : Sequence) : PosMap :=
  match m with
  | [] => [(k, (Some s, None))]
  | (k', (h, v)) :: m' =>
      if Pos_eqb k' k then (k', (Some s, v)) :: m'
      else (k', (h, v)) :: setH m' k s
  end.

Fixpoint setV (m : PosMap) (k : Pos) (s : Sequence) : PosMap :=
  match m with
  | [] => [(k, (None, Some s))]
  | (k', (h, v)) :: m' =>
      if Pos_eqb k' k then (k', (h, Some s)) :: m'
      else (k', (h, v)) :: setV m' k s
  end.

Definition itemPos (i : SeqItem) : Pos := mkPos (item_row i) (item_col i).

Definition positionToSequences (hs vs : list Sequence) : PosMap :=
  let m :=
    fold_left (fun m s => fold_left (fun m i => setH m (itemPos i) s) (items s) m)
      hs [] in
  fold_left (fun m s => fold_left (fun m i => setV m (itemPos i) s) (items s) m)
    vs m.

(** [new Set<string>()] of position keys, in insertion order. *)
Definition posSetAdd (s : list Pos) (p : Pos) : list Pos :=
  if existsb (Pos_eqb p) s then s else s ++ [p].

Definition hasId (processed : list nat) (s : Sequence) : bool :=
  existsb (Nat.eqb (seq_id s)) processed.

Definition defaultItem : SeqItem := mkSeqItem 0 0 magnifier.

(** One step of the loop over [positionToSequences]; the state is
    [(matches, processedH, processedV)]. *)
Definition intersectStep (st : list Match * list nat * list nat)
  (entry : Pos * (option Sequence * option Sequence))
  : list Match * list nat * list nat :=
  let '(matches, processedH, processedV) := st in
  match entry with
  | (key_, (Some h, Some v)) =>
      if andb (negb (hasId processedH h)) (negb (hasId processedV v)) then
        let allPositions :=
          fold_left posSetAdd (map itemPos (items v))
            (fold_left posSetAdd (map itemPos (items h)) []) in
        let intRow := row key_ in
        let intCol := col key_ in
        let hStart := item_col (hd defaultItem (items h)) in
        let hEnd := item_col (last (items h) defaultItem) in
        let vStart := item_row (hd defaultItem (items v)) in
        let vEnd := item_row (last (items v) defaultItem) in
        let isHMiddle := andb (hStart <? intCol)%Z (intCol <? hEnd)%Z in
        let isVMiddle := andb (vStart <? intRow)%Z (intRow <? vEnd)%Z in
        let shape := if orb isHMiddle isVMiddle then shape_T else shape_L in
        (matches ++
         [mkMatch allPositions both shape
            (item_type (hd defaultItem (items h)))],
         processedH ++ [seq_id h], processedV ++ [seq_id v])
      else st
  | _ => st
  end.

Definition lineMatch (d : Direction) (s : Sequence) : Match :=
  mkMatch (map itemPos (items s)) d shape_line
    (item_type (hd defaultItem (items s))).

Definition findMatches (g : Grid) : list Match :=
  let hs := horizontalSequences g in
  let vs := verticalSequences g in
  let '(matches, processedH, processedV) :=
    fold_left intersectStep (positionToSequences hs vs) ([], [], []) in
  let matches :=
    matches ++
    map (lineMatch horizontal)
      (filter (fun s => negb (hasId processedH s)) hs) in
  matches ++
  map (lineMatch vertical)
    (filter (fun s => negb (hasId processedV s)) vs).

(* ------------------------------------------------------------------ *)
(** ** trySwap                                                         *)
(* ------------------------------------------------------------------ *)

Definition trySwap (s : PanelPuzzleState) (targetRow targetCol : Z)
  : SwapResult :=
  match selected s with
  | None => mkSwapResult false s
  | Some sel =>
      let selectedRow := row sel in
      let selectedCol := col sel in
      if negb (isAdjacent selectedRow selectedCol targetRow targetCol) then
        mkSwapResult false s
      else
        let newGrid :=
          swapCells (grid s) selectedRow selectedCol targetRow targetCol in
        let matches := findMatches newGrid in
        if (List.length matches =? 0)%nat then
          mkSwapResult false (withSelected s None)
        else
          mkSwapResult true
            (mkPanelPuzzleState newGrid (score s) (combo s) (targetScore s)
               (timeRemaining s) true (isGameOver s) (riseProgress s)
               (nextRow s) None)
  end.

(* ------------------------------------------------------------------ *)
(** ** processMatches                                                  *)
(* ------------------------------------------------------------------ *)

Record BonusInfo : Type := mkBonusInfo {
  bi_row : Z;
  bi_col : Z;
  bi_bonus : BonusType
}.

Record BonusToCreate : Type := mkBonusToCreate {
  btc_row : Z;
  btc_col : Z;
  btc_type : PanelType;
  btc_bonus : BonusType
}.

(** [match.positions[Math.floor(match.positions.length / 2)]]; a match
    found by [findMatches] has at least three positions. *)
Definition centerPos (m : Match) : Pos :=
  nth (List.length (positions m) / 2) (positions m) (mkPos 0 0).

(** The [if / else if / else if] chain deciding whether a match earns a
    bonus: [None] when no branch is taken. *)
Definition bonusFor (m : Match) : option BonusToCreate :=
  match shape m with
  | shape_L | shape_T =>
      Some (mkBonusToCreate (row (centerPos m)) (col (centerPos m))
              (match_type m) blast)
  | shape_line =>
      if (5 <=? List.length (positions m))%nat then
        Some (mkBonusToCreate (row (centerPos m)) (col (centerPos m))
                (match_type m) cross)
      else if (List.length (positions m) =? 4)%nat then
        Some (mkBonusToCreate (row (centerPos m)) (col (centerPos m))
                (match_type m)
                (match direction m with
                 | horizontal => line_h
                 | _ => line_v
                 end))
      else None
  end.

(** The bonuses carried by the panels at given positions, in order. *)
Definition bonusesAt (g : Grid) (ps : list Pos) : list BonusInfo :=
  flat_map
    (fun pos =>
       match cell g (row pos) (col pos) with
       | Some panel =>
           match bonus panel with
           | Some b => [mkBonusInfo (row pos) (col pos) b]
           | None => []
           end
       | None => []
       end)
    ps.

Definition clearAll (g : Grid) (ps : list Pos) : Grid :=
  fold_left (fun g pos => setCell g (row pos) (col pos) None) ps g.

(** The body of [for (const match of matches)]; the state is
    [(newGrid, bonusesToActivate, bonusToCreate)]. *)
Definition processMatch (st : Grid * list BonusInfo * option BonusToCreate)
  (m : Match) : Grid * list BonusInfo * option BonusToCreate :=
  let '(newGrid, bonusesToActivate, bonusToCreate) := st in
  let bonusToCreate :=
    match bonusFor m with
    | Some b => Some b
    | None => bonusToCreate
    end in
  let bonusesToActivate :=
    bonusesToActivate ++ bonusesAt newGrid (positions m) in
  let newGrid := clearAll newGrid (positions m) in
  (newGrid, bonusesToActivate, bonusToCreate).

Definition occupied (g : Grid) (r c : Z) : bool :=
  match cell g r c with Some _ => true | None => false end.

Definition activateBonus (g : Grid) (r c : Z) (b : BonusType) : list Pos :=
  let rowPositions :=
    flat_map (fun c' => if occupied g r (Z.of_nat c')
                        then [mkPos r (Z.of_nat c')] else [])
      (seq 0 GRID_COLS) in
  match b with
  | line_h => rowPositions
  | line_v =>
      flat_map (fun r' => if occupied g (Z.of_nat r') c
                          then [mkPos (Z.of_nat r') c] else [])
        (seq 0 GRID_ROWS)
  | cross =>
      rowPositions ++
      flat_map (fun r' => if andb (occupied g (Z.of_nat r') c)
                                  (negb (Z.of_nat r' =? r)%Z)
                          then [mkPos (Z.of_nat r') c] else [])
        (seq 0 GRID_ROWS)
  | blast =>
      flat_map
        (fun dr =>
           flat_map
             (fun dc =>
                let r' := (r + dr)%Z in
                let c' := (c + dc)%Z in
                if andb (andb (andb (0 <=? r')%Z (r' <? Z.of_nat GRID_ROWS)%Z)
                              (andb (0 <=? c')%Z (c' <? Z.of_nat GRID_COLS)%Z))
                        (occupied g r' c')
                then [mkPos r' c'] else [])
             [(-1)%Z; 0%Z; 1%Z])
        [(-1)%Z; 0%Z; 1%Z]
  end.

(** The loop over [clearedPositions] inside the activation loop; the state
    is [(newGrid, bonusesToActivate)]. *)
Definition chainStep (activatedPositions : list Pos)
  (st : Grid * list BonusInfo) (pos : Pos) : Grid * list BonusInfo :=
  let '(newGrid, bonusesToActivate) := st in
  let bonusesToActivate :=
    match cell newGrid (row pos) (col pos) with
    | Some panel =>
        match bonus panel with
        | Some b =>
            if negb (existsb (Pos_eqb pos) activatedPositions)
            then bonusesToActivate ++ [mkBonusInfo (row pos) (col pos) b]
            else bonusesToActivate
        | None => bonusesToActivate
        end
    | None => bonusesToActivate
    end in
  (setCell newGrid (row pos) (col pos) None, bonusesToActivate).

(** [while (bonusesToActivate.length > 0) { ... }]; [None] when the fuel
    is used up before the queue is empty. *)
Fixpoint activateAll (fuel : nat) (newGrid : Grid)
  (bonusesToActivate : list BonusInfo) (activatedPositions : list Pos)
  : option Grid :=
  match bonusesToActivate with
  | [] => Some newGrid
  | bonusInfo :: rest =>
      match fuel with
      | O => None
      | S fuel' =>
          let key_ := mkPos (bi_row bonusInfo) (bi_col bonusInfo) in
          if existsb (Pos_eqb key_) activatedPositions then
            activateAll fuel' newGrid rest activatedPositions
          else
            let activatedPositions := activatedPositions ++ [key_] in
            let clearedPositions :=
              activateBonus newGrid (bi_row bonusInfo) (bi_col bonusInfo)
                (bi_bonus bonusInfo) in
            let '(newGrid, rest) :=
              fold_left (chainStep activatedPositions) clearedPositions
                (newGrid, rest) in
            activateAll fuel' newGrid rest activatedPositions
      end
  end.

(** The number of panels in a row and on the grid. *)
Definition rowCount (rw : list (option Panel)) : nat :=
  List.length (filter (fun c => match c with Some _ => true | None => false end)
                 rw).

Definition panelCount (g : Grid) : nat := list_sum (map rowCount g).

(** Enough fuel for the activation loop: every iteration removes an entry
    of the queue or an occupied cell of the grid. *)
Definition activationFuel (g : Grid) (queue : list BonusInfo) : nat :=
  S (panelCount g + List.length queue).

(** [Math.floor(baseScore * (1 + state.combo * 0.5))] *)
Definition comboScore (baseScore comboNow : Z) : Z :=
  Qfloor (inject_Z baseScore * (1 + inject_Z comboNow * (1 # 2)))%Q.

Definition baseScoreOf (matches : list Match) : Z :=
  fold_left (fun sum m => (sum + Z.of_nat (List.length (positions m)) * 10)%Z)
    matches 0%Z.

(** The grid after the matched panels are cleared and the bonuses they
    carried are activated, and the bonus earned (if any). *)
Definition resolveMatches (g : Grid) (matches : list Match)
  : option (Grid * option BonusToCreate) :=
  let '(newGrid, bonusesToActivate, bonusToCreate) :=
    fold_left processMatch matches (g, [], None) in
  match activateAll (activationFuel newGrid bonusesToActivate) newGrid
          bonusesToActivate [] with
  | Some newGrid => Some (newGrid, bonusToCreate)
  | None => None
  end.

(** [if (bonusToCreate && newGrid[...] === null) { newGrid[...] = {...} }] *)
Definition placeBonus (panelIdCounter : nat) (newGrid : Grid)
  (bonusToCreate : option BonusToCreate) : Grid * nat :=
  match bonusToCreate with
  | Some b =>
      match cell newGrid (btc_row b) (btc_col b) with
      | None =>
          let '(id, panelIdCounter') := generatePanelId panelIdCounter in
          (setCell newGrid (btc_row b) (btc_col b)
             (Some (mkPanel (btc_type b) (Some (btc_bonus b))
                      (btc_row b) (btc_col b) id)),
           panelIdCounter')
      | Some _ => (newGrid, panelIdCounter)
      end
  | None => (newGrid, panelIdCounter)
  end.

(** [processMatches]; the first component of the argument and of the
    result is the module-level [panelIdCounter]. *)
Definition processMatches (panelIdCounter : nat) (s : PanelPuzzleState)
  : Res (PanelPuzzleState * nat) :=
  let matches := findMatches (grid s) in
  if (List.length matches =? 0)%nat then
    Ok (mkPanelPuzzleState (grid s) (score s) (combo s) (targetScore s)
          (timeRemaining s) false (isGameOver s) (riseProgress s)
          (nextRow s) (selected s),
        panelIdCounter)
  else
    match resolveMatches (grid s) matches with
    | None => OutOfFuel
    | Some (newGrid, bonusToCreate) =>
        let '(newGrid, panelIdCounter') :=
          placeBonus panelIdCounter newGrid bonusToCreate in
        let baseScore := baseScoreOf matches in
        let newScore := (score s + comboScore baseScore (combo s))%Z in
        Ok (mkPanelPuzzleState newGrid newScore (combo s + 1)
              (targetScore s) (timeRemaining s) true (isGameOver s)
              (riseProgress s) (nextRow s) (selected s),
            panelIdCounter')
    end.

Definition resetComboIfNoMatch (s : PanelPuzzleState) : PanelPuzzleState :=
  let matches := findMatches (grid s) in
  if (List.length matches =? 0)%nat then
    mkPanelPuzzleState (grid s) (score s) 0 (targetScore s)
      (timeRemaining s) (isAnimating s) (isGameOver s) (riseProgress s)
      (nextRow s) (selected s)
  else s.

(* ------------------------------------------------------------------ *)
(** ** findValidMove and hasValidMoves                                 *)
(* ------------------------------------------------------------------ *)

(** [{ from, to }] *)
Record Move : Type := mkMove { move_from : Pos; move_to : Pos }.

(** The test grid of [findValidMove]: the two cells exchanged, the panels
    keeping their [row] and [col] fields. *)
Definition swapTest (g : Grid) (r1 c1 r2 c2 : Z) : Grid :=
  let temp := cell g r1 c1 in
  setCell (setCell g r1 c1 (cell g r2 c2)) r2 c2 temp.

Definition isPanel (p : option Panel) : bool :=
  match p with Some _ => true | None => false end.

(** The body of the two loops at the cell [(row, col)]: [None] stands for
    going on with the next cell. *)
Definition tryMoves (g : Grid) (r c : nat) : option Move :=
  let row_ := Z.of_nat r in
  let col_ := Z.of_nat c in
  if negb (isPanel (cell g row_ col_)) then None
  else if andb (andb (col_ <? Z.of_nat GRID_COLS - 1)%Z
                     (isPanel (cell g row_ (col_ + 1))))
               (0 <? List.length
                       (findMatches (swapTest g row_ col_ row_ (col_ + 1))))%nat
  then Some (mkMove (mkPos row_ col_) (mkPos row_ (col_ + 1)))
  else if andb (andb (row_ <? Z.of_nat GRID_ROWS - 1)%Z
                     (isPanel (cell g (row_ + 1) col_)))
               (0 <? List.length
                       (findMatches (swapTest g row_ col_ (row_ + 1) col_)))%nat
  then Some (mkMove (mkPos row_ col_) (mkPos (row_ + 1) col_))
  else None.

(** A loop left by [return] at the first result. *)
Fixpoint firstSome {A B} (f : A -> option B) (l : list A) : option B :=
  match l with
  | [] => None
  | x :: l' => match f x with Some y => Some y | None => firstSome f l' end
  end.

Definition findValidMove (s : PanelPuzzleState) : option Move :=
  firstSome
    (fun r => firstSome (fun c => tryMoves (grid s) r c) (seq 0 GRID_COLS))
    (seq 0 GRID_ROWS).

Definition hasValidMoves (s : PanelPuzzleState) : bool :=
  match findValidMove s with Some _ => true | None => false end.


(* ------------------------------------------------------------------ *)
(** ** applyGravity                                                    *)
(* ------------------------------------------------------------------ *)

Definition PANEL_TYPES : list PanelType :=
  [magnifier; fingerprint; document; witness; key; flashlight].

(** [PANEL_TYPES[Math.floor(Math.random() * PANEL_TYPES.length)]], [u]
    being the number drawn; [Math.random] returns numbers in [0, 1), for
    which the index is inside the array. *)
Definition randomPanelType (u : Q) : PanelType :=
  nth (Z.to_nat (Qfloor (u * inject_Z (Z.of_nat (List.length PANEL_TYPES)))))
    PANEL_TYPES magnifier.

(** [row = from, from - 1, ..., 0] *)
Definition rowsDown (from : Z) : list Z :=
  map Z.of_nat (rev (seq 0 (Z.to_nat (from + 1)))).

(** One step of the scan of a column from bottom to top; the state is
    [(newGrid, writeRow)]. *)
Definition fallStep (col_ : Z) (st : Grid * Z) (row_ : Z) : Grid * Z :=
  let '(newGrid, writeRow) := st in
  match cell newGrid row_ col_ with
  | Some p =>
      if negb (row_ =? writeRow)%Z then
        (setCell
           (setCell newGrid writeRow col_
              (Some (mkPanel (panel_type p) (bonus p) writeRow (panel_col p)
                       (panel_id p))))
           row_ col_ None,
         (writeRow - 1)%Z)
      else (newGrid, (writeRow - 1)%Z)
  | None => st
  end.

(** One step of the loop that fills the top of a column; the state is
    [(newGrid, drawn, panelIdCounter)], [drawn] counting the calls of
    [Math.random]. *)
Definition spawnStep (mathRandom : nat -> Q) (col_ : Z)
  (st : Grid * nat * nat) (row_ : Z) : Grid * nat * nat :=
  let '(newGrid, drawn, panelIdCounter) := st in
  if (6 <=? row_)%Z then
    let type_ := randomPanelType (mathRandom drawn) in
    let '(id, panelIdCounter') := generatePanelId panelIdCounter in
    (setCell newGrid row_ col_ (Some (mkPanel type_ None row_ col_ id)),
     S drawn, panelIdCounter')
  else st.

Definition gravityColumn (mathRandom : nat -> Q) (st : Grid * nat * nat)
  (col_ : Z) : Grid * nat * nat :=
  let '(newGrid, drawn, panelIdCounter) := st in
  let '(newGrid, writeRow) :=
    fold_left (fallStep col_) (rowsDown (Z.of_nat GRID_ROWS - 1))
      (newGrid, (Z.of_nat GRID_ROWS - 1)%Z) in
  fold_left (spawnStep mathRandom col_) (rowsDown writeRow)
    (newGrid, drawn, panelIdCounter).

(** [applyGravity] on a grid of 12 rows of 6 cells; the numbers drawn so
    far and the module-level [panelIdCounter] are threaded through. *)
Definition applyGravity (mathRandom : nat -> Q) (drawn panelIdCounter : nat)
  (s : PanelPuzzleState) : PanelPuzzleState * nat * nat :=
  let '(newGrid, drawn', panelIdCounter') :=
    fold_left (gravityColumn mathRandom) (map Z.of_nat (seq 0 GRID_COLS))
      (grid s, drawn, panelIdCounter) in
  (mkPanelPuzzleState newGrid (score s) (combo s) (targetScore s)
     (timeRemaining s) (isAnimating s) (isGameOver s) (riseProgress s)
     (nextRow s) (selected s),
   drawn', panelIdCounter').

(* ------------------------------------------------------------------ *)
(** ** tick, isGameOver, isGameWon                                     *)
(* ------------------------------------------------------------------ *)

(** [isGameOver(state)], the function; [isGameOver] is the field. *)
Definition isGameOver_ (s : PanelPuzzleState) : bool :=
  orb (isGameOver s) (Qle_bool (timeRemaining s) 0).

Definition isGameWon (s : PanelPuzzleState) : bool :=
  (targetScore s <=? score s)%Z.

(** [tick]. The numbers are doubles: [state.timeRemaining - deltaSeconds]
    is rounded, so the subtraction is the parameter [minus], of which the
    theorems assume what they need; comparing two doubles and
    [Math.max(0, x)] do not round. *)
Definition tick (minus : Q -> Q -> Q) (s : PanelPuzzleState)
  (deltaSeconds : Q) : PanelPuzzleState :=
  if isGameOver s then s
  else
    let newTime :=
      (* Math.max(0, state.timeRemaining - deltaSeconds) *)
      if Qle_bool (minus (timeRemaining s) deltaSeconds) 0 then 0%Q
      else minus (timeRemaining s) deltaSeconds in
    mkPanelPuzzleState (grid s) (score s) (combo s) (targetScore s) newTime
      (isAnimating s) (if Qle_bool newTime 0 then true else isGameOver s)
      (riseProgress s) (nextRow s) (selected s).

End PanelPuzzle.

(* ================================================================== *)
(** * Definitions used to state the properties                        *)
(* ================================================================== *)

Definition suspectIdOf (i : nat) : SuspectId :=
  createSuspectId ("suspect-" ^^ string_of_nat i).

(** A freshly generated suspect is neither victim nor killer. *)
Definition unassigned (s : Suspect) : Prop :=
  isVictim s = false /\ isKiller s = false.

(** What [assignVictimAndKiller] guarantees when the identifiers of the
    suspects it is given are pairwise distinct. *)
Record assigned (ss : list Suspect) (a : Assignment) : Prop := mkAssigned {
  victim_in : exists sv, In sv ss /\ suspect_id (asg_victim a) = suspect_id sv /\
                         isKiller (asg_victim a) = isKiller sv;
  victim_flag : isVictim (asg_victim a) = true;
  killer_in : exists sk, In sk ss /\ suspect_id (asg_killer a) = suspect_id sk /\
                         isVictim (asg_killer a) = isVictim sk;
  killer_flag : isKiller (asg_killer a) = true;
  distinct_ids : suspect_id (asg_victim a) <> suspect_id (asg_killer a);
  others_in : forall o, In o (asg_others a) ->
      In o ss /\ suspect_id o <> suspect_id (asg_victim a) /\
      suspect_id o <> suspect_id (asg_killer a)
}.

(** A clue that implicates [suspectId]:
    [c.pointsTo === suspectId && !c.isRedHerring]. *)
Definition implicates (suspectId : SuspectId) (c : Clue) : bool :=
  andb (pointsToSuspect c suspectId) (negb (isRedHerring c)).

Definition implicating (suspectId : SuspectId) (cs : list Clue) : nat :=
  List.length (filter (implicates suspectId) cs).

Definition truthful (a : Alibi) : Prop :=
  isFalse a = false /\ isVerifiable a = true.

Definition fabricated (a : Alibi) : Prop :=
  isFalse a = true /\ isVerifiable a = false.

(** The facts about a case that [generateCase] establishes and the
    theorems below use. *)
Inductive generated (c : Case) : Prop :=
| Generated (v k : Suspect) (others : list Suspect)
    (innocents : list Alibi) (ka : Alibi)
    (gen_suspects : suspects c = v :: k :: others)
    (gen_victim_id : victim c = suspect_id v)
    (gen_killer_id : killer c = suspect_id k)
    (gen_victim_flags : isVictim v = true /\ isKiller v = false)
    (gen_killer_flags : isVictim k = false /\ isKiller k = true)
    (gen_others_flags : Forall unassigned others)
    (gen_distinct : suspect_id v <> suspect_id k)
    (gen_others_ids : forall o, In o others ->
        suspect_id o <> suspect_id v /\ suspect_id o <> suspect_id k)
    (gen_clues : implicating (killer c) (clues c) = 4%nat)
    (gen_alibis : Permutation (innocents ++ [ka]) (alibis c))
    (gen_innocents :
       Forall2 (fun o a => alibi_suspectId a = suspect_id o /\ truthful a)
         others innocents)
    (gen_killerAlibi_id : alibi_suspectId ka = suspect_id k)
    (gen_killerAlibi_false : fabricated ka)
    (gen_locations : Forall (fun l => isCrimeScene l = false) (locations c))
    (gen_crimeScene :
       exists l, In l (locations c) /\ location_id l = crimeScene c).

(** The statement about the alibi, if the suspect has one. *)
Definition alibiPart (suspect : Suspect) (alibi : option Alibi) (c : Case)
  : list Statement :=
  match alibi with
  | Some a => [generateAlibiStatement (nextId suspect 0) suspect a c]
  | None => []
  end.

(** The relationship with the victim the suspect is asked about. *)
Definition victimRelationshipOf (victim : Suspect) (rels : list Relationship)
  : option Relationship :=
  jsFind (fun r => orb (String.eqb (rel_to r) (suspect_id victim))
                       (String.eqb (rel_from r) (suspect_id victim)))
         rels.

Definition relationshipPart (suspect victim : Suspect) (alibi : option Alibi)
  (rels : list Relationship) (c : Case) : list Statement :=
  match victimRelationshipOf victim rels with
  | Some rel =>
      [generateRelationshipStatement
         (nextId suspect (List.length (alibiPart suspect alibi c)))
         suspect victim rel c]
  | None => []
  end.

(** [rel] links the suspects [a] and [b], in either direction. *)
Definition between (rel : Relationship) (a b : SuspectId) : Prop :=
  (rel_from rel = a /\ rel_to rel = b) \/ (rel_from rel = b /\ rel_to rel = a).

(** The scenario of C9: start the game, start the interrogation of
    [suspectId], then dispatch NEXT_STATEMENT three times. *)
Definition threeNextStatements (c : Case) (suspectId : SuspectId) : GameState :=
  dispatchAll (createInitialGameState c)
    [START_GAME; START_INTERROGATION suspectId;
     NEXT_STATEMENT; NEXT_STATEMENT; NEXT_STATEMENT].

(** A generator used to run the code on concrete inputs:
    [(3 k^2 + 5 k + 5 |seed| + 3) mod 101 / 101]. *)
Definition sampleRandom (seed : string) (k : nat) : Q :=
  Z.of_N ((N.of_nat k * N.of_nat k * 3 + N.of_nat k * 5
           + N.of_nat (String.length seed) * 5 + 3) mod 101) # 101.

Definition isOk {A} (r : Res A) : bool :=
  match r with Ok _ => true | _ => false end.

(** A source whose numbers are in [[0, 1)], the contract of [seedrandom]. *)
Definition unitSource (r : RandomSource) : Prop :=
  forall k, (0 <= stream r k)%Q /\ (stream r k < 1)%Q.

(** What [m] does on a source within [[0, 1)]: it returns a value
    satisfying [P] and leaves such a source, or throws an error satisfying
    [E]; it runs out of fuel only if [F]. *)
Definition runs {A} (m : Gen A) (P : A -> Prop) (E : JsError -> Prop)
  (F : Prop) : Prop :=
  forall r, unitSource r ->
    match m r with
    | Ok (a, r') => unitSource r' /\ P a
    | Throw e => E e
    | OutOfFuel => F
    end.

(** [m] returns, and what it returns satisfies [P]. *)
Definition returns {A} (m : Gen A) (P : A -> Prop) : Prop :=
  runs m P (fun _ => False) False.

Module PanelPuzzleSpec.
Import PanelPuzzle.

(** [(r, c)] addresses a cell of [g]. *)
Definition valid (g : Grid) (r c : Z) : Prop :=
  (0 <= r)%Z /\ (0 <= c)%Z /\
  (Z.to_nat r < List.length g)%nat /\
  (Z.to_nat c < List.length (nth (Z.to_nat r) g []))%nat.

(** The state [trySwap] commits. *)
Definition committed (s : PanelPuzzleState) (newGrid : Grid) : PanelPuzzleState :=
  mkPanelPuzzleState newGrid (score s) (combo s) (targetScore s)
    (timeRemaining s) true (isGameOver s) (riseProgress s) (nextRow s) None.

(** The bonuses earned by the matches of a list, in order, and the one
    earned by the last match that qualifies. *)
Definition qualifying (ms : list Match) : list BonusToCreate :=
  flat_map (fun m => match bonusFor m with Some b => [b] | None => [] end) ms.

Definition lastQualifying (ms : list Match) : option BonusToCreate :=
  last (map Some (qualifying ms)) None.

(** The number of bonus tiles in a row and on the grid. *)
Definition rowBonusCount (rw : list (option Panel)) : nat :=
  List.length
    (filter (fun c => match c with
                      | Some p => match bonus p with Some _ => true | None => false end
                      | None => false
                      end) rw).

Definition bonusCount (g : Grid) : nat := list_sum (map rowBonusCount g).

(** The cells matched in one wave. *)
Definition matchedCells (ms : list Match) : Z :=
  Z.of_nat (list_sum (map (fun m => List.length (positions m)) ms)).

(** The state [processMatches] returns when it finds no match. *)
Definition settled (s : PanelPuzzleState) : PanelPuzzleState :=
  mkPanelPuzzleState (grid s) (score s) (combo s) (targetScore s)
    (timeRemaining s) false (isGameOver s) (riseProgress s)
    (nextRow s) (selected s).

(** The measure that decreases along the activation loop. *)
Definition pending (st : Grid * list BonusInfo) : nat :=
  (panelCount (fst st) + List.length (snd st))%nat.


(** Grids to run the engine on: a grid is given by the panel types of its
    rows. *)
Definition samplePanel (r c : nat) (t : PanelType) : Panel :=
  mkPanel t None (Z.of_nat r) (Z.of_nat c)
    ("sample-" ^^ string_of_nat (r * GRID_COLS + c)).

Definition sampleGrid (rows : list (list (option PanelType))) : Grid :=
  map (fun '(r, ts) =>
         map (fun '(c, t) => option_map (samplePanel r c) t)
             (combine (seq 0 GRID_COLS) ts))
      (combine (seq 0 GRID_ROWS) rows).

Definition emptyRow : list (option PanelType) := repeat None GRID_COLS.

Definition sampleState (g : Grid) (comboNow : Z) (sel : option Pos)
  : PanelPuzzleState :=
  mkPanelPuzzleState g 0 comboNow 250 60 false false 0 [] sel.

(** Bottom row [A A B A C D]: swapping columns 2 and 3 makes a run of
    three; swapping columns 3 and 4 makes none. *)
Definition swapGrid : Grid :=
  sampleGrid
    (repeat emptyRow 11 ++
     [[Some magnifier; Some magnifier; Some fingerprint; Some magnifier;
       Some document; Some witness]]).

(** Two runs of four found in the same wave. *)
Definition twoRunsGrid : Grid :=
  sampleGrid
    (repeat emptyRow 10 ++
     [[Some magnifier; Some magnifier; Some magnifier; Some magnifier;
       Some fingerprint; Some document];
      [Some fingerprint; Some witness; Some witness; Some witness;
       Some witness; Some document]]).

Definition emptyGrid : Grid := sampleGrid (repeat emptyRow 12).

(** The type of the panel in a cell, if there is one. *)
Definition typeAt (g : Grid) (r c : nat) : option PanelType :=
  option_map panel_type (cell g (Z.of_nat r) (Z.of_nat c)).

(** Three panels of one type side by side in a row, or one above the
    other in a column, of the 12 x 6 grid. *)
Definition threeInRow (g : Grid) : Prop :=
  exists r c t,
    (r < GRID_ROWS)%nat /\ (c + 2 < GRID_COLS)%nat /\
    typeAt g r c = Some t /\ typeAt g r (c + 1) = Some t /\
    typeAt g r (c + 2) = Some t.

Definition threeInColumn (g : Grid) : Prop :=
  exists r c t,
    (r + 2 < GRID_ROWS)%nat /\ (c < GRID_COLS)%nat /\
    typeAt g r c = Some t /\ typeAt g (r + 1) c = Some t /\
    typeAt g (r + 2) c = Some t.

(** Three equal panel types in a row of a list. *)
Definition three (l : list (option PanelType)) : Prop :=
  exists i t,
    nth_error l i = Some (Some t) /\ nth_error l (S i) = Some (Some t) /\
    nth_error l (S (S i)) = Some (Some t).

(** The panel types along a scanned line. *)
Definition lineTypes (cells : list (Z * Z * option Panel))
  : list (option PanelType) :=
  map (fun x => option_map panel_type (snd x)) cells.


(** Two panels with a gap to their right, and a third panel of the same
    type below the gap. *)
Definition gapGrid : Grid :=
  sampleGrid
    (repeat emptyRow 10 ++
     [[Some magnifier; Some magnifier; None; None; None; None];
      [Some fingerprint; Some document; Some magnifier; Some witness;
       Some key; Some flashlight]]).

(** The cells of a column, from top to bottom, and the panels in them. *)
Definition colList (g : Grid) (c : nat) : list (option Panel) :=
  map (fun r => cell g (Z.of_nat r) (Z.of_nat c)) (seq 0 GRID_ROWS).

Definition panelsOf (l : list (option Panel)) : list Panel :=
  flat_map (fun o => match o with Some p => [p] | None => [] end) l.

(** A panel without the row it is drawn in. *)
Definition core (p : Panel) : PanelType * option BonusType * Z * string :=
  (panel_type p, bonus p, panel_col p, panel_id p).

(** Every panel of the grid carries the row it is in. *)
Definition rowsRight (l : list (option Panel)) : Prop :=
  forall r p, (r < GRID_ROWS)%nat -> nth r l None = Some p ->
              panel_row p = Z.of_nat r.

(** A column after gravity, [old] being the column before: empty cells on
    top, then the panels spawned to fill the bottom six rows, then the
    panels of [old] in their order. *)
Definition settledColumn (c : nat) (old new : list (option Panel)) : Prop :=
  exists fresh fallen,
    new = repeat None (GRID_ROWS - List.length fresh - List.length fallen)
            ++ map Some fresh ++ map Some fallen /\
    map core fallen = map core (panelsOf old) /\
    List.length fresh = (6 - List.length fallen)%nat /\
    (List.length fallen <= GRID_ROWS)%nat /\
    Forall (fun p => bonus p = None /\ panel_col p = Z.of_nat c) fresh /\
    map panel_row fresh
    = map Z.of_nat
        (seq (GRID_ROWS - List.length fresh - List.length fallen)
           (List.length fresh)) /\
    (rowsRight old ->
     map panel_row fallen
     = map Z.of_nat (seq (GRID_ROWS - List.length fallen)
                       (List.length fallen))).

(** The cells of the bottom six rows of column [c] that its own panels do
    not fill, and their number over the six columns. *)
Definition missing (g : Grid) (c : nat) : nat :=
  6 - List.length (panelsOf (colList g c)).

Definition spawned (g : Grid) : nat :=
  list_sum (map (missing g) (seq 0 GRID_COLS)).

End PanelPuzzleSpec.

(* ================================================================== *)
(** * Definitions used to state further properties                    *)
(* ================================================================== *)

(** [m] returns on every source. *)
Definition total {A} (m : Gen A) : Prop :=
  forall r, exists a r', m r = Ok (a, r').

(** The steps of one run of [generateCase] that returned the case [c]. *)
Inductive generation (seedrandom : string -> nat -> Q) (fuel : nat)
  (seed : string) (config : CaseGeneratorConfig) (c : Case) : Prop :=
| Generation (locs : list Location) (ss : list Suspect) (a : Assignment)
    (mo : MotiveType) (we : WeaponType) (cs : Location) (tod : TimeSlot)
    (rels : list Relationship) (cl : list Clue) (al : list Alibi)
    (r1 r2 r3 r4 r5 r6 r7 r8 r9 r10 : RandomSource)
    (run_locations :
       generateLocations (createRandom seedrandom seed) = Ok (locs, r1))
    (run_suspects : generateSuspects (suspectCount config) r1 = Ok (ss, r2))
    (run_assign : assignVictimAndKiller fuel ss r2 = Ok (a, r3))
    (run_motive : selectMotive r3 = Ok (mo, r4))
    (run_weapon : selectWeapon r4 = Ok (we, r5))
    (run_crimeScene : selectCrimeScene locs r5 = Ok (cs, r6))
    (run_timeOfDeath : selectTimeOfDeath r6 = Ok (tod, r7))
    (run_relationships :
       generateRelationshipGraph (asg_victim a) (asg_killer a) (asg_others a)
         mo 2 r7 = Ok (rels, r8))
    (run_clues :
       generateClues (asg_killer a) (asg_victim a) (asg_others a) mo we cs
         locs rels
         (mkClueGeneratorConfig
            (getDifficultyClueCount (difficulty config))
            (getDifficultyRedHerrings (difficulty config))) r8
       = Ok (cl, r9))
    (run_alibis :
       generateAlibis (asg_killer a) (asg_victim a) (asg_others a) locs tod r9
       = Ok (al, r10))
    (run_case :
       c = createCase seed (asg_victim a :: asg_killer a :: asg_others a)
             rels locs cl al (suspect_id (asg_victim a))
             (suspect_id (asg_killer a)) mo we (location_id cs) tod).

Definition locationIdOf (i : nat) : LocationId :=
  createLocationId ("location-" ^^ string_of_nat i).

(** What the clue generator guarantees of the clues it has built: where a
    clue is found, whom it points to, and that a red herring is refuted by
    a testimonial clue about the same suspect. *)
Definition clue_found (crimeScene : Location) (allLocations : list Location)
  (c : Clue) : Prop :=
  foundAt c = location_id crimeScene \/
  exists l, In l allLocations /\ location_id l = foundAt c.

Definition clue_points (killer : Suspect) (others : list Suspect) (c : Clue)
  : Prop :=
  forall sid, pointsTo c = Some sid ->
    sid = suspect_id killer \/ exists o, In o others /\ suspect_id o = sid.

Definition refutable (cs : list Clue) (c : Clue) : Prop :=
  exists sid ac,
    pointsTo c = Some sid /\ In ac cs /\
    refutedBy c = Some (clue_id ac) /\ clue_type ac = Testimonial /\
    pointsTo ac = Some sid /\ isRedHerring ac = false.

Definition clue_herring (others : list Suspect) (cs : list Clue) (c : Clue)
  : Prop :=
  isRedHerring c = true ->
  clue_type c = Physical /\ refutable cs c /\
  exists o, In o others /\ pointsTo c = Some (suspect_id o).

Definition clues_built (killer : Suspect) (others : list Suspect)
  (crimeScene : Location) (allLocations : list Location)
  (st : list Clue * nat) : Prop :=
  map clue_id (fst st) = map nextClueId (seq 0 (snd st)) /\
  forall c, In c (fst st) ->
    clue_found crimeScene allLocations c /\ clue_points killer others c /\
    clue_herring others (fst st) c.

(** The alibi-clearing clue of [o] is among [cs]. *)
Definition cleared (cs : list Clue) (o : Suspect) : Prop :=
  exists ac, In ac cs /\ clue_type ac = Testimonial /\
             pointsTo ac = Some (suspect_id o).

(** The suspects the red herrings of [cs] point to, in order. *)
Definition herringTargets (cs : list Clue) : list (option SuspectId) :=
  map pointsTo (filter isRedHerring cs).

(** The two ends of a relationship, and relationships linking the same two
    suspects in either direction. *)
Definition ends (r : Relationship) : SuspectId * SuspectId :=
  (rel_from r, rel_to r).

Definition samePair (a b : Relationship) : Prop :=
  between a (rel_from b) (rel_to b).

(** What the relationship generator keeps true of the relationships built
    so far, [ids] being the identifiers of the suspects. *)
Definition graph_ok (ids : list SuspectId) (rels : list Relationship) : Prop :=
  (forall r, In r rels ->
     In (rel_from r) ids /\ In (rel_to r) ids /\ rel_from r <> rel_to r /\
     (-10 <= sentiment r <= 10)%Z /\
     (secretReason r <> None -> isPublicKnowledge r = false)) /\
  ForallOrdPairs (fun a b => ~ samePair a b) rels.

(** The relationships a suspect takes part in, counted. *)
Definition involves (id : SuspectId) (r : Relationship) : bool :=
  orb (String.eqb (rel_from r) id) (String.eqb (rel_to r) id).

Definition degree (rels : list Relationship) (id : SuspectId) : nat :=
  List.length (filter (involves id) rels).

(** The other end of a relationship [id] takes part in. *)
Definition otherEnd (id : SuspectId) (r : Relationship) : SuspectId :=
  if String.eqb (rel_from r) id then rel_to r else rel_from r.

(** [connectionCount] holds the number of relationships of everybody. *)
Definition counted (connectionCount : list (string * Z))
  (rels : list Relationship) : Prop :=
  forall id, getCount connectionCount id = Z.of_nat (degree rels id).

(** What every alibi of [generateAlibis] satisfies: the time slot is the
    time of death, the place is one of the locations, public unless the
    alibi is the killer's, and the witnesses are distinct living suspects
    other than the owner. *)
Definition alibi_ok (killer : Suspect) (others : list Suspect)
  (locations : list Location) (tod : TimeSlot) (a : Alibi) : Prop :=
  timeSlot a = tod /\
  (exists l, In l locations /\ location_id l = alibi_location a /\
     (alibi_suspectId a <> suspect_id killer -> isPublic l = true)) /\
  NoDup (witnesses a) /\
  forall w, In w (witnesses a) ->
    w <> alibi_suspectId a /\
    exists s, In s (killer :: others) /\ suspect_id s = w.

(** [m] returns on every source and leaves the stream of numbers as it
    is: code without property accesses on a possibly-undefined value,
    [throw] or unbounded loop. *)
Definition steady {A} (m : Gen A) : Prop :=
  forall r, exists a r', m r = Ok (a, r') /\ stream r' = stream r.

(** A stream of numbers within [0, 1) on which the shuffles change nothing,
    six locations are kept, and the victim and the killer are the first
    and the last suspect. *)
Definition unshuffledRandom (_ : string) (k : nat) : Q :=
  if (k =? 18)%nat then 1 # 2 else if (k =? 215)%nat then 0 else 99 # 100.

(** A statement whose lie can be exposed, or a true one that no clue
    contradicts; the clues it names are clues of the case. *)
Definition statement_ok (c : Case) (st : Statement) : Prop :=
  (isLie st = true -> contradictedBy st <> []) /\
  (isLie st = false -> contradictedBy st = []) /\
  (forall id, In id (contradictedBy st) -> In id (map clue_id (clues c))).

(** Evidence is presented against statements of the testimonies [tm]
    only. *)
Definition presentsFrom (tm : list (string * Testimony)) (a : GameAction)
  : Prop :=
  match a with
  | PRESENT_EVIDENCE _ statement =>
      exists sid t, In (sid, t) tm /\ In statement (statements t)
  | _ => True
  end.

(** No negative amount of search tokens is added. *)
Definition addsTokens (a : GameAction) : Prop :=
  match a with
  | ADD_SEARCH_TOKENS amount => (0 <= amount)%Z
  | _ => True
  end.

(** A state in which a suspect is being interrogated, and a true statement
    that no clue contradicts. *)
Definition sampleInterrogation : GameState :=
  gameReducer
    (createInitialGameState
       (createCase "s" [] [] [] [] [] "suspect-0" "suspect-1" Greed Poison
          "location-0" (createTimeSlot 21)))
    (START_INTERROGATION "suspect-1").

Definition sampleStatement : Statement :=
  mkStatement "suspect-1-stmt-0" "suspect-1" "I was in the Library."
    topic_alibi false [] "I was there." None.

(** game/game_state.ts: the helpers on the state. *)
Definition hasDiscoveredClue (state : GameState) (clueId : ClueId) : bool :=
  setHas (discoveredClues (playerKnowledge state)) clueId.

Definition getDiscoveredClues (state : GameState) : list ClueId :=
  discoveredClues (playerKnowledge state).

Definition canMakeAccusation (state : GameState) : bool :=
  (3 <=? List.length (discoveredClues (playerKnowledge state)))%nat.

Definition isGameOver (state : GameState) : bool :=
  match phase state with resolution => true | _ => false end.

(** The clues named by the [DISCOVER_CLUE] actions of a list, in order. *)
Definition discoveries (actions : list GameAction) : list ClueId :=
  flat_map (fun a => match a with DISCOVER_CLUE clueId => [clueId] | _ => [] end)
    actions.

(* ================================================================== *)
(** * Reasoning about [Gen] computations                               *)
(* ================================================================== *)

Lemma bind_Ok {A B} (m : Gen A) (k : A -> Gen B) r b r' :
  bind m k r = Ok (b, r') ->
  exists a r1, m r = Ok (a, r1) /\ k a r1 = Ok (b, r').
Proof.
  unfold bind. destruct (m r) as [[a r1]| |]; try discriminate.
  intros H. exists a, r1. split; [reflexivity | exact H].
Qed.

Lemma ret_Ok {A} (a b : A) r r' : ret a r = Ok (b, r') -> a = b /\ r = r'.
Proof. unfold ret. intros H. inversion H. split; reflexivity. Qed.

Lemma defined_Ok {A} (o : option A) a r r' :
  defined o r = Ok (a, r') -> o = Some a /\ r = r'.
Proof.
  destruct o as [x|]; simpl; [|discriminate].
  intros H. apply ret_Ok in H. destruct H; subst. split; reflexivity.
Qed.

(** Splits a hypothesis [(x <- m ;; k) r = Ok _] into its two steps. *)
Tactic Notation "gen_step" hyp(H) "as" ident(x) ident(r) ident(Hx) :=
  apply bind_Ok in H; destruct H as (x & r & Hx & H).

Ltac gen_ret H :=
  apply ret_Ok in H; destruct H; subst.

Lemma forEach_Ok {A B} (body : A -> Gen B) xs :
  forall r bs r', forEach xs body r = Ok (bs, r') ->
  Forall2 (fun x b => exists r1 r2, body x r1 = Ok (b, r2)) xs bs.
Proof.
  induction xs as [|x xs IH]; simpl; intros r bs r' H.
  - gen_ret H. constructor.
  - gen_step H as b r1 Hb. gen_step H as bs0 r2 Hbs. gen_ret H.
    constructor; eauto.
Qed.

(** An invariant of the accumulator of a [foldGen] loop. *)
Lemma foldGen_inv {A S} (P : S -> Prop) (body : S -> A -> Gen S) xs :
  (forall s x r s' r', In x xs -> P s -> body s x r = Ok (s', r') -> P s') ->
  forall s r s' r', P s -> foldGen xs s body r = Ok (s', r') -> P s'.
Proof.
  induction xs as [|x xs IH]; simpl; intros Hstep s r s' r' Hs H.
  - gen_ret H. exact Hs.
  - gen_step H as s1 r1 Hx.
    eapply IH; [ | | exact H].
    + intros. eapply Hstep; eauto.
    + eapply Hstep; eauto.
Qed.

(* ================================================================== *)
(** * [shuffle] returns a permutation                                  *)
(* ================================================================== *)

Lemma setNth_cons_perm {A} (a b : A) : forall t j,
  nth_error t j = Some b -> Permutation (b :: setNth j a t) (a :: t).
Proof.
  induction t as [|h t IH]; intros [|j] H; simpl in *; try discriminate.
  - inversion H; subst. apply perm_swap.
  - apply perm_trans with (h :: b :: setNth j a t); [apply perm_swap|].
    apply perm_trans with (h :: a :: t); [|apply perm_swap].
    apply perm_skip. apply IH. exact H.
Qed.

Lemma setNth_nth_error_same {A} (v : A) : forall l i,
  (i < List.length l)%nat -> nth_error (setNth i v l) i = Some v.
Proof.
  induction l as [|h t IH]; intros [|i] H; simpl in *; try lia; auto.
  apply IH. lia.
Qed.

Lemma setNth_nth_error_other {A} (v : A) : forall l i j,
  i <> j -> nth_error (setNth i v l) j = nth_error l j.
Proof.
  induction l as [|h t IH]; intros [|i] [|j] H; simpl in *; auto; try congruence.
Qed.

Lemma setNth_length {A} (v : A) : forall l i,
  List.length (setNth i v l) = List.length l.
Proof. induction l as [|h t IH]; intros [|i]; simpl; auto. Qed.

Lemma swapAt_perm {A} (l : list A) : forall i j, Permutation (swapAt i j l) l.
Proof.
  unfold swapAt. induction l as [|h t IH]; intros i j.
  - destruct i, j; simpl; apply Permutation_refl.
  - destruct i as [|i], j as [|j]; simpl.
    + apply Permutation_refl.
    + destruct (nth_error t j) as [b|] eqn:E; [|apply Permutation_refl].
      apply setNth_cons_perm. exact E.
    + destruct (nth_error t i) as [a|] eqn:E; [|apply Permutation_refl].
      apply setNth_cons_perm. exact E.
    + specialize (IH i j).
      destruct (nth_error t i) as [a|]; [|apply Permutation_refl].
      destruct (nth_error t j) as [b|]; [|apply Permutation_refl].
      apply perm_skip. exact IH.
Qed.

Lemma rngFloor_Ok n r z r' :
  rngFloor n r = Ok (z, r') ->
  getSeed r' = getSeed r /\ stream r' = stream r.
Proof.
  unfold rngFloor, rng. intros H. gen_step H as u r1 Hu. gen_ret H.
  inversion Hu; subst. simpl. split; reflexivity.
Qed.

Lemma shuffleLoop_perm {A} : forall i (l : list A) r l' r',
  shuffleLoop i l r = Ok (l', r') -> Permutation l l'.
Proof.
  induction i as [|i IH]; simpl; intros l r l' r' H.
  - gen_ret H. apply Permutation_refl.
  - gen_step H as j r1 Hj. apply IH in H.
    eapply perm_trans; [|exact H]. apply Permutation_sym, swapAt_perm.
Qed.

Lemma shuffle_perm {A} (l : list A) r l' r' :
  shuffle l r = Ok (l', r') -> Permutation l l'.
Proof. unfold shuffle. apply shuffleLoop_perm. Qed.

Lemma shuffle_In {A} (l : list A) r l' r' x :
  shuffle l r = Ok (l', r') -> (In x l' <-> In x l).
Proof.
  intros H. apply shuffle_perm in H. split; intros Hin.
  - eapply Permutation_in; [apply Permutation_sym; exact H | exact Hin].
  - eapply Permutation_in; [exact H | exact Hin].
Qed.

Lemma Permutation_filter_length {A} (f : A -> bool) (l l' : list A) :
  Permutation l l' -> List.length (filter f l) = List.length (filter f l').
Proof.
  induction 1; simpl; auto.
  - destruct (f x); simpl; congruence.
  - destruct (f x), (f y); simpl; reflexivity.
  - congruence.
Qed.

(* ================================================================== *)
(** * Identifiers are distinct                                         *)
(* ================================================================== *)

Lemma string_of_nat_inj a b : string_of_nat a = string_of_nat b -> a = b.
Proof.
  unfold string_of_nat. intros H.
  assert (E : Nat.to_uint a = Nat.to_uint b).
  { apply (f_equal NilEmpty.uint_of_string) in H.
    rewrite !NilEmpty.usu in H. congruence. }
  apply (f_equal Nat.of_uint) in E.
  rewrite !DecimalNat.Unsigned.of_to in E. exact E.
Qed.

Lemma append_inj_r p : forall a b, p ^^ a = p ^^ b -> a = b.
Proof.
  induction p as [|c p IH]; simpl; intros a b H; [exact H|].
  inversion H. auto.
Qed.

Lemma suspectIdOf_inj i j : suspectIdOf i = suspectIdOf j -> i = j.
Proof.
  unfold suspectIdOf, createSuspectId. intros H.
  apply append_inj_r in H. apply string_of_nat_inj. exact H.
Qed.

Lemma NoDup_suspectIds a n : NoDup (map suspectIdOf (seq a n)).
Proof.
  apply Finite.Injective_map_NoDup.
  - intros i j. apply suspectIdOf_inj.
  - apply seq_NoDup.
Qed.

Lemma generateSuspect_loop fn ln oc ds : forall n a used ss r st' r',
  foldGen (seq a n) (used, ss) (generateSuspect fn ln oc ds) r = Ok (st', r') ->
  map suspect_id (snd st') = map suspect_id ss ++ map suspectIdOf (seq a n) /\
  (Forall unassigned ss -> Forall unassigned (snd st')).
Proof.
  induction n as [|n IH]; simpl; intros a used ss r st' r' H.
  - gen_ret H. simpl. rewrite app_nil_r. auto.
  - gen_step H as st1 r1 Hst. destruct st1 as [used1 ss1].
    unfold generateSuspect in Hst.
    gen_step Hst as p r2 Hp. gen_step Hst as ag r3 Hag. gen_ret Hst.
    match goal with E : (_, _) = (_, _) |- _ => inversion E; subst; clear E end.
    apply IH in H. destruct H as [Hids Hun]. split.
    + rewrite Hids, map_app. simpl. rewrite <- app_assoc. reflexivity.
    + intros Hss. apply Hun. apply Forall_app. split; [exact Hss|].
      constructor; [|constructor]. split; reflexivity.
Qed.

Lemma generateSuspects_Ok count r ss r' :
  generateSuspects count r = Ok (ss, r') ->
  map suspect_id ss = map suspectIdOf (seq 0 count) /\ Forall unassigned ss.
Proof.
  unfold generateSuspects. intros H.
  gen_step H as fn r1 Hfn. gen_step H as ln r2 Hln.
  gen_step H as oc r3 Hoc. gen_step H as ds r4 Hds.
  gen_step H as st r5 Hst. gen_ret H.
  apply generateSuspect_loop in Hst. simpl in Hst. destruct Hst as [Hids Hun].
  split; [exact Hids | apply Hun; constructor].
Qed.

Lemma redrawKiller_Ok : forall fuel len v k r k' r',
  redrawKiller fuel len v k r = Ok (k', r') -> k' <> v.
Proof.
  induction fuel as [|fuel IH]; simpl; intros len v k r k' r' H.
  - destruct (Z.eqb_spec k v); [discriminate|]. gen_ret H. assumption.
  - destruct (Z.eqb_spec k v).
    + gen_step H as k1 r1 Hk1. eapply IH; eauto.
    + gen_ret H. assumption.
Qed.

Lemma filterIndex_In {A} (p : nat -> bool) : forall (l : list A) k x,
  In x (filterIndex p k l) ->
  exists i, nth_error l i = Some x /\ p (k + i)%nat = true.
Proof.
  induction l as [|h t IH]; simpl; intros k x H; [contradiction|].
  destruct (p k) eqn:E.
  - destruct H as [H|H].
    + subst. exists 0%nat. rewrite Nat.add_0_r. auto.
    + apply IH in H. destruct H as (i & Hi & Hp). exists (S i).
      rewrite Nat.add_succ_r. auto.
  - apply IH in H. destruct H as (i & Hi & Hp). exists (S i).
    rewrite Nat.add_succ_r. auto.
Qed.

Lemma index_Some {A} (l : list A) z x :
  index l z = Some x -> (0 <= z)%Z /\ nth_error l (Z.to_nat z) = Some x.
Proof.
  unfold index. destruct (Z.ltb_spec z 0); [discriminate|]. auto.
Qed.

Lemma NoDup_map_nth_error {A B} (f : A -> B) (l : list A) i j x y :
  NoDup (map f l) ->
  nth_error l i = Some x -> nth_error l j = Some y -> f x = f y -> i = j.
Proof.
  intros Hnd Hi Hj Hf.
  apply (proj1 (NoDup_nth_error (map f l))) with (i := i) (j := j) in Hnd.
  - exact Hnd.
  - rewrite length_map. apply nth_error_Some. congruence.
  - rewrite !nth_error_map, Hi, Hj. simpl. congruence.
Qed.

Lemma assignVictimAndKiller_Ok fuel ss r a r' :
  NoDup (map suspect_id ss) ->
  assignVictimAndKiller fuel ss r = Ok (a, r') ->
  assigned ss a.
Proof.
  intros Hnd H. unfold assignVictimAndKiller in H.
  destruct (List.length ss <? 3)%nat; [discriminate|].
  gen_step H as vi r1 Hvi. gen_step H as ki0 r2 Hki0.
  gen_step H as ki r3 Hki. gen_step H as sv r4 Hv.
  gen_step H as sk r5 Hk. gen_step H as sh r6 Hsh. gen_ret H.
  apply redrawKiller_Ok in Hki.
  apply defined_Ok in Hv. destruct Hv as [Hv ?]; subst.
  apply defined_Ok in Hk. destruct Hk as [Hk ?]; subst.
  apply index_Some in Hv. destruct Hv as [Hv0 Hv].
  apply index_Some in Hk. destruct Hk as [Hk0 Hk].
  assert (Hne : Z.to_nat vi <> Z.to_nat ki) by lia.
  constructor; simpl.
  - exists sv. split; [eapply nth_error_In; eauto | auto].
  - reflexivity.
  - exists sk. split; [eapply nth_error_In; eauto | auto].
  - reflexivity.
  - intros E. apply Hne. eapply NoDup_map_nth_error; eauto.
  - intros o Ho.
    apply (proj1 (@shuffle_In _ _ _ _ _ o Hsh)) in Ho.
    apply filterIndex_In in Ho. destruct Ho as (i & Hi & Hp). simpl in Hp.
    apply andb_true_iff in Hp. destruct Hp as [Hp1 Hp2].
    apply negb_true_iff in Hp1, Hp2.
    apply Z.eqb_neq in Hp1, Hp2.
    split; [eapply nth_error_In; eauto|]. split; intros E.
    + assert (i = Z.to_nat vi) by (eapply NoDup_map_nth_error; eauto). lia.
    + assert (i = Z.to_nat ki) by (eapply NoDup_map_nth_error; eauto). lia.
Qed.

(** Splits a chain of binds ending in [ret] into its steps. *)
Ltac gen_inv H :=
  repeat (let x := fresh "x" in
          let r := fresh "r" in
          let Hx := fresh "Hx" in
          apply bind_Ok in H; destruct H as (x & r & Hx & H));
  try (apply ret_Ok in H; destruct H; subst).

Lemma pick_In {A} (l : list A) r x r' :
  pick l r = Ok (Some x, r') -> In x l.
Proof.
  unfold pick. intros H. gen_inv H.
  match goal with E : index _ _ = Some _ |- _ =>
    apply index_Some in E; destruct E as [_ E] end.
  eapply nth_error_In; eauto.
Qed.

Lemma pickLocation_In ls r l r' :
  pickLocation ls r = Ok (l, r') -> In l ls.
Proof.
  unfold pickLocation. intros H. gen_step H as o r1 Ho.
  apply defined_Ok in H. destruct H; subst.
  eapply pick_In; eauto.
Qed.

(* ================================================================== *)
(** * Clues                                                            *)
(* ================================================================== *)

Lemma implicating_app kid cs cs' :
  implicating kid (cs ++ cs') = (implicating kid cs + implicating kid cs')%nat.
Proof. unfold implicating. rewrite filter_app, length_app. reflexivity. Qed.

Lemma alibiClue_Ok kid allLocations st innocent r st' r' :
  suspect_id innocent <> kid ->
  alibiClue allLocations st innocent r = Ok (st', r') ->
  implicating kid (fst st') = implicating kid (fst st).
Proof.
  intros Hne H. destruct st as [cs n]. unfold alibiClue in H. gen_inv H.
  simpl. rewrite implicating_app. unfold implicating at 2. simpl.
  unfold implicates, pointsToSuspect. simpl.
  destruct (String.eqb_spec (suspect_id innocent) kid); [contradiction|].
  simpl. lia.
Qed.

Lemma redHerringClue_Ok kid crimeScene shuffled st i r st' r' :
  redHerringClue crimeScene shuffled st i r = Ok (st', r') ->
  implicating kid (fst st') = implicating kid (fst st).
Proof.
  intros H. destruct st as [cs n]. unfold redHerringClue in H. gen_inv H.
  simpl. rewrite implicating_app. unfold implicating at 2. simpl.
  unfold implicates. simpl. rewrite andb_false_r. simpl. lia.
Qed.

(** [generateClues] always emits exactly four clues implicating the killer,
    whatever [config] says. *)
Lemma generateClues_Ok killer victim others motive weapon crimeScene
      allLocations relationships config r cs r' :
  (forall o, In o others -> suspect_id o <> suspect_id killer) ->
  generateClues killer victim others motive weapon crimeScene allLocations
    relationships config r = Ok (cs, r') ->
  implicating (suspect_id killer) cs = 4%nat.
Proof.
  intros Hothers H. unfold generateClues in H.
  gen_step H as name1 r1 H1. gen_step H as desc1 r2 H2.
  gen_step H as name2 r3 H3. gen_step H as desc2 r4 H4.
  gen_step H as found2 r5 H5. gen_step H as found4 r6 H6.
  gen_step H as st6 r7 H7. gen_step H as sh r8 H8.
  gen_step H as st7 r9 H9. gen_step H as st8 r10 H10.
  apply shuffle_perm in H.
  unfold implicating.
  rewrite <- (@Permutation_filter_length _ (implicates (suspect_id killer)) _ _ H).
  fold (implicating (suspect_id killer) (fst st8)).
  assert (E6 : implicating (suspect_id killer) (fst st6) = 4%nat).
  { eapply (foldGen_inv (fun st => implicating (suspect_id killer) (fst st) = 4%nat));
      [ | | exact H7].
    - intros s x ra s' rb Hin Hs Hb.
      erewrite alibiClue_Ok; eauto.
    - unfold implicating, implicates, pointsToSuspect. simpl.
      rewrite String.eqb_refl. reflexivity. }
  assert (E7 : implicating (suspect_id killer) (fst st7) = 4%nat).
  { eapply (foldGen_inv (fun st => implicating (suspect_id killer) (fst st) = 4%nat));
      [ | exact E6 | exact H9].
    intros s x ra s' rb Hin Hs Hb.
    erewrite redHerringClue_Ok; eauto. }
  destruct (jsFind (fun r0 => negb (isPublicKnowledge r0)) relationships).
  - gen_inv H10. simpl. rewrite implicating_app, E7. reflexivity.
  - gen_inv H10. exact E7.
Qed.

(* ================================================================== *)
(** * Alibis                                                           *)
(* ================================================================== *)

Lemma innocentAlibi_Ok allSuspects publicLocations tod innocent r a r' :
  innocentAlibi allSuspects publicLocations tod innocent r = Ok (a, r') ->
  alibi_suspectId a = suspect_id innocent /\ truthful a.
Proof.
  unfold innocentAlibi. intros H.
  gen_step H as loc r1 H1. gen_step H as ws r2 H2.
  gen_step H as u r3 H3. gen_step H as l r4 H4.
  destruct (Qltb u double_0_2); gen_inv H; simpl; split; try split; reflexivity.
Qed.

Lemma generateKillerAlibi_Ok killer others pub priv tod strategy r a r' :
  generateKillerAlibi killer others pub priv tod strategy r = Ok (a, r') ->
  alibi_suspectId a = suspect_id killer /\ fabricated a.
Proof.
  unfold generateKillerAlibi. intros H.
  destruct strategy; gen_inv H; simpl; split; try split; reflexivity.
Qed.

Lemma generateAlibis_Ok killer victim others locations tod r alibis r' :
  generateAlibis killer victim others locations tod r = Ok (alibis, r') ->
  exists innocents ka,
    Permutation (innocents ++ [ka]) alibis /\
    Forall2 (fun o a => alibi_suspectId a = suspect_id o /\ truthful a)
      others innocents /\
    alibi_suspectId ka = suspect_id killer /\ fabricated ka.
Proof.
  unfold generateAlibis. intros H.
  gen_step H as strategy r1 H1. gen_step H as innocents r2 H2.
  gen_step H as ka r3 H3.
  exists innocents, ka. split; [eapply shuffle_perm; eauto|]. split.
  - apply forEach_Ok in H2.
    eapply Forall2_impl; [|exact H2].
    intros o a (ra & rb & Hab). eapply innocentAlibi_Ok; eauto.
  - eapply generateKillerAlibi_Ok; eauto.
Qed.

(* ================================================================== *)
(** * Locations                                                        *)
(* ================================================================== *)

Lemma generateLocations_Ok r ls r' :
  generateLocations r = Ok (ls, r') ->
  Forall (fun l => isCrimeScene l = false) ls.
Proof.
  unfold generateLocations. intros H. gen_inv H.
  apply Forall_forall. intros l Hl.
  apply in_map_iff in Hl. destruct Hl as ([i t] & Hl & _). subst. reflexivity.
Qed.

Lemma selectCrimeScene_Ok locations r cs r' :
  selectCrimeScene locations r = Ok (cs, r') ->
  isCrimeScene cs = true /\
  exists l, In l locations /\ location_id l = location_id cs.
Proof.
  unfold selectCrimeScene. intros H. gen_step H as scene r1 H1. gen_inv H.
  split; [reflexivity|]. exists scene. split; [|reflexivity].
  apply pickLocation_In in H1.
  destruct (0 <? _)%nat; [|exact H1].
  apply filter_In in H1. tauto.
Qed.

(* ================================================================== *)
(** * What every generated case satisfies                              *)
(* ================================================================== *)

Lemma generated_createCase seed v k others rels locs cl al mo we cs tod
      innocents ka :
  (isVictim v = true /\ isKiller v = false) ->
  (isVictim k = false /\ isKiller k = true) ->
  Forall unassigned others ->
  suspect_id v <> suspect_id k ->
  (forall o, In o others ->
     suspect_id o <> suspect_id v /\ suspect_id o <> suspect_id k) ->
  implicating (suspect_id k) cl = 4%nat ->
  Permutation (innocents ++ [ka]) al ->
  Forall2 (fun o a => alibi_suspectId a = suspect_id o /\ truthful a)
    others innocents ->
  alibi_suspectId ka = suspect_id k ->
  fabricated ka ->
  Forall (fun l => isCrimeScene l = false) locs ->
  (exists l, In l locs /\ location_id l = cs) ->
  generated (createCase seed (v :: k :: others) rels locs cl al
               (suspect_id v) (suspect_id k) mo we cs tod).
Proof.
  intros. apply Generated with (v := v) (k := k) (others := others)
                               (innocents := innocents) (ka := ka);
    try reflexivity; assumption.
Qed.

Lemma generateCaseOnce_Ok fuel seed config r c r' :
  generateCaseOnce fuel seed config r = Ok (c, r') -> generated c.
Proof.
  unfold generateCaseOnce. intros H.
  gen_step H as locs r1 Hlocs. gen_step H as ss r2 Hss.
  gen_step H as a r3 Ha. gen_step H as mo r4 Hmo.
  gen_step H as we r5 Hwe. gen_step H as cs r6 Hcs.
  gen_step H as tod r7 Htod. gen_step H as rels r8 Hrels.
  gen_step H as cl r9 Hcl. gen_step H as al r10 Hal.
  apply ret_Ok in H. destruct H as [Hc _].
  apply generateSuspects_Ok in Hss. destruct Hss as [Hids Hun].
  assert (Hnd : NoDup (map suspect_id ss))
    by (rewrite Hids; apply NoDup_suspectIds).
  apply assignVictimAndKiller_Ok in Ha; [|exact Hnd].
  destruct Ha as [(sv & Hsv & Hvid & Hvk) Hvf (sk & Hsk & Hkid & Hkv) Hkf Hdist Hoth].
  rewrite Forall_forall in Hun.
  apply generateAlibis_Ok in Hal.
  destruct Hal as (innocents & ka & Hperm & Hinn & Hka & Hfab).
  apply selectCrimeScene_Ok in Hcs. destruct Hcs as [_ Hcs].
  apply generateLocations_Ok in Hlocs.
  apply generateClues_Ok in Hcl; [|intros o Ho; apply (Hoth o Ho)].
  assert (Hvflags : isVictim (asg_victim a) = true /\
                    isKiller (asg_victim a) = false).
  { split; [exact Hvf|]. rewrite Hvk. apply (Hun sv Hsv). }
  assert (Hkflags : isVictim (asg_killer a) = false /\
                    isKiller (asg_killer a) = true).
  { split; [|exact Hkf]. rewrite Hkv. apply (Hun sk Hsk). }
  assert (Hoflags : Forall unassigned (asg_others a)).
  { apply Forall_forall. intros o Ho. apply Hun. apply (Hoth o Ho). }
  assert (Hoids : forall o, In o (asg_others a) ->
            suspect_id o <> suspect_id (asg_victim a) /\
            suspect_id o <> suspect_id (asg_killer a)).
  { intros o Ho. destruct (Hoth o Ho) as (_ & H1 & H2). auto. }
  clear - Hc Hvflags Hkflags Hoflags Hoids Hdist Hcl Hperm Hinn Hka Hfab
            Hlocs Hcs.
  subst c.
  apply generated_createCase with (innocents := innocents) (ka := ka);
    assumption.
Qed.

(** The body of [generateCase], one level unfolded. *)
Lemma generateCase_eq seedrandom fuel seed config :
  generateCase seedrandom fuel seed config =
  match generateCaseOnce fuel seed config (createRandom seedrandom seed) with
  | Ok (generatedCase, _) =>
      if negb (isCaseSolvable generatedCase) then
        match fuel with
        | O => OutOfFuel
        | S fuel' => generateCase seedrandom fuel' (seed ^^ "-retry") config
        end
      else Ok generatedCase
  | Throw e => Throw e
  | OutOfFuel => OutOfFuel
  end.
Proof. destruct fuel; reflexivity. Qed.

(** The three ways [generateCase] returns a case. *)
Lemma generateCase_inv seedrandom fuel seed config c :
  generateCase seedrandom fuel seed config = Ok c ->
  exists gc r,
    generateCaseOnce fuel seed config (createRandom seedrandom seed)
      = Ok (gc, r) /\
    ((isCaseSolvable gc = true /\ c = gc) \/
     (isCaseSolvable gc = false /\
      exists fuel', fuel = S fuel' /\
        generateCase seedrandom fuel' (seed ^^ "-retry") config = Ok c)).
Proof.
  intros H. rewrite generateCase_eq in H.
  destruct (generateCaseOnce fuel seed config (createRandom seedrandom seed))
    as [[gc r]| |] eqn:E.
  - exists gc, r. split; [reflexivity|].
    destruct (isCaseSolvable gc); cbn [negb] in H.
    + left. split; [reflexivity|]. inversion H. reflexivity.
    + right. split; [reflexivity|].
      destruct fuel as [|fuel'].
      * inversion H.
      * exists fuel'. split; [reflexivity | exact H].
  - inversion H.
  - inversion H.
Qed.

Lemma generateCase_Ok seedrandom : forall fuel seed config c,
  generateCase seedrandom fuel seed config = Ok c -> generated c.
Proof.
  induction fuel as [|fuel IH]; intros seed config c H;
    apply generateCase_inv in H;
    destruct H as (gc & r & Honce & [[_ ->]|[_ (fuel' & Hf & Hretry)]]).
  - eapply generateCaseOnce_Ok; eauto.
  - inversion Hf.
  - eapply generateCaseOnce_Ok; eauto.
  - inversion Hf; subst. eapply IH; eauto.
Qed.

(* ================================================================== *)
(** * More fuel never changes a result                                 *)
(* ================================================================== *)

Lemma bind_intro {A B} (m : Gen A) (k : A -> Gen B) r a r1 y :
  m r = Ok (a, r1) -> k a r1 = Ok y -> bind m k r = Ok y.
Proof. unfold bind. intros -> H. exact H. Qed.

Lemma redrawKiller_mono : forall fuel fuel' len v k r x,
  (fuel <= fuel')%nat ->
  redrawKiller fuel len v k r = Ok x -> redrawKiller fuel' len v k r = Ok x.
Proof.
  induction fuel as [|fuel IH]; intros fuel' len v k r x Hle H.
  - simpl in H. destruct (Z.eqb_spec k v); [discriminate|].
    destruct fuel'; simpl; destruct (Z.eqb_spec k v); try contradiction; exact H.
  - destruct fuel' as [|fuel']; [lia|]. simpl in *.
    destruct (Z.eqb_spec k v); [|exact H].
    destruct x as [k' r'].
    gen_step H as k1 r1 Hk1.
    eapply bind_intro; [exact Hk1|]. apply IH; [lia | exact H].
Qed.

Lemma assignVictimAndKiller_mono fuel fuel' ss r x :
  (fuel <= fuel')%nat ->
  assignVictimAndKiller fuel ss r = Ok x ->
  assignVictimAndKiller fuel' ss r = Ok x.
Proof.
  unfold assignVictimAndKiller. intros Hle H.
  destruct (List.length ss <? 3)%nat; [discriminate|].
  destruct x as [a r'].
  gen_step H as vi r1 Hvi. gen_step H as ki0 r2 Hki0.
  gen_step H as ki r3 Hki.
  eapply bind_intro; [exact Hvi|].
  eapply bind_intro; [exact Hki0|].
  eapply bind_intro; [eapply redrawKiller_mono; eauto|]. exact H.
Qed.

Lemma generateCaseOnce_mono fuel fuel' seed config r x :
  (fuel <= fuel')%nat ->
  generateCaseOnce fuel seed config r = Ok x ->
  generateCaseOnce fuel' seed config r = Ok x.
Proof.
  unfold generateCaseOnce. intros Hle H. destruct x as [c r'].
  gen_step H as locs r1 Hlocs. gen_step H as ss r2 Hss.
  gen_step H as a r3 Ha.
  eapply bind_intro; [exact Hlocs|].
  eapply bind_intro; [exact Hss|].
  eapply bind_intro; [eapply assignVictimAndKiller_mono; eauto|]. exact H.
Qed.

Lemma generateCase_mono seedrandom : forall fuel fuel' seed config c,
  (fuel <= fuel')%nat ->
  generateCase seedrandom fuel seed config = Ok c ->
  generateCase seedrandom fuel' seed config = Ok c.
Proof.
  induction fuel as [|fuel IH]; intros fuel' seed config c Hle H;
    apply generateCase_inv in H;
    destruct H as (gc & r & Honce & [[Hs ->]|[Hs (fuel0 & Hf & Hretry)]]);
    apply (@generateCaseOnce_mono _ fuel') in Honce; try lia;
    rewrite generateCase_eq, Honce, Hs; cbn [negb].
  - reflexivity.
  - reflexivity.
  - inversion Hf; subst. destruct fuel' as [|fuel']; [lia|].
    apply IH; [lia | exact Hretry].
Qed.

(** [createRandom] reads the generator only on the stream of its seed. *)
Lemma createRandom_stream seedrandom1 seedrandom2 seed :
  (forall k, seedrandom1 seed k = seedrandom2 seed k) ->
  createRandom seedrandom1 seed = createRandom seedrandom2 seed.
Proof.
  intros Hs. unfold createRandom. f_equal.
  apply functional_extensionality. exact Hs.
Qed.

(* ================================================================== *)
(** * Testimonies                                                      *)
(* ================================================================== *)

Lemma mapSet_In {V} (k : string) (v : V) : forall m k' v',
  In (k', v') (mapSet m k v) -> In (k', v') m \/ (k' = k /\ v' = v).
Proof.
  induction m as [|[k0 v0] m IH]; simpl; intros k' v' H.
  - destruct H as [H|[]]. inversion H. auto.
  - destruct (String.eqb_spec k0 k).
    + destruct H as [H|H]; [inversion H; subst; auto | auto].
    + destruct H as [H|H]; [auto|].
      apply IH in H. tauto.
Qed.

Lemma generateObservationStatement_Ok id suspect c r st r' :
  generateObservationStatement id suspect c r = Ok (st, r') ->
  topic st = topic_observations /\ isLie st = isKiller suspect.
Proof.
  unfold generateObservationStatement. intros H.
  destruct (isKiller suspect); gen_inv H; simpl; auto.
Qed.

Lemma generateSelfStatement_Ok id suspect victim c r st r' :
  generateSelfStatement id suspect victim c r = Ok (st, r') ->
  topic st = topic_self /\ isLie st = isKiller suspect.
Proof.
  unfold generateSelfStatement. intros H.
  destruct (isKiller suspect); gen_inv H; simpl; auto.
Qed.

Lemma generateAlibiStatement_facts id suspect a c :
  topic (generateAlibiStatement id suspect a c) = topic_alibi /\
  isLie (generateAlibiStatement id suspect a c) = isFalse a.
Proof.
  unfold generateAlibiStatement. destruct (isFalse a); simpl; auto.
Qed.

Lemma generateRelationshipStatement_facts id suspect victim rel c :
  topic (generateRelationshipStatement id suspect victim rel c)
    = topic_relationships /\
  isLie (generateRelationshipStatement id suspect victim rel c)
    = negb (isPublicKnowledge rel).
Proof.
  unfold generateRelationshipStatement.
  destruct (isPublicKnowledge rel); simpl; [|auto].
  destruct (sentiment rel <? -3)%Z; simpl; auto.
Qed.

Lemma generateSuspectStatements_Ok suspect victim alibi rels c r sts r' :
  generateSuspectStatements suspect victim alibi rels c r = Ok (sts, r') ->
  exists observation self,
    sts = alibiPart suspect alibi c
          ++ relationshipPart suspect victim alibi rels c
          ++ [observation; self] /\
    (topic observation = topic_observations /\
     isLie observation = isKiller suspect) /\
    (topic self = topic_self /\ isLie self = isKiller suspect).
Proof.
  unfold generateSuspectStatements, relationshipPart, alibiPart,
    victimRelationshipOf.
  intros H.
  destruct alibi as [a|];
    destruct (jsFind _ rels) as [rel|];
    gen_step H as obs r1 Hobs; gen_step H as self r2 Hself; gen_ret H;
    exists obs, self;
    (split; [simpl; try rewrite <- app_assoc; reflexivity|]);
    (split; [eapply generateObservationStatement_Ok; eauto
            | eapply generateSelfStatement_Ok; eauto]).
Qed.

(** Every entry of the map was produced for a living suspect of the case. *)
Lemma generateTestimonies_Ok c r tm r' :
  generateTestimonies c r = Ok (tm, r') ->
  forall sid t, In (sid, t) tm ->
  exists suspect victim r1 r2,
    In suspect (suspects c) /\ isVictim suspect = false /\
    sid = suspect_id suspect /\
    jsFind isVictim (suspects c) = Some victim /\
    generateSuspectStatements suspect victim
      (jsFind (fun a => String.eqb (alibi_suspectId a) (suspect_id suspect))
         (alibis c))
      (filter (fun r => orb (String.eqb (rel_from r) (suspect_id suspect))
                            (String.eqb (rel_to r) (suspect_id suspect)))
         (relationships c))
      c r1 = Ok (statements t, r2).
Proof.
  unfold generateTestimonies. intros H.
  eapply (foldGen_inv
            (fun tm => forall sid t, In (sid, t) tm -> _)); [ | | exact H].
  - intros m s ra m' rb Hin Hm Hstep sid t Hsid.
    unfold generateTestimony in Hstep.
    gen_step Hstep as v r1 Hv. gen_step Hstep as sts r2 Hsts. gen_ret Hstep.
    apply defined_Ok in Hv. destruct Hv as [Hv ?]; subst.
    apply mapSet_In in Hsid. destruct Hsid as [Hsid|[-> ->]].
    + apply Hm; exact Hsid.
    + apply filter_In in Hin. destruct Hin as [Hin Hliving].
      apply negb_true_iff in Hliving.
      exists s, v. do 2 eexists. simpl.
      repeat split; eauto.
  - intros sid t [].
Qed.

(** Closes the branches of a witness in which the sample run would not
    return a case. *)
Ltac sample_returns E :=
  exfalso;
  match type of E with
  | ?run = _ =>
      let Hok := fresh "Hok" in
      assert (Hok : isOk run = true) by (vm_compute; reflexivity);
      rewrite E in Hok; discriminate Hok
  end.

Lemma implicating_pos kid cs :
  (0 < implicating kid cs)%nat ->
  exists clue, In clue cs /\ pointsTo clue = Some kid /\ isRedHerring clue = false.
Proof.
  unfold implicating. intros H.
  destruct (filter (implicates kid) cs) as [|clue rest] eqn:E; [simpl in H; lia|].
  assert (Hin : In clue (filter (implicates kid) cs)) by (rewrite E; left; reflexivity).
  apply filter_In in Hin. destruct Hin as [Hin Himp].
  unfold implicates, pointsToSuspect in Himp.
  apply andb_true_iff in Himp. destruct Himp as [Hp Hr].
  exists clue. split; [exact Hin|]. split.
  - destruct (pointsTo clue) as [p|]; [|discriminate].
    apply String.eqb_eq in Hp. subst. reflexivity.
  - apply negb_true_iff in Hr. exact Hr.
Qed.

(** The check of [generateCase] never fails on a case it has generated, so
    the retry is never taken: the case returned is that of the first
    attempt. *)
Lemma generated_isCaseSolvable c : generated c -> isCaseSolvable c = true.
Proof.
  intros Hgen. destruct Hgen.
  destruct (implicating_pos (killer c) (clues c)) as (clue & Hin & Hp & _);
    [rewrite gen_clues; lia|].
  unfold isCaseSolvable, getCluesPointingTo. apply Nat.ltb_lt.
  destruct (filter (fun c0 => pointsToSuspect c0 (killer c)) (clues c))
    as [|x l] eqn:E; [|simpl; lia].
  assert (Hf : In clue (filter (fun c0 => pointsToSuspect c0 (killer c))
                          (clues c))).
  { apply filter_In. split; [exact Hin|].
    unfold pointsToSuspect. rewrite Hp. apply String.eqb_refl. }
  rewrite E in Hf. contradiction.
Qed.

Lemma generateCase_first_attempt seedrandom fuel seed config c :
  generateCase seedrandom fuel seed config = Ok c ->
  exists r,
    generateCaseOnce fuel seed config (createRandom seedrandom seed)
      = Ok (c, r).
Proof.
  intros H. apply generateCase_inv in H.
  destruct H as (gc & r & Honce & [[_ ->]|[Hs _]]).
  - exists r. exact Honce.
  - apply generateCaseOnce_Ok in Honce.
    apply generated_isCaseSolvable in Honce. congruence.
Qed.

Lemma generateCase_of_first_attempt seedrandom fuel seed config c r :
  generateCaseOnce fuel seed config (createRandom seedrandom seed)
    = Ok (c, r) ->
  generateCase seedrandom fuel seed config = Ok c.
Proof.
  intros H. rewrite generateCase_eq, H.
  rewrite (generated_isCaseSolvable c); [reflexivity|].
  eapply generateCaseOnce_Ok; eauto.
Qed.

(** C1. Every case returned by [generateCase], for every seed and every
    configuration, is solvable: it has a clue that points to the killer
    and is not a red herring. *)
Theorem generateCase_solvable seedrandom fuel seed config c :
  generateCase seedrandom fuel seed config = Ok c ->
  exists clue,
    In clue (clues c) /\ pointsTo clue = Some (killer c) /\
    isRedHerring clue = false.
Proof.
  intros H. apply generateCase_Ok in H. destruct H.
  apply implicating_pos. rewrite gen_clues. lia.
Qed.

Lemma generateCase_solvable_witness :
  exists c,
    generateCase sampleRandom 5 "solvability-test-0" defaultConfig = Ok c /\
    exists clue,
      In clue (clues c) /\ pointsTo clue = Some (killer c) /\
      isRedHerring clue = false.
Proof.
  destruct (generateCase sampleRandom 5 "solvability-test-0" defaultConfig)
    as [c| |] eqn:E.
  - exists c. split; [reflexivity|].
    exact (@generateCase_solvable _ _ _ _ _ E).
  - sample_returns E.
  - sample_returns E.
Defined.

Lemma generateCase_functional seedrandom fuel1 fuel2 seed config c1 c2 :
  generateCase seedrandom fuel1 seed config = Ok c1 ->
  generateCase seedrandom fuel2 seed config = Ok c2 ->
  c1 = c2.
Proof.
  intros H1 H2.
  apply (@generateCase_mono _ _ (Nat.max fuel1 fuel2)) in H1; [|lia].
  apply (@generateCase_mono _ _ (Nat.max fuel1 fuel2)) in H2; [|lia].
  congruence.
Qed.

(** C2. Two calls of [generateCase] with the same seed and configuration
    return cases with the same killer, victim, motive and weapon and with
    suspect, clue, relationship and alibi lists of the same lengths.  The
    two runs may differ in everything but the numbers [seedrandom(seed)]
    yields: nothing else is consulted. *)
Theorem generateCase_deterministic
    seedrandom1 seedrandom2 fuel1 fuel2 seed config c1 c2 :
  (forall k, seedrandom1 seed k = seedrandom2 seed k) ->
  generateCase seedrandom1 fuel1 seed config = Ok c1 ->
  generateCase seedrandom2 fuel2 seed config = Ok c2 ->
  killer c1 = killer c2 /\ victim c1 = victim c2 /\
  motive c1 = motive c2 /\ weapon c1 = weapon c2 /\
  List.length (suspects c1) = List.length (suspects c2) /\
  List.length (clues c1) = List.length (clues c2) /\
  List.length (relationships c1) = List.length (relationships c2) /\
  List.length (alibis c1) = List.length (alibis c2).
Proof.
  intros Hs H1 H2.
  apply generateCase_first_attempt in H1. destruct H1 as [r1 H1].
  rewrite (createRandom_stream seedrandom1 seedrandom2 seed Hs) in H1.
  apply generateCase_of_first_attempt in H1.
  assert (E : c1 = c2) by (eapply generateCase_functional; eauto).
  subst. repeat split; reflexivity.
Qed.

Lemma generateCase_deterministic_witness :
  exists c1 c2,
    (forall k,
       sampleRandom "deterministic-test" k
       = sampleRandom "deterministic-test" k) /\
    generateCase sampleRandom 5 "deterministic-test" defaultConfig = Ok c1 /\
    generateCase sampleRandom 7 "deterministic-test" defaultConfig = Ok c2 /\
    killer c1 = killer c2 /\ victim c1 = victim c2 /\
    motive c1 = motive c2 /\ weapon c1 = weapon c2 /\
    List.length (suspects c1) = List.length (suspects c2) /\
    List.length (clues c1) = List.length (clues c2) /\
    List.length (relationships c1) = List.length (relationships c2) /\
    List.length (alibis c1) = List.length (alibis c2).
Proof.
  destruct (generateCase sampleRandom 5 "deterministic-test" defaultConfig)
    as [c1| |] eqn:E1; [ | sample_returns E1 | sample_returns E1].
  destruct (generateCase sampleRandom 7 "deterministic-test" defaultConfig)
    as [c2| |] eqn:E2; [ | sample_returns E2 | sample_returns E2].
  exists c1, c2.
  split; [intros k; reflexivity|].
  split; [reflexivity|]. split; [reflexivity|].
  exact (@generateCase_deterministic sampleRandom sampleRandom 5 7
           "deterministic-test" defaultConfig c1 c2
           (fun k => eq_refl) E1 E2).
Defined.

Lemma Forall2_In_r {A B} (R : A -> B -> Prop) xs ys y :
  Forall2 R xs ys -> In y ys -> exists x, In x xs /\ R x y.
Proof.
  induction 1 as [|x0 y0 xs ys HR HF IH]; intros Hin; [contradiction|].
  destruct Hin as [->|Hin].
  - exists x0. split; [left; reflexivity | exact HR].
  - destruct (IH Hin) as (x & Hx & HRx). exists x. split; [right|]; assumption.
Qed.

Lemma Forall2_In_l {A B} (R : A -> B -> Prop) xs ys x :
  Forall2 R xs ys -> In x xs -> exists y, In y ys /\ R x y.
Proof.
  induction 1 as [|x0 y0 xs ys HR HF IH]; intros Hin; [contradiction|].
  destruct Hin as [->|Hin].
  - exists y0. split; [left; reflexivity | exact HR].
  - destruct (IH Hin) as (y & Hy & HRy). exists y. split; [right|]; assumption.
Qed.

(** The alibis of a generated case, one by one. *)
Lemma generated_alibi c : generated c ->
  forall a, In a (alibis c) ->
    (alibi_suspectId a = killer c /\ fabricated a) \/
    (alibi_suspectId a <> killer c /\ truthful a /\
     exists o, In o (suspects c) /\ alibi_suspectId a = suspect_id o).
Proof.
  intros [] a Ha.
  apply (Permutation_in _ (Permutation_sym gen_alibis)) in Ha.
  apply in_app_or in Ha. destruct Ha as [Ha|[<-|[]]].
  - right. destruct (@Forall2_In_r _ _ _ _ _ _ gen_innocents Ha) as (o & Ho & Hid & Ht).
    split; [|split; [exact Ht|]].
    + rewrite Hid, gen_killer_id. apply (gen_others_ids o Ho).
    + exists o. split; [|exact Hid]. rewrite gen_suspects. right; right; exact Ho.
  - left. split; [congruence | assumption].
Qed.

Lemma generated_has_alibi c : generated c ->
  forall s, In s (suspects c) -> suspect_id s <> victim c ->
  exists a, In a (alibis c) /\ alibi_suspectId a = suspect_id s.
Proof.
  intros [] s Hs Hnv. rewrite gen_suspects in Hs.
  destruct Hs as [<-|[<-|Hs]].
  - congruence.
  - exists ka. split; [|assumption].
    apply (Permutation_in _ gen_alibis). apply in_or_app. right. left. reflexivity.
  - destruct (@Forall2_In_l _ _ _ _ _ _ gen_innocents Hs) as (a & Ha & Hid & _).
    exists a. split; [|exact Hid].
    apply (Permutation_in _ gen_alibis). apply in_or_app. left. exact Ha.
Qed.

(** C3. In every case returned by [generateCase] the killer has an alibi,
    every alibi of the killer is false and unverifiable; every suspect that
    is neither victim nor killer has an alibi, and every alibi of such a
    suspect is true and verifiable. *)
Theorem generateCase_alibis seedrandom fuel seed config c :
  generateCase seedrandom fuel seed config = Ok c ->
  (exists a, In a (alibis c) /\ alibi_suspectId a = killer c) /\
  (forall a, In a (alibis c) -> alibi_suspectId a = killer c ->
     isFalse a = true /\ isVerifiable a = false) /\
  (forall s, In s (suspects c) ->
     suspect_id s <> victim c -> suspect_id s <> killer c ->
     (exists a, In a (alibis c) /\ alibi_suspectId a = suspect_id s) /\
     (forall a, In a (alibis c) -> alibi_suspectId a = suspect_id s ->
        isFalse a = false /\ isVerifiable a = true)).
Proof.
  intros H. apply generateCase_Ok in H.
  pose proof (@generated_alibi _ H) as Halibi.
  pose proof (@generated_has_alibi _ H) as Hhas.
  split; [|split].
  - destruct H. rewrite gen_killer_id.
    apply Hhas.
    + rewrite gen_suspects. right; left; reflexivity.
    + rewrite gen_victim_id. auto.
  - intros a Ha Hk. destruct (Halibi a Ha) as [[_ Hf]|[Hne _]];
      [exact Hf | contradiction].
  - intros s Hs Hnv Hnk. split; [apply Hhas; assumption|].
    intros a Ha Hid. destruct (Halibi a Ha) as [[Hk _]|[_ [Ht _]]];
      [congruence | exact Ht].
Qed.

Lemma generateCase_alibis_witness :
  exists c,
    generateCase sampleRandom 5 "killer-alibi-test" defaultConfig = Ok c /\
    (exists a, In a (alibis c) /\ alibi_suspectId a = killer c) /\
    (forall a, In a (alibis c) -> alibi_suspectId a = killer c ->
       isFalse a = true /\ isVerifiable a = false) /\
    (forall s, In s (suspects c) ->
       suspect_id s <> victim c -> suspect_id s <> killer c ->
       (exists a, In a (alibis c) /\ alibi_suspectId a = suspect_id s) /\
       (forall a, In a (alibis c) -> alibi_suspectId a = suspect_id s ->
          isFalse a = false /\ isVerifiable a = true)).
Proof.
  destruct (generateCase sampleRandom 5 "killer-alibi-test" defaultConfig)
    as [c| |] eqn:E.
  - exists c. split; [reflexivity|].
    exact (@generateCase_alibis _ _ _ _ _ E).
  - sample_returns E.
  - sample_returns E.
Defined.

(** C4. Whatever the difficulty, a case returned by [generateCase] has
    exactly four clues that point to the killer and are not red herrings:
    the minimum of five that [getDifficultyClueCount] sets for 'easy' is
    passed to [generateClues] and never read. *)
Theorem generateCase_four_implicating_clues seedrandom fuel seed config c :
  generateCase seedrandom fuel seed config = Ok c ->
  implicating (killer c) (clues c) = 4%nat /\
  (difficulty config = easy ->
   (Z.of_nat (implicating (killer c) (clues c))
    < getDifficultyClueCount (difficulty config))%Z).
Proof.
  intros H. apply generateCase_Ok in H. destruct H.
  split; [exact gen_clues|].
  intros ->. rewrite gen_clues. simpl. lia.
Qed.

Lemma generateCase_four_implicating_clues_witness :
  exists c,
    generateCase sampleRandom 5 "easy-test" (mkCaseGeneratorConfig 6 easy)
      = Ok c /\
    implicating (killer c) (clues c) = 4%nat /\
    (easy = easy -> (Z.of_nat (implicating (killer c) (clues c)) < 5)%Z).
Proof.
  destruct (generateCase sampleRandom 5 "easy-test"
              (mkCaseGeneratorConfig 6 easy)) as [c| |] eqn:E.
  - exists c. split; [reflexivity|].
    exact (@generateCase_four_implicating_clues _ _ _ _ _ E).
  - sample_returns E.
  - sample_returns E.
Defined.

(** C5. No location of a case returned by [generateCase] has
    [isCrimeScene = true]: the location with the id of the crime scene is
    in the list, unmarked like all the others. *)
Theorem generateCase_no_crime_scene_flag seedrandom fuel seed config c :
  generateCase seedrandom fuel seed config = Ok c ->
  List.length (filter isCrimeScene (locations c)) = 0%nat /\
  exists l,
    In l (locations c) /\ location_id l = crimeScene c /\
    isCrimeScene l = false.
Proof.
  intros H. apply generateCase_Ok in H. destruct H.
  rewrite Forall_forall in gen_locations. split.
  - destruct (filter isCrimeScene (locations c)) as [|l rest] eqn:E;
      [reflexivity|].
    assert (Hin : In l (filter isCrimeScene (locations c)))
      by (rewrite E; left; reflexivity).
    apply filter_In in Hin. destruct Hin as [Hin Hl].
    rewrite (gen_locations l Hin) in Hl. discriminate.
  - destruct gen_crimeScene as (l & Hl & Hid).
    exists l. auto.
Qed.

Lemma generateCase_no_crime_scene_flag_witness :
  exists c,
    generateCase sampleRandom 5 "crime-scene-test" defaultConfig = Ok c /\
    List.length (filter isCrimeScene (locations c)) = 0%nat /\
    exists l,
      In l (locations c) /\ location_id l = crimeScene c /\
      isCrimeScene l = false.
Proof.
  destruct (generateCase sampleRandom 5 "crime-scene-test" defaultConfig)
    as [c| |] eqn:E.
  - exists c. split; [reflexivity|].
    exact (@generateCase_no_crime_scene_flag _ _ _ _ _ E).
  - sample_returns E.
  - sample_returns E.
Defined.

(** What the testimony of a suspect of a generated case is built from. *)
Lemma generated_testimony c r tm r' sid t :
  generated c ->
  generateTestimonies c r = Ok (tm, r') ->
  In (sid, t) tm ->
  exists suspect v alibi rels observation self,
    In suspect (suspects c) /\ isVictim suspect = false /\
    sid = suspect_id suspect /\ sid <> victim c /\
    suspect_id v = victim c /\
    (sid <> killer c -> isKiller suspect = false) /\
    In alibi (alibis c) /\ alibi_suspectId alibi = sid /\
    rels = filter (fun r => orb (String.eqb (rel_from r) sid)
                                (String.eqb (rel_to r) sid))
             (relationships c) /\
    statements t = alibiPart suspect (Some alibi) c
                   ++ relationshipPart suspect v (Some alibi) rels c
                   ++ [observation; self] /\
    (topic observation = topic_observations /\
     isLie observation = isKiller suspect) /\
    (topic self = topic_self /\ isLie self = isKiller suspect).
Proof.
  intros Hgen Htm Hin.
  destruct (generateTestimonies_Ok c r tm r' Htm sid t Hin)
    as (s & vv & r1 & r2 & Hs & Hliving & Hsid & Hvv & Hsts).
  pose proof (generated_has_alibi c Hgen) as Hhas.
  destruct Hgen.
  assert (Evv : vv = v).
  { rewrite gen_suspects in Hvv. simpl in Hvv.
    destruct gen_victim_flags as [Hv _]. rewrite Hv in Hvv. congruence. }
  subst vv.
  assert (Hnv : sid <> victim c).
  { rewrite gen_suspects in Hs. destruct Hs as [<-|[<-|Hs]].
    - destruct gen_victim_flags. congruence.
    - subst sid. rewrite gen_victim_id. auto.
    - subst sid. rewrite gen_victim_id. apply (gen_others_ids s Hs). }
  destruct (Hhas s Hs) as (a0 & Ha0 & Hid0); [congruence|].
  destruct (jsFind (fun a => String.eqb (alibi_suspectId a) (suspect_id s))
              (alibis c)) as [a|] eqn:Ea.
  2:{ unfold jsFind in Ea. apply (find_none _ _ Ea) in Ha0.
      rewrite Hid0, String.eqb_refl in Ha0. discriminate. }
  unfold jsFind in Ea. apply find_some in Ea. destruct Ea as [Ha Hida].
  apply String.eqb_eq in Hida.
  apply generateSuspectStatements_Ok in Hsts.
  destruct Hsts as (obs & self & Hsts & Hobs & Hself).
  exists s, v, a, (filter (fun r => orb (String.eqb (rel_from r) sid)
                                        (String.eqb (rel_to r) sid))
                     (relationships c)), obs, self.
  subst sid. repeat split; auto; try tauto.
  intros Hnk. rewrite gen_suspects in Hs. destruct Hs as [<-|[<-|Hs]].
  - tauto.
  - congruence.
  - rewrite Forall_forall in gen_others_flags. apply (gen_others_flags s Hs).
Qed.

Lemma victimRelationshipOf_Some v sid rels_all rel :
  sid <> suspect_id v ->
  victimRelationshipOf v
    (filter (fun r => orb (String.eqb (rel_from r) sid)
                          (String.eqb (rel_to r) sid)) rels_all) = Some rel ->
  In rel rels_all /\ between rel sid (suspect_id v).
Proof.
  unfold victimRelationshipOf, jsFind. intros Hne H.
  apply find_some in H. destruct H as [Hin Hv].
  apply filter_In in Hin. destruct Hin as [Hin Hs].
  split; [exact Hin|].
  apply orb_true_iff in Hv, Hs. unfold between.
  repeat match goal with
         | H : _ \/ _ |- _ => destruct H
         | H : String.eqb _ _ = true |- _ => apply String.eqb_eq in H
         end; try (left; split; congruence); try (right; split; congruence);
    exfalso; apply Hne; congruence.
Qed.

Lemma victimRelationshipOf_None v sid rels_all rel :
  victimRelationshipOf v
    (filter (fun r => orb (String.eqb (rel_from r) sid)
                          (String.eqb (rel_to r) sid)) rels_all) = None ->
  In rel rels_all -> ~ between rel sid (suspect_id v).
Proof.
  unfold victimRelationshipOf, jsFind. intros H Hin Hb.
  assert (Hf : In rel (filter (fun r => orb (String.eqb (rel_from r) sid)
                                            (String.eqb (rel_to r) sid))
                         rels_all)).
  { apply filter_In. split; [exact Hin|].
    destruct Hb as [[<- _]|[_ <-]]; rewrite String.eqb_refl;
      [reflexivity | apply orb_true_r]. }
  apply (find_none _ _ H) in Hf.
  destruct Hb as [[_ E]|[E _]]; rewrite E, String.eqb_refl in Hf;
    [discriminate | rewrite orb_true_r in Hf; discriminate].
Qed.

Lemma filter_none {A} (f : A -> bool) l :
  (forall x, In x l -> f x = false) -> filter f l = [].
Proof.
  induction l as [|x l IH]; simpl; intros H; [reflexivity|].
  rewrite (H x (or_introl eq_refl)). apply IH. intros y Hy. apply H. right; exact Hy.
Qed.

(** C6. In the testimonies generated over a case returned by
    [generateCase], every lie of a living suspect other than the killer is
    a statement on the topic 'relationships' that stems from a relationship
    between that suspect and the victim whose [isPublicKnowledge] is false;
    the alibi, observation and self statements of such a suspect are never
    lies, and the suspect has at most one lie. *)
Theorem innocent_lies_only_about_secret_relationship
    seedrandom fuel seed config c r tm r' sid t :
  generateCase seedrandom fuel seed config = Ok c ->
  generateTestimonies c r = Ok (tm, r') ->
  In (sid, t) tm ->
  sid <> killer c ->
  (forall st, In st (statements t) -> isLie st = true ->
     topic st = topic_relationships /\
     exists rel, In rel (relationships c) /\
       isPublicKnowledge rel = false /\ between rel sid (victim c)) /\
  (forall st, In st (statements t) ->
     topic st = topic_alibi \/ topic st = topic_observations \/
     topic st = topic_self ->
     isLie st = false) /\
  (List.length (filter isLie (statements t)) <= 1)%nat.
Proof.
  intros Hcase Htm Hin Hnk.
  pose proof (generateCase_Ok seedrandom fuel seed config c Hcase) as Hgen.
  pose proof (generated_alibi c Hgen) as Halibi.
  destruct (generated_testimony c r tm r' sid t Hgen Htm Hin)
    as (s & v & a & rels & obs & self & Hs & Hliving & Hsid & Hnv & Hv & Hk
        & Ha & Hida & Hrels & Hsts & [Hobs1 Hobs2] & [Hself1 Hself2]).
  specialize (Hk Hnk). rewrite Hk in Hobs2, Hself2.
  assert (Hat : isFalse a = false).
  { destruct (Halibi a Ha) as [[E _]|[_ [[E _] _]]]; [congruence | exact E]. }
  destruct (generateAlibiStatement_facts (nextId s 0) s a c) as [Ha1 Ha2].
  rewrite Hat in Ha2.
  assert (Hrel : forall st,
            In st (relationshipPart s v (Some a) rels c) ->
            topic st = topic_relationships /\
            (isLie st = true ->
             exists rel, In rel (relationships c) /\
               isPublicKnowledge rel = false /\ between rel sid (victim c))).
  { intros st Hst. unfold relationshipPart in Hst.
    destruct (victimRelationshipOf v rels) as [rel|] eqn:Er; [|contradiction].
    destruct Hst as [<-|[]].
    destruct (generateRelationshipStatement_facts
                (nextId s (List.length (alibiPart s (Some a) c))) s v rel c)
      as [Ht Hl].
    split; [exact Ht|]. intros Hlie. rewrite Hl in Hlie.
    apply negb_true_iff in Hlie.
    subst rels. apply victimRelationshipOf_Some in Er; [|congruence].
    destruct Er as [Hrin Hb]. exists rel. rewrite <- Hv. auto. }
  rewrite Hsts. split; [|split].
  - intros st Hst Hlie.
    apply in_app_or in Hst. destruct Hst as [Hst|Hst].
    { destruct Hst as [<-|[]]. congruence. }
    apply in_app_or in Hst. destruct Hst as [Hst|Hst].
    { destruct (Hrel st Hst) as [Ht Hl]. auto. }
    destruct Hst as [<-|[<-|[]]]; congruence.
  - intros st Hst Ht.
    apply in_app_or in Hst. destruct Hst as [Hst|Hst].
    { destruct Hst as [<-|[]]. exact Ha2. }
    apply in_app_or in Hst. destruct Hst as [Hst|Hst].
    { destruct (Hrel st Hst) as [Ht' _]. rewrite Ht' in Ht.
      destruct Ht as [Ht|[Ht|Ht]]; discriminate. }
    destruct Hst as [<-|[<-|[]]]; assumption.
  - rewrite !filter_app, !length_app.
    rewrite (filter_none isLie (alibiPart s (Some a) c)).
    2:{ intros st [<-|[]]. exact Ha2. }
    rewrite (filter_none isLie [obs; self]).
    2:{ intros st [<-|[<-|[]]]; assumption. }
    simpl. rewrite Nat.add_0_r.
    eapply Nat.le_trans; [apply filter_length_le|].
    unfold relationshipPart. destruct (victimRelationshipOf v rels); simpl; lia.
Qed.

Lemma threeNextStatements_index c suspectId :
  exists i,
    interrogation (threeNextStatements c suspectId) = Some i /\
    interrogation_suspectId i = suspectId /\
    currentStatementIndex i = 3%Z.
Proof. eexists. split; [reflexivity|]. split; reflexivity. Qed.

(** NEXT_STATEMENT has no upper bound: one more dispatch moves the index
    past any testimony of four statements. *)
Lemma fourth_next_statement c suspectId :
  exists i,
    interrogation (gameReducer (threeNextStatements c suspectId) NEXT_STATEMENT)
      = Some i /\
    currentStatementIndex i = 4%Z.
Proof. eexists. split; reflexivity. Qed.

(** C9 (amended). For the state built from
    [generateCase('test-reducer-seed')], after START_GAME and
    START_INTERROGATION on a non-victim suspect, three NEXT_STATEMENT leave
    [currentStatementIndex] at 3, the number of dispatches: the reducer is
    total (no dispatch throws) and does not clamp.  The testimony of the
    suspect has three or four statements, and the index is
    [statements.length - 1] exactly when the suspect has a relationship
    with the victim. *)
Theorem three_next_statements
    seedrandom fuel c r tm r' sid t :
  generateCase seedrandom fuel "test-reducer-seed" defaultConfig = Ok c ->
  generateTestimonies c r = Ok (tm, r') ->
  In (sid, t) tm ->
  exists i,
    interrogation (threeNextStatements c sid) = Some i /\
    interrogation_suspectId i = sid /\
    currentStatementIndex i = 3%Z /\
    (List.length (statements t) = 4%nat \/ List.length (statements t) = 3%nat) /\
    (currentStatementIndex i = (Z.of_nat (List.length (statements t)) - 1)%Z
     <-> exists rel, In rel (relationships c) /\ between rel sid (victim c)).
Proof.
  intros Hcase Htm Hin.
  pose proof (generateCase_Ok seedrandom fuel _ _ c Hcase) as Hgen.
  destruct (generated_testimony c r tm r' sid t Hgen Htm Hin)
    as (s & v & a & rels & obs & self & Hs & Hliving & Hsid & Hnv & Hv & Hk
        & Ha & Hida & Hrels & Hsts & _ & _).
  destruct (threeNextStatements_index c sid) as (i & Hi & Hi1 & Hi2).
  exists i. split; [exact Hi|]. split; [exact Hi1|]. split; [exact Hi2|].
  rewrite Hi2, Hsts, !length_app. simpl.
  unfold relationshipPart.
  destruct (victimRelationshipOf v rels) as [rel|] eqn:Er; simpl.
  - split; [left; reflexivity|]. split; [intros _|reflexivity].
    subst rels. apply victimRelationshipOf_Some in Er; [|congruence].
    destruct Er as [Hrin Hb]. exists rel. rewrite <- Hv. auto.
  - split; [right; reflexivity|]. split; [intros E; discriminate E|].
    intros (rel & Hrin & Hb). exfalso. subst rels.
    apply (victimRelationshipOf_None v sid (relationships c) rel Er Hrin).
    rewrite Hv. exact Hb.
Qed.

Lemma three_next_statements_witness :
  exists c tm r' sid t,
    generateCase sampleRandom 5 "test-reducer-seed" defaultConfig = Ok c /\
    generateTestimonies c (createRandom sampleRandom "test-reducer-seed")
      = Ok (tm, r') /\
    In (sid, t) tm /\
    exists i,
      interrogation (threeNextStatements c sid) = Some i /\
      interrogation_suspectId i = sid /\
      currentStatementIndex i = 3%Z /\
      (List.length (statements t) = 4%nat \/
       List.length (statements t) = 3%nat) /\
      (currentStatementIndex i = (Z.of_nat (List.length (statements t)) - 1)%Z
       <-> exists rel, In rel (relationships c) /\ between rel sid (victim c)).
Proof.
  eassert (H1 : generateCase sampleRandom 5 "test-reducer-seed" defaultConfig
                = Ok _) by (vm_compute; reflexivity).
  match type of H1 with
  | _ = Ok ?c =>
      eassert (H2 : generateTestimonies c
                      (createRandom sampleRandom "test-reducer-seed") = Ok _)
        by (vm_compute; reflexivity)
  end.
  match type of H2 with
  | generateTestimonies ?c _ = Ok (?tm, ?r') =>
      match tm with
      | (?sid, ?t) :: _ =>
          assert (H3 : In (sid, t) tm) by (left; reflexivity);
          exists c, tm, r', sid, t
      end
  end.
  split; [exact H1|]. split; [exact H2|]. split; [exact H3|].
  exact (three_next_statements _ _ _ _ _ _ _ _ H1 H2 H3).
Defined.

(** C9, counterexample.  With the sample generator the case generated from
    'test-reducer-seed' has a non-victim suspect whose testimony has three
    statements: after three NEXT_STATEMENT the index is 3, not
    [statements.length - 1 = 2]. *)
Lemma three_next_statements_not_clamped :
  exists c tm r' sid t i,
    generateCase sampleRandom 5 "test-reducer-seed" defaultConfig = Ok c /\
    generateTestimonies c (createRandom sampleRandom "test-reducer-seed")
      = Ok (tm, r') /\
    In (sid, t) tm /\
    (exists s, In s (suspects c) /\ suspect_id s = sid /\ isVictim s = false) /\
    interrogation (threeNextStatements c sid) = Some i /\
    List.length (statements t) = 3%nat /\
    currentStatementIndex i <> (Z.of_nat (List.length (statements t)) - 1)%Z.
Proof.
  eassert (H1 : generateCase sampleRandom 5 "test-reducer-seed" defaultConfig
                = Ok _) by (vm_compute; reflexivity).
  match type of H1 with
  | _ = Ok ?c =>
      eassert (H2 : generateTestimonies c
                      (createRandom sampleRandom "test-reducer-seed") = Ok _)
        by (vm_compute; reflexivity)
  end.
  match type of H2 with
  | generateTestimonies ?c _ = Ok (?tm, ?r') =>
      match tm with
      | _ :: (?sid, ?t) :: _ =>
          exists c, tm, r', sid, t
      end
  end.
  eexists.
  split; [exact H1|]. split; [exact H2|].
  split; [right; left; reflexivity|].
  split.
  { eexists. split; [right; right; left; reflexivity|].
    split; reflexivity. }
  split; [reflexivity|].
  split; [reflexivity|].
  vm_compute. discriminate.
Qed.

Lemma innocent_lies_witness :
  exists c tm r' sid t,
    generateCase sampleRandom 5 "test-seed" defaultConfig = Ok c /\
    generateTestimonies c (createRandom sampleRandom "test-seed") = Ok (tm, r') /\
    In (sid, t) tm /\
    sid <> killer c /\
    (forall st, In st (statements t) -> isLie st = true ->
       topic st = topic_relationships /\
       exists rel, In rel (relationships c) /\
         isPublicKnowledge rel = false /\ between rel sid (victim c)) /\
    (forall st, In st (statements t) ->
       topic st = topic_alibi \/ topic st = topic_observations \/
       topic st = topic_self ->
       isLie st = false) /\
    (List.length (filter isLie (statements t)) <= 1)%nat.
Proof.
  eassert (H1 : generateCase sampleRandom 5 "test-seed" defaultConfig = Ok _)
    by (vm_compute; reflexivity).
  match type of H1 with
  | _ = Ok ?c =>
      eassert (H2 : generateTestimonies c (createRandom sampleRandom "test-seed")
                    = Ok _) by (vm_compute; reflexivity)
  end.
  match type of H2 with
  | generateTestimonies ?c _ = Ok (?tm, ?r') =>
      match tm with
      | _ :: (?sid, ?t) :: _ =>
          assert (H3 : In (sid, t) tm) by (right; left; reflexivity);
          assert (H4 : sid <> killer c) by (vm_compute; discriminate);
          exists c, tm, r', sid, t
      end
  end.
  split; [exact H1|]. split; [exact H2|]. split; [exact H3|]. split; [exact H4|].
  exact (innocent_lies_only_about_secret_relationship _ _ _ _ _ _ _ _ _ _ H1 H2 H3 H4).
Defined.

(* ================================================================== *)
(** * The panel puzzle                                                 *)
(* ================================================================== *)

Module PanelPuzzleFacts.
Import PanelPuzzle PanelPuzzleSpec.

(* ------------------------------------------------------------------ *)
(** ** Reading and writing cells                                       *)
(* ------------------------------------------------------------------ *)

Lemma nth_setNth_same {A} (v d : A) : forall l i,
  (i < List.length l)%nat -> nth i (setNth i v l) d = v.
Proof.
  induction l as [|h t IH]; intros [|i] H; simpl in *; try lia; auto.
  apply IH. lia.
Qed.

Lemma nth_setNth_other {A} (v d : A) : forall l i j,
  i <> j -> nth j (setNth i v l) d = nth j l d.
Proof.
  induction l as [|h t IH]; intros [|i] [|j] H; simpl in *; auto; try congruence.
Qed.

Lemma wf_grid_valid g r c : wf_grid g -> in_grid r c -> valid g r c.
Proof.
  intros [Hrows Hcols] [[Hr0 Hr] [Hc0 Hc]]. unfold valid.
  assert (Hlt : (Z.to_nat r < List.length g)%nat) by (rewrite Hrows; lia).
  repeat split; auto.
  rewrite Forall_forall in Hcols.
  rewrite (Hcols (nth (Z.to_nat r) g [])); [lia|].
  apply nth_In. exact Hlt.
Qed.

Lemma setCell_eq g r c v :
  valid g r c ->
  setCell g r c v =
  setNth (Z.to_nat r) (setNth (Z.to_nat c) v (nth (Z.to_nat r) g [])) g.
Proof.
  intros (Hr & Hc & Hlr & Hlc). unfold setCell.
  destruct (Z.ltb_spec r 0); [lia|]. destruct (Z.ltb_spec c 0); [lia|]. simpl.
  rewrite (nth_error_nth' g [] Hlr). reflexivity.
Qed.

Lemma cell_setCell_same g r c v :
  valid g r c -> cell (setCell g r c v) r c = v.
Proof.
  intros Hv. rewrite (setCell_eq g r c v Hv).
  destruct Hv as (Hr & Hc & Hlr & Hlc). unfold cell.
  destruct (Z.ltb_spec r 0); [lia|]. destruct (Z.ltb_spec c 0); [lia|]. simpl.
  rewrite nth_setNth_same by exact Hlr.
  apply nth_setNth_same. exact Hlc.
Qed.

Lemma cell_setCell_other g r c v r' c' :
  (r, c) <> (r', c') -> cell (setCell g r c v) r' c' = cell g r' c'.
Proof.
  intros Hne. unfold setCell, cell.
  destruct (Z.ltb_spec r 0); simpl; [reflexivity|].
  destruct (Z.ltb_spec c 0); simpl; [reflexivity|].
  destruct (Z.ltb_spec r' 0); simpl; [reflexivity|].
  destruct (Z.ltb_spec c' 0); simpl; [reflexivity|].
  destruct (nth_error g (Z.to_nat r)) as [rw|] eqn:E; [|reflexivity].
  destruct (Nat.eq_dec (Z.to_nat r) (Z.to_nat r')) as [Er|Er].
  - assert (Hlr : (Z.to_nat r < List.length g)%nat)
      by (apply nth_error_Some; congruence).
    rewrite <- Er, nth_setNth_same by exact Hlr.
    assert (Hc : Z.to_nat c <> Z.to_nat c').
    { intros Ec. apply Hne. f_equal; lia. }
    rewrite nth_setNth_other by exact Hc.
    f_equal. symmetry. apply nth_error_nth. exact E.
  - rewrite nth_setNth_other by exact Er. reflexivity.
Qed.

Lemma valid_setCell g r c v r' c' :
  valid g r' c' -> valid (setCell g r c v) r' c'.
Proof.
  intros (Hr & Hc & Hlr & Hlc). unfold valid, setCell.
  destruct (orb (r <? 0)%Z (c <? 0)%Z); [repeat split; assumption|].
  destruct (nth_error g (Z.to_nat r)) as [rw|] eqn:E;
    [|repeat split; assumption].
  repeat split; try assumption.
  - rewrite setNth_length. exact Hlr.
  - destruct (Nat.eq_dec (Z.to_nat r) (Z.to_nat r')) as [Er|Er].
    + rewrite <- Er, nth_setNth_same
        by (apply nth_error_Some; congruence).
      rewrite setNth_length.
      rewrite <- Er in Hlc. rewrite (nth_error_nth _ _ [] E) in Hlc. exact Hlc.
    + rewrite nth_setNth_other by exact Er. exact Hlc.
Qed.

Lemma wf_grid_setCell g r c v : wf_grid g -> wf_grid (setCell g r c v).
Proof.
  intros [Hrows Hcols]. unfold wf_grid, setCell.
  destruct (orb (r <? 0)%Z (c <? 0)%Z); [split; assumption|].
  destruct (nth_error g (Z.to_nat r)) as [rw|] eqn:E; [|split; assumption].
  split; [rewrite setNth_length; exact Hrows|].
  rewrite Forall_forall in *. intros x Hx.
  apply In_nth with (d := []) in Hx. destruct Hx as (i & Hi & <-).
  rewrite setNth_length in Hi.
  destruct (Nat.eq_dec (Z.to_nat r) i) as [<-|Er].
  - rewrite nth_setNth_same by exact Hi. rewrite setNth_length.
    apply Hcols. eapply nth_error_In; eauto.
  - rewrite nth_setNth_other by exact Er. apply Hcols. apply nth_In. exact Hi.
Qed.

(* ------------------------------------------------------------------ *)
(** ** The grid copy of [trySwap]                                   *)
(* ------------------------------------------------------------------ *)

Lemma swapCells_selected g sr sc tr tc :
  valid g sr sc -> valid g tr tc -> (sr, sc) <> (tr, tc) ->
  cell (swapCells g sr sc tr tc) sr sc = moveTo sr sc (cell g tr tc).
Proof.
  intros Hs Ht Hne. unfold swapCells.
  assert (Hne' : (tr, tc) <> (sr, sc)) by congruence.
  rewrite cell_setCell_other by exact Hne'.
  rewrite cell_setCell_same by (repeat apply valid_setCell; exact Hs).
  rewrite cell_setCell_other by exact Hne'.
  rewrite cell_setCell_same by exact Hs. reflexivity.
Qed.

Lemma swapCells_target g sr sc tr tc :
  valid g sr sc -> valid g tr tc -> (sr, sc) <> (tr, tc) ->
  cell (swapCells g sr sc tr tc) tr tc = moveTo tr tc (cell g sr sc).
Proof.
  intros Hs Ht Hne. unfold swapCells.
  rewrite cell_setCell_same by (repeat apply valid_setCell; exact Ht).
  rewrite cell_setCell_other by exact Hne.
  rewrite cell_setCell_same by (apply valid_setCell; exact Ht). reflexivity.
Qed.

Lemma swapCells_elsewhere g sr sc tr tc r c :
  (r, c) <> (sr, sc) -> (r, c) <> (tr, tc) ->
  cell (swapCells g sr sc tr tc) r c = cell g r c.
Proof.
  intros H1 H2. unfold swapCells.
  assert (H1' : (sr, sc) <> (r, c)) by congruence.
  assert (H2' : (tr, tc) <> (r, c)) by congruence.
  rewrite !cell_setCell_other by assumption. reflexivity.
Qed.

Lemma wf_grid_swapCells g sr sc tr tc :
  wf_grid g -> wf_grid (swapCells g sr sc tr tc).
Proof. intros H. unfold swapCells. repeat apply wf_grid_setCell. exact H. Qed.

Lemma isAdjacent_spec r1 c1 r2 c2 :
  isAdjacent r1 c1 r2 c2 = true <->
  (c2 = c1 /\ (r2 = r1 + 1 \/ r2 = r1 - 1))%Z \/
  (r2 = r1 /\ (c2 = c1 + 1 \/ c2 = c1 - 1))%Z.
Proof.
  unfold isAdjacent.
  rewrite orb_true_iff, !andb_true_iff, !Z.eqb_eq. lia.
Qed.

(** C7. With a selection [sel] and a target cell of the grid:
    a target that is not 4-directionally adjacent to the selection leaves
    the state unchanged ([swapped = false]); an adjacent target whose
    tentative swap has no match gives [swapped = false] and a state whose
    [selected] is [null], with the original grid and every other field as
    before; otherwise
    [swapped = true] and the swapped grid is committed, in which the two
    panels have exchanged their cells (with their coordinates updated) and
    every other cell is as before. *)
Theorem trySwap_cases (s : PanelPuzzleState) (sel : Pos) (targetRow targetCol : Z) :
  wf_grid (grid s) ->
  selected s = Some sel ->
  in_grid (row sel) (col sel) ->
  in_grid targetRow targetCol ->
  let adjacent :=
    ((targetCol = col sel /\
      (targetRow = row sel + 1 \/ targetRow = row sel - 1)) \/
     (targetRow = row sel /\
      (targetCol = col sel + 1 \/ targetCol = col sel - 1)))%Z in
  let newGrid := swapCells (grid s) (row sel) (col sel) targetRow targetCol in
  (~ adjacent -> trySwap s targetRow targetCol = mkSwapResult false s) /\
  (adjacent -> findMatches newGrid = [] ->
   swapped (trySwap s targetRow targetCol) = false /\
   selected (state (trySwap s targetRow targetCol)) = None /\
   grid (state (trySwap s targetRow targetCol)) = grid s /\
   state (trySwap s targetRow targetCol)
   = mkPanelPuzzleState (grid s) (score s) (combo s) (targetScore s)
       (timeRemaining s) (isAnimating s) (isGameOver s) (riseProgress s)
       (nextRow s) None) /\
  (adjacent -> findMatches newGrid <> [] ->
   trySwap s targetRow targetCol = mkSwapResult true (committed s newGrid) /\
   wf_grid newGrid /\
   cell newGrid (row sel) (col sel)
     = moveTo (row sel) (col sel) (cell (grid s) targetRow targetCol) /\
   cell newGrid targetRow targetCol
     = moveTo targetRow targetCol (cell (grid s) (row sel) (col sel)) /\
   forall r c, (r, c) <> (row sel, col sel) -> (r, c) <> (targetRow, targetCol) ->
     cell newGrid r c = cell (grid s) r c).
Proof.
  intros Hwf Hsel Hin Htgt adjacent newGrid.
  pose proof (isAdjacent_spec (row sel) (col sel) targetRow targetCol) as Hadj.
  fold adjacent in Hadj.
  assert (Eg : newGrid
               = swapCells (grid s) (row sel) (col sel) targetRow targetCol)
    by reflexivity.
  clearbody newGrid.
  unfold trySwap. rewrite Hsel, <- Eg.
  split; [|split].
  - intros Hna.
    destruct (isAdjacent (row sel) (col sel) targetRow targetCol);
      [exfalso; apply Hna, Hadj; reflexivity | reflexivity].
  - intros Ha Hm. apply Hadj in Ha. rewrite Ha, Hm. simpl.
    split; [reflexivity|]. split; [reflexivity|]. split; reflexivity.
  - intros Ha Hm.
    assert (Hne : (row sel, col sel) <> (targetRow, targetCol)).
    { intros E. inversion E. unfold adjacent in Ha. lia. }
    apply Hadj in Ha. rewrite Ha.
    destruct (findMatches newGrid) as [|m ms] eqn:Em; [contradiction|]. simpl.
    split; [reflexivity|]. subst newGrid.
    split; [apply wf_grid_swapCells; exact Hwf|].
    split; [apply swapCells_selected; auto using wf_grid_valid|].
    split; [apply swapCells_target; auto using wf_grid_valid|].
    intros r c H1 H2. apply swapCells_elsewhere; assumption.
Qed.

(* ------------------------------------------------------------------ *)
(** ** The activation loop terminates                                  *)
(* ------------------------------------------------------------------ *)

Lemma filter_setNth_le {A} (f : A -> bool) (v : A) : forall l i,
  f v = false ->
  (List.length (filter f (setNth i v l)) <= List.length (filter f l))%nat.
Proof.
  induction l as [|h t IH]; intros [|i] Hv; simpl; auto.
  - rewrite Hv. destruct (f h); simpl; lia.
  - specialize (IH i Hv). destruct (f h); simpl; lia.
Qed.

Lemma filter_setNth_lt {A} (f : A -> bool) (v d : A) : forall l i,
  f v = false -> (i < List.length l)%nat -> f (nth i l d) = true ->
  (S (List.length (filter f (setNth i v l))) <= List.length (filter f l))%nat.
Proof.
  induction l as [|h t IH]; intros [|i] Hv Hi Hf; simpl in *; try lia.
  - rewrite Hv, Hf. simpl. lia.
  - assert (Hi' : (i < List.length t)%nat) by lia.
    specialize (IH i Hv Hi' Hf). destruct (f h); simpl; lia.
Qed.


Lemma list_sum_setNth (f : list (option Panel) -> nat) rw' : forall g i rw,
  nth_error g i = Some rw ->
  (list_sum (map f (setNth i rw' g)) + f rw = list_sum (map f g) + f rw')%nat.
Proof.
  induction g as [|h t IH]; intros [|i] rw H; simpl in *; try discriminate.
  - inversion H; subst. lia.
  - specialize (IH i rw H). lia.
Qed.

Lemma panelCount_clear_le g r c :
  (panelCount (setCell g r c None) <= panelCount g)%nat.
Proof.
  unfold setCell.
  destruct (orb (r <? 0)%Z (c <? 0)%Z); [lia|].
  destruct (nth_error g (Z.to_nat r)) as [rw|] eqn:E; [|lia].
  unfold panelCount.
  pose proof (list_sum_setNth rowCount (setNth (Z.to_nat c) None rw) g
                (Z.to_nat r) rw E) as Hs.
  assert (Hle : (rowCount (setNth (Z.to_nat c) None rw) <= rowCount rw)%nat)
    by (apply filter_setNth_le; reflexivity).
  lia.
Qed.

Lemma panelCount_clear_lt g r c p :
  cell g r c = Some p ->
  (S (panelCount (setCell g r c None)) <= panelCount g)%nat.
Proof.
  unfold setCell, cell. intros Hc.
  destruct (orb (r <? 0)%Z (c <? 0)%Z); [discriminate|].
  destruct (nth_error g (Z.to_nat r)) as [rw|] eqn:E.
  - rewrite (nth_error_nth _ _ [] E) in Hc.
    unfold panelCount.
    pose proof (list_sum_setNth rowCount (setNth (Z.to_nat c) None rw) g
                  (Z.to_nat r) rw E) as Hs.
    assert (Hlt : (S (rowCount (setNth (Z.to_nat c) None rw)) <= rowCount rw)%nat).
    { apply filter_setNth_lt with (d := None); [reflexivity| |rewrite Hc; reflexivity].
      destruct (Nat.lt_ge_cases (Z.to_nat c) (List.length rw)) as [Hl|Hl];
        [exact Hl|].
      rewrite nth_overflow in Hc by exact Hl. discriminate. }
    lia.
  - apply nth_error_None in E. rewrite (nth_overflow g [] E) in Hc.
    destruct (Z.to_nat c); discriminate.
Qed.

Lemma chainStep_pending activated st pos :
  (pending (chainStep activated st pos) <= pending st)%nat.
Proof.
  destruct st as [g q]. unfold chainStep, pending. simpl.
  destruct (cell g (row pos) (col pos)) as [p|] eqn:Ec.
  - pose proof (panelCount_clear_lt g (row pos) (col pos) p Ec) as Hlt.
    destruct (bonus p); [|simpl; lia].
    destruct (negb (existsb (Pos_eqb pos) activated)); simpl;
      [rewrite length_app; simpl; lia | lia].
  - pose proof (panelCount_clear_le g (row pos) (col pos)). simpl. lia.
Qed.

Lemma chain_pending activated : forall ps st,
  (pending (fold_left (chainStep activated) ps st) <= pending st)%nat.
Proof.
  induction ps as [|pos ps IH]; intros st; simpl; [lia|].
  eapply Nat.le_trans; [apply IH | apply chainStep_pending].
Qed.

Lemma activateAll_total : forall fuel g q activated,
  (panelCount g + List.length q < fuel)%nat ->
  exists g', activateAll fuel g q activated = Some g'.
Proof.
  induction fuel as [|fuel IH]; intros g q activated Hlt; [lia|].
  destruct q as [|b rest]; simpl; [eexists; reflexivity|].
  simpl in Hlt.
  destruct (existsb _ activated).
  - apply IH. lia.
  - pose proof (chain_pending
                  (activated ++ [mkPos (bi_row b) (bi_col b)])
                  (activateBonus g (bi_row b) (bi_col b) (bi_bonus b))
                  (g, rest)) as Hp.
    destruct (fold_left _ _ (g, rest)) as [g1 rest1].
    unfold pending in Hp. simpl in Hp.
    apply IH. lia.
Qed.

(* ------------------------------------------------------------------ *)
(** ** The bonus to create                                             *)
(* ------------------------------------------------------------------ *)

Lemma last_cons {A} : forall l (a d : A), last (a :: l) d = last l a.
Proof.
  induction l as [|b l IH]; intros a d; [reflexivity|].
  change (last (a :: b :: l) d) with (last (b :: l) d).
  rewrite (IH b d), (IH b a). reflexivity.
Qed.

Lemma processMatch_fold : forall ms g q b,
  snd (fold_left processMatch ms (g, q, b)) = last (map Some (qualifying ms)) b.
Proof.
  induction ms as [|m ms IH]; intros g q b; [reflexivity|].
  change (fold_left processMatch (m :: ms) (g, q, b))
    with (fold_left processMatch ms (processMatch (g, q, b) m)).
  assert (Hb : snd (processMatch (g, q, b) m)
               = match bonusFor m with Some x => Some x | None => b end)
    by reflexivity.
  destruct (processMatch (g, q, b) m) as [[g1 q1] b1]. simpl in Hb. subst b1.
  rewrite IH. unfold qualifying. simpl flat_map.
  destruct (bonusFor m) as [x|]; simpl app; [|reflexivity].
  rewrite map_cons, last_cons. reflexivity.
Qed.

Lemma resolveMatches_total g ms :
  exists cleared, resolveMatches g ms = Some (cleared, lastQualifying ms).
Proof.
  unfold resolveMatches.
  pose proof (processMatch_fold ms g [] None) as Hb.
  destruct (fold_left processMatch ms (g, [], None)) as [[g1 q] b].
  simpl in Hb. subst b.
  destruct (activateAll_total (activationFuel g1 q) g1 q []) as [g' Hg'].
  { unfold activationFuel. lia. }
  rewrite Hg'. exists g'. reflexivity.
Qed.

Lemma wf_sampleGrid_swap : wf_grid swapGrid.
Proof. split; [reflexivity | repeat constructor]. Qed.

Lemma trySwap_cases_witness :
  wf_grid (grid (sampleState swapGrid 0 (Some (mkPos 11 2)))) /\
  selected (sampleState swapGrid 0 (Some (mkPos 11 2))) = Some (mkPos 11 2) /\
  in_grid 11 2 /\ in_grid 11 3 /\
  trySwap (sampleState swapGrid 0 (Some (mkPos 11 2))) 11 3
  = mkSwapResult true
      (committed (sampleState swapGrid 0 (Some (mkPos 11 2)))
         (swapCells swapGrid 11 2 11 3)).
Proof.
  assert (Hwf : wf_grid (grid (sampleState swapGrid 0 (Some (mkPos 11 2)))))
    by (split; [reflexivity | repeat constructor]).
  assert (Hs : in_grid 11 2) by (unfold in_grid, GRID_ROWS, GRID_COLS; lia).
  assert (Ht : in_grid 11 3) by (unfold in_grid, GRID_ROWS, GRID_COLS; lia).
  split; [exact Hwf|]. split; [reflexivity|]. split; [exact Hs|].
  split; [exact Ht|].
  refine (proj1 (proj2 (proj2
            (trySwap_cases (sampleState swapGrid 0 (Some (mkPos 11 2)))
               (mkPos 11 2) 11 3 Hwf eq_refl Hs Ht)) _ _)).
  - right. split; [reflexivity | left; reflexivity].
  - vm_compute. discriminate.
Defined.

(* ------------------------------------------------------------------ *)
(** ** Score and combo                                                 *)
(* ------------------------------------------------------------------ *)

Lemma baseScoreOf_fold : forall ms a,
  fold_left (fun sum m => (sum + Z.of_nat (List.length (positions m)) * 10)%Z)
    ms a
  = (a + 10 * matchedCells ms)%Z.
Proof.
  unfold matchedCells, list_sum.
  induction ms as [|m ms IH]; intros a; cbn [fold_left map fold_right];
    [lia|].
  rewrite IH. lia.
Qed.

Lemma baseScoreOf_eq ms : baseScoreOf ms = (10 * matchedCells ms)%Z.
Proof. unfold baseScoreOf. rewrite baseScoreOf_fold. lia. Qed.

(** With a base score of ten points per cell the product is an integer:
    the floor changes nothing. *)
Lemma comboScore_eq cells comboNow :
  comboScore (10 * cells) comboNow = (5 * cells * (2 + comboNow))%Z.
Proof.
  unfold comboScore.
  rewrite <- (Qfloor_Z (5 * cells * (2 + comboNow))).
  apply Qfloor_comp.
  unfold Qeq, Qmult, Qplus, inject_Z. cbn [Qnum Qden].
  rewrite !Pos.mul_1_l, !Z.mul_1_r. lia.
Qed.

(** C8 (amended). A [processMatches] wave that finds a match returns a
    state whose combo is the input combo plus 1 and whose score is raised
    by [floor(sum of positions.length * 10, times 1 + combo * 0.5)], that
    is by [5 * cells * (2 + combo)].  A [processMatches] pass that finds no
    match leaves the combo as it is (only [isAnimating] is cleared); the
    reset to 0 is what [resetComboIfNoMatch] does. *)
Theorem processMatches_combo (panelIdCounter : nat) (s : PanelPuzzleState) :
  (findMatches (grid s) <> [] ->
   exists s' panelIdCounter',
     processMatches panelIdCounter s = Ok (s', panelIdCounter') /\
     combo s' = (combo s + 1)%Z /\
     score s' = (score s
                 + comboScore (baseScoreOf (findMatches (grid s))) (combo s))%Z /\
     score s' = (score s
                 + 5 * matchedCells (findMatches (grid s)) * (2 + combo s))%Z) /\
  (findMatches (grid s) = [] ->
   processMatches panelIdCounter s = Ok (settled s, panelIdCounter) /\
   combo (settled s) = combo s /\
   combo (resetComboIfNoMatch s) = 0%Z).
Proof.
  split.
  - intros Hm. unfold processMatches.
    destruct (resolveMatches_total (grid s) (findMatches (grid s)))
      as [cleared Hr].
    rewrite Hr.
    destruct (findMatches (grid s)) as [|m ms] eqn:Em; [contradiction|].
    cbn [List.length Nat.eqb].
    destruct (placeBonus panelIdCounter cleared (lastQualifying (m :: ms)))
      as [g' n'].
    eexists. eexists. split; [reflexivity|].
    cbn [combo score]. split; [reflexivity|]. split; [reflexivity|].
    rewrite baseScoreOf_eq, comboScore_eq. reflexivity.
  - intros Hm. unfold processMatches, resetComboIfNoMatch. rewrite Hm.
    simpl. auto.
Qed.

Lemma processMatches_combo_witness :
  exists s' panelIdCounter',
    findMatches (grid (sampleState twoRunsGrid 2 None)) <> [] /\
    processMatches 100 (sampleState twoRunsGrid 2 None)
      = Ok (s', panelIdCounter') /\
    combo s' = 3%Z /\ score s' = 160%Z.
Proof.
  assert (Hm : findMatches (grid (sampleState twoRunsGrid 2 None)) <> [])
    by (vm_compute; discriminate).
  destruct (proj1 (processMatches_combo 100 (sampleState twoRunsGrid 2 None)) Hm)
    as (s' & n' & Hp & Hc & _ & Hs).
  exists s', n'. split; [exact Hm|]. split; [exact Hp|].
  split; [exact Hc|]. rewrite Hs. vm_compute. reflexivity.
Defined.

(** C8, counterexample. On a grid without a match, [processMatches]
    returns the combo it was given: 2, not 0. *)
Lemma processMatches_keeps_combo_without_match :
  findMatches (grid (sampleState emptyGrid 2 None)) = [] /\
  exists s',
    processMatches 0 (sampleState emptyGrid 2 None) = Ok (s', 0%nat) /\
    combo s' = 2%Z /\ combo s' <> 0%Z.
Proof.
  split; [vm_compute; reflexivity|].
  eexists. split; [vm_compute; reflexivity|].
  split; [reflexivity | discriminate].
Qed.

(* ------------------------------------------------------------------ *)
(** ** Bonus creation                                                  *)
(* ------------------------------------------------------------------ *)




Example two_runs_one_bonus :
  exists s',
    processMatches 100 (sampleState twoRunsGrid 0 None) = Ok (s', 101%nat) /\
    bonusCount (grid s') = 1%nat /\
    option_map bonus (cell (grid s') 11 3) = Some (Some line_h) /\
    cell (grid s') 10 2 = None.
Proof.
  eexists. split; [vm_compute; reflexivity|].
  split; [vm_compute; reflexivity|]. split; vm_compute; reflexivity.
Qed.

End PanelPuzzleFacts.

(* ================================================================== *)
(** * Code running on a source within [0, 1)                           *)
(* ================================================================== *)

Lemma runs_ret {A} (a : A) (P : A -> Prop) E F : P a -> runs (ret a) P E F.
Proof. intros Ha r Hr. simpl. auto. Qed.

Lemma runs_bind {A B} (m : Gen A) (k : A -> Gen B) P Q E F :
  runs m P E F -> (forall a, P a -> runs (k a) Q E F) ->
  runs (bind m k) Q E F.
Proof.
  intros Hm Hk r Hr. unfold bind. specialize (Hm r Hr).
  destruct (m r) as [[a r1]| |]; [|exact Hm|exact Hm].
  destruct Hm as [Hr1 Ha]. apply (Hk a Ha r1 Hr1).
Qed.

Lemma runs_weaken {A} (m : Gen A) (P Q : A -> Prop) (E E' : JsError -> Prop)
      (F F' : Prop) :
  runs m P E F -> (forall a, P a -> Q a) -> (forall e, E e -> E' e) ->
  (F -> F') -> runs m Q E' F'.
Proof.
  intros Hm HP HE HF r Hr. specialize (Hm r Hr).
  destruct (m r) as [[a r1]| |]; [destruct Hm; auto | auto | auto].
Qed.

Lemma returns_runs {A} (m : Gen A) (P : A -> Prop) E F :
  returns m P -> runs m P E F.
Proof.
  intros H. eapply runs_weaken; [exact H | auto | intros e [] | intros []].
Qed.

Lemma returns_Ok {A} (m : Gen A) (P : A -> Prop) r :
  returns m P -> unitSource r ->
  exists a r', m r = Ok (a, r') /\ unitSource r' /\ P a.
Proof.
  intros H Hr. specialize (H r Hr).
  destruct (m r) as [[a r1]| |]; [|contradiction|contradiction].
  exists a, r1. tauto.
Qed.

Lemma runs_post {A} (m : Gen A) (P : A -> Prop) E F r a r' :
  runs m P E F -> unitSource r -> m r = Ok (a, r') -> unitSource r' /\ P a.
Proof. intros H Hr Hm. specialize (H r Hr). rewrite Hm in H. exact H. Qed.

Lemma runs_defined {A} (o : option A) (P : A -> Prop) E F :
  (exists a, o = Some a /\ P a) -> runs (defined o) P E F.
Proof. intros (a & -> & Ha). apply runs_ret. exact Ha. Qed.

Lemma returns_rng : returns rng (fun u => (0 <= u)%Q /\ (u < 1)%Q).
Proof. intros r Hr. simpl. split; [exact Hr | apply Hr]. Qed.

Lemma Qfloor_unit (u : Q) (n : Z) :
  (0 <= u)%Q -> (u < 1)%Q -> (0 < n)%Z ->
  (0 <= Qfloor (u * inject_Z n) < n)%Z.
Proof.
  intros H0 H1 Hn. split.
  - change 0%Z with (Qfloor 0). apply Qfloor_resp_le.
    apply Qmult_le_0_compat; [exact H0|].
    change 0%Q with (inject_Z 0). rewrite <- Zle_Qle. lia.
  - rewrite Zlt_Qlt. eapply Qle_lt_trans; [apply Qfloor_le|].
    rewrite <- (Qmult_1_l (inject_Z n)) at 2.
    apply Qmult_lt_r; [|exact H1].
    change 0%Q with (inject_Z 0). rewrite <- Zlt_Qlt. exact Hn.
Qed.

Lemma Qfloor_zero (u : Q) : Qfloor (u * inject_Z 0) = 0%Z.
Proof.
  assert (E : (u * inject_Z 0 == 0)%Q) by ring.
  rewrite E. reflexivity.
Qed.

Lemma returns_rngFloor n :
  (0 < n)%Z -> returns (rngFloor n) (fun k => (0 <= k < n)%Z).
Proof.
  intros Hn. unfold rngFloor.
  eapply runs_bind; [apply returns_rng|].
  intros u [H0 H1]. apply runs_ret. apply Qfloor_unit; assumption.
Qed.

Lemma returns_randomInt min max :
  (min <= max)%Z -> returns (randomInt min max) (fun k => (min <= k <= max)%Z).
Proof.
  intros H. unfold randomInt.
  eapply runs_bind; [apply returns_rngFloor; lia|].
  intros k Hk. apply runs_ret. cbv beta in *. lia.
Qed.

Lemma returns_pick {A} (array : list A) :
  array <> [] ->
  returns (pick array) (fun o => exists x, o = Some x /\ In x array).
Proof.
  intros Hne. unfold pick.
  eapply runs_bind.
  - apply returns_rngFloor. destruct array; [contradiction|simpl; lia].
  - intros i Hi. apply runs_ret. cbv beta in *. unfold index.
    destruct (Z.ltb_spec i 0); [lia|].
    destruct (nth_error array (Z.to_nat i)) as [x|] eqn:E.
    + exists x. split; [reflexivity|]. eapply nth_error_In; eauto.
    + apply nth_error_None in E. lia.
Qed.

Lemma returns_pickOr {A} (d : A) (array : list A) :
  array <> [] -> returns (pickOr d array) (fun x => In x array).
Proof.
  intros Hne. unfold pickOr.
  eapply runs_bind; [apply returns_pick; exact Hne|].
  intros o (x & -> & Hx). apply runs_ret. exact Hx.
Qed.

Lemma swapAt_length {A} (l : list A) i j :
  List.length (swapAt i j l) = List.length l.
Proof.
  unfold swapAt. destruct (nth_error l i), (nth_error l j); try reflexivity.
  rewrite !setNth_length. reflexivity.
Qed.

Lemma returns_shuffleLoop {A} : forall i (l : list A),
  (i < List.length l \/ i = 0)%nat ->
  returns (shuffleLoop i l) (fun l' => Permutation l l').
Proof.
  induction i as [|i IH]; intros l Hi; simpl.
  - apply runs_ret. apply Permutation_refl.
  - eapply runs_bind; [apply returns_rngFloor; lia|].
    intros j Hj. eapply runs_weaken; [apply IH| | auto | auto].
    + rewrite swapAt_length. lia.
    + intros l' Hl'. cbv beta in *. eapply perm_trans; [|exact Hl'].
      apply Permutation_sym. apply swapAt_perm.
Qed.

Lemma returns_shuffle {A} (l : list A) :
  returns (shuffle l) (fun l' => Permutation l l').
Proof.
  unfold shuffle. apply returns_shuffleLoop.
  destruct l; simpl; lia.
Qed.

Lemma sampleRandom_unit : unit_interval sampleRandom.
Proof.
  intros seed k. unfold sampleRandom.
  set (x := (N.of_nat k * N.of_nat k * 3 + N.of_nat k * 5
             + N.of_nat (String.length seed) * 5 + 3)%N).
  assert (Hx : (x mod 101 < 101)%N) by (apply N.mod_lt; discriminate).
  set (y := (x mod 101)%N) in *. clearbody y. unfold Qle, Qlt. cbn [Qnum Qden]. lia.
Qed.

Lemma createRandom_unit seedrandom seed :
  unit_interval seedrandom -> unitSource (createRandom seedrandom seed).
Proof. intros H k. apply H. Qed.

Lemma rngFloor_drawn n r z r' :
  rngFloor n r = Ok (z, r') -> drawn r' = S (drawn r).
Proof. unfold rngFloor, rng, bind, ret. intros H. inversion H. reflexivity. Qed.

Lemma shuffleLoop_drawn {A} : forall i (l : list A) r l' r',
  shuffleLoop i l r = Ok (l', r') -> drawn r' = (drawn r + i)%nat.
Proof.
  induction i as [|i IH]; simpl; intros l r l' r' H.
  - gen_ret H. lia.
  - gen_step H as j r1 Hj. apply rngFloor_drawn in Hj.
    apply IH in H. lia.
Qed.

(** X1. On a source within [0, 1), [randomInt(min, max)] with
    [min <= max] returns an integer of [[min, max]] and draws one number. *)
Theorem randomInt_range (min max : Z) (r : RandomSource) :
  unitSource r -> (min <= max)%Z ->
  exists k r',
    randomInt min max r = Ok (k, r') /\ (min <= k <= max)%Z /\
    drawn r' = S (drawn r).
Proof.
  intros Hr Hle.
  destruct (returns_Ok _ _ r (returns_randomInt min max Hle) Hr)
    as (k & r' & Hk & _ & Hrange).
  exists k, r'. split; [exact Hk|]. split; [exact Hrange|].
  unfold randomInt in Hk. gen_step Hk as z r1 Hz. gen_ret Hk.
  eapply rngFloor_drawn; eauto.
Qed.

Lemma randomInt_range_witness :
  exists k r',
    randomInt 25 70 (createRandom sampleRandom "x") = Ok (k, r') /\
    (25 <= k <= 70)%Z /\
    drawn r' = S (drawn (createRandom sampleRandom "x")).
Proof.
  apply randomInt_range;
    [apply createRandom_unit, sampleRandom_unit | lia].
Defined.

(** [randomInt(min, min - 1)] is [floor(rng() * 0) + min]: it returns
    [min], above its upper bound, whatever the source. *)
Lemma randomInt_empty_range (min : Z) (r : RandomSource) :
  exists r', randomInt min (min - 1) r = Ok (min, r').
Proof.
  unfold randomInt, rngFloor, rng, bind, ret.
  replace (min - 1 - min + 1)%Z with 0%Z by lia.
  rewrite Qfloor_zero. eexists. reflexivity.
Qed.

(** X2. On a source within [0, 1), [pick] returns an element of a
    non-empty array; on the empty array it returns [undefined]. *)
Theorem pick_member {A} (array : list A) (r : RandomSource) :
  unitSource r ->
  exists o r',
    pick array r = Ok (o, r') /\
    match array with
    | [] => o = None
    | _ :: _ => exists x, o = Some x /\ In x array
    end.
Proof.
  intros Hr. destruct array as [|a array].
  - unfold pick, rngFloor, rng, bind, ret. cbn [List.length Z.of_nat].
    rewrite Qfloor_zero. do 2 eexists. split; reflexivity.
  - destruct (returns_Ok _ _ r (returns_pick (a :: array) ltac:(discriminate)) Hr)
      as (o & r' & Ho & _ & Hx).
    exists o, r'. split; [exact Ho | exact Hx].
Qed.

Lemma pick_member_witness :
  exists o r',
    pick [1%Z; 2%Z; 3%Z] (createRandom sampleRandom "x") = Ok (o, r') /\
    exists x, o = Some x /\ In x [1%Z; 2%Z; 3%Z].
Proof.
  exact (pick_member [1%Z; 2%Z; 3%Z] (createRandom sampleRandom "x")
           (createRandom_unit sampleRandom "x" sampleRandom_unit)).
Defined.

(** X3. On a source within [0, 1), [shuffle] returns a permutation of its
    argument, and draws one number less than the array has elements. *)
Theorem shuffle_permutation {A} (array : list A) (r : RandomSource) :
  unitSource r ->
  exists l r',
    shuffle array r = Ok (l, r') /\ Permutation array l /\
    List.length l = List.length array /\
    drawn r' = (drawn r + (List.length array - 1))%nat.
Proof.
  intros Hr.
  destruct (returns_Ok _ _ r (returns_shuffle array) Hr)
    as (l & r' & Hl & _ & Hperm).
  exists l, r'. split; [exact Hl|]. split; [exact Hperm|]. split.
  - symmetry. apply Permutation_length. exact Hperm.
  - unfold shuffle in Hl. eapply shuffleLoop_drawn; eauto.
Qed.

Lemma shuffle_permutation_witness :
  exists l r',
    shuffle [1%Z; 2%Z; 3%Z; 4%Z] (createRandom sampleRandom "x") = Ok (l, r') /\
    Permutation [1%Z; 2%Z; 3%Z; 4%Z] l /\
    List.length l = 4%nat /\
    drawn r' = 3%nat.
Proof.
  exact (shuffle_permutation [1%Z; 2%Z; 3%Z; 4%Z]
           (createRandom sampleRandom "x")
           (createRandom_unit sampleRandom "x" sampleRandom_unit)).
Defined.

(* ================================================================== *)
(** * Code that returns on every source                                *)
(* ================================================================== *)

Lemma bind_eq {A B} (m : Gen A) (k : A -> Gen B) r a r1 :
  m r = Ok (a, r1) -> bind m k r = k a r1.
Proof. unfold bind. intros ->. reflexivity. Qed.

Lemma bind_Throw {A B} (m : Gen A) (k : A -> Gen B) r e :
  m r = Throw e -> bind m k r = Throw e.
Proof. unfold bind. intros ->. reflexivity. Qed.

Lemma total_ret {A} (a : A) : total (ret a).
Proof. intros r. exists a, r. reflexivity. Qed.

Lemma total_bind {A B} (m : Gen A) (k : A -> Gen B) :
  total m -> (forall a, total (k a)) -> total (bind m k).
Proof.
  intros Hm Hk r. destruct (Hm r) as (a & r1 & Ha).
  destruct (Hk a r1) as (b & r2 & Hb). exists b, r2.
  rewrite (bind_eq _ _ _ _ _ Ha). exact Hb.
Qed.

Lemma total_rng : total rng.
Proof. intros r. do 2 eexists. reflexivity. Qed.

Lemma total_rngFloor n : total (rngFloor n).
Proof.
  apply total_bind; [apply total_rng | intros; apply total_ret].
Qed.

Lemma total_randomInt a b : total (randomInt a b).
Proof.
  apply total_bind; [apply total_rngFloor | intros; apply total_ret].
Qed.

Lemma total_pick {A} (l : list A) : total (pick l).
Proof.
  apply total_bind; [apply total_rngFloor | intros; apply total_ret].
Qed.

Lemma total_pickOr {A} (d : A) (l : list A) : total (pickOr d l).
Proof.
  apply total_bind; [apply total_pick | intros; apply total_ret].
Qed.

Lemma total_shuffleLoop {A} : forall i (l : list A), total (shuffleLoop i l).
Proof.
  induction i as [|i IH]; intros l; simpl.
  - apply total_ret.
  - apply total_bind; [apply total_rngFloor | intros; apply IH].
Qed.

Lemma total_shuffle {A} (l : list A) : total (shuffle l).
Proof. apply total_shuffleLoop. Qed.

Lemma total_foldGen {A S} (body : S -> A -> Gen S) :
  (forall s x, total (body s x)) ->
  forall xs s, total (foldGen xs s body).
Proof.
  intros Hb. induction xs as [|x xs IH]; intros s; simpl.
  - apply total_ret.
  - apply total_bind; [apply Hb | intros; apply IH].
Qed.

Ltac total_tac :=
  repeat
    (intros;
     lazymatch goal with
     | |- total (bind _ _) => apply total_bind
     | |- total (ret _) => apply total_ret
     | |- total (foldGen _ _ _) => apply total_foldGen
     | |- total rng => apply total_rng
     | |- total random => apply total_rng
     | |- total (rngFloor _) => apply total_rngFloor
     | |- total (randomInt _ _) => apply total_randomInt
     | |- total (pick _) => apply total_pick
     | |- total (pickOr _ _) => apply total_pickOr
     | |- total (shuffle _) => apply total_shuffle
     end).

Lemma total_generateLocations : total generateLocations.
Proof. unfold generateLocations. total_tac. Qed.

Lemma total_generateSuspects count : total (generateSuspects count).
Proof.
  unfold generateSuspects. total_tac. intros.
  match goal with |- total (generateSuspect _ _ _ _ ?s _) => destruct s end.
  unfold generateSuspect, generatePersonality, random. total_tac.
Qed.

(* ================================================================== *)
(** * Suspects                                                         *)
(* ================================================================== *)

Lemma generateSuspect_names fn ln oc ds : forall n a used ss r st' r',
  foldGen (seq a n) (used, ss) (generateSuspect fn ln oc ds) r = Ok (st', r') ->
  map firstName (snd st')
  = map firstName ss
    ++ map (fun i => nth (i mod List.length fn) fn "") (seq a n).
Proof.
  induction n as [|n IH]; simpl; intros a used ss r st' r' H.
  - gen_ret H. simpl. rewrite app_nil_r. reflexivity.
  - gen_step H as st1 r1 Hst. destruct st1 as [used1 ss1].
    unfold generateSuspect in Hst.
    gen_step Hst as p r2 Hp. gen_step Hst as ag r3 Hag. gen_ret Hst.
    match goal with E : (_, _) = (_, _) |- _ => inversion E; subst; clear E end.
    apply IH in H. rewrite H, map_app. simpl. rewrite <- app_assoc. reflexivity.
Qed.

Lemma map_nth_seq {A} (d : A) : forall (l : list A) n,
  (n <= List.length l)%nat ->
  map (fun i => nth (i mod List.length l) l d) (seq 0 n) = firstn n l.
Proof.
  intros l n Hn.
  assert (E : forall k l0, (k + List.length l0 <= List.length l)%nat ->
              (forall i, (i < List.length l0)%nat ->
                 nth (k + i) l d = nth i l0 d) ->
              forall m, (m <= List.length l0)%nat ->
              map (fun i => nth (i mod List.length l) l d) (seq k m)
              = firstn m l0).
  { intros k l0. revert k. induction l0 as [|x l0 IH]; intros k Hk Hnth m Hm.
    - simpl in Hm. replace m with 0%nat by lia. reflexivity.
    - destruct m as [|m]; [reflexivity|]. simpl. f_equal.
      + rewrite Nat.mod_small by (simpl in Hk; lia).
        specialize (Hnth 0%nat ltac:(simpl; lia)).
        rewrite Nat.add_0_r in Hnth. exact Hnth.
      + apply IH; [simpl in Hk; lia | | simpl in Hm; lia].
        intros i Hi. specialize (Hnth (S i) ltac:(simpl; lia)).
        rewrite Nat.add_succ_r in Hnth. exact Hnth. }
  apply (E 0%nat l); [lia | reflexivity | exact Hn].
Qed.

Lemma NoDup_firstn {A} (l : list A) n : NoDup l -> NoDup (firstn n l).
Proof.
  intros H. rewrite <- (firstn_skipn n l) in H.
  apply NoDup_app_remove_r in H. exact H.
Qed.

Lemma In_firstn {A} (x : A) : forall n l, In x (firstn n l) -> In x l.
Proof.
  induction n as [|n IH]; intros [|a l] H; simpl in *; try contradiction.
  destruct H as [H|H]; [left; exact H | right; apply IH; exact H].
Qed.

Lemma NoDup_firstNames : NoDup firstNames.
Proof.
  assert (E : nodup string_dec firstNames = firstNames)
    by (vm_compute; reflexivity).
  rewrite <- E. apply NoDup_nodup.
Qed.

Lemma roster_names (fn : list string) count :
  (count <= List.length fn)%nat -> NoDup fn ->
  NoDup (map firstName []
         ++ map (fun i => nth (i mod List.length fn) fn "") (seq 0 count)).
Proof.
  intros Hcount Hnd. simpl. rewrite map_nth_seq by exact Hcount.
  apply NoDup_firstn. exact Hnd.
Qed.

(** X4. [generateSuspects] returns [count] suspects with the identifiers
    [suspect-0], [suspect-1], ... in this order, none of them victim or
    killer; up to as many suspects as there are first names (60), no two
    have the same first name. *)
Theorem generateSuspects_roster count r ss r' :
  generateSuspects count r = Ok (ss, r') ->
  List.length ss = count /\
  map suspect_id ss = map suspectIdOf (seq 0 count) /\
  Forall unassigned ss /\
  ((count <= List.length firstNames)%nat -> NoDup (map firstName ss)).
Proof.
  intros H.
  destruct (generateSuspects_Ok count r ss r' H) as [Hids Hun].
  split; [|split; [exact Hids|split; [exact Hun|]]].
  - rewrite <- (length_map suspect_id), Hids, length_map, length_seq.
    reflexivity.
  - intros Hcount. revert H. unfold generateSuspects. intros H.
    gen_step H as fn r1 Hfn. gen_step H as ln r2 Hln.
    gen_step H as oc r3 Hoc. gen_step H as ds r4 Hds.
    gen_step H as st r5 Hst. gen_ret H.
    apply generateSuspect_names in Hst. rewrite Hst.
    apply shuffle_perm in Hfn.
    apply roster_names.
    + rewrite <- (Permutation_length Hfn). exact Hcount.
    + exact (Permutation_NoDup Hfn NoDup_firstNames).
Qed.

Lemma generateSuspects_roster_witness :
  exists ss r',
    generateSuspects 6 (createRandom sampleRandom "roster") = Ok (ss, r') /\
    List.length ss = 6%nat /\
    map suspect_id ss = map suspectIdOf (seq 0 6) /\
    Forall unassigned ss /\
    ((6 <= List.length firstNames)%nat -> NoDup (map firstName ss)).
Proof.
  destruct (generateSuspects 6 (createRandom sampleRandom "roster"))
    as [[ss r']| |] eqn:E; [ | sample_returns E | sample_returns E].
  exists ss, r'. split; [reflexivity|].
  exact (generateSuspects_roster 6 _ ss r' E).
Defined.

(* ------------------------------------------------------------------ *)

Lemma filterIndex_all {A} (p : nat -> bool) : forall (l : list A) k,
  (forall j, (k <= j)%nat -> p j = true) -> filterIndex p k l = l.
Proof.
  induction l as [|h t IH]; simpl; intros k Hp; [reflexivity|].
  rewrite (Hp k (Nat.le_refl k)). f_equal. apply IH.
  intros j Hj. apply Hp. lia.
Qed.

Lemma filterIndex_remove1 {A} (p : nat -> bool) : forall (l : list A) k i x,
  nth_error l i = Some x ->
  (forall j, (k <= j)%nat -> p j = negb (j =? k + i)%nat) ->
  Permutation l (x :: filterIndex p k l).
Proof.
  induction l as [|h t IH]; intros k i x Hi Hp; [destruct i; discriminate|].
  destruct i as [|i]; simpl in *.
  - inversion Hi; subst. rewrite (Hp k (Nat.le_refl k)).
    rewrite Nat.add_0_r, Nat.eqb_refl. simpl.
    rewrite filterIndex_all; [reflexivity|].
    intros j Hj. rewrite Hp by lia. apply negb_true_iff, Nat.eqb_neq. lia.
  - rewrite (Hp k (Nat.le_refl k)).
    replace (k =? k + S i)%nat with false
      by (symmetry; apply Nat.eqb_neq; lia).
    simpl. eapply perm_trans; [|apply perm_swap]. apply perm_skip.
    apply (IH (S k) i x Hi). intros j Hj. rewrite Hp by lia.
    f_equal. f_equal. lia.
Qed.

Lemma filterIndex_remove2 {A} (p : nat -> bool) :
  forall (l : list A) k vi ki x y,
  vi <> ki ->
  nth_error l vi = Some x -> nth_error l ki = Some y ->
  (forall j, (k <= j)%nat ->
     p j = andb (negb (j =? k + vi)%nat) (negb (j =? k + ki)%nat)) ->
  Permutation l (x :: y :: filterIndex p k l).
Proof.
  induction l as [|h t IH]; intros k vi ki x y Hne Hv Hk Hp;
    [destruct vi; discriminate|].
  simpl. rewrite (Hp k (Nat.le_refl k)).
  destruct vi as [|vi]; [|destruct ki as [|ki]]; simpl in Hv, Hk.
  - inversion Hv; subst. rewrite Nat.add_0_r, Nat.eqb_refl. simpl.
    apply perm_skip. destruct ki as [|ki]; [contradiction|]. simpl in Hk.
    apply (filterIndex_remove1 p t (S k) ki y Hk).
    intros j Hj. rewrite Hp by lia.
    replace (j =? k + 0)%nat with false
      by (symmetry; apply Nat.eqb_neq; lia).
    simpl. f_equal. f_equal. lia.
  - inversion Hk; subst. rewrite Nat.add_0_r, Nat.eqb_refl.
    rewrite andb_false_r. eapply perm_trans; [|apply perm_swap].
    apply perm_skip.
    apply (filterIndex_remove1 p t (S k) vi x Hv).
    intros j Hj. rewrite Hp by lia.
    replace (j =? k + 0)%nat with false
      by (symmetry; apply Nat.eqb_neq; lia).
    rewrite andb_true_r. f_equal. f_equal. lia.
  - replace (k =? k + S vi)%nat with false
      by (symmetry; apply Nat.eqb_neq; lia).
    replace (k =? k + S ki)%nat with false
      by (symmetry; apply Nat.eqb_neq; lia).
    simpl.
    apply perm_trans with (h :: x :: y :: filterIndex p (S k) t).
    + apply perm_skip. apply (IH (S k) vi ki x y); [lia | exact Hv | exact Hk |].
      intros j Hj. rewrite Hp by lia.
      f_equal; f_equal; f_equal; lia.
    + eapply perm_trans; [apply perm_swap|]. apply perm_skip. apply perm_swap.
Qed.

Lemma assignVictimAndKiller_too_few fuel ss r :
  (List.length ss < 3)%nat ->
  assignVictimAndKiller fuel ss r = Throw NeedThreeSuspects.
Proof.
  intros H. unfold assignVictimAndKiller.
  apply Nat.ltb_lt in H. rewrite H. reflexivity.
Qed.

(** What [assignVictimAndKiller] returns, by position in its argument. *)
Lemma assignVictimAndKiller_split fuel ss r a r' :
  assignVictimAndKiller fuel ss r = Ok (a, r') ->
  (3 <= List.length ss)%nat /\
  exists sv sk,
    Permutation ss (sv :: sk :: asg_others a) /\
    asg_victim a
    = createSuspect (suspect_id sv) (firstName sv) (lastName sv)
        (occupation sv) (age sv) (suspect_description sv) (personality sv)
        (Some true) (Some (isKiller sv)) /\
    asg_killer a
    = createSuspect (suspect_id sk) (firstName sk) (lastName sk)
        (occupation sk) (age sk) (suspect_description sk) (personality sk)
        (Some (isVictim sk)) (Some true).
Proof.
  intros H. unfold assignVictimAndKiller in H.
  destruct (Nat.ltb_spec (List.length ss) 3); [discriminate|].
  split; [assumption|].
  gen_step H as vi r1 Hvi. gen_step H as ki0 r2 Hki0.
  gen_step H as ki r3 Hki. gen_step H as sv r4 Hv.
  gen_step H as sk r5 Hk. gen_step H as sh r6 Hsh. gen_ret H.
  apply redrawKiller_Ok in Hki.
  apply defined_Ok in Hv. destruct Hv as [Hv ?]; subst.
  apply defined_Ok in Hk. destruct Hk as [Hk ?]; subst.
  apply index_Some in Hv. destruct Hv as [Hv0 Hv].
  apply index_Some in Hk. destruct Hk as [Hk0 Hk].
  exists sv, sk. simpl. split; [|split; reflexivity].
  apply shuffle_perm in Hsh.
  eapply perm_trans;
    [|apply perm_skip, perm_skip; exact Hsh].
  apply (filterIndex_remove2 _ ss 0 (Z.to_nat vi) (Z.to_nat ki) sv sk);
    [lia | exact Hv | exact Hk |].
  intros j _. simpl. f_equal; f_equal.
  - destruct (Z.eqb_spec (Z.of_nat j) vi), (Nat.eqb_spec j (Z.to_nat vi));
      try reflexivity; lia.
  - destruct (Z.eqb_spec (Z.of_nat j) ki), (Nat.eqb_spec j (Z.to_nat ki));
      try reflexivity; lia.
Qed.

(** X5. [assignVictimAndKiller] needs three suspects; what it returns
    splits its argument: the victim and the killer are two of the suspects
    given, flagged, and the others are exactly the remaining ones. *)
Theorem assignVictimAndKiller_partition fuel ss r a r' :
  assignVictimAndKiller fuel ss r = Ok (a, r') ->
  (3 <= List.length ss)%nat /\
  Permutation (map suspect_id ss)
    (suspect_id (asg_victim a) :: suspect_id (asg_killer a)
       :: map suspect_id (asg_others a)) /\
  isVictim (asg_victim a) = true /\ isKiller (asg_killer a) = true /\
  (forall o, In o (asg_others a) -> In o ss) /\
  List.length (asg_others a) = (List.length ss - 2)%nat.
Proof.
  intros H. apply assignVictimAndKiller_split in H.
  destruct H as (Hlen & sv & sk & Hperm & -> & ->). simpl.
  split; [exact Hlen|]. split; [|split; [reflexivity|split; [reflexivity|split]]].
  - apply (Permutation_map suspect_id) in Hperm. exact Hperm.
  - intros o Ho. apply (Permutation_in _ (Permutation_sym Hperm)).
    right; right; exact Ho.
  - apply Permutation_length in Hperm. simpl in Hperm. lia.
Qed.

Lemma assignVictimAndKiller_partition_witness :
  exists ss r1 a r',
    generateSuspects 6 (createRandom sampleRandom "roster") = Ok (ss, r1) /\
    assignVictimAndKiller 5 ss r1 = Ok (a, r') /\
    (3 <= List.length ss)%nat /\
    Permutation (map suspect_id ss)
      (suspect_id (asg_victim a) :: suspect_id (asg_killer a)
         :: map suspect_id (asg_others a)) /\
    isVictim (asg_victim a) = true /\ isKiller (asg_killer a) = true /\
    (forall o, In o (asg_others a) -> In o ss) /\
    List.length (asg_others a) = (List.length ss - 2)%nat.
Proof.
  eassert (H1 : generateSuspects 6 (createRandom sampleRandom "roster") = Ok _)
    by (vm_compute; reflexivity).
  match type of H1 with
  | _ = Ok (?ss, ?r1) =>
      eassert (H2 : assignVictimAndKiller 5 ss r1 = Ok _)
        by (vm_compute; reflexivity)
  end.
  match type of H2 with
  | assignVictimAndKiller _ ?ss ?r1 = Ok (?a, ?r') => exists ss, r1, a, r'
  end.
  split; [exact H1|]. split; [exact H2|].
  exact (assignVictimAndKiller_partition _ _ _ _ _ H2).
Defined.

(* ================================================================== *)
(** * The steps of a run of [generateCase]                             *)
(* ================================================================== *)

Lemma generateCase_generation seedrandom fuel seed config c :
  generateCase seedrandom fuel seed config = Ok c ->
  generation seedrandom fuel seed config c.
Proof.
  intros H. apply generateCase_first_attempt in H. destruct H as [r H].
  revert H. unfold generateCaseOnce. intros H.
  gen_step H as locs r1 Hlocs. gen_step H as ss r2 Hss.
  gen_step H as a r3 Ha. gen_step H as mo r4 Hmo.
  gen_step H as we r5 Hwe. gen_step H as cs r6 Hcs.
  gen_step H as tod r7 Htod. gen_step H as rels r8 Hrels.
  gen_step H as cl r9 Hcl. gen_step H as al r10 Hal.
  apply ret_Ok in H. destruct H as [Hc _].
  eapply Generation; eauto.
Qed.

Lemma generateSuspects_length count r ss r' :
  generateSuspects count r = Ok (ss, r') -> List.length ss = count.
Proof.
  intros H. apply generateSuspects_Ok in H. destruct H as [Hids _].
  rewrite <- (length_map suspect_id), Hids, length_map, length_seq.
  reflexivity.
Qed.

Lemma assignVictimAndKiller_others fuel ss r a r' :
  assignVictimAndKiller fuel ss r = Ok (a, r') ->
  (3 <= List.length ss)%nat /\
  List.length (asg_others a) = (List.length ss - 2)%nat.
Proof.
  intros H. apply assignVictimAndKiller_split in H.
  destruct H as (Hlen & sv & sk & Hperm & _).
  split; [exact Hlen|].
  apply Permutation_length in Hperm. simpl in Hperm. lia.
Qed.

(* ================================================================== *)
(** * Fewer than four suspects                                         *)
(* ================================================================== *)

(** With one suspect besides the victim and the killer, the loop of the
    red-herring relationships runs twice ([randomInt(2, 1)] is 2) and
    reads [shuffledOthers[1].id]. *)
Lemma generateRelationshipGraph_lone_other victim killer o motive n r x :
  generateRelationshipGraph victim killer [o] motive n r <> Ok x.
Proof.
  unfold generateRelationshipGraph. intros H. destruct x as [rels r'].
  gen_step H as kv r1 Hkv. gen_step H as rhc r2 Hrhc.
  gen_step H as sh r3 Hsh. gen_step H as rels2 r4 Hrels. clear H.
  destruct (randomInt_empty_range 2 r1) as [r2' E].
  change (Z.min 3 (Z.of_nat (List.length [o]))) with (2 - 1)%Z in Hrhc.
  rewrite E in Hrhc. inversion Hrhc; subst. clear Hrhc E.
  unfold shuffle in Hsh. simpl in Hsh. gen_ret Hsh.
  change (seq 0 (Z.to_nat 2)) with [0%nat; 1%nat] in Hrels.
  simpl in Hrels.
  gen_step Hrels as rels0 r5 H0. gen_step Hrels as rels1 r6 H1.
  unfold redHerringRelationship in H1.
  gen_step H1 as rt ra Hrt. gen_step H1 as se rb Hse.
  gen_step H1 as s rc Hs. simpl in Hs. discriminate Hs.
Qed.

Lemma generateCaseOnce_too_few fuel seed config r :
  (suspectCount config < 3)%nat ->
  generateCaseOnce fuel seed config r = Throw NeedThreeSuspects.
Proof.
  intros Hlt. unfold generateCaseOnce.
  destruct (total_generateLocations r) as (locs & r1 & E1).
  rewrite (bind_eq _ _ _ _ _ E1).
  destruct (total_generateSuspects (suspectCount config) r1) as (ss & r2 & E2).
  rewrite (bind_eq _ _ _ _ _ E2).
  apply bind_Throw. apply assignVictimAndKiller_too_few.
  rewrite (generateSuspects_length _ _ _ _ E2). exact Hlt.
Qed.

(** X6. [generateCase] never returns a case for three suspects or fewer:
    below three, [assignVictimAndKiller] throws its error; with exactly
    three, the relationship generator reads an element that does not
    exist. *)
Theorem generateCase_needs_four_suspects seedrandom fuel seed config :
  (suspectCount config <= 3)%nat ->
  (forall c, generateCase seedrandom fuel seed config <> Ok c) /\
  ((suspectCount config < 3)%nat ->
   generateCase seedrandom fuel seed config = Throw NeedThreeSuspects).
Proof.
  intros Hle. split.
  - intros c H. apply generateCase_generation in H. destruct H.
    apply generateSuspects_length in run_suspects.
    apply assignVictimAndKiller_others in run_assign.
    destruct run_assign as [H3 Hothers].
    assert (Hone : List.length (asg_others a) = 1%nat) by lia.
    destruct (asg_others a) as [|o [|o' rest]]; try discriminate Hone.
    eapply generateRelationshipGraph_lone_other; eauto.
  - intros Hlt. rewrite generateCase_eq.
    rewrite (generateCaseOnce_too_few fuel seed config _ Hlt). reflexivity.
Qed.

Lemma generateCase_needs_four_suspects_witness :
  (forall c,
     generateCase sampleRandom 5 "three" (mkCaseGeneratorConfig 3 medium)
     <> Ok c) /\
  ((3 < 3)%nat ->
   generateCase sampleRandom 5 "three" (mkCaseGeneratorConfig 3 medium)
   = Throw NeedThreeSuspects).
Proof.
  apply (generateCase_needs_four_suspects sampleRandom 5 "three"
           (mkCaseGeneratorConfig 3 medium)).
  simpl. lia.
Defined.

(* ================================================================== *)
(** * Victim, killer and living suspects of a case                     *)
(* ================================================================== *)

Lemma filter_all {A} (f : A -> bool) l :
  (forall x, In x l -> f x = true) -> filter f l = l.
Proof.
  induction l as [|x l IH]; simpl; intros H; [reflexivity|].
  rewrite (H x (or_introl eq_refl)). f_equal. apply IH.
  intros y Hy. apply H. right; exact Hy.
Qed.

Lemma generation_suspects seedrandom fuel seed config c :
  generation seedrandom fuel seed config c ->
  List.length (suspects c) = suspectCount config /\
  NoDup (map suspect_id (suspects c)).
Proof.
  intros []. subst c. simpl.
  pose proof (generateSuspects_length _ _ _ _ run_suspects) as Hlen.
  apply generateSuspects_Ok in run_suspects. destruct run_suspects as [Hids _].
  apply assignVictimAndKiller_split in run_assign.
  destruct run_assign as (H3 & sv & sk & Hperm & Hv & Hk).
  rewrite Hv, Hk. simpl. split.
  - apply Permutation_length in Hperm. simpl in Hperm. lia.
  - apply (Permutation_map suspect_id) in Hperm. simpl in Hperm.
    eapply Permutation_NoDup; [exact Hperm|].
    rewrite Hids. apply NoDup_suspectIds.
Qed.

(** X7. In a case returned by [generateCase]: there are as many suspects
    as configured, with pairwise distinct identifiers; [getKiller] and
    [getVictim] find the killer and the victim, which are the only
    suspects flagged as such; [getSuspects] returns the others and the
    killer. *)
Theorem generateCase_roles seedrandom fuel seed config c :
  generateCase seedrandom fuel seed config = Ok c ->
  List.length (suspects c) = suspectCount config /\
  NoDup (map suspect_id (suspects c)) /\
  (exists k, getKiller c = Some k /\ In k (suspects c) /\
             isKiller k = true /\ isVictim k = false) /\
  (exists v, getVictim c = Some v /\ In v (suspects c) /\
             isVictim v = true /\ isKiller v = false) /\
  (forall s, In s (suspects c) ->
     (isKiller s = true <-> suspect_id s = killer c) /\
     (isVictim s = true <-> suspect_id s = victim c)) /\
  List.length (getSuspects c) = (suspectCount config - 1)%nat /\
  (forall s, In s (getSuspects c) <-> In s (suspects c) /\ isVictim s = false).
Proof.
  intros H.
  pose proof (generateCase_Ok _ _ _ _ _ H) as Hgen.
  apply generateCase_generation in H.
  destruct (generation_suspects _ _ _ _ _ H) as [Hlen Hnd].
  split; [exact Hlen|]. split; [exact Hnd|].
  destruct Hgen.
  destruct gen_victim_flags as [Hvv Hvk].
  destruct gen_killer_flags as [Hkv Hkk].
  rewrite Forall_forall in gen_others_flags.
  unfold getKiller, getVictim, getSuspects, jsFind.
  rewrite gen_suspects, gen_killer_id, gen_victim_id in *. simpl.
  rewrite String.eqb_refl.
  destruct (String.eqb_spec (suspect_id v) (suspect_id k)); [contradiction|].
  rewrite String.eqb_refl, Hvv, Hkv. simpl.
  split; [exists k; auto|]. split; [exists v; auto|]. split; [|split].
  - intros s [<-|[<-|Hs]].
    + rewrite Hvv, Hvk. split; split; intros; congruence.
    + rewrite Hkv, Hkk. split; split; intros; congruence.
    + destruct (gen_others_flags s Hs) as [H1 H2].
      destruct (gen_others_ids s Hs) as [H3 H4].
      rewrite H1, H2. split; split; intros; congruence.
  - rewrite (filter_all (fun s => negb (isVictim s)) others);
      [simpl in Hlen; simpl; lia|].
    intros o Ho. destruct (gen_others_flags o Ho) as [-> _]. reflexivity.
  - intros s. rewrite filter_In. simpl. split.
    + intros [<-|[Hs Hf]]; [auto|].
      apply negb_true_iff in Hf. auto.
    + intros [[<-|[<-|Hs]] Hf]; [congruence | auto |].
      right. split; [exact Hs | rewrite Hf; reflexivity].
Qed.

Lemma generateCase_roles_witness :
  exists c,
    generateCase sampleRandom 5 "victim-killer-test" defaultConfig = Ok c /\
    List.length (suspects c) = suspectCount defaultConfig /\
    NoDup (map suspect_id (suspects c)) /\
    (exists k, getKiller c = Some k /\ In k (suspects c) /\
               isKiller k = true /\ isVictim k = false) /\
    (exists v, getVictim c = Some v /\ In v (suspects c) /\
               isVictim v = true /\ isKiller v = false) /\
    (forall s, In s (suspects c) ->
       (isKiller s = true <-> suspect_id s = killer c) /\
       (isVictim s = true <-> suspect_id s = victim c)) /\
    List.length (getSuspects c) = (suspectCount defaultConfig - 1)%nat /\
    (forall s, In s (getSuspects c) <-> In s (suspects c) /\ isVictim s = false).
Proof.
  destruct (generateCase sampleRandom 5 "victim-killer-test" defaultConfig)
    as [c| |] eqn:E; [ | sample_returns E | sample_returns E].
  exists c. split; [reflexivity|].
  exact (generateCase_roles _ _ _ _ _ E).
Defined.

(* ================================================================== *)
(** * Locations and the crime scene                                    *)
(* ================================================================== *)

Lemma NoDup_locationNames : NoDup (map template_name manorLocations).
Proof.
  assert (E : nodup string_dec (map template_name manorLocations)
              = map template_name manorLocations)
    by (vm_compute; reflexivity).
  rewrite <- E. apply NoDup_nodup.
Qed.

Lemma combine_seq_firstn {A} : forall (l : list A) a n,
  (List.length l <= n)%nat ->
  map fst (combine (seq a n) l) = seq a (List.length l) /\
  map snd (combine (seq a n) l) = l.
Proof.
  induction l as [|x l IH]; intros a n Hn.
  - destruct n; split; reflexivity.
  - destruct n as [|n]; [simpl in Hn; lia|]. simpl.
    destruct (IH (S a) n ltac:(simpl in Hn; lia)) as [-> ->].
    split; reflexivity.
Qed.

Lemma locationIdOf_inj i j : locationIdOf i = locationIdOf j -> i = j.
Proof.
  unfold locationIdOf, createLocationId. intros H.
  apply append_inj_r in H. apply string_of_nat_inj in H. exact H.
Qed.

Lemma NoDup_locationIds a n : NoDup (map locationIdOf (seq a n)).
Proof.
  apply Injective_map_NoDup; [|apply seq_NoDup].
  intros i j. apply locationIdOf_inj.
Qed.

(** The locations drawn: the first few templates of a permutation of
    [manorLocations], numbered in order. *)
Lemma generateLocations_spec r locs r' :
  generateLocations r = Ok (locs, r') ->
  exists templates,
    (exists shuffled n,
       Permutation manorLocations shuffled /\ templates = firstn n shuffled) /\
    map location_id locs = map locationIdOf (seq 0 (List.length locs)) /\
    map location_name locs = map template_name templates /\
    map location_description locs = map template_description templates /\
    map isPublic locs = map template_isPublic templates /\
    Forall (fun l => isCrimeScene l = false) locs.
Proof.
  unfold generateLocations. intros H.
  gen_step H as shuffled r1 Hsh. gen_step H as count r2 Hcount. gen_ret H.
  apply shuffle_perm in Hsh. unfold slice0.
  exists (firstn (Z.to_nat count) shuffled).
  split; [exists shuffled, (Z.to_nat count); auto|].
  destruct (combine_seq_firstn (firstn (Z.to_nat count) shuffled) 0
              (List.length shuffled)) as [Hfst Hsnd];
    [rewrite length_firstn; lia|].
  set (ts := firstn (Z.to_nat count) shuffled) in *.
  set (ps := combine (seq 0 (List.length shuffled)) ts) in *.
  assert (Hlen : List.length ps = List.length ts).
  { rewrite <- (length_map snd ps), Hsnd. reflexivity. }
  rewrite length_map, Hlen. clearbody ps. clearbody ts.
  repeat split.
  - rewrite <- Hfst, !map_map. apply map_ext. intros [i t]. reflexivity.
  - rewrite <- Hsnd. rewrite !map_map. apply map_ext. intros [i t].
    reflexivity.
  - rewrite <- Hsnd. rewrite !map_map. apply map_ext. intros [i t].
    reflexivity.
  - rewrite <- Hsnd. rewrite !map_map. apply map_ext. intros [i t].
    reflexivity.
  - apply Forall_forall. intros l Hl. apply in_map_iff in Hl.
    destruct Hl as ([i t] & <- & _). reflexivity.
Qed.

Lemma map_eq_In {A B C} (f : A -> C) (g : B -> C) l l' x :
  map f l = map g l' -> In x l -> exists y, In y l' /\ f x = g y.
Proof.
  revert l'. induction l as [|a l IH]; intros [|b l'] H Hx;
    try contradiction; try discriminate.
  simpl in H. inversion H. destruct Hx as [<-|Hx].
  - exists b. split; [left; reflexivity | assumption].
  - destruct (IH l' H2 Hx) as (y & Hy & E). exists y. split; [right|]; assumption.
Qed.

Lemma find_NoDup_map {A} (f : A -> string) (l : list A) x :
  NoDup (map f l) -> In x l ->
  find (fun y => String.eqb (f y) (f x)) l = Some x.
Proof.
  induction l as [|a l IH]; simpl; intros Hnd Hx; [contradiction|].
  inversion Hnd as [|? ? Hnotin Hnd']; subst.
  destruct Hx as [->|Hx].
  - rewrite String.eqb_refl. reflexivity.
  - destruct (String.eqb_spec (f a) (f x)) as [E|_]; [|apply IH; assumption].
    exfalso. apply Hnotin. rewrite E. apply in_map. exact Hx.
Qed.

Lemma selectCrimeScene_spec locations r cs r' :
  selectCrimeScene locations r = Ok (cs, r') ->
  exists scene,
    In scene locations /\
    location_id cs = location_id scene /\
    location_name cs = location_name scene /\
    isPublic cs = isPublic scene /\
    ((exists p, In p locations /\ isPublic p = false) ->
     isPublic scene = false).
Proof.
  unfold selectCrimeScene. intros H. gen_step H as scene r1 H1. gen_inv H.
  exists scene. apply pickLocation_In in H1.
  destruct (Nat.ltb_spec 0
              (List.length (filter (fun l => negb (isPublic l)) locations)))
    as [Hpos|Hzero].
  - apply filter_In in H1. destruct H1 as [Hin Hpriv].
    apply negb_true_iff in Hpriv. repeat split; auto.
  - repeat split; try assumption.
    intros (p & Hp & Hpriv). exfalso.
    assert (Hin : In p (filter (fun l => negb (isPublic l)) locations)).
    { apply filter_In. split; [exact Hp | rewrite Hpriv; reflexivity]. }
    destruct (filter (fun l => negb (isPublic l)) locations);
      [contradiction | simpl in Hzero; lia].
Qed.

(** X8. The locations of a case returned by [generateCase] are distinct
    rooms of the manor, numbered [location-0], [location-1], ... in order
    and public or private as in the data; the crime scene is one of them,
    and it is a private room whenever the case has one. *)
Theorem generateCase_locations seedrandom fuel seed config c :
  generateCase seedrandom fuel seed config = Ok c ->
  map location_id (locations c)
  = map locationIdOf (seq 0 (List.length (locations c))) /\
  NoDup (map location_name (locations c)) /\
  (forall l, In l (locations c) ->
     exists t, In t manorLocations /\
       location_name l = template_name t /\
       location_description l = template_description t /\
       isPublic l = template_isPublic t) /\
  (exists scene,
     getLocationById c (crimeScene c) = Some scene /\
     In scene (locations c) /\
     ((exists p, In p (locations c) /\ isPublic p = false) ->
      isPublic scene = false)).
Proof.
  intros H. apply generateCase_generation in H. destruct H. subst c.
  unfold getLocationById, jsFind. simpl.
  apply generateLocations_spec in run_locations.
  destruct run_locations
    as (ts & (sh & n & Hperm & Hts) & Hids & Hnames & Hdescs & Hpub & _).
  split; [exact Hids|]. split; [|split].
  - rewrite Hnames, Hts, <- firstn_map. apply NoDup_firstn.
    eapply Permutation_NoDup; [apply Permutation_map; exact Hperm|].
    apply NoDup_locationNames.
  - intros l Hl.
    assert (E : map (fun l => (location_name l, location_description l,
                               isPublic l)) locs
                = map (fun t => (template_name t, template_description t,
                                 template_isPublic t)) ts).
    { clear - Hnames Hdescs Hpub. revert ts Hnames Hdescs Hpub.
      induction locs as [|l0 locs IH]; intros [|t ts] H1 H2 H3;
        try discriminate H1; [reflexivity|].
      simpl in *. inversion H1. inversion H2. inversion H3.
      rewrite (IH ts) by assumption. congruence. }
    destruct (map_eq_In _ _ _ _ l E Hl) as (t & Ht & Et).
    inversion Et. exists t. repeat split; try assumption.
    apply (Permutation_in _ (Permutation_sym Hperm)).
    subst ts. eapply In_firstn; eauto.
  - apply selectCrimeScene_spec in run_crimeScene.
    destruct run_crimeScene as (scene & Hin & Hid & _ & _ & Hpriv).
    exists scene. rewrite Hid. split; [|split; assumption].
    assert (Hnd : NoDup (map location_id locs))
      by (rewrite Hids; apply NoDup_locationIds).
    exact (find_NoDup_map location_id locs scene Hnd Hin).
Qed.

Lemma generateCase_locations_witness :
  exists c,
    generateCase sampleRandom 5 "crime-scene-test" defaultConfig = Ok c /\
    map location_id (locations c)
    = map locationIdOf (seq 0 (List.length (locations c))) /\
    NoDup (map location_name (locations c)) /\
    (forall l, In l (locations c) ->
       exists t, In t manorLocations /\
         location_name l = template_name t /\
         location_description l = template_description t /\
         isPublic l = template_isPublic t) /\
    (exists scene,
       getLocationById c (crimeScene c) = Some scene /\
       In scene (locations c) /\
       ((exists p, In p (locations c) /\ isPublic p = false) ->
        isPublic scene = false)).
Proof.
  destruct (generateCase sampleRandom 5 "crime-scene-test" defaultConfig)
    as [c| |] eqn:E; [ | sample_returns E | sample_returns E].
  exists c. split; [reflexivity|].
  exact (generateCase_locations _ _ _ _ _ E).
Defined.

(* ================================================================== *)
(** * Loops                                                            *)
(* ================================================================== *)

Lemma foldGen_measure {A S0} (f : S0 -> nat) (body : S0 -> A -> Gen S0) xs :
  (forall s x r s' r', body s x r = Ok (s', r') -> f s' = S (f s)) ->
  forall s r s' r', foldGen xs s body r = Ok (s', r') ->
  f s' = (f s + List.length xs)%nat.
Proof.
  intros Hstep. induction xs as [|x xs IH]; simpl; intros s r s' r' H.
  - gen_ret H. lia.
  - gen_step H as s1 r1 Hx. apply Hstep in Hx. apply IH in H. lia.
Qed.

Lemma foldGen_seq_inv {S0} (P : nat -> S0 -> Prop) (body : S0 -> nat -> Gen S0) :
  forall n a,
  (forall i s r s' r', (a <= i < a + n)%nat -> P i s ->
     body s i r = Ok (s', r') -> P (S i) s') ->
  forall s r s' r', P a s -> foldGen (seq a n) s body r = Ok (s', r') ->
  P (a + n)%nat s'.
Proof.
  induction n as [|n IH]; simpl; intros a Hstep s r s' r' Hs H.
  - gen_ret H. rewrite Nat.add_0_r. exact Hs.
  - gen_step H as s1 r1 Hx.
    replace (a + S n)%nat with (S a + n)%nat by lia.
    eapply IH; [ | | exact H].
    + intros i s0 ra s0' rb Hi. apply Hstep. lia.
    + eapply Hstep; [ | exact Hs | exact Hx]. lia.
Qed.

Lemma foldGen_each {A S0} (Q : A -> S0 -> Prop) (body : S0 -> A -> Gen S0) xs :
  (forall s x r s' r', In x xs -> body s x r = Ok (s', r') -> Q x s') ->
  (forall x s y r s' r', Q x s -> body s y r = Ok (s', r') -> Q x s') ->
  forall s r s' r', foldGen xs s body r = Ok (s', r') ->
  forall x, In x xs -> Q x s'.
Proof.
  intros Hnew Hkeep. induction xs as [|y xs IH]; simpl; intros s r s' r' H x Hx;
    [contradiction|].
  gen_step H as s1 r1 Hy. destruct Hx as [<-|Hx].
  - assert (Hq : Q y s1) by (eapply Hnew; [left; reflexivity | exact Hy]).
    clear - Hkeep Hq H. revert s1 r1 Hq H.
    induction xs as [|z xs IH]; simpl; intros s1 r1 Hq H.
    + gen_ret H. exact Hq.
    + gen_step H as s2 r2 Hz. eapply IH; [|exact H]. eapply Hkeep; eauto.
  - eapply IH; [ | exact H | exact Hx].
    intros. eapply Hnew; [right|]; eauto.
Qed.

Lemma Permutation_filter {A} (f : A -> bool) (l l' : list A) :
  Permutation l l' -> Permutation (filter f l) (filter f l').
Proof.
  induction 1 as [|x l l' H IH|x y l|l l' l'' H1 IH1 H2 IH2]; simpl.
  - constructor.
  - destruct (f x); [apply perm_skip|]; exact IH.
  - destruct (f x), (f y); try apply Permutation_refl. apply perm_swap.
  - eapply perm_trans; eauto.
Qed.

Lemma firstn_S_nth_error {A} : forall i (l : list A) x,
  nth_error l i = Some x -> firstn (S i) l = firstn i l ++ [x].
Proof.
  induction i as [|i IH]; intros [|a l] x H; try discriminate.
  - inversion H. reflexivity.
  - simpl in H. simpl. f_equal. apply (IH l x H).
Qed.

(* ================================================================== *)
(** * Clues                                                            *)
(* ================================================================== *)

Lemma ClueType_eqb_eq a b : ClueType_eqb a b = true -> a = b.
Proof. destruct a, b; simpl; intros H; try discriminate; reflexivity. Qed.

Lemma pointsToSuspect_eq c sid :
  pointsToSuspect c sid = true -> pointsTo c = Some sid.
Proof.
  unfold pointsToSuspect. destruct (pointsTo c) as [p|]; [|discriminate].
  intros H. apply String.eqb_eq in H. subst. reflexivity.
Qed.

Section ClueFacts.

Variables (killer : Suspect) (others : list Suspect) (crimeScene : Location)
          (allLocations : list Location).

Let built := clues_built killer others crimeScene allLocations.

Lemma refutable_app cs c e : refutable cs c -> refutable (cs ++ [e]) c.
Proof.
  intros (sid & ac & H1 & H2 & H3). exists sid, ac.
  split; [exact H1|]. split; [apply in_or_app; left; exact H2 | exact H3].
Qed.

Lemma cleared_app cs o e : cleared cs o -> cleared (cs ++ [e]) o.
Proof.
  intros (ac & H1 & H2). exists ac.
  split; [apply in_or_app; left; exact H1 | exact H2].
Qed.

(** Appending a clue that is found at a location of the case, points to
    nobody or to a living suspect, and is no red herring or a refuted
    one. *)
Lemma built_app cs n e :
  built (cs, n) ->
  clue_id e = nextClueId n ->
  clue_found crimeScene allLocations e ->
  clue_points killer others e ->
  clue_herring others (cs ++ [e]) e ->
  built (cs ++ [e], S n).
Proof.
  intros [Hids Hall] Hid Hf Hp Hh. split; cbn [fst snd] in *.
  - rewrite map_app, Hids, seq_S, map_app. simpl. rewrite Hid. reflexivity.
  - intros c Hc. apply in_app_or in Hc. destruct Hc as [Hc|[<-|[]]].
    + destruct (Hall c Hc) as (H1 & H2 & H3). split; [exact H1|].
      split; [exact H2|]. intros Hr. destruct (H3 Hr) as (Ht & Href & Ho).
      split; [exact Ht|]. split; [apply refutable_app; exact Href | exact Ho].
    + auto.
Qed.

Lemma not_herring cs e : isRedHerring e = false -> clue_herring others cs e.
Proof. intros H Hr. congruence. Qed.

Lemma alibiClue_built st innocent r st' r' :
  In innocent others ->
  built st ->
  alibiClue allLocations st innocent r = Ok (st', r') ->
  built st' /\ snd st' = S (snd st) /\
  (exists e, fst st' = fst st ++ [e] /\ isRedHerring e = false /\
             clue_type e = Testimonial /\
             pointsTo e = Some (suspect_id innocent)).
Proof.
  intros Hin Hb H. destruct st as [cs n]. unfold alibiClue in H.
  gen_step H as w r1 Hw. gen_step H as f r2 Hf. gen_ret H.
  apply pickLocation_In in Hf. simpl.
  split; [|split; [reflexivity|eexists; repeat split; reflexivity]].
  apply built_app; simpl.
  - exact Hb.
  - reflexivity.
  - right. exists f. auto.
  - intros sid E. inversion E; subst. right. exists innocent. auto.
  - apply not_herring. reflexivity.
Qed.

Lemma redHerringClue_built sh st i r st' r' :
  (forall o, In o sh -> In o others) ->
  (forall o, In o others -> cleared (fst st) o) ->
  built st ->
  redHerringClue crimeScene sh st i r = Ok (st', r') ->
  built st' /\ snd st' = S (snd st) /\
  exists target e,
    nth_error sh i = Some target /\ fst st' = fst st ++ [e] /\
    isRedHerring e = true /\ pointsTo e = Some (suspect_id target).
Proof.
  intros Hsh Hcl Hb H. destruct st as [cs n]. unfold redHerringClue in H.
  gen_step H as target r1 Ht. gen_step H as name r2 Hn. gen_ret H.
  apply defined_Ok in Ht. destruct Ht as [Ht ?]; subst.
  assert (Hto : In target others) by (apply Hsh; eapply nth_error_In; eauto).
  simpl in *.
  split; [|split; [reflexivity|]].
  2:{ exists target. eexists. repeat split; try reflexivity. exact Ht. }
  apply built_app; simpl.
  - exact Hb.
  - reflexivity.
  - left. reflexivity.
  - intros sid E. inversion E; subst. right. exists target. auto.
  - intros _. split; [reflexivity|]. split; [|exists target; auto].
    destruct (Hcl target Hto) as (ac0 & Hac0 & Hty0 & Hpt0).
    unfold jsFind.
    destruct (find (fun c => andb (pointsToSuspect c (suspect_id target))
                                  (ClueType_eqb (clue_type c) Testimonial)) cs)
      as [ac|] eqn:E.
    + apply find_some in E. destruct E as [Hac Hp].
      apply andb_true_iff in Hp. destruct Hp as [Hp Hty].
      apply pointsToSuspect_eq in Hp. apply ClueType_eqb_eq in Hty.
      exists (suspect_id target), ac. simpl.
      split; [reflexivity|]. split; [apply in_or_app; left; exact Hac|].
      split; [reflexivity|]. split; [exact Hty|]. split; [exact Hp|].
      destruct Hb as [_ Hall]. destruct (Hall ac Hac) as (_ & _ & Hh).
      destruct (isRedHerring ac) eqn:Er; [|reflexivity].
      destruct (Hh Er) as [Hphys _]. congruence.
    + exfalso. apply (find_none _ _ E) in Hac0.
      unfold pointsToSuspect in Hac0.
      rewrite Hpt0, Hty0, String.eqb_refl in Hac0. discriminate Hac0.
Qed.

End ClueFacts.

Lemma alibiClue_appends allLocations st innocent r st' r' :
  alibiClue allLocations st innocent r = Ok (st', r') ->
  exists e, fst st' = fst st ++ [e] /\ isRedHerring e = false /\
            clue_type e = Testimonial /\
            pointsTo e = Some (suspect_id innocent).
Proof.
  intros H. destruct st as [cs n]. unfold alibiClue in H.
  gen_step H as w r1 Hw. gen_step H as f r2 Hf. gen_ret H.
  eexists. repeat split; reflexivity.
Qed.

Lemma herringTargets_app cs e :
  herringTargets (cs ++ [e])
  = herringTargets cs ++ (if isRedHerring e then [pointsTo e] else []).
Proof.
  unfold herringTargets. rewrite filter_app, map_app. simpl.
  destruct (isRedHerring e); reflexivity.
Qed.

(** What [generateClues] has built before the final shuffle. *)
Lemma generateClues_spec killer victim others motive weapon crimeScene
      allLocations relationships config r cl r' :
  generateClues killer victim others motive weapon crimeScene allLocations
    relationships config r = Ok (cl, r') ->
  exists cs n sh,
    Permutation cs cl /\
    Permutation others sh /\
    clues_built killer others crimeScene allLocations (cs, n) /\
    (forall o, In o others -> cleared cs o) /\
    herringTargets cs
    = map (fun o => Some (suspect_id o))
        (firstn (Z.to_nat (Z.min (redHerringCount config)
                                 (Z.of_nat (List.length others)))) sh) /\
    (exists c1 c2 c3 more,
       cs = c1 :: c2 :: c3 :: more /\
       (clue_type c1 = Physical /\ pointsTo c1 = Some (suspect_id killer) /\
        isRedHerring c1 = false) /\
       (clue_type c2 = Documentary /\
        pointsTo c2 = Some (suspect_id killer) /\
        significance c2 = critical) /\
       (clue_type c3 = Testimonial /\
        pointsTo c3 = Some (suspect_id killer))) /\
    (forall rel, In rel relationships -> isPublicKnowledge rel = false ->
       exists hc secret,
         In hc cs /\ clue_type hc = Documentary /\
         clue_description hc
         = "Letters revealing a secret "
             ^^ RelationshipType_value (rel_type secret) ^^ " relationship.").
Proof.
  unfold generateClues. intros H.
  gen_step H as name1 r1 H1. gen_step H as desc1 r2 H2.
  gen_step H as name2 r3 H3. gen_step H as desc2 r4 H4.
  gen_step H as found2 r5 H5. gen_step H as found4 r6 H6.
  gen_step H as st6 r7 H7. gen_step H as sh r8 H8.
  gen_step H as st7 r9 H9. gen_step H as st8 r10 H10.
  apply shuffle_perm in H. apply shuffle_perm in H8.
  apply pickLocation_In in H5. apply pickLocation_In in H6.
  match type of H7 with
  | foldGen _ (?c1 :: ?c2 :: ?c3 :: ?rest, _) _ _ = _ =>
      set (k1 := c1) in *; set (k2 := c2) in *; set (k3 := c3) in *;
      set (tl5 := rest) in *
  end.
  set (built := clues_built killer others crimeScene allLocations) in *.
  (* the five fixed clues *)
  assert (B5 : built (k1 :: k2 :: k3 :: tl5, 5%nat)).
  { split; [reflexivity|]. cbn [fst].
    intros c [<-|[<-|[<-|[<-|[<-|[]]]]]];
      (split; [|split; [|apply not_herring; reflexivity]]);
      unfold clue_found, clue_points; simpl;
      try (left; reflexivity);
      try (right; eexists; (split; [|reflexivity]); assumption);
      intros sid E; inversion E; left; reflexivity. }
  (* the alibi-clearing clues *)
  assert (B6 : built st6 /\ herringTargets (fst st6) = [] /\
               exists more, fst st6 = k1 :: k2 :: k3 :: more).
  { eapply (foldGen_inv
              (fun st => built st /\ herringTargets (fst st) = [] /\
                         exists more, fst st = k1 :: k2 :: k3 :: more));
      [ | | exact H7].
    - intros st o ra st' rb Ho (Hb & Hh & more & Hm) Hstep.
      destruct (alibiClue_built killer others crimeScene allLocations
                  st o ra st' rb Ho Hb Hstep) as (Hb' & _ & e & He & Hr & _).
      split; [exact Hb'|]. rewrite He. split.
      + rewrite herringTargets_app, Hh, Hr. reflexivity.
      + exists (more ++ [e]). rewrite Hm. reflexivity.
    - split; [exact B5|]. split; [reflexivity|]. exists tl5. reflexivity. }
  destruct B6 as (B6 & T6 & more6 & M6).
  assert (C6 : forall o, In o others -> cleared (fst st6) o).
  { eapply (foldGen_each (fun o st => cleared (fst st) o)); [ | | exact H7].
    - intros st o ra st' rb Ho Hstep. apply alibiClue_appends in Hstep.
      destruct Hstep as (e & He & _ & Hty & Hpt). exists e. rewrite He.
      split; [apply in_or_app; right; left; reflexivity | auto].
    - intros o st y ra st' rb Hq Hstep. apply alibiClue_appends in Hstep.
      destruct Hstep as (e & He & _). rewrite He. apply cleared_app. exact Hq. }
  (* the red herrings *)
  set (nh := Z.to_nat (Z.min (redHerringCount config)
                             (Z.of_nat (List.length sh)))) in *.
  assert (B7 : built st7 /\
               (forall o, In o others -> cleared (fst st7) o) /\
               herringTargets (fst st7)
               = map (fun o => Some (suspect_id o)) (firstn (0 + nh) sh) /\
               exists more, fst st7 = k1 :: k2 :: k3 :: more).
  { eapply (foldGen_seq_inv
              (fun i st => built st /\
                 (forall o, In o others -> cleared (fst st) o) /\
                 herringTargets (fst st)
                 = map (fun o => Some (suspect_id o)) (firstn i sh) /\
                 exists more, fst st = k1 :: k2 :: k3 :: more));
      [ | | exact H9].
    - intros i st ra st' rb Hi (Hb & Hc & Hh & more & Hm) Hstep.
      destruct (redHerringClue_built killer others crimeScene allLocations
                  sh st i ra st' rb) as (Hb' & _ & target & e & Ht & He & Hr & Hpt);
        [ intros o Ho; apply (Permutation_in _ (Permutation_sym H8)); exact Ho
        | exact Hc | exact Hb | exact Hstep | ].
      split; [exact Hb'|]. rewrite He. split; [|split].
      + intros o Ho. apply cleared_app. apply Hc. exact Ho.
      + rewrite herringTargets_app, Hh, Hr, (firstn_S_nth_error _ _ _ Ht),
          map_app, Hpt. reflexivity.
      + exists (more ++ [e]). rewrite Hm. reflexivity.
    - split; [exact B6|]. split; [exact C6|]. split; [exact T6|].
      exists more6. exact M6. }
  destruct B7 as (B7 & C7 & T7 & more7 & M7). simpl in T7.
  assert (Enh : nh = Z.to_nat (Z.min (redHerringCount config)
                                     (Z.of_nat (List.length others)))).
  { unfold nh. rewrite (Permutation_length H8). reflexivity. }
  rewrite Enh in T7. clear Enh.
  (* the hidden correspondence *)
  unfold jsFind in H10.
  destruct (find (fun r0 => negb (isPublicKnowledge r0)) relationships)
    as [secret|] eqn:Esecret.
  - gen_step H10 as hidden r11 Hhidden. gen_ret H10.
    assert (Hhid : In hidden allLocations).
    { destruct (0 <? _)%nat;
        apply pickLocation_In in Hhidden; [|exact Hhidden].
      apply filter_In in Hhidden. tauto. }
    destruct st7 as [cs7 n7]. cbn [fst snd] in *.
    eexists (cs7 ++ [_]), (S n7), sh.
    split; [exact H|]. split; [exact H8|]. split; [|split; [|split; [|split]]].
    + apply built_app; simpl; try reflexivity.
      * exact B7.
      * right. exists hidden. auto.
      * intros sid E. discriminate E.
      * apply not_herring. reflexivity.
    + intros o Ho. apply cleared_app. apply C7. exact Ho.
    + rewrite herringTargets_app. simpl. rewrite app_nil_r. exact T7.
    + exists k1, k2, k3. eexists. split; [rewrite M7; reflexivity|].
      repeat split; reflexivity.
    + intros rel Hrel Hpriv. eexists. exists secret.
      split; [apply in_or_app; right; left; reflexivity|].
      split; reflexivity.
  - apply ret_Ok in H10. destruct H10 as [E1 E2]. subst st8 r10.
    destruct st7 as [cs7 n7]. cbn [fst snd] in *.
    exists cs7, n7, sh.
    split; [exact H|]. split; [exact H8|]. split; [exact B7|].
    split; [exact C7|]. split; [exact T7|]. split.
    + exists k1, k2, k3, more7. split; [exact M7|]. repeat split; reflexivity.
    + intros rel Hrel Hpriv. exfalso.
      apply (find_none _ _ Esecret) in Hrel. rewrite Hpriv in Hrel.
      discriminate Hrel.
Qed.

(** Victim, killer and others of a run, by identifier. *)
Lemma run_assigned count r1 ss r2 fuel a r3 :
  generateSuspects count r1 = Ok (ss, r2) ->
  assignVictimAndKiller fuel ss r2 = Ok (a, r3) ->
  suspect_id (asg_victim a) <> suspect_id (asg_killer a) /\
  (forall o, In o (asg_others a) ->
     suspect_id o <> suspect_id (asg_victim a) /\
     suspect_id o <> suspect_id (asg_killer a) /\ unassigned o) /\
  NoDup (map suspect_id (asg_others a)) /\
  List.length (asg_others a) = (count - 2)%nat /\
  isVictim (asg_victim a) = true /\ isKiller (asg_victim a) = false /\
  isVictim (asg_killer a) = false /\ isKiller (asg_killer a) = true.
Proof.
  intros Hss Ha.
  pose proof (generateSuspects_length _ _ _ _ Hss) as Hlen.
  apply generateSuspects_Ok in Hss. destruct Hss as [Hids Hun].
  rewrite Forall_forall in Hun.
  assert (Hnd : NoDup (map suspect_id ss))
    by (rewrite Hids; apply NoDup_suspectIds).
  pose proof (assignVictimAndKiller_Ok _ _ _ _ _ Hnd Ha) as Has.
  destruct Has as [(sv & Hsv & Hvid & Hvk) Hvf (sk & Hsk & Hkid & Hkv) Hkf
                   Hdist Hoth].
  apply assignVictimAndKiller_split in Ha.
  destruct Ha as (H3 & sv' & sk' & Hperm & _ & _).
  split; [exact Hdist|]. split; [|split; [|split]].
  - intros o Ho. destruct (Hoth o Ho) as (Hin & H1 & H2). auto.
  - apply (Permutation_map suspect_id) in Hperm.
    apply (Permutation_NoDup Hperm) in Hnd. simpl in Hnd.
    inversion Hnd as [|? ? _ Hnd']. inversion Hnd'. assumption.
  - apply Permutation_length in Hperm. simpl in Hperm. lia.
  - split; [exact Hvf|]. split; [rewrite Hvk; apply (Hun sv Hsv)|].
    split; [rewrite Hkv; apply (Hun sk Hsk) | exact Hkf].
Qed.

(** X9. Clues of a case returned by [generateCase]: their identifiers are
    [clue-0], ..., [clue-(n-1)] in some order; each is found at a location
    of the case; none points to the victim or to somebody who is not a
    suspect of the case. *)
Theorem generateCase_clue_integrity seedrandom fuel seed config c :
  generateCase seedrandom fuel seed config = Ok c ->
  Permutation (map clue_id (clues c))
    (map nextClueId (seq 0 (List.length (clues c)))) /\
  NoDup (map clue_id (clues c)) /\
  (forall clue, In clue (clues c) ->
     exists l, In l (locations c) /\ location_id l = foundAt clue) /\
  (forall clue sid, In clue (clues c) -> pointsTo clue = Some sid ->
     sid <> victim c /\ exists s, In s (suspects c) /\ suspect_id s = sid).
Proof.
  intros H. apply generateCase_generation in H. destruct H. subst c. simpl.
  destruct (run_assigned _ _ _ _ _ _ _ run_suspects run_assign)
    as (Hdist & Hoth & _).
  apply selectCrimeScene_spec in run_crimeScene.
  destruct run_crimeScene as (scene & Hscene & Hid & _).
  apply generateClues_spec in run_clues.
  destruct run_clues as (built & n & sh & Hperm & _ & [Hids Hall] & _).
  cbn [fst snd] in *.
  assert (Hn : n = List.length cl).
  { rewrite <- (Permutation_length Hperm), <- (length_map clue_id built), Hids,
      length_map, length_seq. reflexivity. }
  assert (Hpids : Permutation (map clue_id cl)
                    (map nextClueId (seq 0 (List.length cl)))).
  { rewrite <- Hn, <- Hids. apply Permutation_map, Permutation_sym, Hperm. }
  split; [exact Hpids|]. split; [|split].
  - eapply Permutation_NoDup; [apply Permutation_sym; exact Hpids|].
    apply Injective_map_NoDup; [|apply seq_NoDup].
    intros i j E. unfold nextClueId, createClueId in E.
    apply append_inj_r in E. apply string_of_nat_inj in E. exact E.
  - intros clue Hc. apply (Permutation_in _ (Permutation_sym Hperm)) in Hc.
    destruct (Hall clue Hc) as ([Hf|(l & Hl & Hf)] & _).
    + exists scene. split; [exact Hscene | congruence].
    + exists l. auto.
  - intros clue sid Hc Hp.
    apply (Permutation_in _ (Permutation_sym Hperm)) in Hc.
    destruct (Hall clue Hc) as (_ & Hpt & _).
    destruct (Hpt sid Hp) as [->|(o & Ho & <-)].
    + split; [auto|]. exists (asg_killer a). auto.
    + destruct (Hoth o Ho) as (H1 & H2 & _). split; [exact H1|].
      exists o. auto.
Qed.

Lemma generateCase_clue_integrity_witness :
  exists c,
    generateCase sampleRandom 5 "killer-clues-test" defaultConfig = Ok c /\
    Permutation (map clue_id (clues c))
      (map nextClueId (seq 0 (List.length (clues c)))) /\
    NoDup (map clue_id (clues c)) /\
    (forall clue, In clue (clues c) ->
       exists l, In l (locations c) /\ location_id l = foundAt clue) /\
    (forall clue sid, In clue (clues c) -> pointsTo clue = Some sid ->
       sid <> victim c /\ exists s, In s (suspects c) /\ suspect_id s = sid).
Proof.
  destruct (generateCase sampleRandom 5 "killer-clues-test" defaultConfig)
    as [c| |] eqn:E; [ | sample_returns E | sample_returns E].
  exists c. split; [reflexivity|].
  exact (generateCase_clue_integrity _ _ _ _ _ E).
Defined.

Lemma getDifficultyRedHerrings_nat d (m : nat) :
  Z.to_nat (Z.min (getDifficultyRedHerrings d) (Z.of_nat m))
  = Nat.min (Z.to_nat (getDifficultyRedHerrings d)) m.
Proof. destruct d; cbn [getDifficultyRedHerrings]; lia. Qed.

(** X10. Red herrings of a case returned by [generateCase]: there are as
    many as the difficulty asks for (easy 1, medium 2, hard 3), but no more
    than there are suspects besides the victim and the killer; they point
    to different suspects, never to the killer or the victim; each is
    refuted by a clue of the case, the testimonial clue confirming the
    alibi of the suspect it points to. *)
Theorem generateCase_red_herrings seedrandom fuel seed config c :
  generateCase seedrandom fuel seed config = Ok c ->
  List.length (filter isRedHerring (clues c))
  = Nat.min (Z.to_nat (getDifficultyRedHerrings (difficulty config)))
            (suspectCount config - 2) /\
  NoDup (map pointsTo (filter isRedHerring (clues c))) /\
  (forall rh, In rh (clues c) -> isRedHerring rh = true ->
     clue_type rh = Physical /\
     exists sid ac,
       pointsTo rh = Some sid /\ sid <> killer c /\ sid <> victim c /\
       In ac (clues c) /\ refutedBy rh = Some (clue_id ac) /\
       clue_type ac = Testimonial /\ pointsTo ac = Some sid /\
       isRedHerring ac = false).
Proof.
  intros H. apply generateCase_generation in H. destruct H. subst c. simpl.
  destruct (run_assigned _ _ _ _ _ _ _ run_suspects run_assign)
    as (Hdist & Hoth & Hnd & Hlen & _).
  apply generateClues_spec in run_clues.
  destruct run_clues as (built & n & sh & Hperm & Hsh & [_ Hall] & _ & Ht & _).
  cbn [fst snd redHerringCount] in *.
  rewrite getDifficultyRedHerrings_nat, Hlen in Ht.
  set (nh := Nat.min (Z.to_nat (getDifficultyRedHerrings (difficulty config)))
                     (suspectCount config - 2)) in *.
  assert (Hf : Permutation (map pointsTo (filter isRedHerring cl))
                 (map (fun o => Some (suspect_id o)) (firstn nh sh))).
  { rewrite <- Ht. unfold herringTargets.
    apply Permutation_map, Permutation_filter, Permutation_sym, Hperm. }
  split; [|split].
  - apply Permutation_length in Hf. rewrite !length_map in Hf.
    rewrite Hf, length_firstn, <- (Permutation_length Hsh), Hlen.
    unfold nh. lia.
  - eapply Permutation_NoDup; [apply Permutation_sym; exact Hf|].
    rewrite <- (map_map suspect_id Some).
    apply Injective_map_NoDup; [intros x y E; congruence|].
    rewrite <- firstn_map. apply NoDup_firstn.
    eapply Permutation_NoDup; [apply Permutation_map; exact Hsh | exact Hnd].
  - intros rh Hrh Hr.
    apply (Permutation_in _ (Permutation_sym Hperm)) in Hrh.
    destruct (Hall rh Hrh) as (_ & _ & Hh).
    destruct (Hh Hr) as (Hphys & (sid & ac & Hp & Hac & Href & Hty & Hpa & Hnr)
                         & o & Ho & Hpo).
    split; [exact Hphys|]. exists sid, ac.
    assert (sid = suspect_id o) by congruence. subst sid.
    destruct (Hoth o Ho) as (H1 & H2 & _).
    repeat split; auto.
    apply (Permutation_in _ Hperm). exact Hac.
Qed.

Lemma generateCase_red_herrings_witness :
  exists c,
    generateCase sampleRandom 5 "red-herrings-test"
      (mkCaseGeneratorConfig 6 hard) = Ok c /\
    List.length (filter isRedHerring (clues c))
    = Nat.min (Z.to_nat (getDifficultyRedHerrings hard)) (6 - 2) /\
    NoDup (map pointsTo (filter isRedHerring (clues c))) /\
    (forall rh, In rh (clues c) -> isRedHerring rh = true ->
       clue_type rh = Physical /\
       exists sid ac,
         pointsTo rh = Some sid /\ sid <> killer c /\ sid <> victim c /\
         In ac (clues c) /\ refutedBy rh = Some (clue_id ac) /\
         clue_type ac = Testimonial /\ pointsTo ac = Some sid /\
         isRedHerring ac = false).
Proof.
  destruct (generateCase sampleRandom 5 "red-herrings-test"
              (mkCaseGeneratorConfig 6 hard))
    as [c| |] eqn:E; [ | sample_returns E | sample_returns E].
  exists c. split; [reflexivity|].
  exact (generateCase_red_herrings _ _ _ _ _ E).
Defined.

(* ================================================================== *)
(** * The relationship graph                                           *)
(* ================================================================== *)

Lemma relationExists_false rels a b :
  relationExists rels a b = false ->
  forall r, In r rels -> ~ between r a b.
Proof.
  unfold relationExists, jsSome. intros H r Hr Hb.
  assert (E : existsb
                (fun r => orb (andb (String.eqb (rel_from r) a)
                                    (String.eqb (rel_to r) b))
                              (andb (String.eqb (rel_from r) b)
                                    (String.eqb (rel_to r) a))) rels = true).
  { apply existsb_exists. exists r. split; [exact Hr|].
    destruct Hb as [[<- <-]|[<- <-]]; rewrite !String.eqb_refl;
      [reflexivity | apply orb_true_r]. }
  congruence.
Qed.

Lemma FOP_snoc {A} (R : A -> A -> Prop) : forall l y,
  ForallOrdPairs R l -> (forall x, In x l -> R x y) ->
  ForallOrdPairs R (l ++ [y]).
Proof.
  induction l as [|a l IH]; intros y Hl Hy; simpl.
  - constructor; [constructor | constructor].
  - inversion Hl as [|? ? Ha Hl']; subst. constructor.
    + apply Forall_app. split; [exact Ha|].
      constructor; [apply Hy; left; reflexivity | constructor].
    + apply IH; [exact Hl'|]. intros x Hx. apply Hy. right; exact Hx.
Qed.

Lemma graph_ok_snoc ids rels e :
  graph_ok ids rels ->
  In (rel_from e) ids -> In (rel_to e) ids -> rel_from e <> rel_to e ->
  (-10 <= sentiment e <= 10)%Z ->
  (secretReason e <> None -> isPublicKnowledge e = false) ->
  (forall r, In r rels -> ~ between r (rel_from e) (rel_to e)) ->
  graph_ok ids (rels ++ [e]).
Proof.
  intros [Hall Hpairs] H1 H2 H3 H4 H5 H6. split.
  - intros r Hr. apply in_app_or in Hr. destruct Hr as [Hr|[<-|[]]]; auto.
  - apply FOP_snoc; [exact Hpairs | exact H6].
Qed.

Lemma createRelationship_sentiment from to type s p reason :
  (-10 <= sentiment (createRelationship from to type s p reason) <= 10)%Z.
Proof. unfold createRelationship. cbn [sentiment]. lia. Qed.

Lemma redHerringRelationship_Ok victim sh rels i r rels' r' :
  redHerringRelationship victim sh rels i r = Ok (rels', r') ->
  exists s e,
    nth_error sh i = Some s /\ rels' = rels ++ [e] /\
    ends e = (suspect_id s, suspect_id victim) /\ secretReason e = None /\
    (-10 <= sentiment e <= 10)%Z.
Proof.
  unfold redHerringRelationship. intros H.
  gen_step H as rt r1 Hrt. gen_step H as se r2 Hse.
  gen_step H as s r3 Hs. gen_step H as u r4 Hu. gen_ret H.
  apply defined_Ok in Hs. destruct Hs as [Hs ?]; subst.
  exists s. eexists. split; [exact Hs|]. split; [reflexivity|].
  split; [reflexivity|]. split; [reflexivity|].
  apply createRelationship_sentiment.
Qed.

Lemma addConnection_Ok suspect sc st i r st' r' :
  addConnection suspect sc st i r = Ok (st', r') ->
  exists o e,
    nth_error sc i = Some o /\ fst st' = fst st ++ [e] /\
    snd st' = bump (bump (snd st) (suspect_id suspect)) (suspect_id o) /\
    ends e = (suspect_id suspect, suspect_id o) /\ secretReason e = None /\
    (-10 <= sentiment e <= 10)%Z.
Proof.
  destruct st as [rels cc]. unfold addConnection. intros H.
  gen_step H as o r1 Ho. gen_step H as rt r2 Hrt.
  gen_step H as se r3 Hse. gen_step H as u r4 Hu. gen_ret H.
  apply defined_Ok in Ho. destruct Ho as [Ho ?]; subst.
  exists o. eexists. split; [exact Ho|]. split; [reflexivity|].
  split; [reflexivity|]. split; [reflexivity|]. split; [reflexivity|].
  apply createRelationship_sentiment.
Qed.

Lemma addSecret_Ok allSuspects rels i r rels' r' :
  addSecret allSuspects rels i r = Ok (rels', r') ->
  rels' = rels \/
  exists sh p1 p2 e,
    Permutation allSuspects sh /\
    nth_error sh 0 = Some p1 /\ nth_error sh 1 = Some p2 /\
    relationExists rels (suspect_id p1) (suspect_id p2) = false /\
    rels' = rels ++ [e] /\
    ends e = (suspect_id p1, suspect_id p2) /\
    isPublicKnowledge e = false /\ secretReason e <> None /\
    (-10 <= sentiment e <= 10)%Z.
Proof.
  unfold addSecret. intros H.
  gen_step H as sh r1 Hsh. gen_step H as p1 r2 Hp1.
  gen_step H as p2 r3 Hp2.
  apply defined_Ok in Hp1. destruct Hp1 as [Hp1 ?]; subst.
  apply defined_Ok in Hp2. destruct Hp2 as [Hp2 ?]; subst.
  apply shuffle_perm in Hsh.
  assert (H0 : nth_error sh 0 = Some p1).
  { unfold slice0 in Hp1. destruct sh as [|a sh]; [discriminate|]. exact Hp1. }
  assert (H1 : nth_error sh 1 = Some p2).
  { unfold slice0 in Hp2. destruct sh as [|a [|b sh]]; try discriminate.
    exact Hp2. }
  destruct (relationExists rels (suspect_id p1) (suspect_id p2)) eqn:E;
    cbn [negb] in H.
  - gen_ret H. left. reflexivity.
  - gen_step H as rt r4 Hrt. gen_step H as se r5 Hse.
    gen_step H as reason r6 Hreason. gen_ret H.
    right. exists sh, p1, p2. eexists.
    repeat (split; [first [eassumption | reflexivity]|]).
    split; [discriminate|]. apply createRelationship_sentiment.
Qed.

Lemma nth_error_NoDup_ids (l : list Suspect) i j x y :
  NoDup (map suspect_id l) ->
  nth_error l i = Some x -> nth_error l j = Some y ->
  suspect_id x = suspect_id y -> i = j.
Proof. intros. eapply (NoDup_map_nth_error suspect_id); eauto. Qed.

Lemma In_firstn_nth {A} (x : A) : forall i l,
  In x (firstn i l) -> exists j, (j < i)%nat /\ nth_error l j = Some x.
Proof.
  induction i as [|i IH]; intros [|a l] H; simpl in *; try contradiction.
  destruct H as [<-|H].
  - exists 0%nat. split; [lia | reflexivity].
  - destruct (IH l H) as (j & Hj & E). exists (S j). split; [lia | exact E].
Qed.

Lemma NoDup_filter_map {A B} (key : A -> B) (keep : A -> bool) (xs : list A) :
  NoDup (map key xs) -> NoDup (map key (filter keep xs)).
Proof.
  induction xs as [|a xs IH]; simpl; intros H; [constructor|].
  inversion H as [|? ? Hnotin Hnd]; subst.
  destruct (keep a); [|apply IH; exact Hnd].
  simpl. constructor; [|apply IH; exact Hnd].
  intros Hin. apply Hnotin. apply in_map_iff in Hin.
  destruct Hin as (x & Ex & Hx). apply filter_In in Hx.
  rewrite <- Ex. apply in_map. tauto.
Qed.

Section RelationshipGraph.

Variables (victim killer : Suspect) (others : list Suspect).

Let allSuspects := victim :: killer :: others.
Let ids := map suspect_id allSuspects.

Hypothesis ids_distinct : NoDup ids.

Lemma id_In s : In s allSuspects -> In (suspect_id s) ids.
Proof. intros H. apply in_map. exact H. Qed.

(** Appending relationships from one suspect to suspects taken in order
    from a list without repetition, none of which is linked to it yet. *)
Lemma connect_loop (s : Suspect) (sc : list Suspect) rels0 :
  In s allSuspects ->
  NoDup (map suspect_id sc) ->
  (forall o, In o sc ->
     In o allSuspects /\ suspect_id o <> suspect_id s /\
     forall r, In r rels0 -> ~ between r (suspect_id s) (suspect_id o)) ->
  graph_ok ids rels0 ->
  forall n cc0 r st' r',
  foldGen (seq 0 n) (rels0, cc0) (addConnection s sc) r = Ok (st', r') ->
  graph_ok ids (fst st') /\ exists more, fst st' = rels0 ++ more.
Proof.
  intros Hs Hnd Hsc Hg n cc0 r st' r' H.
  assert (P : (fun i st =>
                 graph_ok ids (fst st) /\
                 exists more,
                   fst st = rels0 ++ more /\
                   map ends more
                   = map (fun o => (suspect_id s, suspect_id o)) (firstn i sc))
                (0 + n)%nat st').
  { eapply (foldGen_seq_inv
              (fun i st =>
                 graph_ok ids (fst st) /\
                 exists more,
                   fst st = rels0 ++ more /\
                   map ends more
                   = map (fun o => (suspect_id s, suspect_id o))
                       (firstn i sc))); [ | | exact H].
    - intros i st ra st1 rb Hi (Hgi & more & Hm & He) Hstep.
      apply addConnection_Ok in Hstep.
      destruct Hstep as (o & e & Ho & Hfst & _ & Hends & Hsec & Hsent).
      assert (Hfrom : rel_from e = suspect_id s)
        by (unfold ends in Hends; congruence).
      assert (Hto : rel_to e = suspect_id o)
        by (unfold ends in Hends; congruence).
      destruct (Hsc o (nth_error_In _ _ Ho)) as (Hoin & Hne & Hfresh).
      rewrite Hfst. split.
      + apply graph_ok_snoc; try assumption.
        * rewrite Hfrom. apply id_In. exact Hs.
        * rewrite Hto. apply id_In. exact Hoin.
        * rewrite Hfrom, Hto. auto.
        * intros Hc. rewrite Hsec in Hc. contradiction.
        * rewrite Hfrom, Hto, Hm. intros r0 Hr0 Hb.
          apply in_app_or in Hr0. destruct Hr0 as [Hr0|Hr0].
          { apply (Hfresh r0 Hr0 Hb). }
          apply (in_map ends) in Hr0. rewrite He in Hr0.
          apply in_map_iff in Hr0. destruct Hr0 as (o' & Eo' & Ho').
          apply In_firstn_nth in Ho'. destruct Ho' as (j & Hj & Ej).
          assert (E1 : rel_from r0 = fst (ends r0)) by reflexivity.
          assert (E2 : rel_to r0 = snd (ends r0)) by reflexivity.
          rewrite <- Eo' in E1, E2. cbn [fst snd] in E1, E2.
          destruct Hb as [[_ Hb]|[Hb _]].
          { assert (j = i) by (eapply nth_error_NoDup_ids; eauto; congruence).
            lia. }
          { apply Hne. congruence. }
      + exists (more ++ [e]). split; [rewrite Hm, app_assoc; reflexivity|].
        rewrite (firstn_S_nth_error _ _ _ Ho), !map_app, He. simpl.
        rewrite Hends. reflexivity.
    - split; [exact Hg|]. exists []. split; [rewrite app_nil_r|]; reflexivity. }
  destruct P as (Hg' & more & Hm & _). split; [exact Hg'|]. exists more. exact Hm.
Qed.

Lemma connectSuspect_Ok m st s r st' r' :
  In s allSuspects ->
  graph_ok ids (fst st) ->
  connectSuspect m allSuspects st s r = Ok (st', r') ->
  graph_ok ids (fst st') /\ exists more, fst st' = fst st ++ more.
Proof.
  intros Hs Hg H. destruct st as [rels cc]. unfold connectSuspect in H.
  destruct (getCount cc (suspect_id s) <? m)%Z.
  - gen_step H as sc r1 Hsc. apply shuffle_perm in Hsc.
    cbn [fst] in *.
    eapply (connect_loop s sc rels Hs); [ | | exact Hg | exact H].
    + eapply Permutation_NoDup; [apply Permutation_map; exact Hsc|].
      apply NoDup_filter_map. exact ids_distinct.
    + intros o Ho. apply (Permutation_in _ (Permutation_sym Hsc)) in Ho.
      apply filter_In in Ho. destruct Ho as [Hin Hf].
      destruct (String.eqb_spec (suspect_id o) (suspect_id s));
        [discriminate|].
      apply negb_true_iff in Hf.
      split; [exact Hin|]. split; [assumption|].
      apply relationExists_false. exact Hf.
  - gen_ret H. split; [exact Hg|]. exists []. rewrite app_nil_r. reflexivity.
Qed.

Lemma addSecret_graph rels i r rels' r' :
  graph_ok ids rels ->
  addSecret allSuspects rels i r = Ok (rels', r') ->
  graph_ok ids rels' /\ exists more, rels' = rels ++ more.
Proof.
  intros Hg H. apply addSecret_Ok in H.
  destruct H as [->|(sh & p1 & p2 & e & Hsh & H0 & H1 & Hex & -> & He & Hpub
                     & _ & Hsent)].
  - split; [exact Hg|]. exists []. rewrite app_nil_r. reflexivity.
  - assert (Hfrom : rel_from e = suspect_id p1)
      by (unfold ends in He; congruence).
    assert (Hto : rel_to e = suspect_id p2)
      by (unfold ends in He; congruence).
    split; [|exists [e]; reflexivity].
    assert (Hnd : NoDup (map suspect_id sh))
      by (eapply Permutation_NoDup;
          [apply Permutation_map; exact Hsh | exact ids_distinct]).
    apply graph_ok_snoc; try assumption.
    + rewrite Hfrom. apply id_In.
      apply (Permutation_in _ (Permutation_sym Hsh)).
      eapply nth_error_In; eauto.
    + rewrite Hto. apply id_In.
      apply (Permutation_in _ (Permutation_sym Hsh)).
      eapply nth_error_In; eauto.
    + rewrite Hfrom, Hto. intros E.
      assert (0 = 1)%nat by (eapply nth_error_NoDup_ids; eauto). lia.
    + auto.
    + rewrite Hfrom, Hto. apply relationExists_false. exact Hex.
Qed.

Lemma others_ids o :
  In o others ->
  In o allSuspects /\ suspect_id o <> suspect_id victim /\
  suspect_id o <> suspect_id killer.
Proof.
  intros Ho. split; [right; right; exact Ho|].
  unfold ids, allSuspects in ids_distinct. simpl in ids_distinct.
  inversion ids_distinct as [|? ? Hn1 Hnd1].
  inversion Hnd1 as [|? ? Hn2 _]. split; intros E.
  - apply Hn1. right. rewrite <- E. apply in_map. exact Ho.
  - apply Hn2. rewrite <- E. apply in_map. exact Ho.
Qed.

Lemma killer_not_victim : suspect_id killer <> suspect_id victim.
Proof.
  intros E. unfold ids, allSuspects in ids_distinct. simpl in ids_distinct.
  inversion ids_distinct as [|? ? Hnotin _]. apply Hnotin. left. auto.
Qed.

(** 1. The relationship of the killer with the victim. *)
Lemma createKillerVictimRelationship_graph motive r kv r' :
  createKillerVictimRelationship (suspect_id killer) (suspect_id victim)
    motive r = Ok (kv, r') ->
  graph_ok ids [kv] /\
  rel_from kv = suspect_id killer /\ rel_to kv = suspect_id victim.
Proof.
  unfold createKillerVictimRelationship. intros Hkv.
  gen_step Hkv as rt ra Hrt. gen_step Hkv as se rb Hse.
  gen_step Hkv as u rc Hu. gen_ret Hkv.
  split; [|split; reflexivity]. split.
  - intros r0 [<-|[]]. simpl.
    split; [apply id_In; right; left; reflexivity|].
    split; [apply id_In; left; reflexivity|].
    split; [exact killer_not_victim|]. split; [lia | intros E; contradiction].
  - constructor; constructor.
Qed.

(** 2. The red-herring relationships with the victim. *)
Lemma redHerrings_graph kv sh n r rels2 r' :
  Permutation others sh ->
  graph_ok ids [kv] ->
  rel_from kv = suspect_id killer -> rel_to kv = suspect_id victim ->
  foldGen (seq 0 n) [kv] (redHerringRelationship victim sh) r
    = Ok (rels2, r') ->
  graph_ok ids rels2 /\ exists more, rels2 = kv :: more.
Proof.
  intros Hsh G1 Hkf Hkt Hrels2.
  assert (G2 : (fun i rels =>
                  graph_ok ids rels /\
                  exists more,
                    rels = kv :: more /\
                    map ends more
                    = map (fun o => (suspect_id o, suspect_id victim))
                        (firstn i sh))
                 (0 + n)%nat rels2).
  { eapply (foldGen_seq_inv
              (fun i rels =>
                 graph_ok ids rels /\
                 exists more,
                   rels = kv :: more /\
                   map ends more
                   = map (fun o => (suspect_id o, suspect_id victim))
                       (firstn i sh))); [ | | exact Hrels2].
    - intros i rels0 rd rels1 re Hi (Hg & more & Hm & He) Hstep.
      apply redHerringRelationship_Ok in Hstep.
      destruct Hstep as (s & e & Hs & -> & Hends & Hsec & Hsent).
      assert (Hfrom : rel_from e = suspect_id s)
        by (unfold ends in Hends; congruence).
      assert (Hto : rel_to e = suspect_id victim)
        by (unfold ends in Hends; congruence).
      assert (Hso : In s others)
        by (apply (Permutation_in _ (Permutation_sym Hsh));
            eapply nth_error_In; eauto).
      destruct (others_ids s Hso) as (Hsin & Hsv & Hsk).
      assert (Hnd : NoDup (map suspect_id sh)).
      { eapply Permutation_NoDup; [apply Permutation_map; exact Hsh|].
        unfold ids, allSuspects in ids_distinct. simpl in ids_distinct.
        inversion ids_distinct as [|? ? _ Hnd1]. inversion Hnd1. assumption. }
      split.
      + apply graph_ok_snoc; try assumption.
        * rewrite Hfrom. apply id_In. exact Hsin.
        * rewrite Hto. apply id_In. left; reflexivity.
        * rewrite Hfrom, Hto. exact Hsv.
        * intros Hc. rewrite Hsec in Hc. contradiction.
        * rewrite Hfrom, Hto, Hm. intros r0 [<-|Hr0] Hb.
          { destruct Hb as [[Hb _]|[Hb _]]; rewrite Hkf in Hb; auto.
            apply killer_not_victim. exact Hb. }
          apply (in_map ends) in Hr0. rewrite He in Hr0.
          apply in_map_iff in Hr0. destruct Hr0 as (o' & Eo' & Ho').
          apply In_firstn_nth in Ho'. destruct Ho' as (j & Hj & Ej).
          assert (E1 : rel_from r0 = fst (ends r0)) by reflexivity.
          assert (E2 : rel_to r0 = snd (ends r0)) by reflexivity.
          rewrite <- Eo' in E1, E2. cbn [fst snd] in E1, E2.
          destruct Hb as [[Hb _]|[_ Hb]].
          { assert (j = i) by (eapply nth_error_NoDup_ids; eauto; congruence).
            lia. }
          { apply Hsv. congruence. }
      + exists (more ++ [e]). split; [rewrite Hm; reflexivity|].
        rewrite (firstn_S_nth_error _ _ _ Hs), !map_app, He. simpl.
        rewrite Hends. reflexivity.
    - split; [exact G1|]. exists []. split; reflexivity. }
  destruct G2 as (G2 & more2 & M2 & _). split; [exact G2|].
  exists more2. exact M2.
Qed.

(** The graph [generateRelationshipGraph] returns. *)
Lemma generateRelationshipGraph_spec motive m r rels r' :
  generateRelationshipGraph victim killer others motive m r = Ok (rels, r') ->
  graph_ok ids rels /\
  exists kv more,
    rels = kv :: more /\
    rel_from kv = suspect_id killer /\ rel_to kv = suspect_id victim.
Proof.
  unfold generateRelationshipGraph. intros H.
  gen_step H as kv r1 Hkv. gen_step H as rhc r2 Hrhc.
  gen_step H as sh r3 Hsh. gen_step H as rels2 r4 Hrels2.
  gen_step H as st3 r5 Hst3. gen_step H as sc r6 Hsc.
  apply shuffle_perm in Hsh.
  apply createKillerVictimRelationship_graph in Hkv.
  destruct Hkv as (G1 & Hkf & Hkt).
  destruct (redHerrings_graph _ _ _ _ _ _ Hsh G1 Hkf Hkt Hrels2)
    as (G2 & more2 & M2).
  (* 3. minimum connections *)
  assert (G3 : graph_ok ids (fst st3) /\ exists more, fst st3 = kv :: more).
  { eapply (foldGen_inv
              (fun st => graph_ok ids (fst st) /\
                         exists more, fst st = kv :: more));
      [ | | exact Hst3].
    - intros st s rd st' re Hs (Hg & more & Hm) Hstep.
      destruct (connectSuspect_Ok _ _ _ _ _ _ Hs Hg Hstep)
        as (Hg' & more' & Hm').
      split; [exact Hg'|]. exists (more ++ more'). rewrite Hm', Hm. reflexivity.
    - split; [exact G2|]. exists more2. exact M2. }
  (* 4. secret relationships *)
  assert (G4 : graph_ok ids rels /\ exists more, rels = kv :: more).
  { eapply (foldGen_inv
              (fun rels => graph_ok ids rels /\ exists more, rels = kv :: more));
      [ | exact G3 | exact H].
    intros rels0 i rd rels1 re _ (Hg & more & Hm) Hstep.
    destruct (addSecret_graph _ _ _ _ _ Hg Hstep) as (Hg' & more' & Hm').
    split; [exact Hg'|]. exists (more ++ more'). rewrite Hm', Hm. reflexivity. }
  destruct G4 as (G4 & more4 & M4). split; [exact G4|].
  exists kv, more4. split; [exact M4|]. split; assumption.
Qed.

End RelationshipGraph.

(** X11. Relationships of a case returned by [generateCase]: the first one
    goes from the killer to the victim; every relationship links two
    different suspects of the case, with a sentiment between -10 and 10;
    no two relationships link the same two suspects; a relationship with a
    secret reason is not public knowledge. *)
Theorem generateCase_relationships seedrandom fuel seed config c :
  generateCase seedrandom fuel seed config = Ok c ->
  (exists kv more,
     relationships c = kv :: more /\
     rel_from kv = killer c /\ rel_to kv = victim c) /\
  (forall rel, In rel (relationships c) ->
     rel_from rel <> rel_to rel /\
     (exists s, In s (suspects c) /\ suspect_id s = rel_from rel) /\
     (exists s, In s (suspects c) /\ suspect_id s = rel_to rel) /\
     (-10 <= sentiment rel <= 10)%Z /\
     (secretReason rel <> None -> isPublicKnowledge rel = false)) /\
  ForallOrdPairs (fun a b => ~ samePair a b) (relationships c).
Proof.
  intros H. apply generateCase_generation in H.
  destruct (generation_suspects _ _ _ _ _ H) as [_ Hnd].
  destruct H. subst c. cbn [suspects relationships killer victim createCase] in *.
  apply (generateRelationshipGraph_spec _ _ _ Hnd) in run_relationships.
  destruct run_relationships as ([Hall Hpairs] & kv & more & Hkv).
  split; [exists kv, more; exact Hkv|]. split; [|exact Hpairs].
  intros rel Hrel. destruct (Hall rel Hrel) as (H1 & H2 & H3 & H4 & H5).
  split; [exact H3|].
  apply in_map_iff in H1. destruct H1 as (s1 & E1 & Hs1).
  apply in_map_iff in H2. destruct H2 as (s2 & E2 & Hs2).
  split; [exists s1; auto|]. split; [exists s2; auto|]. auto.
Qed.

Lemma generateCase_relationships_witness :
  exists c,
    generateCase sampleRandom 5 "relationships-test" defaultConfig = Ok c /\
    (exists kv more,
       relationships c = kv :: more /\
       rel_from kv = killer c /\ rel_to kv = victim c) /\
    (forall rel, In rel (relationships c) ->
       rel_from rel <> rel_to rel /\
       (exists s, In s (suspects c) /\ suspect_id s = rel_from rel) /\
       (exists s, In s (suspects c) /\ suspect_id s = rel_to rel) /\
       (-10 <= sentiment rel <= 10)%Z /\
       (secretReason rel <> None -> isPublicKnowledge rel = false)) /\
    ForallOrdPairs (fun a b => ~ samePair a b) (relationships c).
Proof.
  destruct (generateCase sampleRandom 5 "relationships-test" defaultConfig)
    as [c| |] eqn:E; [ | sample_returns E | sample_returns E].
  exists c. split; [reflexivity|].
  exact (generateCase_relationships _ _ _ _ _ E).
Defined.

(* ================================================================== *)
(** * Everybody is connected                                           *)
(* ================================================================== *)

Lemma mapGet_mapSet_same {V} (k : string) (v : V) : forall m,
  mapGet (mapSet m k v) k = Some v.
Proof.
  induction m as [|[k0 v0] m IH]; simpl.
  - rewrite String.eqb_refl. reflexivity.
  - destruct (String.eqb_spec k0 k) as [->|Hne]; simpl.
    + rewrite String.eqb_refl. reflexivity.
    + destruct (String.eqb_spec k0 k); [contradiction | exact IH].
Qed.

Lemma mapGet_mapSet_other {V} (k k' : string) (v : V) : k <> k' -> forall m,
  mapGet (mapSet m k v) k' = mapGet m k'.
Proof.
  intros Hne. induction m as [|[k0 v0] m IH]; simpl.
  - destruct (String.eqb_spec k k'); [contradiction | reflexivity].
  - destruct (String.eqb_spec k0 k) as [->|Hne0]; simpl.
    + destruct (String.eqb_spec k k'); [contradiction | reflexivity].
    + destruct (String.eqb_spec k0 k'); [reflexivity | exact IH].
Qed.

Lemma getCount_bump m k id :
  getCount (bump m k) id
  = (getCount m id + (if String.eqb k id then 1 else 0))%Z.
Proof.
  unfold bump, getCount at 1.
  destruct (String.eqb_spec k id) as [->|Hne].
  - rewrite mapGet_mapSet_same. reflexivity.
  - rewrite mapGet_mapSet_other by exact Hne. unfold getCount. lia.
Qed.

Lemma degree_snoc rels e id :
  degree (rels ++ [e]) id
  = (degree rels id + (if involves id e then 1 else 0))%nat.
Proof.
  unfold degree. rewrite filter_app, length_app. simpl.
  destruct (involves id e); reflexivity.
Qed.

Lemma degree_app_le rels more id :
  (degree rels id <= degree (rels ++ more) id)%nat.
Proof. unfold degree. rewrite filter_app, length_app. lia. Qed.

Lemma counted_snoc cc rels e :
  counted cc rels -> rel_from e <> rel_to e ->
  counted (bump (bump cc (rel_from e)) (rel_to e)) (rels ++ [e]).
Proof.
  intros Hc Hne id. rewrite !getCount_bump, degree_snoc, Hc.
  unfold involves.
  destruct (String.eqb_spec (rel_from e) id), (String.eqb_spec (rel_to e) id);
    simpl; try lia. congruence.
Qed.

Lemma getCount_zeros (ss : list Suspect) : forall m id,
  getCount m id = 0%Z ->
  getCount (fold_left (fun m s => mapSet m (suspect_id s) 0%Z) ss m) id = 0%Z.
Proof.
  induction ss as [|s ss IH]; simpl; intros m id Hm; [exact Hm|].
  apply IH. unfold getCount.
  destruct (String.eqb_spec (suspect_id s) id) as [->|Hne].
  - rewrite mapGet_mapSet_same. reflexivity.
  - rewrite mapGet_mapSet_other by exact Hne. exact Hm.
Qed.

Lemma counted_init cc0 : forall rels,
  (forall id, getCount cc0 id = 0%Z) ->
  (forall r, In r rels -> rel_from r <> rel_to r) ->
  counted (fold_left (fun m rel => bump (bump m (rel_from rel)) (rel_to rel))
             rels cc0) rels.
Proof.
  intros rels H0. induction rels as [|e rels IH] using rev_ind; intros Hne.
  - intros id. simpl. rewrite H0. reflexivity.
  - rewrite fold_left_app. simpl. apply counted_snoc.
    + apply IH. intros r Hr. apply Hne. apply in_or_app. left; exact Hr.
    + apply Hne. apply in_or_app. right; left; reflexivity.
Qed.

(** The suspects already linked to [s], or [s] itself, are no more than
    one plus the relationships of [s]. *)
Lemma candidates_enough (allSuspects : list Suspect) (s : Suspect) rels :
  NoDup (map suspect_id allSuspects) ->
  (List.length allSuspects
   <= List.length
        (filter (fun t =>
                   if String.eqb (suspect_id t) (suspect_id s) then false
                   else negb (relationExists rels (suspect_id s) (suspect_id t)))
           allSuspects)
      + 1 + degree rels (suspect_id s))%nat.
Proof.
  intros Hnd.
  set (p := fun t =>
              if String.eqb (suspect_id t) (suspect_id s) then false
              else negb (relationExists rels (suspect_id s) (suspect_id t))).
  assert (Hsplit : (List.length allSuspects
                    = List.length (filter p allSuspects)
                      + List.length (filter (fun t => negb (p t)) allSuspects))%nat).
  { clear. induction allSuspects as [|a l IH]; simpl; [reflexivity|].
    destruct (p a); simpl; lia. }
  assert (Hex : (List.length (filter (fun t => negb (p t)) allSuspects)
                 <= 1 + degree rels (suspect_id s))%nat).
  { unfold degree.
    rewrite <- (length_map (otherEnd (suspect_id s))
                  (filter (involves (suspect_id s)) rels)).
    rewrite <- (length_map suspect_id (filter _ allSuspects)).
    change (1 + ?n)%nat with (List.length (suspect_id s :: @nil string) + n)%nat.
    rewrite <- length_app.
    apply NoDup_incl_length; [apply NoDup_filter_map; exact Hnd|].
    intros id Hid. apply in_map_iff in Hid. destruct Hid as (t & <- & Ht).
    apply filter_In in Ht. destruct Ht as [Ht Hp]. unfold p in Hp.
    destruct (String.eqb_spec (suspect_id t) (suspect_id s)) as [E|Hne].
    - left. symmetry. exact E.
    - right. apply negb_true_iff, negb_false_iff in Hp.
      unfold relationExists, jsSome in Hp. apply existsb_exists in Hp.
      destruct Hp as (r & Hr & Hb).
      apply in_map_iff. exists r. split.
      + unfold otherEnd. apply orb_true_iff in Hb.
        destruct Hb as [Hb|Hb]; apply andb_true_iff in Hb;
          destruct Hb as [Hb1 Hb2];
          apply String.eqb_eq in Hb1; apply String.eqb_eq in Hb2.
        * rewrite Hb1, String.eqb_refl. exact Hb2.
        * destruct (String.eqb_spec (rel_from r) (suspect_id s)); congruence.
      + apply filter_In. split; [exact Hr|]. unfold involves.
        apply orb_true_iff in Hb.
        destruct Hb as [Hb|Hb]; apply andb_true_iff in Hb;
          destruct Hb as [Hb1 Hb2].
        * rewrite Hb1. reflexivity.
        * rewrite Hb2. apply orb_true_r. }
  fold p. lia.
Qed.

Lemma foldGen_each_inv {A S0} (I : S0 -> Prop) (Q : A -> S0 -> Prop)
      (body : S0 -> A -> Gen S0) : forall xs,
  (forall s x r s' r', In x xs -> I s -> body s x r = Ok (s', r') ->
     I s' /\ Q x s' /\ forall z, Q z s -> Q z s') ->
  forall s r s' r', I s -> foldGen xs s body r = Ok (s', r') ->
  I s' /\ (forall x, In x xs -> Q x s') /\ (forall z, Q z s -> Q z s').
Proof.
  induction xs as [|y xs IH]; simpl; intros Hstep s r s' r' Hs H.
  - gen_ret H. split; [exact Hs|]. split; [intros x []|auto].
  - gen_step H as s1 r1 Hy.
    destruct (Hstep s y r s1 r1 (or_introl eq_refl) Hs Hy)
      as (Hs1 & Hq1 & Hk1).
    destruct (IH (fun s0 x r0 s0' r0' Hx => Hstep s0 x r0 s0' r0' (or_intror Hx))
                s1 r1 s' r' Hs1 H) as (Hs' & Hq & Hk).
    split; [exact Hs'|]. split.
    + intros x [<-|Hx]; [apply Hk; exact Hq1 | apply Hq; exact Hx].
    + intros z Hz. apply Hk, Hk1, Hz.
Qed.

Section Connected.

Variables (victim killer : Suspect) (others : list Suspect).

Let allSuspects := victim :: killer :: others.
Let ids := map suspect_id allSuspects.

Hypothesis ids_distinct : NoDup ids.

Lemma connect_degree (s : Suspect) (sc : list Suspect) rels0 cc0 :
  (forall o, In o sc -> suspect_id o <> suspect_id s) ->
  counted cc0 rels0 ->
  forall n r st' r',
  foldGen (seq 0 n) (rels0, cc0) (addConnection s sc) r = Ok (st', r') ->
  counted (snd st') (fst st') /\
  degree (fst st') (suspect_id s) = (degree rels0 (suspect_id s) + n)%nat.
Proof.
  intros Hsc Hc n r st' r' H.
  assert (P : (fun i st =>
                 counted (snd st) (fst st) /\
                 degree (fst st) (suspect_id s)
                 = (degree rels0 (suspect_id s) + i)%nat) (0 + n)%nat st').
  { eapply (foldGen_seq_inv
              (fun i st =>
                 counted (snd st) (fst st) /\
                 degree (fst st) (suspect_id s)
                 = (degree rels0 (suspect_id s) + i)%nat));
      [ | | exact H].
    - intros i st ra st1 rb Hi [Hci Hdi] Hstep.
      apply addConnection_Ok in Hstep.
      destruct Hstep as (o & e & Ho & Hfst & Hsnd & Hends & _).
      assert (Hfrom : rel_from e = suspect_id s)
        by (unfold ends in Hends; congruence).
      assert (Hto : rel_to e = suspect_id o)
        by (unfold ends in Hends; congruence).
      pose proof (Hsc o (nth_error_In _ _ Ho)) as Hne.
      rewrite Hfst, Hsnd. split.
      + rewrite <- Hfrom, <- Hto. apply counted_snoc; [exact Hci|]. congruence.
      + rewrite degree_snoc, Hdi. unfold involves.
        rewrite Hfrom, String.eqb_refl. simpl. lia.
    - split; [exact Hc | simpl; lia]. }
  exact P.
Qed.

Lemma connectSuspect_degree m st s r st' r' :
  (m < Z.of_nat (List.length allSuspects))%Z ->
  In s allSuspects ->
  counted (snd st) (fst st) ->
  connectSuspect m allSuspects st s r = Ok (st', r') ->
  counted (snd st') (fst st') /\
  (m <= Z.of_nat (degree (fst st') (suspect_id s)))%Z.
Proof.
  intros Hm Hs Hc H. destruct st as [rels cc]. unfold connectSuspect in H.
  cbn [fst snd] in *. rewrite (Hc (suspect_id s)) in H.
  destruct (Z.ltb_spec (Z.of_nat (degree rels (suspect_id s))) m) as [Hlt|Hge].
  - gen_step H as sc r1 Hsc. apply shuffle_perm in Hsc.
    pose proof (candidates_enough allSuspects s rels ids_distinct) as Hen.
    rewrite (Permutation_length Hsc) in Hen.
    apply connect_degree in H; [|
      intros o Ho; apply (Permutation_in _ (Permutation_sym Hsc)) in Ho;
      apply filter_In in Ho; destruct Ho as [_ Hf];
      destruct (String.eqb_spec (suspect_id o) (suspect_id s));
        [discriminate | assumption]
      | exact Hc].
    destruct H as [Hc' Hd]. split; [exact Hc'|]. rewrite Hd.
    revert Hm Hlt Hen.
    generalize (degree rels (suspect_id s)) (List.length sc)
      (List.length allSuspects).
    clear. intros d L N Hm Hlt Hen. rewrite Z.min_l by lia. lia.
  - gen_ret H. cbn [fst snd]. split; [exact Hc | lia].
Qed.

(** Everybody takes part in at least [m] relationships when there are more
    than [m] suspects. *)
Lemma generateRelationshipGraph_degree motive m r rels r' :
  (m < Z.of_nat (List.length allSuspects))%Z ->
  generateRelationshipGraph victim killer others motive m r = Ok (rels, r') ->
  forall s, In s allSuspects -> (m <= Z.of_nat (degree rels (suspect_id s)))%Z.
Proof.
  intros Hm. unfold generateRelationshipGraph. intros H.
  gen_step H as kv r1 Hkv. gen_step H as rhc r2 Hrhc.
  gen_step H as sh r3 Hsh. gen_step H as rels2 r4 Hrels2.
  gen_step H as st3 r5 Hst3. gen_step H as sc r6 Hsc.
  apply shuffle_perm in Hsh.
  apply (createKillerVictimRelationship_graph _ _ _ ids_distinct) in Hkv.
  destruct Hkv as (G1 & Hkf & Hkt).
  destruct (redHerrings_graph _ _ _ ids_distinct _ _ _ _ _ _ Hsh G1 Hkf Hkt
              Hrels2) as (G2 & more2 & M2).
  assert (C2 : counted
                 (fold_left
                    (fun m0 rel => bump (bump m0 (rel_from rel)) (rel_to rel))
                    rels2
                    (fold_left (fun m0 s => mapSet m0 (suspect_id s) 0%Z)
                       allSuspects [])) rels2).
  { apply counted_init.
    - intros id. apply getCount_zeros. reflexivity.
    - intros r0 Hr0. destruct G2 as [Hall _]. apply (Hall r0 Hr0). }
  assert (G3 : (graph_ok ids (fst st3) /\ counted (snd st3) (fst st3)) /\
               (forall s, In s allSuspects ->
                  (m <= Z.of_nat (degree (fst st3) (suspect_id s)))%Z) /\
               True).
  { match type of Hst3 with
    | foldGen _ ?s0 _ _ = _ =>
        destruct (foldGen_each_inv
                    (fun st => graph_ok ids (fst st) /\
                               counted (snd st) (fst st))
                    (fun s st =>
                       (m <= Z.of_nat (degree (fst st) (suspect_id s)))%Z)
                    (connectSuspect m allSuspects) allSuspects) with
          (s := s0) (r := r4) (s' := st3) (r' := r5) as (HI & HQ & _);
          [ | split; [exact G2 | exact C2] | exact Hst3 | auto ]
    end.
    intros st s ra st' rb Hs [Hg Hc] Hstep.
    destruct (connectSuspect_Ok _ _ _ ids_distinct _ _ _ _ _ _ Hs Hg Hstep)
      as (Hg' & more' & Hm').
    destruct (connectSuspect_degree _ _ _ _ _ _ Hm Hs Hc Hstep)
      as (Hc' & Hd').
    split; [split; assumption|]. split; [exact Hd'|].
    intros z Hz. rewrite Hm'.
    pose proof (degree_app_le (fst st) more' (suspect_id z)). lia. }
  destruct G3 as ((G3 & _) & D3 & _).
  assert (G4 : graph_ok ids rels /\
               forall s, In s allSuspects ->
                 (m <= Z.of_nat (degree rels (suspect_id s)))%Z).
  { eapply (foldGen_inv
              (fun rels => graph_ok ids rels /\
                 forall s, In s allSuspects ->
                   (m <= Z.of_nat (degree rels (suspect_id s)))%Z));
      [ | split; [exact G3 | exact D3] | exact H].
    intros rels0 i rd rels1 re _ (Hg & Hd) Hstep.
    destruct (addSecret_graph _ _ _ ids_distinct _ _ _ _ _ Hg Hstep)
      as (Hg' & more' & Hm').
    split; [exact Hg'|]. intros s Hs. rewrite Hm'.
    pose proof (degree_app_le rels0 more' (suspect_id s)).
    specialize (Hd s Hs). lia. }
  apply G4.
Qed.

End Connected.

(** X12. In a case returned by [generateCase] every suspect, the victim
    included, takes part in at least two relationships:
    [getRelationshipsForSuspect] returns two or more of them. *)
Theorem generateCase_connected seedrandom fuel seed config c s :
  generateCase seedrandom fuel seed config = Ok c ->
  In s (suspects c) ->
  (2 <= List.length (getRelationshipsForSuspect c (suspect_id s)))%nat.
Proof.
  intros H Hs. apply generateCase_generation in H.
  destruct (generation_suspects _ _ _ _ _ H) as [_ Hnd].
  destruct H. subst c.
  cbn [suspects relationships createCase] in *.
  apply assignVictimAndKiller_others in run_assign.
  destruct run_assign as [H3 Ho].
  assert (Hm : (2 < Z.of_nat (List.length
                                (asg_victim a :: asg_killer a
                                   :: asg_others a)))%Z)
    by (cbn [List.length]; lia).
  pose proof (generateRelationshipGraph_degree _ _ _ Hnd _ 2 _ _ _
                Hm run_relationships s Hs) as Hd.
  change (2 <= degree rels (suspect_id s))%nat. lia.
Qed.

Lemma generateCase_connected_witness :
  exists c s,
    generateCase sampleRandom 5 "relationships-test" defaultConfig = Ok c /\
    In s (suspects c) /\
    (2 <= List.length (getRelationshipsForSuspect c (suspect_id s)))%nat.
Proof.
  eassert (H1 : generateCase sampleRandom 5 "relationships-test" defaultConfig
                = Ok _) by (vm_compute; reflexivity).
  match type of H1 with
  | _ = Ok ?c =>
      match eval hnf in (suspects c) with
      | ?s :: _ =>
          assert (H2 : In s (suspects c)) by (left; reflexivity);
          exists c, s; split; [exact H1|]; split; [exact H2|];
          exact (generateCase_connected _ _ _ _ _ _ H1 H2)
      end
  end.
Defined.

(** ** Alibis *)

(** Witnesses are living suspects of the list other than the excluded
    one. *)
Lemma selectWitnesses_spec excludeId allSuspects r ws r' :
  NoDup (map suspect_id allSuspects) ->
  selectWitnesses excludeId allSuspects r = Ok (ws, r') ->
  NoDup (map suspect_id ws) /\
  forall w, In w ws ->
    In w allSuspects /\ suspect_id w <> excludeId /\ isVictim w = false.
Proof.
  unfold selectWitnesses. intros Hnd H.
  gen_step H as count r1 H1. gen_step H as sh r2 H2. gen_ret H.
  apply shuffle_perm in H2. unfold slice0. split.
  - rewrite <- firstn_map. apply NoDup_firstn.
    eapply Permutation_NoDup; [apply Permutation_map; exact H2|].
    apply NoDup_filter_map. exact Hnd.
  - intros w Hw. apply In_firstn in Hw.
    apply (Permutation_in _ (Permutation_sym H2)) in Hw.
    apply filter_In in Hw. destruct Hw as [Hin Hb].
    apply andb_true_iff in Hb. destruct Hb as [Hb1 Hb2].
    apply negb_true_iff in Hb1, Hb2. apply String.eqb_neq in Hb1. auto.
Qed.

Lemma witnesses_ok owner allSuspects ws :
  NoDup (map suspect_id ws) ->
  (forall w, In w ws ->
     In w allSuspects /\ suspect_id w <> owner /\ isVictim w = false) ->
  NoDup (map suspect_id ws) /\
  forall w, In w (map suspect_id ws) ->
    w <> owner /\ exists s, In s allSuspects /\ suspect_id s = w.
Proof.
  intros Hnd H. split; [exact Hnd|].
  intros w Hw. apply in_map_iff in Hw. destruct Hw as (s & <- & Hs).
  destruct (H s Hs) as (H1 & H2 & H3). split; [exact H2|]. eauto.
Qed.

Lemma innocentAlibi_spec killer others locations tod innocent r a r' :
  NoDup (map suspect_id (killer :: others)) ->
  In innocent others ->
  innocentAlibi (killer :: others) (filter (fun l => isPublic l) locations)
    tod innocent r = Ok (a, r') ->
  alibi_suspectId a = suspect_id innocent /\
  alibi_ok killer others locations tod a.
Proof.
  unfold innocentAlibi. intros Hnd Hin H.
  gen_step H as loc r1 H1. gen_step H as ws r2 H2.
  gen_step H as u r3 H3. gen_step H as l r4 H4.
  apply defined_Ok in H4. destruct H4 as [-> ->].
  apply pick_In in H1. apply filter_In in H1. destruct H1 as [Hl Hpub].
  apply (selectWitnesses_spec _ _ _ _ _ Hnd) in H2. destruct H2 as [Hwnd Hws].
  assert (Hloc : exists l0, In l0 locations /\ location_id l0 = location_id l /\
     (suspect_id innocent <> suspect_id killer -> isPublic l0 = true))
    by (exists l; auto).
  assert (Hweak : NoDup (map suspect_id (slice0 1 ws)))
    by (unfold slice0; rewrite <- firstn_map; apply NoDup_firstn; exact Hwnd).
  assert (Hweaks : forall w, In w (slice0 1 ws) ->
     In w (killer :: others) /\ suspect_id w <> suspect_id innocent /\
     isVictim w = false)
    by (intros w Hw; unfold slice0 in Hw; apply In_firstn in Hw; auto).
  set (weak := slice0 1 ws) in *. clearbody weak.
  destruct (Qltb u double_0_2); gen_inv H; cbn -[In];
    (split; [reflexivity|]); unfold alibi_ok; cbn -[In];
    (split; [reflexivity|]); (split; [exact Hloc|]);
    apply witnesses_ok; assumption.
Qed.

Lemma generateKillerAlibi_spec killer others locations tod strategy r a r' :
  NoDup (map suspect_id (killer :: others)) ->
  generateKillerAlibi killer others (filter (fun l => isPublic l) locations)
    (filter (fun l => negb (isPublic l)) locations) tod strategy r
  = Ok (a, r') ->
  alibi_suspectId a = suspect_id killer /\
  alibi_ok killer others locations tod a.
Proof.
  unfold generateKillerAlibi. intros Hnd H.
  assert (Hsub : forall l,
    In l (filter (fun l => isPublic l) locations) \/
    In l (filter (fun l => negb (isPublic l)) locations) ->
    exists l0, In l0 locations /\ location_id l0 = location_id l /\
      (suspect_id killer <> suspect_id killer -> isPublic l0 = true)).
  { intros l [Hl|Hl]; apply filter_In in Hl; destruct Hl as [Hl _];
      exists l; (split; [exact Hl|]); (split; [reflexivity|]); congruence. }
  destruct strategy.
  - (* no_witnesses *)
    gen_step H as l r1 H1. gen_inv H. cbn -[In]. split; [reflexivity|].
    unfold alibi_ok. cbn -[In]. split; [reflexivity|]. split.
    + apply Hsub.
      destruct (0 <? List.length (filter (fun l => negb (isPublic l)) locations))%nat;
        apply pickLocation_In in H1; auto.
    + split; [constructor|]. intros w [].
  - (* unreliable_witness *)
    gen_step H as lo r1 H1. gen_step H as fo r2 H2.
    gen_step H as l r3 H3. gen_step H as f r4 H4.
    apply defined_Ok in H3. destruct H3 as [-> ->].
    apply defined_Ok in H4. destruct H4 as [-> ->].
    gen_inv H. cbn -[In]. split; [reflexivity|].
    unfold alibi_ok. cbn -[In]. split; [reflexivity|]. split.
    + apply Hsub. apply pick_In in H1.
      destruct (0 <? List.length (filter (fun l => isPublic l) locations))%nat; auto.
    + split; [repeat constructor; intros []|].
      apply pick_In in H2.
      intros w [<-|[]]. split.
      * simpl in Hnd. inversion Hnd as [|? ? Hk _]. intros E. apply Hk.
        rewrite <- E. apply in_map. exact H2.
      * exists f. split; [right; exact H2 | reflexivity].
  - (* partial_alibi *)
    gen_step H as lo r1 H1. gen_step H as ws r2 H2.
    gen_step H as l r3 H3.
    apply defined_Ok in H3. destruct H3 as [-> ->].
    gen_inv H. cbn -[In]. split; [reflexivity|].
    unfold alibi_ok. cbn -[In]. split; [reflexivity|]. split.
    + apply Hsub. apply pick_In in H1.
      destruct (0 <? List.length (filter (fun l => isPublic l) locations))%nat; auto.
    + apply (selectWitnesses_spec _ _ _ _ _ Hnd) in H2.
      destruct H2 as [Hwnd Hws]. apply witnesses_ok; assumption.
  - (* conflicting_times *)
    gen_step H as l r1 H1. gen_inv H. cbn -[In]. split; [reflexivity|].
    unfold alibi_ok. cbn -[In]. split; [reflexivity|]. split.
    + apply Hsub. apply pickLocation_In in H1.
      destruct (0 <? List.length (filter (fun l => negb (isPublic l)) locations))%nat; auto.
    + split; [constructor|]. intros w [].
Qed.

Lemma Forall2_with_In {A B} (R : A -> B -> Prop) l l' :
  Forall2 R l l' -> Forall2 (fun a b => In a l /\ R a b) l l'.
Proof.
  induction 1 as [|x y l l' Hxy _ IH]; constructor.
  - split; [left; reflexivity | exact Hxy].
  - eapply Forall2_impl; [|exact IH].
    intros a b [Ha Hab]. split; [right|]; assumption.
Qed.

Lemma Forall2_map_eq {A B C} (f : A -> C) (g : B -> C) l l' :
  Forall2 (fun a b => g b = f a) l l' -> map g l' = map f l.
Proof. induction 1; simpl; congruence. Qed.

Lemma generateAlibis_spec killer victim others locations tod r al r' :
  NoDup (map suspect_id (killer :: others)) ->
  generateAlibis killer victim others locations tod r = Ok (al, r') ->
  Permutation (map alibi_suspectId al) (map suspect_id (killer :: others)) /\
  forall a, In a al -> alibi_ok killer others locations tod a.
Proof.
  unfold generateAlibis. intros Hnd H.
  gen_step H as strategy r1 H1. gen_step H as innocents r2 H2.
  gen_step H as ka r3 H3.
  apply shuffle_perm in H. apply forEach_Ok in H2.
  apply generateKillerAlibi_spec in H3; [|exact Hnd]. destruct H3 as [Hka Hkok].
  assert (Hinn : Forall2 (fun o a => In o others /\
            exists ra rb, innocentAlibi (killer :: others)
              (filter (fun l => isPublic l) locations) tod o ra = Ok (a, rb))
            others innocents).
  { apply Forall2_with_In. exact H2. }
  split.
  - eapply Permutation_trans;
      [apply Permutation_map; apply Permutation_sym; exact H|].
    rewrite map_app. simpl. rewrite Hka.
    eapply Permutation_trans; [apply Permutation_app_comm|]. simpl.
    apply perm_skip.
    erewrite (Forall2_map_eq suspect_id alibi_suspectId); [reflexivity|].
    eapply Forall2_impl; [|exact Hinn].
    intros o a (Ho & ra & rb & Hab).
    apply (innocentAlibi_spec _ _ _ _ _ _ _ _ Hnd Ho Hab).
  - intros a Ha. apply (Permutation_in _ (Permutation_sym H)) in Ha.
    apply in_app_iff in Ha. destruct Ha as [Ha|[<-|[]]]; [|exact Hkok].
    destruct (Forall2_In_r _ _ _ _ Hinn Ha) as (o & Ho & _ & ra & rb & Hab).
    apply (innocentAlibi_spec _ _ _ _ _ _ _ _ Hnd Ho Hab).
Qed.

(** X13. Alibis of a case returned by [generateCase]: every living suspect
    has exactly one alibi; each alibi is for the time of death, at a
    location of the case, public unless the alibi is the killer's; its
    witnesses are distinct suspects of the case, never the owner of the
    alibi and never the victim. *)
Theorem generateCase_alibi_details seedrandom fuel seed config c :
  generateCase seedrandom fuel seed config = Ok c ->
  Permutation (map alibi_suspectId (alibis c))
    (map suspect_id (getSuspects c)) /\
  (forall a, In a (alibis c) ->
     timeSlot a = timeOfDeath c /\
     (exists l, In l (locations c) /\ location_id l = alibi_location a /\
        (alibi_suspectId a <> killer c -> isPublic l = true)) /\
     NoDup (witnesses a) /\
     (forall w, In w (witnesses a) ->
        w <> alibi_suspectId a /\ w <> victim c /\
        exists s, In s (suspects c) /\ suspect_id s = w)).
Proof.
  intros H. apply generateCase_generation in H. destruct H. subst c.
  destruct (run_assigned _ _ _ _ _ _ _ run_suspects run_assign)
    as (Hvk & Hoth & Hnd & _ & Hvv & _ & Hkv & _).
  assert (Hnd' : NoDup (map suspect_id (asg_killer a :: asg_others a))).
  { simpl. constructor; [|exact Hnd].
    intros Hin. apply in_map_iff in Hin. destruct Hin as (o & E & Ho).
    destruct (Hoth o Ho) as (_ & Hk & _). congruence. }
  destruct (generateAlibis_spec _ _ _ _ _ _ _ _ Hnd' run_alibis)
    as [Hperm Hall].
  unfold getSuspects. cbn [suspects alibis timeOfDeath locations killer victim
    createCase filter]. rewrite Hvv, Hkv. cbn [negb].
  rewrite (filter_all (fun s => negb (isVictim s)) (asg_others a)).
  2:{ intros o Ho. destruct (Hoth o Ho) as (_ & _ & -> & _). reflexivity. }
  split; [exact Hperm|].
  intros al0 Hal. destruct (Hall al0 Hal) as (Ht & Hl & Hwnd & Hw).
  split; [exact Ht|]. split; [exact Hl|]. split; [exact Hwnd|].
  intros w Hin. destruct (Hw w Hin) as (Hne & s & Hs & <-).
  split; [exact Hne|]. split.
  - destruct Hs as [<-|Hs]; [congruence|].
    destruct (Hoth s Hs) as (Hv & _). exact Hv.
  - exists s. split; [right; exact Hs | reflexivity].
Qed.

Lemma generateCase_alibi_details_witness :
  exists c,
    generateCase sampleRandom 5 "alibi-test" defaultConfig = Ok c /\
    Permutation (map alibi_suspectId (alibis c))
      (map suspect_id (getSuspects c)).
Proof.
  eassert (H1 : generateCase sampleRandom 5 "alibi-test" defaultConfig = Ok _)
    by (vm_compute; reflexivity).
  eexists. split; [exact H1|].
  exact (proj1 (generateCase_alibi_details _ _ _ _ _ H1)).
Defined.

Lemma total_selectWitnesses excludeId allSuspects :
  total (selectWitnesses excludeId allSuspects).
Proof. unfold selectWitnesses. total_tac. Qed.

Lemma pick_nil {A} r : exists r', pick (@nil A) r = Ok (None, r').
Proof.
  unfold pick, rngFloor, rng, bind, ret. cbn [List.length Z.of_nat].
  rewrite Qfloor_zero. eexists. reflexivity.
Qed.

(** With no public location to draw from, [random.pick] gives [undefined]
    for the first innocent and reading its [id] throws. *)
Lemma generateAlibis_throws killer victim others locations tod r :
  (forall l, In l locations -> isPublic l = false) ->
  others <> [] ->
  generateAlibis killer victim others locations tod r = Throw TypeError.
Proof.
  intros Hpriv Hne. unfold generateAlibis.
  assert (E : filter (fun l => isPublic l) locations = []).
  { clear -Hpriv. induction locations as [|l ls IH]; [reflexivity|]. simpl.
    rewrite (Hpriv l) by (left; reflexivity).
    apply IH. intros l' Hl'. apply Hpriv. right. exact Hl'. }
  rewrite E.
  destruct (total_pickOr no_witnesses
    [no_witnesses; unreliable_witness; partial_alibi; conflicting_times] r)
    as (s & r1 & Hs).
  rewrite (bind_eq _ _ _ _ _ Hs).
  destruct others as [|o os]; [congruence|]. cbn [forEach].
  apply bind_Throw. apply bind_Throw. unfold innocentAlibi.
  destruct (pick_nil (A := Location) r1) as (r2 & Hp).
  rewrite (bind_eq _ _ _ _ _ Hp).
  destruct (total_selectWitnesses (suspect_id o) (killer :: o :: os) r2)
    as (ws & r3 & Hw).
  rewrite (bind_eq _ _ _ _ _ Hw).
  destruct (total_rng r3) as (u & r4 & Hu).
  unfold random. rewrite (bind_eq _ _ _ _ _ Hu). reflexivity.
Qed.

(** X14. Without a public location the first innocent's alibi cannot be
    placed: [generateAlibis] reads [location.id] of [undefined], whatever
    the random source. *)
Theorem generateAlibis_no_public_location killer victim others locations tod r :
  (forall l, In l locations -> isPublic l = false) ->
  others <> [] ->
  generateAlibis killer victim others locations tod r = Throw TypeError.
Proof.
  intros Hpriv Hne. apply generateAlibis_throws; assumption.
Qed.

Lemma generateAlibis_no_public_location_witness :
  generateAlibis
    (createSuspect "suspect-1" "Ada" "Blake" "Banker" 41 "tall"
       (createPersonalityTraits 0.5 0.5 0.5 0.5) None (Some true))
    (createSuspect "suspect-0" "Cy" "Dunn" "Judge" 60 "grey"
       (createPersonalityTraits 0.5 0.5 0.5 0.5) (Some true) None)
    [createSuspect "suspect-2" "Eve" "Frost" "Singer" 33 "pale"
       (createPersonalityTraits 0.5 0.5 0.5 0.5) None None]
    [createLocation (locationIdOf 0) "Wine Cellar" "dark" (Some false) None]
    (createTimeSlot 21) (createRandom sampleRandom "s") = Throw TypeError.
Proof.
  apply generateAlibis_no_public_location.
  - intros l [<-|[]]. reflexivity.
  - discriminate.
Defined.

(* ================================================================== *)
(** * Code that cannot fail                                            *)
(* ================================================================== *)

Lemma steady_ret {A} (a : A) : steady (ret a).
Proof. intros r. exists a, r. split; reflexivity. Qed.

Lemma steady_bind {A B} (m : Gen A) (k : A -> Gen B) :
  steady m -> (forall a, steady (k a)) -> steady (bind m k).
Proof.
  intros Hm Hk r. destruct (Hm r) as (a & r1 & Ha & E1).
  destruct (Hk a r1) as (b & r2 & Hb & E2). exists b, r2.
  rewrite (bind_eq _ _ _ _ _ Ha). split; [exact Hb | congruence].
Qed.

Lemma steady_rng : steady rng.
Proof. intros r. do 2 eexists. split; reflexivity. Qed.

Lemma steady_rngFloor n : steady (rngFloor n).
Proof.
  apply steady_bind; [apply steady_rng | intros; apply steady_ret].
Qed.

Lemma steady_randomInt a b : steady (randomInt a b).
Proof.
  apply steady_bind; [apply steady_rngFloor | intros; apply steady_ret].
Qed.

Lemma steady_pick {A} (l : list A) : steady (pick l).
Proof.
  apply steady_bind; [apply steady_rngFloor | intros; apply steady_ret].
Qed.

Lemma steady_pickOr {A} (d : A) (l : list A) : steady (pickOr d l).
Proof.
  apply steady_bind; [apply steady_pick | intros; apply steady_ret].
Qed.

Lemma steady_shuffleLoop {A} : forall i (l : list A), steady (shuffleLoop i l).
Proof.
  induction i as [|i IH]; intros l; simpl.
  - apply steady_ret.
  - apply steady_bind; [apply steady_rngFloor | intros; apply IH].
Qed.

Lemma steady_shuffle {A} (l : list A) : steady (shuffle l).
Proof. apply steady_shuffleLoop. Qed.

Lemma steady_foldGen {A S} (body : S -> A -> Gen S) :
  (forall s x, steady (body s x)) ->
  forall xs s, steady (foldGen xs s body).
Proof.
  intros Hb. induction xs as [|x xs IH]; intros s; simpl.
  - apply steady_ret.
  - apply steady_bind; [apply Hb | intros; apply IH].
Qed.

Lemma steady_forEach {A B} (body : A -> Gen B) :
  (forall x, steady (body x)) -> forall xs, steady (forEach xs body).
Proof.
  intros Hb. induction xs as [|x xs IH]; simpl.
  - apply steady_ret.
  - apply steady_bind; [apply Hb | intros].
    apply steady_bind; [apply IH | intros; apply steady_ret].
Qed.

Ltac steady_tac :=
  repeat
    (intros;
     lazymatch goal with
     | |- steady (bind _ _) => apply steady_bind
     | |- steady (ret _) => apply steady_ret
     | |- steady (foldGen _ _ _) => apply steady_foldGen
     | |- steady (forEach _ _) => apply steady_forEach
     | |- steady rng => apply steady_rng
     | |- steady random => apply steady_rng
     | |- steady (rngFloor _) => apply steady_rngFloor
     | |- steady (randomInt _ _) => apply steady_randomInt
     | |- steady (pick _) => apply steady_pick
     | |- steady (pickOr _ _) => apply steady_pickOr
     | |- steady (shuffle _) => apply steady_shuffle
     | |- steady (match ?x with _ => _ end) => destruct x
     | |- steady (if ?x then _ else _) => destruct x
     end).

(** Steady code keeps a source within [0, 1) within [0, 1). *)
Lemma steady_runs {A} (m : Gen A) E F :
  steady m -> runs m (fun _ => True) E F.
Proof.
  intros H r Hr. destruct (H r) as (a & r' & -> & Es).
  split; [|exact I]. intros k. rewrite Es. apply Hr.
Qed.

(** A postcondition that holds on every source. *)
Lemma steady_runs_post {A} (m : Gen A) (P : A -> Prop) E F :
  steady m -> (forall r a r', m r = Ok (a, r') -> P a) -> runs m P E F.
Proof.
  intros H HP r Hr. destruct (H r) as (a & r' & Ha & Es). rewrite Ha.
  split; [|eapply HP; exact Ha]. intros k. rewrite Es. apply Hr.
Qed.

(* ================================================================== *)
(** * The generators on a source within [0, 1)                         *)
(* ================================================================== *)

Lemma runs_foldGen {A S0} (I : S0 -> Prop) (body : S0 -> A -> Gen S0) E F :
  forall xs,
  (forall s x, In x xs -> I s -> runs (body s x) I E F) ->
  forall s, I s -> runs (foldGen xs s body) I E F.
Proof.
  induction xs as [|x xs IH]; simpl; intros Hb s Hs.
  - apply runs_ret. exact Hs.
  - eapply runs_bind; [apply Hb; auto|].
    intros s1 Hs1. apply IH; auto.
Qed.

Lemma runs_foldGen_seq {S0} (I : nat -> S0 -> Prop) (body : S0 -> nat -> Gen S0)
      E F :
  forall n a,
  (forall s i, (a <= i < a + n)%nat -> I i s -> runs (body s i) (I (S i)) E F) ->
  forall s, I a s -> runs (foldGen (seq a n) s body) (I (a + n)%nat) E F.
Proof.
  induction n as [|n IH]; simpl; intros a Hb s Hs.
  - apply runs_ret. rewrite Nat.add_0_r. exact Hs.
  - eapply runs_bind; [apply Hb; [lia | exact Hs]|].
    intros s1 Hs1. replace (a + S n)%nat with (S a + n)%nat by lia.
    apply IH; [|exact Hs1]. intros s0 i Hi. apply Hb. lia.
Qed.

Lemma runs_forEach {A B} (P : A -> B -> Prop) (body : A -> Gen B) E F :
  forall xs,
  (forall x, In x xs -> runs (body x) (P x) E F) ->
  runs (forEach xs body) (fun bs => Forall2 P xs bs) E F.
Proof.
  induction xs as [|x xs IH]; simpl; intros Hb.
  - apply runs_ret. constructor.
  - eapply runs_bind; [apply Hb; auto|]. intros b Hbx.
    eapply runs_bind; [apply IH; auto|]. intros bs Hbs.
    apply runs_ret. constructor; assumption.
Qed.

Lemma returns_pickLocation ls :
  ls <> [] -> returns (pickLocation ls) (fun l => In l ls).
Proof.
  intros Hne. unfold pickLocation.
  eapply runs_bind; [apply returns_pick; exact Hne|].
  intros o (l & -> & Hl). apply runs_ret. exact Hl.
Qed.

Lemma returns_generateLocations :
  returns generateLocations
    (fun locs => (6 <= List.length locs <= 8)%nat).
Proof.
  unfold generateLocations.
  eapply runs_bind; [apply returns_shuffle|]. intros sh Hsh.
  eapply runs_bind; [apply returns_randomInt; lia|]. intros count Hc.
  apply runs_ret. cbv beta in *.
  apply Permutation_length in Hsh.
  change (List.length manorLocations) with 19%nat in Hsh.
  rewrite length_map, length_combine, length_seq. unfold slice0.
  rewrite length_firstn. lia.
Qed.

Lemma returns_selectTimeOfDeath :
  returns selectTimeOfDeath
    (fun t => exists hour, (20 <= hour <= 23)%Z /\ t = createTimeSlot hour).
Proof.
  unfold selectTimeOfDeath.
  eapply runs_bind; [apply returns_randomInt; lia|]. intros hour Hh.
  apply runs_ret. exists hour. split; [exact Hh | reflexivity].
Qed.

Lemma returns_selectCrimeScene locations :
  locations <> [] -> returns (selectCrimeScene locations) (fun _ => True).
Proof.
  intros Hne. unfold selectCrimeScene.
  eapply runs_bind.
  - apply returns_pickLocation.
    destruct (Nat.ltb_spec 0 (List.length
      (filter (fun l => negb (isPublic l)) locations))) as [Hlt|Hge].
    + intros E. rewrite E in Hlt. simpl in Hlt. lia.
    + exact Hne.
  - intros scene _. apply runs_ret. exact I.
Qed.

Lemma returns_generateSuspects count :
  returns (generateSuspects count)
    (fun ss => Forall (fun s => (25 <= age s <= 70)%Z) ss).
Proof.
  unfold generateSuspects.
  eapply runs_bind; [apply (steady_runs _ _ _ (steady_shuffle _))|]. intros fn _.
  eapply runs_bind; [apply (steady_runs _ _ _ (steady_shuffle _))|]. intros ln _.
  eapply runs_bind; [apply (steady_runs _ _ _ (steady_shuffle _))|]. intros oc _.
  eapply runs_bind; [apply (steady_runs _ _ _ (steady_shuffle _))|]. intros ds _.
  eapply runs_bind with
    (P := fun st => Forall (fun s => (25 <= age s <= 70)%Z) (snd st)).
  - apply runs_foldGen; [|constructor].
    intros [used ss] i _ Hss. unfold generateSuspect.
    eapply runs_bind.
    { apply (steady_runs _ (fun _ => False) False).
      unfold generatePersonality. steady_tac. }
    intros p _.
    eapply runs_bind; [apply returns_randomInt; lia|]. intros a Ha.
    apply runs_ret. cbn [snd] in *. apply Forall_app. split; [exact Hss|].
    constructor; [exact Ha | constructor].
  - intros st Hst. apply runs_ret. exact Hst.
Qed.

Lemma runs_redrawKiller len victimIndex : forall fuel killerIndex,
  (0 < len)%Z -> (0 <= killerIndex < len)%Z ->
  runs (redrawKiller fuel len victimIndex killerIndex)
    (fun k => (0 <= k < len)%Z) (fun _ => False) True.
Proof.
  induction fuel as [|fuel IH]; intros k Hlen Hk; simpl;
    destruct (k =? victimIndex)%Z.
  - intros r _. exact I.
  - apply runs_ret. exact Hk.
  - eapply runs_bind; [apply returns_runs, returns_randomInt; lia|].
    intros k' Hk'. apply IH; [exact Hlen | cbv beta in Hk'; lia].
  - apply runs_ret. exact Hk.
Qed.

Lemma index_defined {A} (l : list A) i :
  (0 <= i < Z.of_nat (List.length l))%Z -> exists x, index l i = Some x.
Proof.
  intros Hi. unfold index.
  destruct (Z.ltb_spec i 0); [lia|].
  destruct (nth_error l (Z.to_nat i)) as [x|] eqn:E; [eauto|].
  apply nth_error_None in E. lia.
Qed.

Lemma runs_assignVictimAndKiller fuel suspects :
  (3 <= List.length suspects)%nat ->
  runs (assignVictimAndKiller fuel suspects) (fun _ => True)
    (fun _ => False) True.
Proof.
  intros Hlen. unfold assignVictimAndKiller.
  destruct (Nat.ltb_spec (List.length suspects) 3) as [|_]; [lia|].
  eapply runs_bind; [apply returns_runs, returns_randomInt; lia|].
  intros vi Hvi.
  eapply runs_bind; [apply returns_runs, returns_randomInt; lia|].
  intros ki0 Hki0.
  eapply runs_bind; [apply runs_redrawKiller; cbv beta in *; lia|].
  intros ki Hki. cbv beta in *.
  destruct (index_defined suspects vi) as (sv & ->); [lia|].
  destruct (index_defined suspects ki) as (sk & ->); [lia|].
  simpl defined.
  eapply runs_bind; [apply runs_ret; exact I|]. intros sv' _.
  eapply runs_bind; [apply runs_ret; exact I|]. intros sk' _.
  eapply runs_bind; [apply (steady_runs _ _ _ (steady_shuffle _))|].
  intros sh _. apply runs_ret. exact I.
Qed.

Lemma nth_error_defined {A} (l : list A) i :
  (i < List.length l)%nat -> exists x, nth_error l i = Some x.
Proof.
  intros Hi. destruct (nth_error l i) as [x|] eqn:E; [eauto|].
  apply nth_error_None in E. lia.
Qed.

Lemma runs_steady_bind {A B} (m : Gen A) (k : A -> Gen B) P E F :
  steady m -> (forall a, runs (k a) P E F) -> runs (bind m k) P E F.
Proof.
  intros Hm Hk. eapply runs_bind; [apply (steady_runs _ E F Hm)|].
  intros a _. apply Hk.
Qed.

Lemma returns_redHerringRelationship victim shuffledOthers relationships i :
  (i < List.length shuffledOthers)%nat ->
  returns (redHerringRelationship victim shuffledOthers relationships i)
    (fun _ => True).
Proof.
  intros Hi. unfold redHerringRelationship.
  destruct (nth_error_defined shuffledOthers i Hi) as (s & ->).
  apply steady_runs. steady_tac. simpl. steady_tac.
Qed.

Lemma returns_addConnection suspect shuffledCandidates st i :
  (i < List.length shuffledCandidates)%nat ->
  returns (addConnection suspect shuffledCandidates st i) (fun _ => True).
Proof.
  intros Hi. unfold addConnection. destruct st as [rels cc].
  destruct (nth_error_defined shuffledCandidates i Hi) as (s & ->).
  apply steady_runs. simpl. steady_tac.
Qed.

Lemma returns_connectSuspect minConnectionsPerPerson allSuspects st suspect :
  returns (connectSuspect minConnectionsPerPerson allSuspects st suspect)
    (fun _ => True).
Proof.
  unfold connectSuspect. destruct st as [rels cc].
  destruct (getCount cc (suspect_id suspect) <? minConnectionsPerPerson)%Z;
    [|apply runs_ret; exact I].
  eapply runs_bind; [apply (steady_runs _ _ _ (steady_shuffle _))|].
  intros sh _. apply runs_foldGen; [|exact I].
  intros s i Hi _. apply returns_addConnection.
  apply in_seq in Hi. lia.
Qed.

Lemma returns_addSecret allSuspects relationships i :
  (2 <= List.length allSuspects)%nat ->
  returns (addSecret allSuspects relationships i) (fun _ => True).
Proof.
  intros Hlen. unfold addSecret.
  eapply runs_bind; [apply returns_shuffle|]. intros sh Hsh.
  apply Permutation_length in Hsh.
  destruct sh as [|p1 [|p2 sh]]; simpl in Hsh; try lia.
  unfold slice0. simpl firstn. simpl nth_error. simpl defined.
  apply steady_runs. steady_tac. unfold generateSecretReason. steady_tac.
Qed.

Lemma returns_generateRelationshipGraph victim killer others motive m :
  (2 <= List.length others)%nat ->
  returns (generateRelationshipGraph victim killer others motive m)
    (fun _ => True).
Proof.
  intros Hlen. unfold generateRelationshipGraph.
  apply runs_steady_bind.
  { unfold createKillerVictimRelationship, getRelationshipForMotive.
    steady_tac. }
  intros kv.
  eapply runs_bind; [apply returns_randomInt; lia|]. intros c Hc.
  eapply runs_bind; [apply returns_shuffle|]. intros sh Hsh.
  apply Permutation_length in Hsh. cbv beta in Hc.
  eapply runs_bind with (P := fun _ => True).
  { apply runs_foldGen; [|exact I]. intros s i Hi _.
    apply returns_redHerringRelationship. apply in_seq in Hi. lia. }
  intros rels _.
  eapply runs_bind with (P := fun _ => True).
  { apply runs_foldGen; [|exact I]. intros s x _ _.
    apply returns_connectSuspect. }
  intros st _.
  apply runs_steady_bind; [apply steady_randomInt|]. intros sc.
  apply runs_foldGen; [|exact I]. intros s i _ _.
  apply returns_addSecret. simpl. lia.
Qed.

Lemma returns_alibiClue allLocations st innocent :
  allLocations <> [] ->
  returns (alibiClue allLocations st innocent) (fun _ => True).
Proof.
  intros Hne. unfold alibiClue. destruct st as [clues clueIndex].
  eapply runs_bind; [apply returns_pickLocation; exact Hne|]. intros w _.
  eapply runs_bind; [apply returns_pickLocation; exact Hne|]. intros f _.
  apply runs_ret. exact I.
Qed.

Lemma returns_redHerringClue crimeScene shuffledInnocents st i :
  (i < List.length shuffledInnocents)%nat ->
  returns (redHerringClue crimeScene shuffledInnocents st i) (fun _ => True).
Proof.
  intros Hi. unfold redHerringClue. destruct st as [clues clueIndex].
  destruct (nth_error_defined shuffledInnocents i Hi) as (s & ->).
  apply steady_runs. simpl. unfold getRedHerringName. steady_tac.
Qed.

Lemma returns_generateClues killer victim others motive weapon crimeScene
      allLocations relationships config :
  allLocations <> [] ->
  returns (generateClues killer victim others motive weapon crimeScene
             allLocations relationships config) (fun _ => True).
Proof.
  intros Hne. unfold generateClues.
  apply runs_steady_bind;
    [unfold getPhysicalEvidenceName; steady_tac|]. intros name1.
  apply runs_steady_bind;
    [unfold getPhysicalEvidenceDescription; steady_tac|]. intros d1.
  apply runs_steady_bind;
    [unfold getMotiveDocumentName; steady_tac|]. intros name2.
  apply runs_steady_bind;
    [unfold getMotiveDocumentDescription; steady_tac|]. intros d2.
  eapply runs_bind; [apply returns_pickLocation; exact Hne|]. intros f2 _.
  eapply runs_bind; [apply returns_pickLocation; exact Hne|]. intros f4 _.
  eapply runs_bind with (P := fun _ => True).
  { apply runs_foldGen; [|exact I]. intros s x _ _.
    apply returns_alibiClue. exact Hne. }
  intros st _.
  apply runs_steady_bind; [apply steady_shuffle|]. intros sh.
  eapply runs_bind with (P := fun _ => True).
  { apply runs_foldGen; [|exact I]. intros s i Hi _.
    apply returns_redHerringClue. apply in_seq in Hi. lia. }
  intros st2 _.
  eapply runs_bind with (P := fun _ => True).
  { destruct (jsFind (fun r => negb (isPublicKnowledge r)) relationships);
      [|apply runs_ret; exact I].
    eapply runs_bind with (P := fun _ => True).
    - destruct (Nat.ltb_spec 0 (List.length
        (filter (fun l => negb (isPublic l)) allLocations))) as [Hlt|Hge].
      + eapply runs_weaken; [apply returns_pickLocation | auto | auto | auto].
        intros E. rewrite E in Hlt. simpl in Hlt. lia.
      + eapply runs_weaken; [apply returns_pickLocation | auto | auto | auto].
        exact Hne.
    - intros h _. apply runs_ret. exact I. }
  intros st3 _. apply (steady_runs _ _ _ (steady_shuffle _)).
Qed.

Lemma returns_selectWitnesses excludeId allSuspects :
  returns (selectWitnesses excludeId allSuspects)
    (fun ws =>
       (List.length ws <= 2)%nat /\
       ((exists s, In s allSuspects /\ suspect_id s <> excludeId /\
                   isVictim s = false) -> (1 <= List.length ws)%nat)).
Proof.
  unfold selectWitnesses.
  set (candidates := filter _ allSuspects).
  destruct (Nat.eq_dec (List.length candidates) 0) as [E0|Hpos].
  - apply length_zero_iff_nil in E0. rewrite E0. cbn [List.length Z.of_nat].
    apply runs_steady_bind; [apply steady_randomInt|]. intros c.
    eapply runs_bind; [apply returns_shuffle|]. intros sh Hsh.
    apply Permutation_nil in Hsh. subst sh. apply runs_ret.
    unfold slice0. rewrite firstn_nil. split; [simpl; lia|].
    intros (s & Hs & Hne & Hv).
    assert (Hin : In s candidates).
    { apply filter_In. split; [exact Hs|]. rewrite Hv.
      apply String.eqb_neq in Hne. rewrite Hne. reflexivity. }
    rewrite E0 in Hin. destruct Hin.
  - eapply runs_bind; [apply returns_randomInt; lia|]. intros c Hc.
    eapply runs_bind; [apply returns_shuffle|]. intros sh Hsh.
    apply Permutation_length in Hsh. apply runs_ret. cbv beta in Hc.
    unfold slice0. rewrite length_firstn. lia.
Qed.

Lemma returns_innocentAlibi allSuspects publicLocations tod innocent :
  publicLocations <> [] ->
  returns (innocentAlibi allSuspects publicLocations tod innocent)
    (fun a =>
       (List.length (witnesses a) <= 2)%nat /\
       ((exists s, In s allSuspects /\ suspect_id s <> suspect_id innocent /\
                   isVictim s = false) ->
        (1 <= List.length (witnesses a))%nat)).
Proof.
  intros Hne. unfold innocentAlibi.
  eapply runs_bind; [apply returns_pick; exact Hne|].
  intros o (l & -> & Hl).
  eapply runs_bind; [apply returns_selectWitnesses|]. intros ws [Hle Hge].
  apply runs_steady_bind; [apply steady_rng|]. intros u. simpl defined.
  eapply runs_bind; [apply runs_ret; exact I|]. intros l' _.
  destruct (Qltb u double_0_2).
  - apply runs_steady_bind;
      [unfold generateWeakAlibiDescription; steady_tac|]. intros d.
    apply runs_ret. cbn [witnesses createAlibi]. unfold slice0.
    rewrite length_map, length_firstn. split; [lia|].
    intros Hex. specialize (Hge Hex). lia.
  - apply runs_steady_bind;
      [unfold generateAlibiDescription; steady_tac|]. intros d.
    apply runs_ret. cbn [witnesses createAlibi].
    rewrite length_map. split; [lia|exact Hge].
Qed.

Lemma returns_generateKillerAlibi killer others pub priv tod strategy :
  pub <> [] -> others <> [] ->
  returns (generateKillerAlibi killer others pub priv tod strategy)
    (fun a => (List.length (witnesses a) <= 2)%nat).
Proof.
  intros Hpub Hoth. unfold generateKillerAlibi.
  assert (Hpos : (0 <? List.length pub)%nat = true)
    by (apply Nat.ltb_lt; destruct pub; [congruence | simpl; lia]).
  assert (Hsel : (if (0 <? List.length priv)%nat then priv else pub) <> []).
  { destruct (Nat.ltb_spec 0 (List.length priv)) as [Hlt|_]; [|exact Hpub].
    intros E. rewrite E in Hlt. simpl in Hlt. lia. }
  destruct strategy.
  - eapply runs_bind with (P := fun _ => True).
    { destruct (Nat.ltb_spec 0 (List.length priv)) as [Hlt|_].
      - eapply runs_weaken; [apply returns_pickLocation | auto | auto | auto].
        intros E. rewrite E in Hlt. simpl in Hlt. lia.
      - eapply runs_weaken; [apply returns_pickLocation | auto | auto | auto].
        exact Hpub. }
    intros l _.
    apply runs_steady_bind;
      [unfold generateFalseAlibiDescription; steady_tac|]. intros d.
    apply runs_ret. simpl. lia.
  - rewrite Hpos.
    eapply runs_bind; [apply returns_pick; exact Hpub|].
    intros lo (l & -> & _).
    eapply runs_bind; [apply returns_pick; exact Hoth|].
    intros fo (f & -> & _). simpl defined.
    eapply runs_bind; [apply runs_ret; exact I|]. intros l' _.
    eapply runs_bind; [apply runs_ret; exact I|]. intros f' _.
    apply runs_steady_bind;
      [unfold generateUnreliableWitnessAlibi; steady_tac|]. intros d.
    apply runs_ret. simpl. lia.
  - rewrite Hpos.
    eapply runs_bind; [apply returns_pick; exact Hpub|].
    intros lo (l & -> & _).
    eapply runs_bind; [apply returns_selectWitnesses|]. intros ws [Hle _].
    simpl defined.
    eapply runs_bind; [apply runs_ret; exact I|]. intros l' _.
    apply runs_steady_bind;
      [unfold generatePartialAlibiDescription; steady_tac|]. intros d.
    apply runs_ret. cbn [witnesses createAlibi]. rewrite length_map. exact Hle.
  - eapply runs_bind; [apply returns_pickLocation; exact Hsel|]. intros l _.
    apply runs_steady_bind;
      [unfold generateConflictingTimesAlibi; steady_tac|]. intros d.
    apply runs_ret. simpl. lia.
Qed.

Lemma runs_also {A} (m : Gen A) (P Q : A -> Prop) E F :
  runs m P E F -> (forall r a r', m r = Ok (a, r') -> Q a) ->
  runs m (fun a => P a /\ Q a) E F.
Proof.
  intros H HQ r Hr. specialize (H r Hr).
  destruct (m r) as [[a r']| |] eqn:Em; try exact H.
  destruct H as [H1 H2]. split; [exact H1|]. split; [exact H2|].
  eapply HQ. exact Em.
Qed.

Lemma returns_generateAlibis killer victim others locations tod :
  (exists l, In l locations /\ isPublic l = true) -> others <> [] ->
  isVictim killer = false ->
  (forall o, In o others -> suspect_id o <> suspect_id killer) ->
  returns (generateAlibis killer victim others locations tod)
    (fun al =>
       forall a, In a al ->
         (List.length (witnesses a) <= 2)%nat /\
         (alibi_suspectId a <> suspect_id killer ->
          (1 <= List.length (witnesses a))%nat)).
Proof.
  intros (l0 & Hl0 & Hp0) Hoth Hkv Hids. unfold generateAlibis.
  assert (Hpub : filter (fun l => isPublic l) locations <> []).
  { intros E. assert (Hin : In l0 (filter (fun l => isPublic l) locations))
      by (apply filter_In; auto).
    rewrite E in Hin. destruct Hin. }
  apply runs_steady_bind; [apply steady_pickOr|]. intros strategy.
  eapply runs_bind.
  { apply runs_forEach with
      (P := fun o a =>
              ((List.length (witnesses a) <= 2)%nat /\
               ((exists s, In s (killer :: others) /\
                   suspect_id s <> suspect_id o /\ isVictim s = false) ->
                (1 <= List.length (witnesses a))%nat)) /\
              In o others).
    intros o Ho. apply runs_also.
    - apply returns_innocentAlibi. exact Hpub.
    - intros; exact Ho. }
  intros innocents Hinn.
  eapply runs_bind.
  { apply runs_also with (Q := fun a => alibi_suspectId a = suspect_id killer).
    - apply returns_generateKillerAlibi; [exact Hpub | exact Hoth].
    - intros r a r' H. apply generateKillerAlibi_Ok in H. apply H. }
  intros ka [Hka Hkid].
  eapply runs_weaken; [apply returns_shuffle | | auto | auto].
  intros al Hperm a Ha.
  apply (Permutation_in _ (Permutation_sym Hperm)) in Ha.
  apply in_app_iff in Ha. destruct Ha as [Ha|[<-|[]]].
  - destruct (Forall2_In_r _ _ _ _ Hinn Ha) as (o & _ & (Hle & Hge) & Ho).
    split; [exact Hle|]. intros _. apply Hge.
    exists killer. split; [left; reflexivity|]. split; [|exact Hkv].
    intros E. apply (Hids o Ho). congruence.
  - split; [exact Hka|]. intros Hne. contradiction.
Qed.

Lemma bind_OutOfFuel {A B} (m : Gen A) (k : A -> Gen B) r :
  m r = OutOfFuel -> bind m k r = OutOfFuel.
Proof. unfold bind. intros ->. reflexivity. Qed.

Lemma existsb_isPublic locs :
  existsb isPublic locs = false -> forall l, In l locs -> isPublic l = false.
Proof.
  intros H l Hl. destruct (isPublic l) eqn:E; [|reflexivity].
  assert (Ht : existsb isPublic locs = true)
    by (apply existsb_exists; exists l; auto).
  congruence.
Qed.

(** X15. With numbers in [0, 1) and at least four suspects, [generateCase]
    fails in two ways only: the loop of [assignVictimAndKiller] that
    redraws the killer is still running when the fuel is used up, or none
    of the drawn locations is public, and then it throws a [TypeError].
    In every other run it returns a case. *)
Theorem generateCase_outcome seedrandom fuel seed config :
  unit_interval seedrandom -> (4 <= suspectCount config)%nat ->
  exists locs r1 ss r2,
    generateLocations (createRandom seedrandom seed) = Ok (locs, r1) /\
    generateSuspects (suspectCount config) r1 = Ok (ss, r2) /\
    match assignVictimAndKiller fuel ss r2 with
    | OutOfFuel => generateCase seedrandom fuel seed config = OutOfFuel
    | Throw _ => False
    | Ok _ =>
        if existsb isPublic locs
        then exists c, generateCase seedrandom fuel seed config = Ok c
        else generateCase seedrandom fuel seed config = Throw TypeError
    end.
Proof.
  intros Hunit Hcount.
  pose proof (createRandom_unit seedrandom seed Hunit) as Hr0.
  destruct (returns_Ok _ _ _ returns_generateLocations Hr0)
    as (locs & r1 & Hlocs & Hr1 & Hlen).
  destruct (returns_Ok _ _ _ (returns_generateSuspects (suspectCount config))
              Hr1) as (ss & r2 & Hss & Hr2 & _).
  exists locs, r1, ss, r2. split; [exact Hlocs|]. split; [exact Hss|].
  pose proof (generateSuspects_length _ _ _ _ Hss) as Hsslen.
  assert (Honce : generateCaseOnce fuel seed config (createRandom seedrandom seed)
    = bind (assignVictimAndKiller fuel ss)
        (fun a =>
           motive <- selectMotive ;;
           weapon <- selectWeapon ;;
           crimeScene <- selectCrimeScene locs ;;
           timeOfDeath <- selectTimeOfDeath ;;
           relationships <-
             generateRelationshipGraph (asg_victim a) (asg_killer a)
               (asg_others a) motive 2 ;;
           clues <-
             generateClues (asg_killer a) (asg_victim a) (asg_others a) motive
               weapon crimeScene locs relationships
               (mkClueGeneratorConfig
                  (getDifficultyClueCount (difficulty config))
                  (getDifficultyRedHerrings (difficulty config))) ;;
           alibis <-
             generateAlibis (asg_killer a) (asg_victim a) (asg_others a) locs
               timeOfDeath ;;
           ret (createCase seed
                  (asg_victim a :: asg_killer a :: asg_others a)
                  relationships locs clues alibis (suspect_id (asg_victim a))
                  (suspect_id (asg_killer a)) motive weapon
                  (location_id crimeScene) timeOfDeath)) r2).
  { unfold generateCaseOnce.
    rewrite (bind_eq _ _ _ _ _ Hlocs), (bind_eq _ _ _ _ _ Hss). reflexivity. }
  pose proof (runs_assignVictimAndKiller fuel ss ltac:(lia) r2 Hr2) as Hasg.
  destruct (assignVictimAndKiller fuel ss r2) as [[a r3]| |] eqn:Ea.
  - destruct Hasg as [Hr3 _].
    destruct (run_assigned _ _ _ _ _ _ _ Hss Ea)
      as (Hvk & Hoth & Hnd & Holen & Hvv & _ & Hkv & _).
    rewrite (bind_eq _ _ _ _ _ Ea) in Honce.
    destruct (returns_Ok _ _ _
                (steady_runs selectMotive _ _ (steady_pickOr _ _)) Hr3)
      as (mo & r4 & Hmo & Hr4 & _).
    destruct (returns_Ok _ _ _
                (steady_runs selectWeapon _ _ (steady_pickOr _ _)) Hr4)
      as (we & r5 & Hwe & Hr5 & _).
    assert (Hne : locs <> []) by (destruct locs; [simpl in Hlen; lia | congruence]).
    destruct (returns_Ok _ _ _ (returns_selectCrimeScene locs Hne) Hr5)
      as (cs & r6 & Hcs & Hr6 & _).
    destruct (returns_Ok _ _ _ returns_selectTimeOfDeath Hr6)
      as (tod & r7 & Htod & Hr7 & _).
    destruct (returns_Ok _ _ _
                (returns_generateRelationshipGraph (asg_victim a)
                   (asg_killer a) (asg_others a) mo 2 ltac:(lia)) Hr7)
      as (rels & r8 & Hrels & Hr8 & _).
    destruct (returns_Ok _ _ _
                (returns_generateClues (asg_killer a) (asg_victim a)
                   (asg_others a) mo we cs locs rels
                   (mkClueGeneratorConfig
                      (getDifficultyClueCount (difficulty config))
                      (getDifficultyRedHerrings (difficulty config))) Hne) Hr8)
      as (cl & r9 & Hcl & Hr9 & _).
    rewrite (bind_eq _ _ _ _ _ Hmo), (bind_eq _ _ _ _ _ Hwe),
      (bind_eq _ _ _ _ _ Hcs), (bind_eq _ _ _ _ _ Htod),
      (bind_eq _ _ _ _ _ Hrels), (bind_eq _ _ _ _ _ Hcl) in Honce.
    assert (Hothne : asg_others a <> [])
      by (destruct (asg_others a); [simpl in Holen; lia | congruence]).
    destruct (existsb isPublic locs) eqn:Epub.
    + apply existsb_exists in Epub.
      assert (Hids : forall o, In o (asg_others a) ->
                suspect_id o <> suspect_id (asg_killer a))
        by (intros o Ho; apply (Hoth o Ho)).
      destruct (returns_Ok _ _ _
                  (returns_generateAlibis (asg_killer a) (asg_victim a)
                     (asg_others a) locs tod Epub Hothne Hkv Hids) Hr9)
        as (al & r10 & Hal & _ & _).
      rewrite (bind_eq _ _ _ _ _ Hal) in Honce.
      eexists. eapply generateCase_of_first_attempt. exact Honce.
    + pose proof (generateAlibis_throws (asg_killer a)
                    (asg_victim a) (asg_others a) locs tod r9
                    (existsb_isPublic locs Epub) Hothne) as Hal.
      rewrite (bind_Throw _ _ _ _ Hal) in Honce.
      rewrite generateCase_eq, Honce. reflexivity.
  - destruct Hasg.
  - rewrite (bind_OutOfFuel _ _ _ Ea) in Honce.
    rewrite generateCase_eq, Honce. reflexivity.
Qed.

Lemma generateCase_outcome_witness :
  exists locs r1 ss r2,
    generateLocations (createRandom sampleRandom "outcome-test") = Ok (locs, r1) /\
    generateSuspects (suspectCount defaultConfig) r1 = Ok (ss, r2) /\
    match assignVictimAndKiller 5 ss r2 with
    | OutOfFuel =>
        generateCase sampleRandom 5 "outcome-test" defaultConfig = OutOfFuel
    | Throw _ => False
    | Ok _ =>
        if existsb isPublic locs
        then exists c,
               generateCase sampleRandom 5 "outcome-test" defaultConfig = Ok c
        else generateCase sampleRandom 5 "outcome-test" defaultConfig
             = Throw TypeError
    end.
Proof.
  apply (generateCase_outcome sampleRandom 5 "outcome-test" defaultConfig).
  - exact sampleRandom_unit.
  - simpl. lia.
Defined.

(** What the generators draw from a source within [0, 1), along a run of
    [generateCase]. *)
(** The postcondition of a computation at one of its runs. *)
Ltac run_post H r Hr Hrun HH :=
  pose proof (H r Hr) as HH; rewrite Hrun in HH.

Lemma generation_unit seedrandom fuel seed config c :
  unit_interval seedrandom ->
  generation seedrandom fuel seed config c ->
  (6 <= List.length (locations c) <= 8)%nat /\
  (exists h, (20 <= h <= 23)%Z /\ timeOfDeath c = createTimeSlot h) /\
  (forall s, In s (suspects c) -> (25 <= age s <= 70)%Z) /\
  (exists l, In l (locations c) /\ isPublic l = true) /\
  (forall a, In a (alibis c) ->
     (List.length (witnesses a) <= 2)%nat /\
     (alibi_suspectId a <> killer c -> (1 <= List.length (witnesses a))%nat)).
Proof.
  intros Hunit []. subst c. cbn [locations timeOfDeath suspects alibis killer
    createCase].
  pose proof (createRandom_unit seedrandom seed Hunit) as Hr0.
  run_post returns_generateLocations (createRandom seedrandom seed) Hr0
    run_locations HH1.
  destruct HH1 as [Hr1 Hlen].
  run_post (returns_generateSuspects (suspectCount config)) r1 Hr1
    run_suspects HH2.
  destruct HH2 as [Hr2 Hages].
  pose proof (generateSuspects_length _ _ _ _ run_suspects) as Hsslen.
  destruct (run_assigned _ _ _ _ _ _ _ run_suspects run_assign)
    as (Hvk & Hoth & Hnd & Holen & Hvv & _ & Hkv & _).
  assert (H3 : (3 <= List.length ss)%nat).
  { revert run_assign. unfold assignVictimAndKiller.
    destruct (Nat.ltb_spec (List.length ss) 3); [discriminate | auto]. }
  run_post (runs_assignVictimAndKiller fuel ss H3) r2 Hr2 run_assign HH3.
  destruct HH3 as [Hr3 _].
  run_post (steady_runs selectMotive (fun _ => False) False
              (steady_pickOr _ _)) r3 Hr3 run_motive HH4.
  destruct HH4 as [Hr4 _].
  run_post (steady_runs selectWeapon (fun _ => False) False
              (steady_pickOr _ _)) r4 Hr4 run_weapon HH5.
  destruct HH5 as [Hr5 _].
  assert (Hne : locs <> [])
    by (destruct locs; [simpl in Hlen; lia | congruence]).
  run_post (returns_selectCrimeScene locs Hne) r5 Hr5 run_crimeScene HH6.
  destruct HH6 as [Hr6 _].
  run_post returns_selectTimeOfDeath r6 Hr6 run_timeOfDeath HH7.
  destruct HH7 as [Hr7 Htod].
  assert (Holen2 : (2 <= List.length (asg_others a))%nat).
  { destruct (asg_others a) as [|o1 [|o2 os]] eqn:Eo;
      [simpl in Holen | | simpl; lia].
    - lia.
    - exfalso.
      apply generateRelationshipGraph_lone_other in run_relationships.
      exact run_relationships. }
  assert (Hothne : asg_others a <> [])
    by (destruct (asg_others a); [simpl in Holen2; lia | congruence]).
  run_post (returns_generateRelationshipGraph (asg_victim a) (asg_killer a)
              (asg_others a) mo 2 Holen2) r7 Hr7 run_relationships HH8.
  destruct HH8 as [Hr8 _].
  run_post (returns_generateClues (asg_killer a) (asg_victim a)
              (asg_others a) mo we cs locs rels
              (mkClueGeneratorConfig
                 (getDifficultyClueCount (difficulty config))
                 (getDifficultyRedHerrings (difficulty config))) Hne)
    r8 Hr8 run_clues HH9.
  destruct HH9 as [Hr9 _].
  split; [exact Hlen|]. split; [exact Htod|]. split.
  - apply assignVictimAndKiller_split in run_assign.
    destruct run_assign as (_ & sv & sk & Hperm & Hv & Hk).
    rewrite Forall_forall in Hages.
    assert (Hin : forall x, In x (sv :: sk :: asg_others a) ->
              (25 <= age x <= 70)%Z).
    { intros x Hx. apply Hages.
      eapply Permutation_in; [apply Permutation_sym; exact Hperm | exact Hx]. }
    intros s [<-|[<-|Hs]].
    + rewrite Hv. simpl. apply Hin. left. reflexivity.
    + rewrite Hk. simpl. apply Hin. right. left. reflexivity.
    + apply Hin. right. right. exact Hs.
  - destruct (existsb isPublic locs) eqn:Epub.
    + apply existsb_exists in Epub. split; [exact Epub|].
      assert (Hids : forall o, In o (asg_others a) ->
                suspect_id o <> suspect_id (asg_killer a))
        by (intros o Ho; apply (Hoth o Ho)).
      run_post (returns_generateAlibis (asg_killer a) (asg_victim a)
                  (asg_others a) locs tod Epub Hothne Hkv Hids)
        r9 Hr9 run_alibis HH10.
      destruct HH10 as [_ Hal]. exact Hal.
    + rewrite (generateAlibis_throws _ _ _ _ _ _
                 (existsb_isPublic locs Epub) Hothne) in run_alibis.
      discriminate.
Qed.

(** X16. With numbers in [0, 1), a case returned by [generateCase] has six
    to eight locations, at least one of them public; the murder is at 8, 9,
    10 or 11 PM; the suspects are 25 to 70 years old; an alibi names at
    most two witnesses, and at least one unless it is the killer's. *)
Theorem generateCase_ranges seedrandom fuel seed config c :
  unit_interval seedrandom ->
  generateCase seedrandom fuel seed config = Ok c ->
  (6 <= List.length (locations c) <= 8)%nat /\
  (exists l, In l (locations c) /\ isPublic l = true) /\
  (20 <= hour (timeOfDeath c) <= 23)%Z /\
  In (label (timeOfDeath c)) ["8:00 PM"; "9:00 PM"; "10:00 PM"; "11:00 PM"] /\
  (forall s, In s (suspects c) -> (25 <= age s <= 70)%Z) /\
  (forall a, In a (alibis c) ->
     (List.length (witnesses a) <= 2)%nat /\
     (alibi_suspectId a <> killer c -> (1 <= List.length (witnesses a))%nat)).
Proof.
  intros Hunit H. apply generateCase_generation in H.
  destruct (generation_unit _ _ _ _ _ Hunit H)
    as (Hlen & (h & Hh & Htod) & Hages & Hpub & Hal).
  split; [exact Hlen|]. split; [exact Hpub|].
  split; [|split; [|split]].
  - rewrite Htod. simpl. exact Hh.
  - rewrite Htod.
    assert (E : (h = 20 \/ h = 21 \/ h = 22 \/ h = 23)%Z) by lia.
    destruct E as [E|[E|[E|E]]]; subst h; simpl; auto.
  - exact Hages.
  - exact Hal.
Qed.

Lemma generateCase_ranges_witness :
  exists c,
    generateCase sampleRandom 5 "ranges-test" defaultConfig = Ok c /\
    (6 <= List.length (locations c) <= 8)%nat /\
    (20 <= hour (timeOfDeath c) <= 23)%Z.
Proof.
  eassert (H1 : generateCase sampleRandom 5 "ranges-test" defaultConfig = Ok _)
    by (vm_compute; reflexivity).
  eexists. split; [exact H1|].
  destruct (generateCase_ranges _ _ _ _ _ sampleRandom_unit H1)
    as (Ha & _ & Hb & _).
  exact (conj Ha Hb).
Defined.

Lemma redrawKiller_fuel fuel len victimIndex killerIndex r :
  redrawKiller 0 len victimIndex killerIndex r <> OutOfFuel ->
  redrawKiller fuel len victimIndex killerIndex r
  = redrawKiller 0 len victimIndex killerIndex r.
Proof.
  destruct fuel as [|fuel]; [reflexivity|]. simpl.
  destruct (killerIndex =? victimIndex)%Z; [|reflexivity].
  intros H. exfalso. apply H. reflexivity.
Qed.

Lemma bind_congr {A B} (m : Gen A) (k k' : A -> Gen B) r :
  (forall a r1, m r = Ok (a, r1) -> k a r1 = k' a r1) ->
  bind m k r = bind m k' r.
Proof.
  intros H. unfold bind. destruct (m r) as [[a r1]| |]; auto.
Qed.

Lemma bind_congr_l {A B} (m m' : Gen A) (k : A -> Gen B) r :
  m r = m' r -> bind m k r = bind m' k r.
Proof. unfold bind. intros ->. reflexivity. Qed.

Lemma assignVictimAndKiller_fuel fuel suspects r :
  assignVictimAndKiller 0 suspects r <> OutOfFuel ->
  assignVictimAndKiller fuel suspects r = assignVictimAndKiller 0 suspects r.
Proof.
  unfold assignVictimAndKiller.
  destruct (List.length suspects <? 3)%nat; [reflexivity|]. intros H.
  apply bind_congr. intros vi r1 E1. rewrite (bind_eq _ _ _ _ _ E1) in H.
  apply bind_congr. intros ki r2 E2. rewrite (bind_eq _ _ _ _ _ E2) in H.
  apply bind_congr_l. apply redrawKiller_fuel.
  intros E. apply H. apply bind_OutOfFuel. exact E.
Qed.

Lemma generateCaseOnce_fuel fuel seed config r :
  generateCaseOnce 0 seed config r <> OutOfFuel ->
  generateCaseOnce fuel seed config r = generateCaseOnce 0 seed config r.
Proof.
  unfold generateCaseOnce. intros H.
  apply bind_congr. intros locs r1 E1. rewrite (bind_eq _ _ _ _ _ E1) in H.
  apply bind_congr. intros ss r2 E2. rewrite (bind_eq _ _ _ _ _ E2) in H.
  apply bind_congr_l. apply assignVictimAndKiller_fuel.
  intros E. apply H. apply bind_OutOfFuel. exact E.
Qed.

Lemma unshuffledRandom_unit : unit_interval unshuffledRandom.
Proof.
  intros seed k. unfold unshuffledRandom.
  destruct (k =? 18)%nat; [|destruct (k =? 215)%nat];
    unfold Qle, Qlt; simpl; lia.
Qed.

(** X17. [generateCase] can throw: there are numbers within [0, 1) on
    which all the drawn locations are private, and then it throws a
    [TypeError], whatever the seed and the fuel. *)
Theorem generateCase_can_throw :
  exists seedrandom,
    unit_interval seedrandom /\
    forall fuel seed,
      generateCase seedrandom fuel seed defaultConfig = Throw TypeError.
Proof.
  exists unshuffledRandom. split; [exact unshuffledRandom_unit|].
  intros fuel seed.
  assert (E : generateCaseOnce 0 seed defaultConfig
                (createRandom unshuffledRandom seed) = Throw TypeError)
    by (vm_compute; reflexivity).
  rewrite generateCase_eq, generateCaseOnce_fuel; rewrite E;
    [reflexivity | discriminate].
Qed.

(* ================================================================== *)
(** * Testimonies of a generated case                                  *)
(* ================================================================== *)

Lemma generateObservationStatement_spec id suspect c r st r' :
  generateObservationStatement id suspect c r = Ok (st, r') ->
  statement_id st = id /\ statement_suspectId st = suspect_id suspect /\
  contradictedBy st
  = if isKiller suspect
    then map clue_id
           (filter (fun c0 => andb (ClueType_eqb (clue_type c0) Testimonial)
                                   (pointsToSuspect c0 (suspect_id suspect)))
              (clues c))
    else [].
Proof.
  unfold generateObservationStatement. intros H.
  destruct (isKiller suspect); gen_inv H; simpl; auto.
Qed.

Lemma generateSelfStatement_spec id suspect victim c r st r' :
  generateSelfStatement id suspect victim c r = Ok (st, r') ->
  statement_id st = id /\ statement_suspectId st = suspect_id suspect /\
  contradictedBy st
  = if isKiller suspect
    then map clue_id
           (filter (fun c0 =>
                      andb (andb (ClueType_eqb (clue_type c0) Documentary)
                                 (pointsToSuspect c0 (suspect_id suspect)))
                           (ClueSignificance_eqb (significance c0) critical))
              (clues c))
    else [].
Proof.
  unfold generateSelfStatement. intros H.
  destruct (isKiller suspect); gen_inv H; simpl; auto.
Qed.

Lemma generateAlibiStatement_spec id suspect a c :
  statement_id (generateAlibiStatement id suspect a c) = id /\
  statement_suspectId (generateAlibiStatement id suspect a c)
  = suspect_id suspect /\
  contradictedBy (generateAlibiStatement id suspect a c)
  = if isFalse a
    then map clue_id
           (filter (fun clue =>
                      if andb (pointsToSuspect clue (suspect_id suspect))
                              (negb (isRedHerring clue))
                      then orb (ClueType_eqb (clue_type clue) Testimonial)
                               (ClueType_eqb (clue_type clue) Physical)
                      else false)
              (clues c))
    else [].
Proof.
  unfold generateAlibiStatement. destruct (isFalse a); simpl; auto.
Qed.

Lemma generateRelationshipStatement_spec id suspect victim rel c :
  statement_id (generateRelationshipStatement id suspect victim rel c) = id /\
  statement_suspectId (generateRelationshipStatement id suspect victim rel c)
  = suspect_id suspect /\
  contradictedBy (generateRelationshipStatement id suspect victim rel c)
  = if isPublicKnowledge rel then []
    else map clue_id
           (filter (fun c0 =>
                      andb (ClueType_eqb (clue_type c0) Documentary)
                           (includes "relationship"
                              (toLowerCase (clue_description c0))))
              (clues c)).
Proof.
  unfold generateRelationshipStatement.
  destruct (isPublicKnowledge rel); simpl; [|auto].
  destruct (sentiment rel <? -3)%Z; simpl; auto.
Qed.

Lemma hiddenCorrespondence_relationship t :
  includes "relationship"
    (toLowerCase ("Letters revealing a secret " ^^ RelationshipType_value t
                    ^^ " relationship.")) = true.
Proof. destruct t; vm_compute; reflexivity. Qed.

(** The clues every generated case has: the three that expose the killer
    and, for a hidden relationship, the correspondence. *)
Lemma generation_key_clues seedrandom fuel seed config c :
  generation seedrandom fuel seed config c ->
  (exists c1 c2 c3,
     In c1 (clues c) /\ In c2 (clues c) /\ In c3 (clues c) /\
     (clue_type c1 = Physical /\ pointsTo c1 = Some (killer c) /\
      isRedHerring c1 = false) /\
     (clue_type c2 = Documentary /\ pointsTo c2 = Some (killer c) /\
      significance c2 = critical) /\
     (clue_type c3 = Testimonial /\ pointsTo c3 = Some (killer c))) /\
  (forall rel, In rel (relationships c) -> isPublicKnowledge rel = false ->
     exists hc, In hc (clues c) /\ clue_type hc = Documentary /\
       includes "relationship" (toLowerCase (clue_description hc)) = true).
Proof.
  intros []. subst c. cbn [clues killer relationships createCase].
  apply generateClues_spec in run_clues.
  destruct run_clues as (cs0 & n & sh & Hperm & _ & _ & _ & _ & Hkey & Hhid).
  destruct Hkey as (c1 & c2 & c3 & more & -> & H1 & H2 & H3). split.
  - exists c1, c2, c3.
    repeat split; try tauto;
      apply (Permutation_in _ Hperm); simpl; auto.
  - intros rel Hin Hsec. destruct (Hhid rel Hin Hsec) as (hc & secret & Hhc & Ht & Hd).
    exists hc. split; [apply (Permutation_in _ Hperm); exact Hhc|].
    split; [exact Ht|]. rewrite Hd. apply hiddenCorrespondence_relationship.
Qed.

Lemma map_filter_nonempty {A B} (f : A -> B) (p : A -> bool) l x :
  In x l -> p x = true -> map f (filter p l) <> [].
Proof.
  intros Hin Hp E.
  assert (H : In (f x) (map f (filter p l)))
    by (apply in_map, filter_In; auto).
  rewrite E in H. destruct H.
Qed.

Lemma map_filter_incl {A B} (f : A -> B) (p : A -> bool) l y :
  In y (map f (filter p l)) -> In y (map f l).
Proof.
  intros H. apply in_map_iff in H. destruct H as (x & <- & Hx).
  apply filter_In in Hx. apply in_map. tauto.
Qed.

(** The statements of one suspect, with what contradicts each. *)
Lemma generateSuspectStatements_parts suspect victim alibi rels c r sts r' :
  generateSuspectStatements suspect victim alibi rels c r = Ok (sts, r') ->
  exists observation self,
    sts = alibiPart suspect alibi c
          ++ relationshipPart suspect victim alibi rels c
          ++ [observation; self] /\
    (exists id ra rb,
       generateObservationStatement id suspect c ra = Ok (observation, rb)) /\
    (exists id ra rb,
       generateSelfStatement id suspect victim c ra = Ok (self, rb)).
Proof.
  unfold generateSuspectStatements, relationshipPart, alibiPart,
    victimRelationshipOf.
  intros H.
  destruct alibi as [a|];
    destruct (jsFind _ rels) as [rel|];
    gen_step H as obs r1 Hobs; gen_step H as self r2 Hself; gen_ret H;
    exists obs, self;
    (split; [simpl; try rewrite <- app_assoc; reflexivity|]);
    split; eauto.
Qed.

Lemma filter_all_true {A} (p : A -> bool) l :
  (forall x, In x l -> p x = true) -> filter p l = l.
Proof.
  induction l as [|a l IH]; simpl; intros H; [reflexivity|].
  rewrite (H a (or_introl eq_refl)). f_equal. apply IH. auto.
Qed.

(** The statements of a testimony generated over a generated case. *)
Lemma generated_testimony_statements seedrandom fuel seed config c r tm r' sid t :
  generateCase seedrandom fuel seed config = Ok c ->
  generateTestimonies c r = Ok (tm, r') ->
  In (sid, t) tm ->
  (forall st, In st (statements t) ->
     statement_suspectId st = sid /\ statement_ok c st) /\
  getContradictableStatements t = filter isLie (statements t) /\
  (sid = killer c ->
     (3 <= List.length (getContradictableStatements t))%nat /\
     forall st, In st (statements t) -> topic st <> topic_relationships ->
       isLie st = true).
Proof.
  intros Hcase Htm Hin.
  pose proof (generateCase_Ok seedrandom fuel seed config c Hcase) as Hgen.
  pose proof (generated_alibi c Hgen) as Halibi.
  pose proof (generated_has_alibi c Hgen) as Hhas.
  destruct (generation_key_clues _ _ _ _ _
              (generateCase_generation _ _ _ _ _ Hcase))
    as ((c1 & c2 & c3 & Hc1 & Hc2 & Hc3 & (T1 & P1 & R1) & (T2 & P2 & S2)
         & (T3 & P3)) & Hhid).
  destruct (generateTestimonies_Ok c r tm r' Htm sid t Hin)
    as (s & vv & r1 & r2 & Hs & Hliving & Hsid & Hvv & Hsts).
  apply generateSuspectStatements_parts in Hsts.
  destruct Hsts as (obs & self & Hsts & (ido & ra & rb & Hobs)
                    & (ids & ra' & rb' & Hself)).
  pose proof (generateObservationStatement_Ok _ _ _ _ _ _ Hobs) as [To Lo].
  pose proof (generateObservationStatement_spec _ _ _ _ _ _ Hobs)
    as (_ & So & Co).
  pose proof (generateSelfStatement_Ok _ _ _ _ _ _ _ Hself) as [Ts Ls].
  pose proof (generateSelfStatement_spec _ _ _ _ _ _ _ Hself) as (_ & Ss & Cs).
  (* who the killer is *)
  assert (Hk : isKiller s = true <-> sid = killer c).
  { destruct Hgen. rewrite gen_suspects in Hs. rewrite gen_killer_id.
    rewrite Forall_forall in gen_others_flags.
    destruct gen_victim_flags as [Hv1 Hv2]. destruct gen_killer_flags as [Hk1 Hk2].
    destruct Hs as [<-|[<-|Hs]].
    - congruence.
    - subst sid. tauto.
    - destruct (gen_others_flags s Hs) as [_ Hf].
      destruct (gen_others_ids s Hs) as [_ Hne]. subst sid.
      split; [congruence | contradiction]. }
  (* the parts *)
  set (alibi := jsFind (fun a => String.eqb (alibi_suspectId a) (suspect_id s))
                  (alibis c)) in *.
  set (rels := filter (fun r => orb (String.eqb (rel_from r) (suspect_id s))
                                    (String.eqb (rel_to r) (suspect_id s)))
                 (relationships c)) in *.
  assert (HA : forall st, In st (alibiPart s alibi c) ->
            statement_suspectId st = sid /\ statement_ok c st /\
            topic st = topic_alibi /\
            (isLie st = true -> sid = killer c)).
  { intros st Hst. unfold alibiPart in Hst.
    destruct alibi as [a|] eqn:Ea; [|contradiction].
    destruct Hst as [<-|[]].
    unfold alibi, jsFind in Ea. apply find_some in Ea.
    destruct Ea as [Ha Hida]. apply String.eqb_eq in Hida.
    destruct (generateAlibiStatement_facts (nextId s 0) s a c) as [Ht Hl].
    destruct (generateAlibiStatement_spec (nextId s 0) s a c)
      as (_ & Hsu & Hc).
    assert (Hkil : isFalse a = true -> sid = killer c).
    { intros Hf. destruct (Halibi a Ha) as [[E _]|[_ [[E _] _]]]; congruence. }
    split; [congruence|]. split; [|split; [exact Ht | rewrite Hl; exact Hkil]].
    unfold statement_ok. rewrite Hl, Hc.
    destruct (isFalse a) eqn:Hf.
    - split; [|split; [discriminate|]].
      + intros _. apply (map_filter_nonempty _ _ _ c1 Hc1).
        unfold pointsToSuspect. rewrite P1, R1, T1, <- (Hkil eq_refl), Hsid.
        rewrite String.eqb_refl. reflexivity.
      + intros id. apply map_filter_incl.
    - split; [discriminate|]. split; [reflexivity|]. intros id []. }
  assert (HR : forall st, In st (relationshipPart s vv alibi rels c) ->
            statement_suspectId st = sid /\ statement_ok c st /\
            topic st = topic_relationships).
  { intros st Hst. unfold relationshipPart in Hst.
    destruct (victimRelationshipOf vv rels) as [rel|] eqn:Er; [|contradiction].
    destruct Hst as [<-|[]].
    unfold victimRelationshipOf, jsFind in Er. apply find_some in Er.
    destruct Er as [Hrin _]. apply filter_In in Hrin. destruct Hrin as [Hrin _].
    destruct (generateRelationshipStatement_facts
                (nextId s (List.length (alibiPart s alibi c))) s vv rel c)
      as [Ht Hl].
    destruct (generateRelationshipStatement_spec
                (nextId s (List.length (alibiPart s alibi c))) s vv rel c)
      as (_ & Hsu & Hc).
    split; [congruence|]. split; [|exact Ht].
    unfold statement_ok. rewrite Hl, Hc.
    destruct (isPublicKnowledge rel) eqn:Hp; simpl.
    - split; [discriminate|]. split; [reflexivity|]. intros id [].
    - split; [|split; [discriminate|]].
      + intros _. destruct (Hhid rel Hrin Hp) as (hc & Hhc & Hty & Hinc).
        apply (map_filter_nonempty _ _ _ hc Hhc).
        rewrite Hty, Hinc. reflexivity.
      + intros id. apply map_filter_incl. }
  assert (HO : statement_suspectId obs = sid /\ statement_ok c obs).
  { split; [congruence|]. unfold statement_ok. rewrite Lo, Co.
    destruct (isKiller s) eqn:Ek.
    - split; [|split; [discriminate|]].
      + intros _. apply (map_filter_nonempty _ _ _ c3 Hc3).
        unfold pointsToSuspect.
        rewrite T3, P3, <- (proj1 Hk eq_refl), Hsid, String.eqb_refl.
        reflexivity.
      + intros id. apply map_filter_incl.
    - split; [discriminate|]. split; [reflexivity|]. intros id []. }
  assert (HS : statement_suspectId self = sid /\ statement_ok c self).
  { split; [congruence|]. unfold statement_ok. rewrite Ls, Cs.
    destruct (isKiller s) eqn:Ek.
    - split; [|split; [discriminate|]].
      + intros _. apply (map_filter_nonempty _ _ _ c2 Hc2).
        unfold pointsToSuspect.
        rewrite T2, P2, S2, <- (proj1 Hk eq_refl), Hsid, String.eqb_refl.
        reflexivity.
      + intros id. apply map_filter_incl.
    - split; [discriminate|]. split; [reflexivity|]. intros id []. }
  assert (Hall : forall st, In st (statements t) ->
            statement_suspectId st = sid /\ statement_ok c st).
  { intros st Hst. rewrite Hsts in Hst.
    apply in_app_or in Hst. destruct Hst as [Hst|Hst];
      [destruct (HA st Hst) as (? & ? & _); auto|].
    apply in_app_or in Hst. destruct Hst as [Hst|Hst];
      [destruct (HR st Hst) as (? & ? & _); auto|].
    destruct Hst as [<-|[<-|[]]]; assumption. }
  assert (Hcontra : getContradictableStatements t = filter isLie (statements t)).
  { unfold getContradictableStatements. apply filter_ext_in.
    intros st Hst. destruct (Hall st Hst) as (_ & H1 & H2 & _).
    destruct (isLie st); [|reflexivity]. simpl.
    specialize (H1 eq_refl). apply Nat.ltb_lt.
    destruct (contradictedBy st); [congruence | simpl; lia]. }
  split; [exact Hall|]. split; [exact Hcontra|].
  intros Hkil. pose proof (proj2 Hk Hkil) as Ek. rewrite Ek in Lo, Ls.
  assert (Hal : exists a, alibi = Some a /\ isFalse a = true).
  { destruct (Hhas s Hs) as (a0 & Ha0 & Hid0).
    { destruct Hgen. rewrite <- Hsid, Hkil, gen_killer_id, gen_victim_id. auto. }
    destruct alibi as [a|] eqn:Ea.
    - exists a. split; [reflexivity|].
      unfold alibi, jsFind in Ea. apply find_some in Ea.
      destruct Ea as [Ha Hida]. apply String.eqb_eq in Hida.
      destruct (Halibi a Ha) as [[_ [E _]]|[E _]]; [exact E | congruence].
    - unfold alibi, jsFind in Ea. apply (find_none _ _ Ea) in Ha0.
      rewrite Hid0, String.eqb_refl in Ha0. discriminate. }
  destruct Hal as (a & Ea & Hfa).
  destruct (generateAlibiStatement_facts (nextId s 0) s a c) as [Hta Hla].
  rewrite Hfa in Hla. split.
  - rewrite Hcontra, Hsts, Ea. unfold alibiPart.
    rewrite !filter_app, !length_app. simpl filter at 1. rewrite Hla.
    simpl filter at 2. rewrite Lo, Ls. simpl. lia.
  - intros st Hst Htopic. rewrite Hsts, Ea in Hst.
    apply in_app_or in Hst. destruct Hst as [[<-|[]]|Hst]; [exact Hla|].
    apply in_app_or in Hst. destruct Hst as [Hst|Hst].
    + rewrite <- Ea in Hst. destruct (HR st Hst) as (_ & _ & Ht). contradiction.
    + destruct Hst as [<-|[<-|[]]]; assumption.
Qed.

(** X18. Testimonies generated over a case returned by [generateCase]:
    every statement belongs to the suspect it is filed under; a lie is
    contradicted by at least one clue, a true statement by none, and the
    contradicting clues are clues of the case; so the statements that can
    be contradicted are exactly the lies. The killer lies about the alibi,
    the observations and themselves: at least three contradictions. *)
Theorem testimony_contradictions seedrandom fuel seed config c r tm r' sid t :
  generateCase seedrandom fuel seed config = Ok c ->
  generateTestimonies c r = Ok (tm, r') ->
  In (sid, t) tm ->
  (forall st, In st (statements t) ->
     statement_suspectId st = sid /\ statement_ok c st) /\
  getContradictableStatements t = filter isLie (statements t) /\
  (sid = killer c ->
     (3 <= List.length (getContradictableStatements t))%nat /\
     forall st, In st (statements t) -> topic st <> topic_relationships ->
       isLie st = true).
Proof. apply generated_testimony_statements. Qed.


Lemma testimony_contradictions_witness :
  exists c tm r' sid t,
    generateCase sampleRandom 5 "test-seed" defaultConfig = Ok c /\
    generateTestimonies c (createRandom sampleRandom "test-seed") = Ok (tm, r') /\
    In (sid, t) tm /\ sid = killer c /\
    (3 <= List.length (getContradictableStatements t))%nat.
Proof.
  eassert (H1 : generateCase sampleRandom 5 "test-seed" defaultConfig = Ok _)
    by (vm_compute; reflexivity).
  match type of H1 with
  | _ = Ok ?c =>
      eassert (H2 : generateTestimonies c (createRandom sampleRandom "test-seed")
                    = Ok _) by (vm_compute; reflexivity)
  end.
  match type of H2 with
  | generateTestimonies ?c _ = Ok (?tm, ?r') =>
      match tm with
      | (?sid, ?t) :: _ =>
          assert (H3 : In (sid, t) tm) by (left; reflexivity);
          assert (H4 : sid = killer c) by (vm_compute; reflexivity);
          exists c, tm, r', sid, t
      end
  end.
  split; [exact H1|]. split; [exact H2|]. split; [exact H3|]. split; [exact H4|].
  exact (proj1 (proj2 (proj2 (testimony_contradictions _ _ _ _ _ _ _ _ _ _
                                H1 H2 H3)) H4)).
Defined.

(** Identifiers and topics of the statements of one suspect. *)
Lemma generateSuspectStatements_ids suspect victim alibi rels c r sts r' :
  generateSuspectStatements suspect victim alibi rels c r = Ok (sts, r') ->
  map statement_id sts = map (nextId suspect) (seq 0 (List.length sts)) /\
  map topic sts
  = (match alibi with Some _ => [topic_alibi] | None => [] end)
    ++ (match victimRelationshipOf victim rels with
        | Some _ => [topic_relationships]
        | None => []
        end)
    ++ [topic_observations; topic_self].
Proof.
  unfold generateSuspectStatements, victimRelationshipOf.
  intros H.
  destruct alibi as [a|];
    destruct (jsFind _ rels) as [rel|];
    gen_step H as obs r1 Hobs; gen_step H as self r2 Hself; gen_ret H;
    destruct (generateObservationStatement_Ok _ _ _ _ _ _ Hobs) as [To _];
    destruct (generateObservationStatement_spec _ _ _ _ _ _ Hobs) as (Io & _);
    destruct (generateSelfStatement_Ok _ _ _ _ _ _ _ Hself) as [Ts _];
    destruct (generateSelfStatement_spec _ _ _ _ _ _ _ Hself) as (Is & _);
    cbn [map app List.length seq];
    rewrite ?Io, ?Is, ?To, ?Ts;
    repeat match goal with
      | |- context [statement_id (generateAlibiStatement ?i ?s ?a ?c)] =>
          rewrite (proj1 (generateAlibiStatement_spec i s a c))
      | |- context [topic (generateAlibiStatement ?i ?s ?a ?c)] =>
          rewrite (proj1 (generateAlibiStatement_facts i s a c))
      | |- context [statement_id (generateRelationshipStatement ?i ?s ?v ?rl ?c)] =>
          rewrite (proj1 (generateRelationshipStatement_spec i s v rl c))
      | |- context [topic (generateRelationshipStatement ?i ?s ?v ?rl ?c)] =>
          rewrite (proj1 (generateRelationshipStatement_facts i s v rl c))
      end;
    split; reflexivity.
Qed.

Lemma mapSet_fresh {V} (k : string) (v : V) : forall m,
  ~ In k (map fst m) -> mapSet m k v = m ++ [(k, v)].
Proof.
  induction m as [|[k0 v0] m IH]; simpl; intros H; [reflexivity|].
  destruct (String.eqb_spec k0 k) as [E|_]; [exfalso; auto|].
  rewrite IH by tauto. reflexivity.
Qed.

Lemma generateTestimony_keys c : forall xs tm0 r tm r',
  foldGen xs tm0 (generateTestimony c) r = Ok (tm, r') ->
  NoDup (map fst tm0 ++ map suspect_id xs) ->
  map fst tm = map fst tm0 ++ map suspect_id xs.
Proof.
  induction xs as [|x xs IH]; simpl; intros tm0 r tm r' H Hnd.
  - gen_ret H. rewrite app_nil_r. reflexivity.
  - gen_step H as tm1 r1 Hx.
    unfold generateTestimony in Hx.
    gen_step Hx as v ra Hv. gen_step Hx as sts rb Hsts. gen_ret Hx.
    assert (Hfresh : ~ In (suspect_id x) (map fst tm0)).
    { apply NoDup_remove_2 in Hnd. intros Hin. apply Hnd.
      apply in_or_app. left. exact Hin. }
    rewrite (mapSet_fresh _ _ _ Hfresh) in H.
    apply IH in H.
    + rewrite H, map_app, <- app_assoc. reflexivity.
    + rewrite map_app, <- app_assoc. exact Hnd.
Qed.

(** Every entry of the map: whose it is and how its statements are
    numbered. *)
Lemma generateTestimonies_entries c r tm r' :
  generateTestimonies c r = Ok (tm, r') ->
  forall sid t, In (sid, t) tm ->
    testimony_suspectId t = sid /\
    exists suspect victim,
      In suspect (suspects c) /\ sid = suspect_id suspect /\
      map statement_id (statements t)
      = map (nextId suspect) (seq 0 (List.length (statements t))) /\
      map topic (statements t)
      = (match getAlibiForSuspect c sid with
         | Some _ => [topic_alibi] | None => [] end)
        ++ (match victimRelationshipOf victim
                    (getRelationshipsForSuspect c sid) with
            | Some _ => [topic_relationships]
            | None => []
            end)
        ++ [topic_observations; topic_self] /\
      jsFind isVictim (suspects c) = Some victim.
Proof.
  unfold generateTestimonies. intros H.
  eapply (foldGen_inv
            (fun tm => forall sid t, In (sid, t) tm -> _)); [ | | exact H].
  - intros m s ra m' rb Hin Hm Hstep sid t Hsid.
    unfold generateTestimony in Hstep.
    gen_step Hstep as v r1 Hv. gen_step Hstep as sts r2 Hsts. gen_ret Hstep.
    apply defined_Ok in Hv. destruct Hv as [Hv ?]; subst.
    apply mapSet_In in Hsid. destruct Hsid as [Hsid|[-> ->]].
    + apply Hm; exact Hsid.
    + apply filter_In in Hin. destruct Hin as [Hin _].
      split; [reflexivity|]. exists s, v.
      apply generateSuspectStatements_ids in Hsts. destruct Hsts as [Hi Ht].
      cbn [statements]. unfold getAlibiForSuspect, getRelationshipsForSuspect.
      repeat split; auto.
  - intros sid t [].
Qed.

Lemma returns_generateSuspectStatements suspect victim alibi rels c :
  (isKiller suspect = false ->
   exists k, jsFind isKiller (suspects c) = Some k) ->
  returns (generateSuspectStatements suspect victim alibi rels c)
    (fun _ => True).
Proof.
  intros Hk. unfold generateSuspectStatements.
  destruct alibi as [a|]; destruct (jsFind _ rels) as [rel|];
    (eapply runs_bind with (P := fun _ => True);
     [ unfold generateObservationStatement;
       destruct (isKiller suspect);
       [ eapply runs_bind;
         [ apply returns_pick; unfold killerObservations; discriminate |];
         intros o (ch & -> & _); apply runs_ret; exact I
       | destruct (Hk eq_refl) as (k & ->);
         apply steady_runs; simpl; steady_tac ]
     | intros obs _;
       apply steady_runs; unfold generateSelfStatement; steady_tac ]).
Qed.

Lemma returns_generateTestimonies c :
  generated c -> returns (generateTestimonies c) (fun _ => True).
Proof.
  intros Hgen. unfold generateTestimonies.
  apply runs_foldGen; [|exact I].
  intros tm s _ _. unfold generateTestimony.
  destruct Hgen.
  destruct gen_victim_flags as [Hv1 Hv2]. destruct gen_killer_flags as [Hk1 Hk2].
  assert (Ev : jsFind isVictim (suspects c) = Some v)
    by (rewrite gen_suspects; simpl; rewrite Hv1; reflexivity).
  assert (Ek : jsFind isKiller (suspects c) = Some k)
    by (rewrite gen_suspects; simpl; rewrite Hv2, Hk2; reflexivity).
  rewrite Ev. simpl defined.
  eapply runs_bind; [apply runs_ret; exact I|]. intros v' _.
  eapply runs_bind;
    [apply returns_generateSuspectStatements; intros _; eauto|].
  intros sts _. apply runs_ret. exact I.
Qed.

(** X19. On a source within [0, 1), [generateTestimonies] returns for every
    case returned by [generateCase]: one testimony per living suspect, in
    the order of the suspects, filed under the suspect's identifier; its
    statements are numbered [<id>-stmt-0], [<id>-stmt-1], ... and are about
    the alibi, the relationships, the observations and the suspect, in
    this order, when a relationship of the case links the suspect and the
    victim, and about the alibi, the observations and the suspect when
    none does. *)
Theorem generateTestimonies_of_case seedrandom fuel seed config c r :
  generateCase seedrandom fuel seed config = Ok c ->
  unitSource r ->
  exists tm r',
    generateTestimonies c r = Ok (tm, r') /\
    map fst tm = map suspect_id (getSuspects c) /\
    forall sid t, In (sid, t) tm ->
      testimony_suspectId t = sid /\
      map statement_id (statements t)
      = map (fun i => sid ^^ "-stmt-" ^^ string_of_nat i)
          (seq 0 (List.length (statements t))) /\
      ((exists rel, In rel (relationships c) /\ between rel sid (victim c)) /\
       map topic (statements t)
       = [topic_alibi; topic_relationships; topic_observations; topic_self] \/
       (forall rel, In rel (relationships c) ->
          ~ between rel sid (victim c)) /\
       map topic (statements t)
       = [topic_alibi; topic_observations; topic_self]).
Proof.
  intros Hcase Hr.
  pose proof (generateCase_Ok seedrandom fuel seed config c Hcase) as Hgen.
  destruct (returns_Ok _ _ _ (returns_generateTestimonies c Hgen) Hr)
    as (tm & r' & Htm & _ & _).
  exists tm, r'. split; [exact Htm|]. split.
  - revert Htm. unfold generateTestimonies, getSuspects. intros Htm.
    apply generateTestimony_keys in Htm; [exact Htm|]. simpl.
    apply NoDup_filter_map.
    apply generateCase_generation in Hcase.
    apply (generation_suspects _ _ _ _ _ Hcase).
  - intros sid t Hin.
    destruct (generateTestimonies_entries c r tm r' Htm sid t Hin)
      as (Hown & s & v & Hs & Hsid & Hids & Htopics & Hv).
    split; [exact Hown|]. split.
    + rewrite Hids. apply map_ext. intros i. unfold nextId. rewrite Hsid.
      reflexivity.
    + assert (Hliving : sid <> victim c).
      { destruct (generated_testimony c r tm r' sid t Hgen Htm Hin)
          as (s0 & v0 & a0 & rels0 & o0 & sf0 & _ & _ & _ & Hnv & _).
        exact Hnv. }
      assert (Hvid : suspect_id v = victim c).
      { destruct Hgen. rewrite gen_suspects in Hv. simpl in Hv.
        destruct gen_victim_flags as [Hvf _]. rewrite Hvf in Hv.
        inversion Hv; subst. symmetry. exact gen_victim_id. }
      destruct (generated_has_alibi c Hgen s Hs) as (a & Ha & Hida);
        [congruence|].
      rewrite Htopics. unfold getAlibiForSuspect.
      destruct (jsFind (fun a0 => String.eqb (alibi_suspectId a0) sid)
                  (alibis c)) as [a'|] eqn:Ea.
      * unfold getRelationshipsForSuspect.
        destruct (victimRelationshipOf v
                    (filter (fun r0 => orb (String.eqb (rel_from r0) sid)
                                           (String.eqb (rel_to r0) sid))
                       (relationships c))) as [rel|] eqn:Er.
        -- left. split; [|reflexivity]. exists rel. rewrite <- Hvid.
           apply (victimRelationshipOf_Some v sid (relationships c) rel);
             [rewrite Hvid; exact Hliving | exact Er].
        -- right. split; [|reflexivity]. intros rel Hrel. rewrite <- Hvid.
           apply (victimRelationshipOf_None v sid (relationships c) rel Er Hrel).
      * unfold jsFind in Ea. apply (find_none _ _ Ea) in Ha.
        rewrite Hida, Hsid, String.eqb_refl in Ha. discriminate.
Qed.

Lemma generateTestimonies_of_case_witness :
  exists c tm r',
    generateCase sampleRandom 5 "test-seed" defaultConfig = Ok c /\
    generateTestimonies c (createRandom sampleRandom "test-seed") = Ok (tm, r') /\
    map fst tm = map suspect_id (getSuspects c).
Proof.
  eassert (H1 : generateCase sampleRandom 5 "test-seed" defaultConfig = Ok _)
    by (vm_compute; reflexivity).
  destruct (generateTestimonies_of_case _ _ _ _ _
              (createRandom sampleRandom "test-seed") H1
              (createRandom_unit sampleRandom "test-seed" sampleRandom_unit))
    as (tm & r' & H2 & H3 & _).
  eexists. exists tm, r'. split; [exact H1|]. split; [exact H2 | exact H3].
Defined.

(* ================================================================== *)
(** * The reducer over sequences of actions                            *)
(* ================================================================== *)

Lemma dispatchAll_inv (P : GameState -> Prop) (Q : GameAction -> Prop) :
  (forall s a, P s -> Q a -> P (gameReducer s a)) ->
  forall actions s, P s -> Forall Q actions -> P (dispatchAll s actions).
Proof.
  intros Hstep. unfold dispatchAll.
  induction actions as [|a actions IH]; simpl; intros s Hs Hq; [exact Hs|].
  inversion Hq; subst. apply IH; [apply Hstep|]; assumption.
Qed.

Lemma dispatchAll_always (P : GameState -> Prop) :
  (forall s a, P s -> P (gameReducer s a)) ->
  forall actions s, P s -> P (dispatchAll s actions).
Proof.
  intros Hstep actions s Hs.
  apply (dispatchAll_inv P (fun _ => True)); [auto | exact Hs|].
  apply Forall_forall. auto.
Qed.

(** X20. Whatever actions are dispatched from the initial state of a case:
    the case and the limit of five mistakes stay as they are, the number of
    mistakes and the index of the current statement are never negative, and
    when the game is over ([isGameOver]) there is a result. A result names
    the killer of the case and says [won] exactly when the accused is the
    killer. *)
Theorem gameReducer_invariants (c : Case) (actions : list GameAction) :
  let s := dispatchAll (createInitialGameState c) actions in
  generatedCase s = c /\ maxMistakes s = 5%Z /\ (0 <= mistakeCount s)%Z /\
  (forall i, interrogation s = Some i -> (0 <= currentStatementIndex i)%Z) /\
  (isGameOver s = true -> result s <> None) /\
  (forall res, result s = Some res ->
     correctKiller res = killer c /\
     totalClues res = List.length (clues c) /\
     (won res = true <-> playerAccused res = killer c)).
Proof.
  cbv zeta.
  apply (dispatchAll_always
    (fun s =>
       generatedCase s = c /\ maxMistakes s = 5%Z /\ (0 <= mistakeCount s)%Z /\
       (forall i, interrogation s = Some i -> (0 <= currentStatementIndex i)%Z) /\
       (isGameOver s = true -> result s <> None) /\
       (forall res, result s = Some res ->
          correctKiller res = killer c /\
          totalClues res = List.length (clues c) /\
          (won res = true <-> playerAccused res = killer c)))).
  - intros s a (Hc & Hm & Hk & Hi & Hp & Hr).
    destruct a; simpl;
      try (destruct (interrogation s) as [i|] eqn:Ei; simpl);
      try (destruct (checkContradiction statement clueId); simpl);
      try (destruct (accusation_ s) as [acc|] eqn:Ea; simpl);
      (split; [exact Hc|]); (split; [exact Hm|]); (split; [lia|]);
      (split;
       [ first
           [ exact Hi
           | intros i0 E; inversion E; subst; simpl;
             try specialize (Hi _ eq_refl); lia
           | intros i0 E; apply (Hi i0); congruence
           | intros i0 E; discriminate E ]
       |]);
      (split;
       [ first [ exact Hp | discriminate | intros _; discriminate ]
       |]);
      first
        [ exact Hr
        | intros res E; injection E as E; rewrite <- E; simpl; rewrite Hc;
          split; [reflexivity|]; split; [reflexivity|];
          apply String.eqb_eq ].
  - simpl. split; [reflexivity|]. split; [reflexivity|]. split; [lia|].
    split; [discriminate|]. split; discriminate.
Qed.

Lemma dispatchAll_app s xs ys :
  dispatchAll s (xs ++ ys) = dispatchAll (dispatchAll s xs) ys.
Proof. unfold dispatchAll. apply fold_left_app. Qed.

(** X21. The reducer never ends the game on mistakes: during an
    interrogation, [n] presentations of evidence that does not contradict
    the statement give [n] mistakes, beyond [maxMistakes] too, and the
    game is over after them only if it was before. *)
Theorem mistakes_not_limited (s : GameState) (clueId : ClueId)
    (statement : Statement) (n : nat) :
  interrogation s <> None ->
  checkContradiction statement clueId = false ->
  let s' := dispatchAll s (repeat (PRESENT_EVIDENCE clueId statement) n) in
  mistakeCount s' = (mistakeCount s + Z.of_nat n)%Z /\
  isGameOver s' = isGameOver s /\ result s' = result s /\
  maxMistakes s' = maxMistakes s /\
  playerKnowledge s' = playerKnowledge s.
Proof.
  intros Hi Hc. cbv zeta. revert s Hi.
  induction n as [|n IH]; intros s Hi.
  - simpl. repeat split; lia.
  - cbn [repeat]. unfold dispatchAll in *. cbn [fold_left].
    assert (Hstep : gameReducer s (PRESENT_EVIDENCE clueId statement)
      = mkGameState (phase s) (generatedCase s) (playerKnowledge s)
          (currentLocation s) (interrogation s) (accusation_ s) (result s)
          (mistakeCount s + 1) (maxMistakes s) (searchTokens s)).
    { simpl. destruct (interrogation s); [|congruence]. rewrite Hc.
      reflexivity. }
    rewrite Hstep.
    destruct (IH (mkGameState (phase s) (generatedCase s) (playerKnowledge s)
          (currentLocation s) (interrogation s) (accusation_ s) (result s)
          (mistakeCount s + 1) (maxMistakes s) (searchTokens s)) Hi)
      as (H1 & H2 & H3 & H4 & H5).
    rewrite H1, H2, H3, H4, H5. simpl. repeat split; lia.
Qed.

Lemma mistakes_not_limited_witness :
  mistakeCount
    (dispatchAll sampleInterrogation
       (repeat (PRESENT_EVIDENCE "clue-0" sampleStatement) 6)) = 6%Z /\
  maxMistakes
    (dispatchAll sampleInterrogation
       (repeat (PRESENT_EVIDENCE "clue-0" sampleStatement) 6)) = 5%Z.
Proof.
  destruct (mistakes_not_limited sampleInterrogation "clue-0" sampleStatement 6)
    as (H1 & _ & _ & H4 & _).
  - discriminate.
  - reflexivity.
  - rewrite H1, H4. split; reflexivity.
Defined.

(** X22. Search tokens are never negative when no negative amount is
    added: spending at zero leaves zero. *)
Theorem searchTokens_nonnegative (s : GameState) (actions : list GameAction) :
  (0 <= searchTokens s)%Z ->
  Forall addsTokens actions ->
  (0 <= searchTokens (dispatchAll s actions))%Z.
Proof.
  intros H0 H.
  apply (dispatchAll_inv (fun s0 => (0 <= searchTokens s0)%Z) addsTokens);
    [ | exact H0 | exact H].
  intros s0 a Hs Ha.
  destruct a; simpl in *;
    try (destruct (interrogation s0); simpl);
    try (destruct (checkContradiction statement clueId); simpl);
    try (destruct (accusation_ s0); simpl); lia.
Qed.

Lemma searchTokens_nonnegative_witness :
  (0 <= searchTokens
          (dispatchAll sampleInterrogation
             [SPEND_SEARCH_TOKEN; SPEND_SEARCH_TOKEN; SPEND_SEARCH_TOKEN;
              SPEND_SEARCH_TOKEN; ADD_SEARCH_TOKENS 2]))%Z.
Proof.
  apply searchTokens_nonnegative.
  - simpl. lia.
  - repeat constructor. simpl. lia.
Defined.

Lemma setAdd_NoDup s x : NoDup s -> NoDup (setAdd s x).
Proof.
  intros H. unfold setAdd, setHas.
  destruct (existsb (String.eqb x) s) eqn:E; [exact H|].
  apply NoDup_app; [exact H | repeat constructor; intros [] |].
  intros y Hy [Exy|[]]. subst y.
  assert (Ht : existsb (String.eqb x) s = true).
  { apply existsb_exists. exists x. split; [exact Hy | apply String.eqb_refl]. }
  congruence.
Qed.

Lemma setAdd_In s x y : In y (setAdd s x) -> In y s \/ y = x.
Proof.
  unfold setAdd. destruct (setHas s x); [auto|].
  intros H. apply in_app_or in H. destruct H as [H|[<-|[]]]; auto.
Qed.

Lemma count_fold (p : Statement -> bool) : forall l n,
  fold_left (fun count statement => if p statement then S count else count)
    l n
  = (n + List.length (filter p l))%nat.
Proof.
  induction l as [|x l IH]; simpl; intros n; [lia|].
  rewrite IH. destruct (p x); simpl; lia.
Qed.

Lemma countTotalContradictions_eq tm :
  countTotalContradictions tm
  = List.length
      (flat_map (fun kv => getContradictableStatements (snd kv)) tm).
Proof.
  unfold countTotalContradictions.
  assert (H : forall l n,
    fold_left
      (fun count (kv : string * Testimony) =>
         fold_left
           (fun count statement =>
              if andb (isLie statement)
                      (0 <? List.length (contradictedBy statement))%nat
              then S count else count)
           (statements (snd kv)) count) l n
    = (n + List.length
             (flat_map (fun kv => getContradictableStatements (snd kv)) l))%nat).
  { induction l as [|kv l IH]; simpl; intros n; [lia|].
    rewrite IH, count_fold, length_app. unfold getContradictableStatements.
    lia. }
  rewrite H. reflexivity.
Qed.

(** X23. In a game over a case returned by [generateCase], where evidence
    is presented against statements of the testimonies generated for the
    case, the contradictions found never exceed the contradictions counted
    in the testimonies: the result of the game does not show more found
    than there are. *)
Theorem contradictions_found_le_total seedrandom fuel seed config c r tm r'
    (actions : list GameAction) :
  generateCase seedrandom fuel seed config = Ok c ->
  generateTestimonies c r = Ok (tm, r') ->
  Forall (presentsFrom tm) actions ->
  (List.length
     (revealedContradictions
        (playerKnowledge (dispatchAll (createInitialGameState c) actions)))
   <= countTotalContradictions tm)%nat /\
  (forall res,
     accusation_ (dispatchAll (createInitialGameState c) actions) <> None ->
     result (gameReducer (dispatchAll (createInitialGameState c) actions)
               (CONFIRM_ACCUSATION tm)) = Some res ->
     (contradictionsFound res <= totalContradictions res)%nat).
Proof.
  intros Hcase Htm Hacts.
  set (all := flat_map (fun kv => getContradictableStatements (snd kv)) tm).
  assert (Hinv :
    NoDup (revealedContradictions
             (playerKnowledge (dispatchAll (createInitialGameState c) actions)))
    /\ incl (revealedContradictions
               (playerKnowledge (dispatchAll (createInitialGameState c) actions)))
            (map statement_id all)).
  { apply (dispatchAll_inv
      (fun s => NoDup (revealedContradictions (playerKnowledge s)) /\
                incl (revealedContradictions (playerKnowledge s))
                     (map statement_id all))
      (presentsFrom tm)); [ | | exact Hacts].
    - intros s a [Hnd Hincl] Ha.
      destruct a; simpl in *;
        try (destruct (interrogation s); simpl);
        try (split; assumption);
        try (destruct (accusation_ s); simpl; split; assumption).
      destruct (checkContradiction statement clueId) eqn:Ec; simpl;
        [|split; assumption].
      split; [apply setAdd_NoDup; exact Hnd|].
      intros y Hy. apply setAdd_In in Hy. destruct Hy as [Hy| ->];
        [apply Hincl; exact Hy|].
      destruct Ha as (sid & t & Hin & Hst).
      destruct (generated_testimony_statements _ _ _ _ _ _ _ _ _ _
                  Hcase Htm Hin) as (Hall & Hcontra & _).
      apply in_map. unfold all. apply in_flat_map.
      exists (sid, t). split; [exact Hin|]. cbn [snd]. rewrite Hcontra.
      apply filter_In. split; [exact Hst|].
      destruct (Hall statement Hst) as (_ & _ & Htrue & _).
      destruct (isLie statement); [reflexivity|].
      specialize (Htrue eq_refl).
      unfold checkContradiction in Ec. rewrite Htrue in Ec. discriminate.
    - simpl. split; [constructor | intros y []]. }
  destruct Hinv as [Hnd Hincl].
  assert (Hle : (List.length
     (revealedContradictions
        (playerKnowledge (dispatchAll (createInitialGameState c) actions)))
     <= countTotalContradictions tm)%nat).
  { rewrite countTotalContradictions_eq. fold all.
    rewrite <- (length_map statement_id all).
    apply NoDup_incl_length; assumption. }
  split; [exact Hle|].
  intros res Hacc Hres. simpl in Hres.
  destruct (accusation_ (dispatchAll (createInitialGameState c) actions));
    [|congruence].
  simpl in Hres. injection Hres as <-. simpl. exact Hle.
Qed.

Lemma contradictions_found_le_total_witness :
  exists c tm r' actions,
    generateCase sampleRandom 5 "test-seed" defaultConfig = Ok c /\
    generateTestimonies c (createRandom sampleRandom "test-seed") = Ok (tm, r') /\
    Forall (presentsFrom tm) actions /\
    (List.length
       (revealedContradictions
          (playerKnowledge (dispatchAll (createInitialGameState c) actions)))
     <= countTotalContradictions tm)%nat.
Proof.
  eassert (H1 : generateCase sampleRandom 5 "test-seed" defaultConfig = Ok _)
    by (vm_compute; reflexivity).
  match type of H1 with
  | _ = Ok ?c =>
      eassert (H2 : generateTestimonies c (createRandom sampleRandom "test-seed")
                    = Ok _) by (vm_compute; reflexivity)
  end.
  match type of H2 with
  | generateTestimonies ?c _ = Ok (?tm, ?r') =>
      match tm with
      | (?sid, ?t) :: _ =>
          match eval hnf in (statements t) with
          | ?st :: _ =>
              assert (H3 : Forall (presentsFrom tm)
                             [START_GAME; START_INTERROGATION sid;
                              PRESENT_EVIDENCE "clue-0" st;
                              PRESENT_EVIDENCE "clue-1" st]);
              [ repeat constructor;
                exists sid, t; (split; left; reflexivity)
              | exists c, tm, r',
                  [START_GAME; START_INTERROGATION sid;
                   PRESENT_EVIDENCE "clue-0" st;
                   PRESENT_EVIDENCE "clue-1" st] ]
          end
      end
  end.
  split; [exact H1|]. split; [exact H2|]. split; [exact H3|].
  exact (proj1 (contradictions_found_le_total _ _ _ _ _ _ _ _ _ H1 H2 H3)).
Defined.

Lemma gameReducer_discoveredClues s a :
  discoveredClues (playerKnowledge (gameReducer s a))
  = fold_left setAdd
      (match a with DISCOVER_CLUE clueId => [clueId] | _ => [] end)
      (discoveredClues (playerKnowledge s)).
Proof.
  destruct a; simpl; try reflexivity;
    try (destruct (interrogation s); reflexivity);
    try (destruct (accusation_ s); reflexivity).
  destruct (interrogation s); [|reflexivity].
  destruct (checkContradiction statement clueId); reflexivity.
Qed.

Lemma dispatchAll_discoveredClues : forall actions s,
  discoveredClues (playerKnowledge (dispatchAll s actions))
  = fold_left setAdd (discoveries actions) (discoveredClues (playerKnowledge s)).
Proof.
  induction actions as [|a actions IH]; intros s; [reflexivity|].
  change (dispatchAll s (a :: actions))
    with (dispatchAll (gameReducer s a) actions).
  rewrite IH, gameReducer_discoveredClues.
  change (discoveries (a :: actions))
    with ((match a with DISCOVER_CLUE clueId => [clueId] | _ => [] end)
          ++ discoveries actions).
  rewrite fold_left_app. reflexivity.
Qed.

Lemma setHas_In s x : setHas s x = true <-> In x s.
Proof.
  unfold setHas. rewrite existsb_exists. split.
  - intros (y & Hy & E). apply String.eqb_eq in E. subst. exact Hy.
  - intros H. exists x. split; [exact H | apply String.eqb_refl].
Qed.

Lemma fold_setAdd : forall ids s,
  NoDup s ->
  NoDup (fold_left setAdd ids s) /\
  forall x, In x (fold_left setAdd ids s) <-> In x s \/ In x ids.
Proof.
  induction ids as [|i ids IH]; intros s Hs; simpl.
  - split; [exact Hs | intros x; tauto].
  - destruct (IH (setAdd s i) (setAdd_NoDup s i Hs)) as [Hnd Hin].
    split; [exact Hnd|]. intros x. rewrite Hin.
    unfold setAdd. destruct (setHas s i) eqn:E.
    + apply setHas_In in E. split; [tauto|].
      intros [H|[<-|H]]; auto.
    + rewrite in_app_iff. simpl. tauto.
Qed.

(** X24. The clues the player holds are exactly the clues named by the
    [DISCOVER_CLUE] actions dispatched so far, each once: a clue stays
    discovered, discovering it again changes nothing, and
    [canMakeAccusation] holds exactly when three different clues have been
    discovered. *)
Theorem discovered_clues (c : Case) (actions : list GameAction) :
  let s := dispatchAll (createInitialGameState c) actions in
  NoDup (getDiscoveredClues s) /\
  (forall clueId,
     hasDiscoveredClue s clueId = true <-> In clueId (discoveries actions)) /\
  List.length (getDiscoveredClues s)
  = List.length (nodup string_dec (discoveries actions)) /\
  (canMakeAccusation s = true <->
   (3 <= List.length (nodup string_dec (discoveries actions)))%nat).
Proof.
  cbv zeta. unfold getDiscoveredClues, hasDiscoveredClue, canMakeAccusation.
  rewrite dispatchAll_discoveredClues. cbn [createInitialGameState
    playerKnowledge createInitialPlayerKnowledge discoveredClues].
  destruct (fold_setAdd (discoveries actions) [] (NoDup_nil _)) as [Hnd Hin].
  assert (Hlen : List.length (fold_left setAdd (discoveries actions) [])
                 = List.length (nodup string_dec (discoveries actions))).
  { apply Permutation_length. apply NoDup_Permutation;
      [exact Hnd | apply NoDup_nodup|].
    intros x. rewrite Hin, nodup_In. simpl. tauto. }
  split; [exact Hnd|]. split; [|split; [exact Hlen|]].
  - intros id. rewrite setHas_In, Hin. simpl. tauto.
  - rewrite <- Hlen. apply Nat.leb_le.
Qed.

(* ================================================================== *)
(** * The panel puzzle: matches and moves                             *)
(* ================================================================== *)

Module PanelPuzzleMoves.
Import PanelPuzzle PanelPuzzleSpec PanelPuzzleFacts.

(* ================================================================== *)
(** * What [findMatches] finds                                         *)
(* ================================================================== *)

Lemma PanelType_eqb_eq a b : PanelType_eqb a b = true <-> a = b.
Proof. destruct a, b; simpl; split; intros H; congruence. Qed.

Lemma three_nil : ~ three [].
Proof. intros (i & t & H & _). destruct i; discriminate. Qed.

Lemma three_cons x l :
  three (x :: l) <->
  (exists t, x = Some t /\ nth_error l 0 = Some (Some t) /\
             nth_error l 1 = Some (Some t)) \/ three l.
Proof.
  split.
  - intros (i & t & H0 & H1 & H2). destruct i as [|i].
    + left. exists t. simpl in *. split; [congruence|]. auto.
    + right. exists i, t. simpl in *. auto.
  - intros [(t & -> & H1 & H2)|(i & t & H0 & H1 & H2)].
    + exists 0%nat, t. simpl. auto.
    + exists (S i), t. simpl. auto.
Qed.

(** A run of [n] panels of type [t] followed by [l]. *)
Lemma three_run_nil t n : three (repeat (Some t) n) <-> (3 <= n)%nat.
Proof.
  induction n as [|n IH]; simpl.
  - split; [intros H; destruct (three_nil H) | lia].
  - rewrite three_cons, IH. split.
    + intros [(t' & _ & H1 & H2)|H]; [|lia].
      destruct n as [|[|n]]; simpl in *; try discriminate. lia.
    + intros H. destruct n as [|[|n]]; try lia.
      left. exists t. simpl. auto.
Qed.

Lemma three_run_break t n x l :
  x <> Some t ->
  (three (repeat (Some t) n ++ x :: l) <-> (3 <= n)%nat \/ three (x :: l)).
Proof.
  intros Hx. induction n as [|n IH]; simpl.
  - split; [auto | intros [H|H]; [lia | exact H]].
  - rewrite three_cons, IH. split.
    + intros [(t' & E & H1 & H2)|[H|H]]; [|left; lia|auto].
      injection E as <-.
      destruct n as [|[|n]]; simpl in *; try congruence. left. lia.
    + intros [H|H]; [|auto].
      destruct n as [|[|n]]; try lia.
      left. exists t. simpl. auto.
Qed.

Lemma repeat_snoc {A} (a : A) n l : repeat a n ++ a :: l = repeat a (S n) ++ l.
Proof.
  induction n as [|n IH]; simpl; [reflexivity|]. rewrite IH. reflexivity.
Qed.


Lemma app_not_nil {A} (l : list A) (x : A) : l ++ [x] <> [].
Proof. destruct l; discriminate. Qed.

Lemma closed_run (sequence : list SeqItem) (found : list (list SeqItem)) :
  (if (3 <=? List.length sequence)%nat then found ++ [sequence] else found)
    <> [] <->
  found <> [] \/ (3 <= List.length sequence)%nat.
Proof.
  destruct (Nat.leb_spec 3 (List.length sequence)).
  - split; [auto | intros _; apply app_not_nil].
  - split; [auto | intros [H'|H']; [exact H' | lia]].
Qed.

Lemma scan_spec : forall cells sequence found t,
  (forall i, In i sequence -> item_type i = t) ->
  (let '(s', f') := fold_left scanStep cells (sequence, found) in
   (if (3 <=? List.length s')%nat then f' ++ [s'] else f') <> []) <->
  found <> [] \/
  three (repeat (Some t) (List.length sequence) ++ lineTypes cells).
Proof.
  induction cells as [|[[r c] panel] cells IH]; intros sequence found t Ht.
  - cbn [fold_left lineTypes map]. rewrite app_nil_r, closed_run, three_run_nil.
    reflexivity.
  - cbn [fold_left lineTypes map snd]. fold (lineTypes cells).
    unfold scanStep at 2. destruct panel as [p|]; cbn [option_map].
    + destruct sequence as [|first rest].
      * rewrite (IH _ _ (panel_type p)).
        2:{ intros i [<-|[]]. reflexivity. }
        reflexivity.
      * destruct (PanelType_eqb (panel_type p) (item_type first)) eqn:E.
        -- apply PanelType_eqb_eq in E.
           assert (Ef : item_type first = t) by (apply Ht; left; reflexivity).
           rewrite (IH _ _ t).
           2:{ intros i Hi. apply in_app_or in Hi.
               destruct Hi as [Hi|[<-|[]]]; [auto | simpl; congruence]. }
           rewrite length_app, Nat.add_1_r, <- repeat_snoc.
           rewrite E, Ef. reflexivity.
        -- assert (Ef : item_type first = t) by (apply Ht; left; reflexivity).
           assert (Hne : Some (panel_type p) <> Some t).
           { intros H. injection H as H.
             assert (PanelType_eqb (panel_type p) (item_type first) = true)
               by (apply PanelType_eqb_eq; congruence).
             congruence. }
           rewrite (IH _ _ (panel_type p)).
           2:{ intros i [<-|[]]. reflexivity. }
           rewrite closed_run, (three_run_break t _ _ _ Hne).
           cbn [List.length repeat app]. tauto.
    + rewrite (IH _ _ t) by (intros i []).
      rewrite closed_run.
      rewrite (three_run_break t _ None) by discriminate.
      rewrite (three_cons None). cbn [List.length repeat app].
      split; [tauto|].
      intros [H|[H|[(t0 & E & _)|H]]]; auto. discriminate.
Qed.

Lemma scanLine_spec cells :
  scanLine cells <> [] <-> three (lineTypes cells).
Proof.
  unfold scanLine.
  pose proof (scan_spec cells [] [] magnifier) as H.
  destruct (fold_left scanStep cells ([], [])) as [s' f'].
  rewrite H by (intros i []).
  simpl. split; [intros [H'|H']; [congruence | exact H'] | auto].
Qed.

Lemma three_map_seq (f : nat -> option PanelType) n :
  three (map f (seq 0 n)) <->
  exists i t, (i + 2 < n)%nat /\ f i = Some t /\ f (i + 1)%nat = Some t /\
              f (i + 2)%nat = Some t.
Proof.
  assert (Hnth : forall i, nth_error (map f (seq 0 n)) i
                           = if (i <? n)%nat then Some (f i) else None).
  { intros i. destruct (Nat.ltb_spec i n) as [Hlt|Hge].
    - rewrite nth_error_map, nth_error_seq.
      destruct (Nat.ltb_spec i n); [reflexivity | lia].
    - apply nth_error_None. rewrite length_map, length_seq. exact Hge. }
  unfold three. split.
  - intros (i & t & H0 & H1 & H2). rewrite Hnth in H0, H1, H2.
    destruct (Nat.ltb_spec (S (S i)) n); [|discriminate].
    destruct (Nat.ltb_spec (S i) n); [|lia].
    destruct (Nat.ltb_spec i n); [|lia].
    exists i, t. rewrite !Nat.add_1_r, Nat.add_comm. simpl.
    repeat split; try lia; congruence.
  - intros (i & t & Hi & H0 & H1 & H2). exists i, t. rewrite !Hnth.
    destruct (Nat.ltb_spec (S (S i)) n); [|lia].
    destruct (Nat.ltb_spec (S i) n); [|lia].
    destruct (Nat.ltb_spec i n); [|lia].
    rewrite Nat.add_1_r in H1. replace (i + 2)%nat with (S (S i)) in H2 by lia.
    repeat split; congruence.
Qed.

Lemma lineTypes_rowCells g r :
  lineTypes (rowCells g r) = map (fun c => typeAt g r c) (seq 0 GRID_COLS).
Proof. unfold lineTypes, rowCells. rewrite map_map. reflexivity. Qed.

Lemma lineTypes_colCells g c :
  lineTypes (colCells g c) = map (fun r => typeAt g r c) (seq 0 GRID_ROWS).
Proof. unfold lineTypes, colCells. rewrite map_map. reflexivity. Qed.

Lemma flat_map_not_nil {A B} (f : A -> list B) l :
  flat_map f l <> [] <-> exists x, In x l /\ f x <> [].
Proof.
  induction l as [|a l IH]; simpl.
  - split; [congruence | intros (x & [] & _)].
  - split.
    + intros H. destruct (f a) as [|b bs] eqn:E.
      * simpl in H. apply IH in H. destruct H as (x & Hx & Hfx). eauto.
      * exists a. split; [auto | congruence].
    + intros (x & [<-|Hx] & Hfx) E; apply app_eq_nil in E; destruct E as [E1 E2].
      * contradiction.
      * apply IH in E2; [exact E2 | eauto].
Qed.

Lemma number_not_nil runs : number runs <> [] <-> runs <> [].
Proof. unfold number. destruct runs; simpl; split; congruence. Qed.

Lemma horizontalSequences_spec g :
  horizontalSequences g <> [] <-> threeInRow g.
Proof.
  unfold horizontalSequences, threeInRow.
  rewrite number_not_nil, flat_map_not_nil. split.
  - intros (r & Hr & H). apply in_seq in Hr.
    apply scanLine_spec in H. rewrite lineTypes_rowCells in H.
    apply three_map_seq in H. destruct H as (c & t & Hc & H).
    exists r, c, t. split; [lia|]. split; [exact Hc | exact H].
  - intros (r & c & t & Hr & Hc & H). exists r.
    split; [apply in_seq; lia|].
    apply scanLine_spec. rewrite lineTypes_rowCells.
    apply three_map_seq. exists c, t. split; [exact Hc | exact H].
Qed.

Lemma verticalSequences_spec g :
  verticalSequences g <> [] <-> threeInColumn g.
Proof.
  unfold verticalSequences, threeInColumn.
  rewrite number_not_nil, flat_map_not_nil. split.
  - intros (c & Hc & H). apply in_seq in Hc.
    apply scanLine_spec in H. rewrite lineTypes_colCells in H.
    apply three_map_seq in H. destruct H as (r & t & Hr & H).
    exists r, c, t. split; [exact Hr|]. split; [lia | exact H].
  - intros (r & c & t & Hr & Hc & H). exists c.
    split; [apply in_seq; lia|].
    apply scanLine_spec. rewrite lineTypes_colCells.
    apply three_map_seq. exists r, t. split; [exact Hr | exact H].
Qed.

Lemma intersect_processed : forall entries ms pH pV ms' pH' pV',
  (ms = [] -> pH = [] /\ pV = []) ->
  fold_left intersectStep entries (ms, pH, pV) = (ms', pH', pV') ->
  ms' = [] -> pH' = [] /\ pV' = [].
Proof.
  induction entries as [|e entries IH]; intros ms pH pV ms' pH' pV' Hst;
    cbn [fold_left].
  - intros E. injection E as <- <- <-. exact Hst.
  - destruct e as [k [[h|] [v|]]]; cbn [intersectStep];
      try (apply IH; exact Hst).
    destruct (negb (hasId pH h) && negb (hasId pV v));
      [|apply IH; exact Hst].
    apply IH. intros E. destruct ms; discriminate.
Qed.

Lemma filter_unprocessed (l : list Sequence) :
  filter (fun s => negb (hasId [] s)) l = l.
Proof.
  induction l as [|s l IH]; [reflexivity|].
  simpl. f_equal. exact IH.
Qed.

Lemma map_not_nil {A B} (f : A -> B) l : l <> [] -> map f l <> [].
Proof. destruct l; simpl; congruence. Qed.

Lemma findMatches_nonempty g :
  findMatches g <> [] <->
  horizontalSequences g <> [] \/ verticalSequences g <> [].
Proof.
  unfold findMatches.
  destruct (fold_left intersectStep
              (positionToSequences (horizontalSequences g)
                 (verticalSequences g)) ([], [], [])) as [[ms pH] pV] eqn:E.
  pose proof (intersect_processed _ _ _ _ _ _ _
                (fun _ => conj eq_refl eq_refl) E) as Hinv.
  split.
  - intros H.
    destruct (horizontalSequences g) as [|h hs] eqn:Eh; [|left; discriminate].
    destruct (verticalSequences g) as [|v vs] eqn:Ev; [|right; discriminate].
    exfalso. apply H. simpl in E. injection E as <- <- <-. reflexivity.
  - intros Hne E0.
    apply app_eq_nil in E0. destruct E0 as [E1 E2].
    apply app_eq_nil in E1. destruct E1 as [E1 E3].
    destruct (Hinv E1) as [-> ->].
    rewrite filter_unprocessed in E2, E3.
    destruct Hne as [Hne|Hne];
      [apply (map_not_nil (lineMatch horizontal)) in Hne
      |apply (map_not_nil (lineMatch vertical)) in Hne]; contradiction.
Qed.

(** X25. On a grid of 12 rows of 6 cells, [findMatches] finds a match
    exactly when three panels of one type lie side by side in a row or one
    above the other in a column. *)
Theorem findMatches_three_in_line (g : Grid) :
  wf_grid g ->
  (findMatches g <> [] <-> threeInRow g \/ threeInColumn g).
Proof.
  intros _.
  rewrite findMatches_nonempty, horizontalSequences_spec,
    verticalSequences_spec. reflexivity.
Qed.

Lemma findMatches_three_in_line_witness :
  findMatches twoRunsGrid <> [] <->
  threeInRow twoRunsGrid \/ threeInColumn twoRunsGrid.
Proof.
  apply findMatches_three_in_line.
  split; [reflexivity | repeat constructor].
Defined.

(* ================================================================== *)
(** * Valid moves                                                      *)
(* ================================================================== *)

(** Matches depend on the panel types in the cells only. *)
Lemma findMatches_types g g' :
  (forall r c, typeAt g r c = typeAt g' r c) ->
  (findMatches g <> [] <-> findMatches g' <> []).
Proof.
  intros H.
  rewrite !findMatches_nonempty, !horizontalSequences_spec,
    !verticalSequences_spec.
  unfold threeInRow, threeInColumn.
  split; (intros [(r & c & t & H1)|(r & c & t & H1)];
          [left|right]; exists r, c, t);
    rewrite ?H in *; try rewrite <- ?H in *; exact H1.
Qed.

Lemma swapTest_first g r1 c1 r2 c2 :
  valid g r1 c1 -> valid g r2 c2 -> (r1, c1) <> (r2, c2) ->
  cell (swapTest g r1 c1 r2 c2) r1 c1 = cell g r2 c2.
Proof.
  intros H1 H2 Hne. unfold swapTest.
  rewrite cell_setCell_other by congruence.
  apply cell_setCell_same. exact H1.
Qed.

Lemma swapTest_second g r1 c1 r2 c2 :
  valid g r1 c1 -> valid g r2 c2 ->
  cell (swapTest g r1 c1 r2 c2) r2 c2 = cell g r1 c1.
Proof.
  intros H1 H2. unfold swapTest.
  apply cell_setCell_same. apply valid_setCell. exact H2.
Qed.

Lemma swapTest_elsewhere g r1 c1 r2 c2 r c :
  (r, c) <> (r1, c1) -> (r, c) <> (r2, c2) ->
  cell (swapTest g r1 c1 r2 c2) r c = cell g r c.
Proof.
  intros H1 H2. unfold swapTest.
  rewrite !cell_setCell_other by congruence. reflexivity.
Qed.

Lemma option_map_moveTo r c p :
  option_map panel_type (moveTo r c p) = option_map panel_type p.
Proof. destruct p; reflexivity. Qed.

(** The test grid and the grid of [trySwap] hold the same panel types, in
    whichever order the two cells are given. *)
Lemma swap_types g r1 c1 r2 c2 :
  valid g r1 c1 -> valid g r2 c2 -> (r1, c1) <> (r2, c2) ->
  forall r c,
    typeAt (swapTest g r1 c1 r2 c2) r c = typeAt (swapCells g r1 c1 r2 c2) r c /\
    typeAt (swapTest g r1 c1 r2 c2) r c = typeAt (swapCells g r2 c2 r1 c1) r c.
Proof.
  intros H1 H2 Hne r c. unfold typeAt.
  destruct (Z.eq_dec (Z.of_nat r) r1) as [Er1|Er1];
    [destruct (Z.eq_dec (Z.of_nat c) c1) as [Ec1|Ec1]|].
  - rewrite Er1, Ec1, swapTest_first, swapCells_selected,
      swapCells_target by (auto; congruence).
    rewrite option_map_moveTo. auto.
  - destruct (Z.eq_dec (Z.of_nat r) r2) as [Er2|Er2];
      [destruct (Z.eq_dec (Z.of_nat c) c2) as [Ec2|Ec2]|].
    + rewrite Er2, Ec2, swapTest_second, swapCells_selected,
        swapCells_target by (auto; congruence).
      rewrite option_map_moveTo. auto.
    + rewrite swapTest_elsewhere, !swapCells_elsewhere by congruence. auto.
    + rewrite swapTest_elsewhere, !swapCells_elsewhere by congruence. auto.
  - destruct (Z.eq_dec (Z.of_nat r) r2) as [Er2|Er2];
      [destruct (Z.eq_dec (Z.of_nat c) c2) as [Ec2|Ec2]|].
    + rewrite Er2, Ec2, swapTest_second, swapCells_selected,
        swapCells_target by (auto; congruence).
      rewrite option_map_moveTo. auto.
    + rewrite swapTest_elsewhere, !swapCells_elsewhere by congruence. auto.
    + rewrite swapTest_elsewhere, !swapCells_elsewhere by congruence. auto.
Qed.

Lemma firstSome_Some {A B} (f : A -> option B) l y :
  firstSome f l = Some y -> exists x, In x l /\ f x = Some y.
Proof.
  induction l as [|a l IH]; simpl; [discriminate|].
  destruct (f a) as [b|] eqn:E.
  - intros H. injection H as <-. exists a. auto.
  - intros H. destruct (IH H) as (x & Hx & Hfx). exists x. auto.
Qed.

Lemma firstSome_None {A B} (f : A -> option B) l :
  firstSome f l = None -> forall x, In x l -> f x = None.
Proof.
  induction l as [|a l IH]; simpl; [intros _ x []|].
  destruct (f a) as [b|] eqn:E; [discriminate|].
  intros H x [<-|Hx]; [exact E | apply IH; assumption].
Qed.

Lemma length_pos {A} (l : list A) :
  (0 <? List.length l)%nat = true <-> l <> [].
Proof.
  destruct l; simpl; split; intros H; try congruence; try reflexivity.
  discriminate.
Qed.

(** What [trySwap] answers from a selection. *)
Lemma trySwap_swapped s p tr tc :
  swapped (trySwap (withSelected s (Some p)) tr tc) = true <->
  isAdjacent (row p) (col p) tr tc = true /\
  findMatches (swapCells (grid s) (row p) (col p) tr tc) <> [].
Proof.
  unfold trySwap. cbn [selected withSelected grid].
  destruct (isAdjacent (row p) (col p) tr tc); cbn [negb swapped].
  - destruct (findMatches (swapCells (grid s) (row p) (col p) tr tc));
      simpl.
    + split; [discriminate | intros [_ H]; congruence].
    + split; [intros _; split; [reflexivity | discriminate] | reflexivity].
  - split; [discriminate | intros [H _]; discriminate].
Qed.

Lemma in_grid_nat r c :
  in_grid r c ->
  exists r' c', r = Z.of_nat r' /\ c = Z.of_nat c' /\
                (r' < GRID_ROWS)%nat /\ (c' < GRID_COLS)%nat.
Proof.
  intros [Hr Hc]. exists (Z.to_nat r), (Z.to_nat c).
  rewrite !Z2Nat.id by lia. repeat split; lia.
Qed.

Lemma tryMoves_Some g r c m :
  (r < GRID_ROWS)%nat -> (c < GRID_COLS)%nat ->
  tryMoves g r c = Some m ->
  move_from m = mkPos (Z.of_nat r) (Z.of_nat c) /\
  in_grid (row (move_to m)) (col (move_to m)) /\
  isPanel (cell g (Z.of_nat r) (Z.of_nat c)) = true /\
  isPanel (cell g (row (move_to m)) (col (move_to m))) = true /\
  ((row (move_to m) = Z.of_nat r /\ col (move_to m) = Z.of_nat c + 1) \/
   (row (move_to m) = Z.of_nat r + 1 /\ col (move_to m) = Z.of_nat c))%Z /\
  findMatches (swapTest g (Z.of_nat r) (Z.of_nat c)
                 (row (move_to m)) (col (move_to m))) <> [].
Proof.
  intros Hr Hc. unfold tryMoves, in_grid, GRID_ROWS, GRID_COLS in *.
  destruct (isPanel (cell g (Z.of_nat r) (Z.of_nat c))) eqn:Ep;
    cbn [negb]; [|discriminate].
  match goal with |- (if ?b then _ else _) = _ -> _ => destruct b eqn:E1 end.
  - intros H. injection H as <-. cbn [move_from move_to row col].
    apply andb_true_iff in E1. destruct E1 as [E1 E3].
    apply andb_true_iff in E1. destruct E1 as [E1 E2].
    apply Z.ltb_lt in E1. apply length_pos in E3.
    repeat split; auto; lia.
  - match goal with |- (if ?b then _ else _) = _ -> _ => destruct b eqn:E2 end;
      [|discriminate].
    intros H. injection H as <-. cbn [move_from move_to row col].
    apply andb_true_iff in E2. destruct E2 as [E2 E4].
    apply andb_true_iff in E2. destruct E2 as [E2 E3].
    apply Z.ltb_lt in E2. apply length_pos in E4.
    repeat split; auto; lia.
Qed.

Lemma tryMoves_None g r c :
  tryMoves g r c = None ->
  isPanel (cell g (Z.of_nat r) (Z.of_nat c)) = true ->
  ((Z.of_nat c + 1 < Z.of_nat GRID_COLS)%Z ->
   isPanel (cell g (Z.of_nat r) (Z.of_nat c + 1)) = true ->
   findMatches (swapTest g (Z.of_nat r) (Z.of_nat c)
                  (Z.of_nat r) (Z.of_nat c + 1)) = []) /\
  ((Z.of_nat r + 1 < Z.of_nat GRID_ROWS)%Z ->
   isPanel (cell g (Z.of_nat r + 1) (Z.of_nat c)) = true ->
   findMatches (swapTest g (Z.of_nat r) (Z.of_nat c)
                  (Z.of_nat r + 1) (Z.of_nat c)) = []).
Proof.
  unfold tryMoves. intros H Hp. rewrite Hp in H. cbn [negb] in H.
  match type of H with (if ?b then _ else _) = _ => destruct b eqn:E1 end;
    [discriminate|].
  match type of H with (if ?b then _ else _) = _ => destruct b eqn:E2 end;
    [discriminate|].
  split; intros Hlt Hq.
  - rewrite Hq, andb_true_r in E1.
    assert (Hb : (Z.of_nat c <? Z.of_nat GRID_COLS - 1)%Z = true)
      by (apply Z.ltb_lt; lia).
    rewrite Hb in E1. cbn [andb] in E1.
    match goal with |- ?X = [] => destruct X end;
      [reflexivity | discriminate].
  - rewrite Hq, andb_true_r in E2.
    assert (Hb : (Z.of_nat r <? Z.of_nat GRID_ROWS - 1)%Z = true)
      by (apply Z.ltb_lt; lia).
    rewrite Hb in E2. cbn [andb] in E2.
    match goal with |- ?X = [] => destruct X end;
      [reflexivity | discriminate].
Qed.

Lemma findMatches_swap g r1 c1 r2 c2 :
  wf_grid g -> in_grid r1 c1 -> in_grid r2 c2 -> (r1, c1) <> (r2, c2) ->
  (findMatches (swapTest g r1 c1 r2 c2) <> [] <->
   findMatches (swapCells g r1 c1 r2 c2) <> []) /\
  (findMatches (swapTest g r1 c1 r2 c2) <> [] <->
   findMatches (swapCells g r2 c2 r1 c1) <> []).
Proof.
  intros Hwf H1 H2 Hne.
  pose proof (swap_types g r1 c1 r2 c2 (wf_grid_valid _ _ _ Hwf H1)
                (wf_grid_valid _ _ _ Hwf H2) Hne) as Ht.
  split; apply findMatches_types; intros r c; apply (Ht r c).
Qed.

(** X26. On a well-formed grid, the move [findValidMove] returns is a swap
    of a panel with the panel to its right or below it that [trySwap]
    accepts; and when it returns none, [trySwap] accepts no swap of two
    panels of the grid. (Swaps of a panel with an empty cell are not
    looked at.) *)
Theorem findValidMove_trySwap (s : PanelPuzzleState) :
  wf_grid (grid s) ->
  (forall m, findValidMove s = Some m ->
     in_grid (row (move_from m)) (col (move_from m)) /\
     in_grid (row (move_to m)) (col (move_to m)) /\
     isPanel (cell (grid s) (row (move_from m)) (col (move_from m))) = true /\
     isPanel (cell (grid s) (row (move_to m)) (col (move_to m))) = true /\
     ((row (move_to m) = row (move_from m) /\
       col (move_to m) = col (move_from m) + 1) \/
      (row (move_to m) = row (move_from m) + 1 /\
       col (move_to m) = col (move_from m)))%Z /\
     swapped (trySwap (withSelected s (Some (move_from m)))
                (row (move_to m)) (col (move_to m))) = true) /\
  (findValidMove s = None ->
   forall p q,
     in_grid (row p) (col p) -> in_grid (row q) (col q) ->
     isPanel (cell (grid s) (row p) (col p)) = true ->
     isPanel (cell (grid s) (row q) (col q)) = true ->
     swapped (trySwap (withSelected s (Some p)) (row q) (col q)) = false).
Proof.
  intros Hwf. unfold findValidMove. split.
  - intros m H.
    apply firstSome_Some in H. destruct H as (r & Hr & H).
    apply firstSome_Some in H. destruct H as (c & Hc & H).
    apply in_seq in Hr. apply in_seq in Hc.
    assert (Hr' : (r < GRID_ROWS)%nat) by lia.
    assert (Hc' : (c < GRID_COLS)%nat) by lia.
    destruct (tryMoves_Some _ _ _ _ Hr' Hc' H)
      as (Hfrom & Hto & Hp & Hq & Hdir & Hm).
    rewrite Hfrom. cbn [row col].
    assert (Hin : in_grid (Z.of_nat r) (Z.of_nat c))
      by (unfold in_grid, GRID_ROWS, GRID_COLS in *; lia).
    assert (Hne : (Z.of_nat r, Z.of_nat c)
                  <> (row (move_to m), col (move_to m)))
      by (intros E; injection E as E1 E2; lia).
    split; [exact Hin|]. split; [exact Hto|]. split; [exact Hp|].
    split; [exact Hq|]. split; [exact Hdir|].
    apply trySwap_swapped. cbn [row col]. split.
    + apply isAdjacent_spec. lia.
    + apply (findMatches_swap _ _ _ _ _ Hwf Hin Hto Hne). exact Hm.
  - intros H p q Hp Hq Pp Pq.
    destruct (swapped (trySwap (withSelected s (Some p)) (row q) (col q)))
      eqn:Es; [|reflexivity].
    exfalso. apply trySwap_swapped in Es. destruct Es as [Hadj Hm].
    apply isAdjacent_spec in Hadj.
    assert (Hnone : forall r c, (r < GRID_ROWS)%nat -> (c < GRID_COLS)%nat ->
              tryMoves (grid s) r c = None).
    { intros r c Hr Hc.
      apply (firstSome_None _ _ (firstSome_None _ _ H r
               ltac:(apply in_seq; lia)) c).
      apply in_seq. lia. }
    destruct (in_grid_nat _ _ Hp) as (pr & pc & Epr & Epc & Hpr & Hpc).
    destruct (in_grid_nat _ _ Hq) as (qr & qc & Eqr & Eqc & Hqr & Hqc).
    rewrite Epr, Epc, Eqr, Eqc in *.
    assert (Hne : (Z.of_nat pr, Z.of_nat pc) <> (Z.of_nat qr, Z.of_nat qc))
      by (intros E; injection E as E1 E2; lia).
    assert (Hne' : (Z.of_nat qr, Z.of_nat qc) <> (Z.of_nat pr, Z.of_nat pc))
      by congruence.
    unfold GRID_ROWS, GRID_COLS in *.
    destruct Hadj as [[Hc [Hr|Hr]]|[Hr [Hc|Hc]]].
    + (* q below p *)
      destruct (tryMoves_None _ _ _ (Hnone pr pc Hpr Hpc) Pp) as [_ Hdown].
      rewrite Hc, Hr in *.
      apply (findMatches_swap _ _ _ _ _ Hwf Hp Hq Hne) in Hm.
      apply Hm. apply Hdown; [unfold GRID_ROWS; lia | exact Pq].
    + (* q above p *)
      destruct (tryMoves_None _ _ _ (Hnone qr qc Hqr Hqc) Pq) as [_ Hdown].
      assert (Er : Z.of_nat pr = (Z.of_nat qr + 1)%Z) by lia.
      rewrite Er, <- Hc in *.
      apply (findMatches_swap _ _ _ _ _ Hwf Hq Hp Hne') in Hm.
      apply Hm. apply Hdown; [unfold GRID_ROWS; lia | exact Pp].
    + (* q right of p *)
      destruct (tryMoves_None _ _ _ (Hnone pr pc Hpr Hpc) Pp) as [Hright _].
      rewrite Hc, Hr in *.
      apply (findMatches_swap _ _ _ _ _ Hwf Hp Hq Hne) in Hm.
      apply Hm. apply Hright; [unfold GRID_COLS; lia | exact Pq].
    + (* q left of p *)
      destruct (tryMoves_None _ _ _ (Hnone qr qc Hqr Hqc) Pq) as [Hright _].
      assert (Ec : Z.of_nat pc = (Z.of_nat qc + 1)%Z) by lia.
      rewrite Ec, <- Hr in *.
      apply (findMatches_swap _ _ _ _ _ Hwf Hq Hp Hne') in Hm.
      apply Hm. apply Hright; [unfold GRID_COLS; lia | exact Pp].
Qed.

Lemma findValidMove_trySwap_witness :
  exists m,
    findValidMove (sampleState swapGrid 0 None) = Some m /\
    swapped (trySwap (withSelected (sampleState swapGrid 0 None)
                        (Some (move_from m)))
               (row (move_to m)) (col (move_to m))) = true.
Proof.
  eassert (H : findValidMove (sampleState swapGrid 0 None) = Some _)
    by (vm_compute; reflexivity).
  eexists. split; [exact H|].
  apply (proj1 (findValidMove_trySwap (sampleState swapGrid 0 None)
                  wf_sampleGrid_swap) _ H).
Defined.

Lemma wf_gapGrid : wf_grid gapGrid.
Proof. split; [reflexivity | repeat constructor]. Qed.

(** X27. [findValidMove] misses moves: there is a well-formed grid on which
    it finds none although [trySwap] accepts the swap of a panel with the
    empty cell above it. *)
Theorem findValidMove_misses_empty_cells :
  exists s p q,
    wf_grid (grid s) /\ findValidMove s = None /\ hasValidMoves s = false /\
    isPanel (cell (grid s) (row p) (col p)) = true /\
    cell (grid s) (row q) (col q) = None /\
    swapped (trySwap (withSelected s (Some p)) (row q) (col q)) = true.
Proof.
  exists (sampleState gapGrid 0 None), (mkPos 11 2), (mkPos 10 2).
  split; [exact wf_gapGrid|]. repeat split; vm_compute; reflexivity.
Qed.

(* ================================================================== *)
(** * Gravity                                                          *)
(* ================================================================== *)

Lemma setNth_nth {A} (v d : A) : forall l i j,
  nth j (setNth i v l) d
  = if andb (i =? j)%nat (j <? List.length l)%nat then v else nth j l d.
Proof.
  induction l as [|h t IH]; intros i j.
  - assert (E : setNth i v (@nil A) = []) by (destruct i; reflexivity).
    rewrite E. simpl. rewrite andb_false_r. reflexivity.
  - destruct i as [|i], j as [|j]; simpl; try reflexivity.
    rewrite IH. reflexivity.
Qed.

Lemma length_colList g c : List.length (colList g c) = GRID_ROWS.
Proof. unfold colList. rewrite length_map, length_seq. reflexivity. Qed.

Lemma nth_colList g c r :
  (r < GRID_ROWS)%nat ->
  nth r (colList g c) None = cell g (Z.of_nat r) (Z.of_nat c).
Proof.
  intros Hr. unfold colList.
  rewrite (nth_indep _ None (cell g (Z.of_nat 0) (Z.of_nat c)))
    by (rewrite length_map, length_seq; exact Hr).
  rewrite (map_nth (fun r0 => cell g (Z.of_nat r0) (Z.of_nat c))).
  rewrite seq_nth by exact Hr. reflexivity.
Qed.

Lemma list_eq_nth {A} (d : A) (l l' : list A) :
  List.length l = List.length l' ->
  (forall i, (i < List.length l)%nat -> nth i l d = nth i l' d) -> l = l'.
Proof. intros H1 H2. apply (nth_ext _ _ d d); assumption. Qed.

(** Writing a cell is writing the list of its column. *)
Lemma colList_setCell_same g r c v :
  wf_grid g -> (r < GRID_ROWS)%nat -> (c < GRID_COLS)%nat ->
  colList (setCell g (Z.of_nat r) (Z.of_nat c) v) c
  = setNth r v (colList g c).
Proof.
  intros Hwf Hr Hc. apply (list_eq_nth None).
  - rewrite setNth_length, !length_colList. reflexivity.
  - intros i Hi. rewrite length_colList in Hi.
    rewrite setNth_nth, length_colList, !nth_colList by exact Hi.
    destruct (Nat.eqb_spec r i) as [->|Hne]; simpl.
    + destruct (Nat.ltb_spec i GRID_ROWS); [|lia].
      apply cell_setCell_same. apply wf_grid_valid; [exact Hwf|].
      unfold in_grid. lia.
    + apply cell_setCell_other. intros E. inversion E. lia.
Qed.

Lemma colList_setCell_other g r c v c' :
  c <> c' ->
  colList (setCell g (Z.of_nat r) (Z.of_nat c) v) c' = colList g c'.
Proof.
  intros Hne. unfold colList. apply map_ext. intros r0.
  apply cell_setCell_other. intros E. inversion E. lia.
Qed.

Lemma setNth_app_r {A} (v : A) (l1 l2 : list A) i :
  setNth (List.length l1 + i) v (l1 ++ l2) = l1 ++ setNth i v l2.
Proof. induction l1 as [|a l1 IH]; simpl; [reflexivity|]. rewrite IH. reflexivity. Qed.

Lemma setNth_repeat_last {A} (v d : A) (l : list A) : forall k,
  setNth k v (repeat d (S k) ++ l) = repeat d k ++ v :: l.
Proof.
  induction k as [|k IH]; [reflexivity|].
  change (repeat d (S (S k)) ++ l) with (d :: (repeat d (S k) ++ l)).
  cbn [setNth]. rewrite IH. reflexivity.
Qed.

Lemma firstn_S_nth {A} (d : A) (l : list A) n :
  (n < List.length l)%nat -> firstn (S n) l = firstn n l ++ [nth n l d].
Proof.
  revert n. induction l as [|a l IH]; intros n Hn; simpl in Hn; [lia|].
  destruct n as [|n]; [reflexivity|].
  change (firstn (S (S n)) (a :: l)) with (a :: firstn (S n) l).
  rewrite (IH n) by lia. reflexivity.
Qed.

Lemma skipn_nth {A} (d : A) (l : list A) n :
  (n < List.length l)%nat -> skipn n l = nth n l d :: skipn (S n) l.
Proof.
  revert n. induction l as [|a l IH]; intros n Hn; simpl in Hn; [lia|].
  destruct n as [|n]; [reflexivity|].
  cbn [skipn nth]. apply IH. lia.
Qed.

Lemma nth_app_mid {A} (d x : A) (l1 l2 : list A) :
  nth (List.length l1) (l1 ++ x :: l2) d = x.
Proof. induction l1; simpl; auto. Qed.

Lemma rowsDown_S n :
  rowsDown (Z.of_nat n) = Z.of_nat n :: rowsDown (Z.of_nat n - 1).
Proof.
  unfold rowsDown.
  replace (Z.to_nat (Z.of_nat n + 1)) with (S n) by lia.
  replace (Z.to_nat (Z.of_nat n - 1 + 1)) with n by lia.
  rewrite seq_S, rev_app_distr. reflexivity.
Qed.

Lemma rowsDown_neg : rowsDown (-1) = [].
Proof. reflexivity. Qed.

Section Column.

Variables (g : Grid) (c : nat).
Hypothesis wf_g : wf_grid g.
Hypothesis c_lt : (c < GRID_COLS)%nat.

(** The column [c] while the rows below [n] have been scanned: the rows
    above are as in [g], then come the empty cells down to the write row,
    then the panels found so far, in their order. *)
Let falling (n : nat) (cur : Grid) (m : nat) (ps : list Panel) : Prop :=
  wf_grid cur /\
  (forall c', c' <> c -> colList cur c' = colList g c') /\
  colList cur c
  = firstn n (colList g c) ++ repeat None (m - n) ++ map Some ps /\
  (n <= m)%nat /\ (m + List.length ps = GRID_ROWS)%nat /\
  map core ps = map core (panelsOf (skipn n (colList g c))) /\
  ((forall r p, (r < GRID_ROWS)%nat ->
      nth r (colList g c) None = Some p -> panel_row p = Z.of_nat r) ->
   map panel_row ps = map Z.of_nat (seq m (List.length ps))).

Lemma fall_step n cur m ps :
  falling (S n) cur m ps ->
  exists m' ps',
    fallStep (Z.of_nat c) (cur, (Z.of_nat m - 1)%Z) (Z.of_nat n)
    = (fst (fallStep (Z.of_nat c) (cur, (Z.of_nat m - 1)%Z) (Z.of_nat n)),
       (Z.of_nat m' - 1)%Z) /\
    falling n (fst (fallStep (Z.of_nat c) (cur, (Z.of_nat m - 1)%Z)
                      (Z.of_nat n))) m' ps'.
Proof.
  unfold falling. intros (Hwf & Hoth & Hcol & Hnm & Hlen & Hcore & Hrow).
  pose proof (length_colList g c) as HL.
  assert (Hn : (n < GRID_ROWS)%nat) by (unfold GRID_ROWS in *; lia).
  assert (Hcell : cell cur (Z.of_nat n) (Z.of_nat c) = nth n (colList g c) None).
  { rewrite <- nth_colList by exact Hn. rewrite Hcol.
    rewrite (firstn_S_nth None) by (rewrite HL; exact Hn).
    rewrite <- app_assoc. cbn [app].
    replace n with (List.length (firstn n (colList g c))) at 1
      by (rewrite length_firstn, HL; unfold GRID_ROWS in *; lia).
    apply nth_app_mid. }
  rewrite (firstn_S_nth None) in Hcol by (rewrite HL; exact Hn).
  rewrite (skipn_nth None (colList g c) n) by (rewrite HL; exact Hn).
  rewrite <- app_assoc in Hcol. cbn [app] in Hcol.
  unfold fallStep. rewrite Hcell.
  destruct (nth n (colList g c) None) as [p|] eqn:Ep.
  - destruct (Z.eqb_spec (Z.of_nat n) (Z.of_nat m - 1)) as [E|E]; cbn [negb fst].
    + (* the panel is where it has to be *)
      assert (Em : m = S n) by lia.
      exists n, (p :: ps). split; [f_equal; lia|].
      split; [exact Hwf|]. split; [exact Hoth|].
      split; [|split; [lia|split; [|split]]].
      * rewrite Hcol, Em, Nat.sub_diag, Nat.sub_diag. reflexivity.
      * cbn [List.length]. lia.
      * cbn [panelsOf flat_map map app]. fold (panelsOf (skipn (S n) (colList g c))).
        rewrite Hcore. reflexivity.
      * intros Hpos. cbn [List.length seq map].
        rewrite (Hpos n p Hn Ep), (Hrow Hpos), Em. reflexivity.
    + (* the panel falls to the write row *)
      assert (Hm : (S n < m)%nat) by lia.
      set (p' := mkPanel (panel_type p) (bonus p) (Z.of_nat m - 1)
                   (panel_col p) (panel_id p)).
      exists (m - 1)%nat, (p' :: ps).
      split; [f_equal; lia|].
      replace (Z.of_nat m - 1)%Z with (Z.of_nat (m - 1)) by lia.
      assert (Hm1 : (m - 1 < GRID_ROWS)%nat) by (unfold GRID_ROWS in *; lia).
      split; [repeat apply wf_grid_setCell; exact Hwf|].
      split; [intros c' Hc'; rewrite !colList_setCell_other by auto;
              apply Hoth; exact Hc'|].
      split; [|split; [lia|split; [|split]]].
      * rewrite colList_setCell_same
          by (try apply wf_grid_setCell; assumption).
        rewrite colList_setCell_same by assumption.
        rewrite Hcol.
        set (A := firstn n (colList g c)).
        assert (HA : List.length A = n)
          by (unfold A; rewrite length_firstn, HL; unfold GRID_ROWS in *; lia).
        replace (m - S n)%nat with (S (m - S n - 1)) by lia.
        replace (m - 1)%nat with (List.length A + S (m - S n - 1))%nat at 1
          by lia.
        rewrite setNth_app_r. cbn [setNth].
        rewrite setNth_repeat_last.
        replace n with (List.length A + 0)%nat at 1 by lia.
        rewrite setNth_app_r. cbn [setNth].
        replace (m - 1 - n)%nat with (S (m - S n - 1)) by lia.
        reflexivity.
      * cbn [List.length]. lia.
      * cbn [panelsOf flat_map map app]. fold (panelsOf (skipn (S n) (colList g c))).
        rewrite Hcore. reflexivity.
      * intros Hpos. cbn [List.length seq map]. rewrite (Hrow Hpos).
        unfold p'. cbn [panel_row].
        replace (S (m - 1)) with m by lia.
        replace (Z.of_nat (m - 1)) with (Z.of_nat m - 1)%Z by lia.
        reflexivity.
  - exists m, ps. split; [reflexivity|]. cbn [fst].
    split; [exact Hwf|]. split; [exact Hoth|].
    split; [|split; [lia|split; [|split]]].
    + rewrite Hcol. replace (m - n)%nat with (S (m - S n)) by lia. reflexivity.
    + exact Hlen.
    + cbn [panelsOf flat_map app]. exact Hcore.
    + exact Hrow.
Qed.

Lemma fall_loop : forall n cur m ps,
  falling n cur m ps ->
  exists cur' m' ps',
    fold_left (fallStep (Z.of_nat c)) (rowsDown (Z.of_nat n - 1))
      (cur, (Z.of_nat m - 1)%Z)
    = (cur', (Z.of_nat m' - 1)%Z) /\
    falling 0 cur' m' ps'.
Proof.
  induction n as [|n IH]; intros cur m ps H.
  - exists cur, m, ps. split; [reflexivity | exact H].
  - replace (Z.of_nat (S n) - 1)%Z with (Z.of_nat n) by lia.
    rewrite rowsDown_S. cbn [fold_left].
    destruct (fall_step n cur m ps H) as (m1 & ps1 & E & H1).
    rewrite E. apply (IH _ _ _ H1).
Qed.

Lemma spawn_low mathRandom : forall j st,
  (j <= 6)%nat ->
  fold_left (spawnStep mathRandom (Z.of_nat c)) (rowsDown (Z.of_nat j - 1)) st
  = st.
Proof.
  induction j as [|j IH]; intros st Hj; [reflexivity|].
  replace (Z.of_nat (S j) - 1)%Z with (Z.of_nat j) by lia.
  rewrite rowsDown_S. cbn [fold_left].
  assert (E : spawnStep mathRandom (Z.of_nat c) st (Z.of_nat j) = st).
  { unfold spawnStep. destruct st as [[cur k] idc].
    destruct (Z.leb_spec 6 (Z.of_nat j)); [lia | reflexivity]. }
  rewrite E. apply IH. lia.
Qed.

(** The column [c] while the rows below [j] have been filled: [fresh] are
    the panels spawned so far, above the panels [ps] that fell. *)
Let spawning (ps : list Panel) (drawn0 id0 : nat) (j : nat) (cur : Grid)
    (fresh : list Panel) (drawn1 id1 : nat) : Prop :=
  wf_grid cur /\
  (forall c', c' <> c -> colList cur c' = colList g c') /\
  colList cur c = repeat None j ++ map Some (fresh ++ ps) /\
  (j + List.length fresh + List.length ps = GRID_ROWS)%nat /\
  drawn1 = (drawn0 + List.length fresh)%nat /\
  id1 = (id0 + List.length fresh)%nat /\
  Forall (fun p => bonus p = None /\ panel_col p = Z.of_nat c) fresh /\
  map panel_row fresh = map Z.of_nat (seq j (List.length fresh)).

Lemma spawn_loop mathRandom ps drawn0 id0 : forall j cur fresh drawn1 id1,
  spawning ps drawn0 id0 j cur fresh drawn1 id1 ->
  exists cur' fresh' drawn2 id2,
    fold_left (spawnStep mathRandom (Z.of_nat c)) (rowsDown (Z.of_nat j - 1))
      (cur, drawn1, id1)
    = (cur', drawn2, id2) /\
    spawning ps drawn0 id0 (Nat.min j 6) cur' fresh' drawn2 id2.
Proof.
  unfold spawning.
  induction j as [|j IH]; intros cur fresh drawn1 id1 H.
  - exists cur, fresh, drawn1, id1. split; [reflexivity | exact H].
  - destruct (Nat.le_gt_cases (S j) 6) as [Hlow|Hhigh].
    + exists cur, fresh, drawn1, id1. split; [apply spawn_low; exact Hlow|].
      rewrite Nat.min_l by exact Hlow. exact H.
    + destruct H as (Hwf & Hoth & Hcol & Hlen & Hd & Hi & Hfresh & Hrows).
      replace (Z.of_nat (S j) - 1)%Z with (Z.of_nat j) by lia.
      rewrite rowsDown_S. cbn [fold_left].
      unfold spawnStep at 2.
      destruct (Z.leb_spec 6 (Z.of_nat j)) as [_|Hlt]; [|lia].
      cbn [generatePanelId].
      set (newp := mkPanel (randomPanelType (mathRandom drawn1)) None
                     (Z.of_nat j) (Z.of_nat c)
                     ("panel-" ^^ string_of_nat id1)).
      assert (Hj : (j < GRID_ROWS)%nat) by (unfold GRID_ROWS in *; lia).
      destruct (IH (setCell cur (Z.of_nat j) (Z.of_nat c) (Some newp))
                  (newp :: fresh) (S drawn1) (S id1))
        as (cur' & fresh' & drawn2 & id2 & E & H').
      { split; [apply wf_grid_setCell; exact Hwf|].
        split; [intros c' Hc'; rewrite colList_setCell_other by auto;
                apply Hoth; exact Hc'|].
        split; [|split; [|split; [|split; [|split]]]].
        - rewrite colList_setCell_same by assumption.
          rewrite Hcol, setNth_repeat_last. reflexivity.
        - cbn [List.length]. lia.
        - cbn [List.length]. lia.
        - cbn [List.length]. lia.
        - constructor; [split; reflexivity | exact Hfresh].
        - cbn [List.length seq map panel_row newp]. rewrite Hrows.
          reflexivity. }
      exists cur', fresh', drawn2, id2. split; [exact E|].
      replace (Nat.min (S j) 6) with (Nat.min j 6) by lia. exact H'.
Qed.

(** One column: the panels fall, the bottom six rows are filled. *)
Lemma gravityColumn_spec mathRandom drawn0 id0 :
  exists cur' fresh fallen drawn1 id1,
    gravityColumn mathRandom (g, drawn0, id0) (Z.of_nat c)
    = (cur', drawn1, id1) /\
    wf_grid cur' /\
    (forall c', c' <> c -> colList cur' c' = colList g c') /\
    colList cur' c
    = repeat None (GRID_ROWS - List.length fresh - List.length fallen)
        ++ map Some fresh ++ map Some fallen /\
    map core fallen = map core (panelsOf (colList g c)) /\
    List.length fresh = (6 - List.length fallen)%nat /\
    (List.length fallen <= GRID_ROWS)%nat /\
    drawn1 = (drawn0 + List.length fresh)%nat /\
    id1 = (id0 + List.length fresh)%nat /\
    Forall (fun p => bonus p = None /\ panel_col p = Z.of_nat c) fresh /\
    map panel_row fresh
    = map Z.of_nat
        (seq (GRID_ROWS - List.length fresh - List.length fallen)
           (List.length fresh)) /\
    ((forall r p, (r < GRID_ROWS)%nat ->
        nth r (colList g c) None = Some p -> panel_row p = Z.of_nat r) ->
     map panel_row fallen
     = map Z.of_nat (seq (GRID_ROWS - List.length fallen)
                       (List.length fallen))).
Proof.
  unfold gravityColumn.
  destruct (fall_loop GRID_ROWS g GRID_ROWS []) as (cur1 & m & ps & E1 & H1).
  { unfold falling. split; [exact wf_g|]. split; [reflexivity|].
    rewrite Nat.sub_diag, firstn_all2 by (rewrite length_colList; lia).
    rewrite skipn_all2 by (rewrite length_colList; lia).
    cbn [repeat map app List.length panelsOf flat_map seq].
    rewrite app_nil_r. repeat split; auto. }
  rewrite E1.
  destruct H1 as (Hwf1 & Hoth1 & Hcol1 & _ & Hlen1 & Hcore1 & Hrow1).
  cbn [firstn skipn app] in Hcol1, Hcore1. rewrite Nat.sub_0_r in Hcol1.
  destruct (spawn_loop mathRandom ps drawn0 id0 m cur1 [] drawn0 id0)
    as (cur2 & fresh & drawn2 & id2 & E2 & H2).
  { unfold spawning. split; [exact Hwf1|]. split; [exact Hoth1|].
    split; [exact Hcol1|]. cbn [List.length app seq map].
    repeat split; try lia. constructor. }
  rewrite E2. unfold spawning in H2.
  destruct H2 as (Hwf2 & Hoth2 & Hcol2 & Hlen2 & Hd & Hi & Hfresh & Hrows).
  exists cur2, fresh, ps, drawn2, id2.
  unfold GRID_ROWS in *.
  assert (Emin : Nat.min m 6 = (12 - List.length fresh - List.length ps)%nat)
    by lia.
  split; [reflexivity|]. split; [exact Hwf2|]. split; [exact Hoth2|].
  split; [rewrite Hcol2, Emin, map_app; reflexivity|].
  split; [exact Hcore1|]. split; [lia|]. split; [lia|].
  split; [exact Hd|]. split; [exact Hi|]. split; [exact Hfresh|].
  split; [rewrite Hrows, Emin; reflexivity|].
  intros Hpos. rewrite (Hrow1 Hpos). f_equal. f_equal. lia.
Qed.

End Column.

Lemma gravityColumn_settled mathRandom g c drawn0 id0 :
  wf_grid g -> (c < GRID_COLS)%nat ->
  exists cur' drawn1 id1,
    gravityColumn mathRandom (g, drawn0, id0) (Z.of_nat c)
    = (cur', drawn1, id1) /\
    wf_grid cur' /\
    (forall c', c' <> c -> colList cur' c' = colList g c') /\
    settledColumn c (colList g c) (colList cur' c) /\
    drawn1 = (drawn0 + missing g c)%nat /\ id1 = (id0 + missing g c)%nat.
Proof.
  intros Hwf Hc.
  destruct (gravityColumn_spec g c Hwf Hc mathRandom drawn0 id0)
    as (cur' & fresh & fallen & drawn1 & id1 & E & Hwf' & Hoth & Hcol & Hcore
        & Hlen & Hle & Hd & Hi & Hfresh & Hrows & Hpos).
  assert (Hn : List.length fallen = List.length (panelsOf (colList g c))).
  { rewrite <- (length_map core fallen), Hcore, length_map. reflexivity. }
  exists cur', drawn1, id1. split; [exact E|]. split; [exact Hwf'|].
  split; [exact Hoth|]. split; [|unfold missing; lia].
  exists fresh, fallen. unfold rowsRight. repeat split; assumption.
Qed.

Lemma gravity_columns mathRandom g : forall n a cur drawn0 id0,
  wf_grid cur -> (a + n <= GRID_COLS)%nat ->
  (forall c, (a <= c)%nat -> colList cur c = colList g c) ->
  exists cur' drawn1 id1,
    fold_left (gravityColumn mathRandom) (map Z.of_nat (seq a n))
      (cur, drawn0, id0)
    = (cur', drawn1, id1) /\
    wf_grid cur' /\
    (forall c, (c < a)%nat -> colList cur' c = colList cur c) /\
    (forall c, (a <= c < a + n)%nat ->
       settledColumn c (colList g c) (colList cur' c)) /\
    (forall c, (a + n <= c)%nat -> colList cur' c = colList g c) /\
    drawn1 = (drawn0 + list_sum (map (missing g) (seq a n)))%nat /\
    id1 = (id0 + list_sum (map (missing g) (seq a n)))%nat.
Proof.
  induction n as [|n IH]; intros a cur drawn0 id0 Hwf Han Hrest.
  - exists cur, drawn0, id0. cbn [seq map fold_left list_sum fold_right].
    split; [reflexivity|]. split; [exact Hwf|]. split; [reflexivity|].
    split; [intros c Hc; lia|]. split; [|lia].
    intros c Hc. apply Hrest. lia.
  - assert (Es : list_sum (map (missing g) (seq a (S n)))
                 = (missing g a + list_sum (map (missing g) (seq (S a) n)))%nat)
      by reflexivity.
    rewrite Es. clear Es.
    assert (Ea : missing cur a = missing g a)
      by (unfold missing; rewrite Hrest by lia; reflexivity).
    cbn [seq map fold_left].
    destruct (gravityColumn_settled mathRandom cur a drawn0 id0 Hwf ltac:(lia))
      as (cur1 & drawn1 & id1 & E1 & Hwf1 & Hoth1 & Hset1 & Hd1 & Hi1).
    rewrite E1.
    destruct (IH (S a) cur1 drawn1 id1 Hwf1 ltac:(lia)) as
      (cur2 & drawn2 & id2 & E2 & Hwf2 & Hlow2 & Hset2 & Hrest2 & Hd2 & Hi2).
    { intros c Hc. rewrite Hoth1 by lia. apply Hrest. lia. }
    exists cur2, drawn2, id2. split; [exact E2|]. split; [exact Hwf2|].
    split; [|split; [|split; [|lia]]].
    + intros c Hc. rewrite Hlow2 by lia. apply Hoth1. lia.
    + intros c Hc. destruct (Nat.eq_dec c a) as [->|Hne].
      * rewrite Hlow2 by lia. rewrite <- (Hrest a) by lia. exact Hset1.
      * apply Hset2. lia.
    + intros c Hc. apply Hrest2. lia.
Qed.

Lemma nth_settled (k : nat) (ps : list Panel) r :
  nth r (repeat None k ++ map Some ps) None <> None <->
  (k <= r < k + List.length ps)%nat.
Proof.
  destruct (Nat.lt_ge_cases r k) as [Hlt|Hge].
  - rewrite app_nth1 by (rewrite repeat_length; exact Hlt).
    rewrite nth_repeat. split; [congruence | lia].
  - rewrite app_nth2 by (rewrite repeat_length; exact Hge).
    rewrite repeat_length.
    destruct (Nat.lt_ge_cases (r - k) (List.length ps)) as [Hin|Hout].
    + rewrite (nth_indep _ None (Some (nth 0 ps (mkPanel magnifier None 0 0 ""))))
        by (rewrite length_map; exact Hin).
      rewrite map_nth. split; [lia | discriminate].
    + rewrite nth_overflow by (rewrite length_map; exact Hout).
      split; [congruence | lia].
Qed.

Lemma panelsOf_settled (k : nat) (ps : list Panel) :
  panelsOf (repeat None k ++ map Some ps) = ps.
Proof.
  unfold panelsOf. rewrite flat_map_app.
  assert (E1 : forall k, flat_map (fun o : option Panel =>
                 match o with Some p => [p] | None => [] end)
                 (repeat None k) = []).
  { intros k0. induction k0; simpl; auto. }
  rewrite E1. simpl. induction ps as [|p ps IH]; simpl; [reflexivity|].
  rewrite IH. reflexivity.
Qed.

(** What [applyGravity] does to the grid and to the counters. *)
Lemma applyGravity_spec mathRandom drawn idc s :
  wf_grid (grid s) ->
  exists g' drawn' idc',
    applyGravity mathRandom drawn idc s
    = (mkPanelPuzzleState g' (score s) (combo s) (targetScore s)
         (timeRemaining s) (isAnimating s) (isGameOver s) (riseProgress s)
         (nextRow s) (selected s), drawn', idc') /\
    wf_grid g' /\
    (forall c, (c < GRID_COLS)%nat ->
       settledColumn c (colList (grid s) c) (colList g' c)) /\
    drawn' = (drawn + spawned (grid s))%nat /\
    idc' = (idc + spawned (grid s))%nat.
Proof.
  intros Hwf. unfold applyGravity.
  destruct (gravity_columns mathRandom (grid s) GRID_COLS 0 (grid s) drawn idc
              Hwf ltac:(lia) ltac:(reflexivity))
    as (g' & drawn' & idc' & E & Hwf' & _ & Hset & _ & Hd & Hi).
  rewrite E. exists g', drawn', idc'.
  split; [reflexivity|]. split; [exact Hwf'|].
  split; [|split; [exact Hd | exact Hi]].
  intros c Hc. apply Hset. lia.
Qed.

(** X28. [applyGravity] on a grid of 12 rows of 6 cells: in every column
    the panels fall to the bottom in their order, keeping type, bonus and
    identifier; the cells left empty in the bottom six rows are filled
    with new panels without bonus; the rest of the state is unchanged.
    The calls of [Math.random] and the panel identifiers used are as many
    as the new panels: in each column, six less the panels it held, if it
    held fewer than six. *)
Theorem applyGravity_columns (mathRandom : nat -> Q) (drawn idc : nat)
    (s : PanelPuzzleState) :
  wf_grid (grid s) ->
  exists g' drawn' idc',
    applyGravity mathRandom drawn idc s
    = (mkPanelPuzzleState g' (score s) (combo s) (targetScore s)
         (timeRemaining s) (isAnimating s) (isGameOver s) (riseProgress s)
         (nextRow s) (selected s), drawn', idc') /\
    wf_grid g' /\
    (forall c, (c < GRID_COLS)%nat ->
       settledColumn c (colList (grid s) c) (colList g' c)) /\
    (forall c, (c < GRID_COLS)%nat ->
       List.length (panelsOf (colList g' c))
       = (List.length (panelsOf (colList (grid s) c)) + missing (grid s) c)%nat) /\
    drawn' = (drawn + spawned (grid s))%nat /\
    idc' = (idc + spawned (grid s))%nat.
Proof.
  intros Hwf.
  destruct (applyGravity_spec mathRandom drawn idc s Hwf)
    as (g' & drawn' & idc' & E & Hwf' & Hset & Hd & Hi).
  exists g', drawn', idc'. split; [exact E|]. split; [exact Hwf'|].
  split; [exact Hset|]. split; [|split; [exact Hd | exact Hi]].
  intros c Hc.
  destruct (Hset c Hc) as (fresh & fallen & Hcol & Hcore & Hlen & _).
  assert (Hn : List.length fallen
               = List.length (panelsOf (colList (grid s) c))).
  { rewrite <- (length_map core fallen), Hcore, length_map. reflexivity. }
  rewrite <- map_app in Hcol.
  rewrite Hcol, panelsOf_settled, length_app. unfold missing. lia.
Qed.

Lemma applyGravity_columns_witness :
  exists g' drawn' idc',
    applyGravity (fun _ => (1 # 2)%Q) 0 100 (sampleState gapGrid 0 None)
    = (sampleState g' 0 None, drawn', idc') /\
    wf_grid g' /\
    (forall c, (c < GRID_COLS)%nat ->
       settledColumn c (colList gapGrid c) (colList g' c)).
Proof.
  destruct (applyGravity_columns (fun _ => (1 # 2)%Q) 0 100
              (sampleState gapGrid 0 None) wf_gapGrid)
    as (g' & drawn' & idc' & E & Hwf & Hset & _).
  exists g', drawn', idc'. split; [exact E|]. split; [exact Hwf | exact Hset].
Defined.

(** X29. After [applyGravity] on a grid of 12 rows of 6 cells the bottom
    six rows are full and no panel has an empty cell below it; a column
    holds the panels it had, or six if it had fewer. *)
Theorem applyGravity_settles (mathRandom : nat -> Q) (drawn idc : nat)
    (s : PanelPuzzleState) :
  wf_grid (grid s) ->
  let g' := grid (fst (fst (applyGravity mathRandom drawn idc s))) in
  forall r c, (r < GRID_ROWS)%nat -> (c < GRID_COLS)%nat ->
    ((6 <= r)%nat -> cell g' (Z.of_nat r) (Z.of_nat c) <> None) /\
    (cell g' (Z.of_nat r) (Z.of_nat c) <> None -> (r + 1 < GRID_ROWS)%nat ->
     cell g' (Z.of_nat (r + 1)) (Z.of_nat c) <> None) /\
    List.length (panelsOf (colList g' c))
    = Nat.max 6 (List.length (panelsOf (colList (grid s) c))).
Proof.
  intros Hwf.
  destruct (applyGravity_spec mathRandom drawn idc s Hwf)
    as (g' & drawn' & idc' & E & Hwf' & Hset & _).
  rewrite E. cbn [fst grid]. intros r c Hr Hc.
  destruct (Hset c Hc) as (fresh & fallen & Hcol & Hcore & Hlen & Hle & _).
  assert (Hn : List.length fallen
               = List.length (panelsOf (colList (grid s) c))).
  { rewrite <- (length_map core fallen), Hcore, length_map. reflexivity. }
  rewrite <- map_app in Hcol.
  split; [|split].
  - intros H6. rewrite <- nth_colList by exact Hr.
    rewrite Hcol, nth_settled, length_app. unfold GRID_ROWS in *. lia.
  - intros H Hr1. rewrite <- nth_colList in H by exact Hr.
    rewrite <- nth_colList by exact Hr1.
    rewrite Hcol, nth_settled, length_app in *. unfold GRID_ROWS in *. lia.
  - rewrite Hcol, panelsOf_settled, length_app. unfold GRID_ROWS in *. lia.
Qed.

Lemma applyGravity_settles_witness :
  cell (grid (fst (fst (applyGravity (fun _ => (1 # 2)%Q) 0 100
                          (sampleState gapGrid 0 None)))))
    (Z.of_nat 6) (Z.of_nat 0) <> None.
Proof.
  apply (applyGravity_settles (fun _ => (1 # 2)%Q) 0 100
           (sampleState gapGrid 0 None) wf_gapGrid 6 0); unfold GRID_ROWS, GRID_COLS; lia.
Defined.

(* ================================================================== *)
(** * The timer                                                        *)
(* ================================================================== *)

Lemma tick_over minus s d : isGameOver s = true -> tick minus s d = s.
Proof. unfold tick. intros ->. reflexivity. Qed.

Lemma ticks_frame minus : forall ds s,
  grid (fold_left (tick minus) ds s) = grid s /\
  score (fold_left (tick minus) ds s) = score s /\
  combo (fold_left (tick minus) ds s) = combo s /\
  targetScore (fold_left (tick minus) ds s) = targetScore s /\
  selected (fold_left (tick minus) ds s) = selected s.
Proof.
  induction ds as [|d ds IH]; intros s; [repeat split|].
  cbn [fold_left]. destruct (IH (tick minus s d)) as (H1 & H2 & H3 & H4 & H5).
  rewrite H1, H2, H3, H4, H5. unfold tick.
  destruct (isGameOver s); repeat split.
Qed.

Lemma Qle_bool_false (x y : Q) : Qle_bool x y = false -> (y < x)%Q.
Proof.
  intros H. apply Qnot_le_lt. intros H'. apply Qle_bool_iff in H'. congruence.
Qed.

(** One tick ends a running game exactly when it is at least as long as
    the time remaining. *)
Lemma tick_ends minus s d :
  (forall x y, (minus x y <= 0)%Q <-> (x <= y)%Q) ->
  isGameOver s = false ->
  isGameOver (tick minus s d) = true <-> (timeRemaining s <= d)%Q.
Proof.
  intros Hsign Ho. unfold tick. rewrite Ho.
  destruct (Qle_bool (minus (timeRemaining s) d) 0) eqn:Ex;
    cbn [isGameOver].
  - split; [intros _|reflexivity].
    apply Hsign. apply Qle_bool_iff. exact Ex.
  - rewrite Ex. split; [discriminate|].
    intros H. apply Hsign in H. apply Qle_bool_iff in H. congruence.
Qed.

(** The clock between two ticks: the time remaining is between zero and
    [T], and it is zero exactly when the game is over. *)
Lemma tick_clock minus (T : Q) s d :
  (forall x y, (0 <= y)%Q -> (minus x y <= x)%Q) ->
  (0 <= d)%Q ->
  (0 <= timeRemaining s <= T)%Q /\
  (isGameOver s = true <-> (timeRemaining s == 0)%Q) ->
  (0 <= timeRemaining (tick minus s d) <= T)%Q /\
  (isGameOver (tick minus s d) = true <->
   (timeRemaining (tick minus s d) == 0)%Q).
Proof.
  intros Hmono Hd [Hr Hz]. unfold tick.
  destruct (isGameOver s) eqn:Eo.
  { split; [exact Hr|].
    split; [intros _; apply Hz; reflexivity | intros _; exact Eo]. }
  pose proof (Hmono (timeRemaining s) d Hd) as Hx.
  destruct (Qle_bool (minus (timeRemaining s) d) 0) eqn:Ex;
    cbn [isGameOver timeRemaining].
  - split; [lra|]. split; [intros _; lra | reflexivity].
  - rewrite Ex. apply Qle_bool_false in Ex.
    split; [lra|]. split; [discriminate | intros H; lra].
Qed.

Lemma ticks_clock minus (T : Q) :
  (forall x y, (0 <= y)%Q -> (minus x y <= x)%Q) ->
  forall ds s,
    Forall (fun d => (0 <= d)%Q) ds ->
    (0 <= timeRemaining s <= T)%Q /\
    (isGameOver s = true <-> (timeRemaining s == 0)%Q) ->
    (0 <= timeRemaining (fold_left (tick minus) ds s) <= T)%Q /\
    (isGameOver (fold_left (tick minus) ds s) = true <->
     (timeRemaining (fold_left (tick minus) ds s) == 0)%Q).
Proof.
  intros Hmono. induction ds as [|d ds IH]; intros s Hds H; [exact H|].
  inversion Hds as [|? ? Hd Hds']; subst. cbn [fold_left].
  apply IH; [exact Hds'|]. apply tick_clock; assumption.
Qed.

(** X30. The timer, whatever the rounding of the subtraction of doubles,
    of which only this is used: the difference is at most zero exactly
    when the exact one is, and subtracting a non-negative number does not
    give more.  One tick ends a running game exactly when it is at least
    as long as the time remaining.  Over ticks of non-negative length
    from a running game with time left, the time remaining never
    increases and never is negative; it is zero exactly when the game is
    over, so that the function [isGameOver] agrees with the flag; once
    the game is over further ticks change nothing; and no tick touches
    the grid, the score, the combo, the target or the selection. *)
Theorem tick_timer (minus : Q -> Q -> Q) (s : PanelPuzzleState)
    (deltas : list Q) :
  (forall x y, (minus x y <= 0)%Q <-> (x <= y)%Q) ->
  (forall x y, (0 <= y)%Q -> (minus x y <= x)%Q) ->
  isGameOver s = false ->
  (0 < timeRemaining s)%Q ->
  Forall (fun d => (0 <= d)%Q) deltas ->
  (forall d, isGameOver (tick minus s d) = true <-> (timeRemaining s <= d)%Q) /\
  (0 <= timeRemaining (fold_left (tick minus) deltas s)
   <= timeRemaining s)%Q /\
  (isGameOver (fold_left (tick minus) deltas s) = true <->
   (timeRemaining (fold_left (tick minus) deltas s) == 0)%Q) /\
  isGameOver_ (fold_left (tick minus) deltas s)
  = isGameOver (fold_left (tick minus) deltas s) /\
  (isGameOver (fold_left (tick minus) deltas s) = true ->
   forall d, tick minus (fold_left (tick minus) deltas s) d
             = fold_left (tick minus) deltas s) /\
  grid (fold_left (tick minus) deltas s) = grid s /\
  score (fold_left (tick minus) deltas s) = score s /\
  combo (fold_left (tick minus) deltas s) = combo s /\
  targetScore (fold_left (tick minus) deltas s) = targetScore s /\
  selected (fold_left (tick minus) deltas s) = selected s.
Proof.
  intros Hsign Hmono Ho Ht Hds.
  split; [intros d; apply tick_ends; assumption|].
  destruct (ticks_clock minus (timeRemaining s) Hmono deltas s Hds)
    as [Hr Hz].
  { split; [lra|]. rewrite Ho. split; [discriminate | intros H; lra]. }
  split; [exact Hr|]. split; [exact Hz|].
  split; [|split; [|apply ticks_frame]].
  - unfold isGameOver_.
    destruct (isGameOver (fold_left (tick minus) deltas s)) eqn:Eo;
      [reflexivity|]. cbn [orb].
    destruct (Qle_bool (timeRemaining (fold_left (tick minus) deltas s)) 0)
      eqn:Eq; [|reflexivity].
    apply Qle_bool_iff in Eq.
    assert (H0 : (timeRemaining (fold_left (tick minus) deltas s) == 0)%Q)
      by lra.
    apply Hz in H0. congruence.
  - intros H d. apply tick_over. exact H.
Qed.

Lemma tick_timer_witness :
  isGameOver (tick Qminus (sampleState emptyGrid 0 None) (70 # 1)%Q) = true.
Proof.
  apply (tick_timer Qminus (sampleState emptyGrid 0 None) [(20 # 1)%Q]).
  - intros x y. split; intros H; lra.
  - intros x y H. lra.
  - reflexivity.
  - reflexivity.
  - repeat constructor; discriminate.
  - vm_compute. discriminate.
Defined.

End PanelPuzzleMoves.
